(** * Memoized output of the React "Forget" compiler: a shallow embedding

    The repository's compiler fixtures pair a source function ("Input")
    with the function the compiler emits for it ("Code").  The emitted
    functions keep a per-call-site cache array [$], obtained from
    [useMemoCache(n)], and guard every reactive scope by a comparison of
    cache slots.  This development embeds the JavaScript of those
    fixtures as state-passing Rocq functions and proves the properties
    the specification states about them. *)

From Stdlib Require Import ZArith Ascii String List Bool Lia.
From stdpp Require Import base option list strings.

Open Scope string_scope.
Open Scope list_scope.

(** ** JavaScript values *)

(** Heap addresses. *)
Abbreviation loc := nat (only parsing).

(** The fixtures compare numbers and never compute with them ([+] is an
    operation the model takes as a parameter), so a number is one of
    three kinds: [VNum n], a number that is [===] to itself and to no
    other [VNum]; [VNegZero], the negative zero, which is [===] to
    [VNum 0], the positive zero, and yet another value ([Object.is],
    [1 / x]); and [VNaN], which is [===] to nothing.  [VSymFor k] is [Symbol.for(k)], a
    symbol of the global registry, which any code can obtain from its
    key; [VSymbol i] is the result of a call of [Symbol()]. *)
Inductive value : Type :=
| VUndefined
| VNull
| VBool (b : bool)
| VNaN
| VNum (n : Z)
| VNegZero
| VStr (s : string)
| VSymFor (key : string)
| VSymbol (id : nat)
| VRef (l : loc).

Global Instance value_eq_dec : EqDecision value.
Proof. solve_decision. Defined.

(** [a === b]. *)
Definition strict_eq (a b : value) : bool :=
  match a, b with
  | VUndefined, VUndefined => true
  | VNull, VNull => true
  | VBool x, VBool y => Bool.eqb x y
  | VNum x, VNum y => Z.eqb x y
  | VNum x, VNegZero => Z.eqb x 0
  | VNegZero, VNum y => Z.eqb 0 y
  | VNegZero, VNegZero => true
  | VStr x, VStr y => String.eqb x y
  | VSymFor x, VSymFor y => String.eqb x y
  | VSymbol x, VSymbol y => Nat.eqb x y
  | VRef x, VRef y => Nat.eqb x y
  | _, _ => false
  end.

(** [a !== b]. *)
Definition strict_ne (a b : value) : bool := negb (strict_eq a b).

(** [v == null]. *)
Definition loose_eq_null (v : value) : bool :=
  match v with
  | VUndefined | VNull => true
  | _ => false
  end.

(** ToBoolean, as used by [if (v)]. *)
Definition truthy (v : value) : bool :=
  match v with
  | VUndefined | VNull | VNaN | VNegZero => false
  | VBool b => b
  | VNum n => negb (Z.eqb n 0)
  | VStr s => negb (String.eqb s "")
  | VSymFor _ | VSymbol _ | VRef _ => true
  end.

(** [Symbol.for("react.memo_cache_sentinel")]. *)
Definition memo_cache_sentinel : value := VSymFor "react.memo_cache_sentinel".

(** [Symbol.for("react.early_return_sentinel")]. *)
Definition early_return_sentinel : value := VSymFor "react.early_return_sentinel".

(** ** Objects and the heap

    Objects are plain data: an array has elements, every object has its
    own properties in insertion order, a function object only has an
    identity (the embedding runs its body at the call site). *)
Inductive kind : Type :=
| KObject
| KArray
| KFunction (name : string).

Record obj : Type := Obj {
  obj_kind : kind;
  obj_elems : list value;
  obj_props : list (string * value)
}.

Global Instance kind_eq_dec : EqDecision kind.
Proof. solve_decision. Defined.

Global Instance obj_eq_dec : EqDecision obj.
Proof. solve_decision. Defined.

Fixpoint prop_lookup (k : string) (ps : list (string * value)) : option value :=
  match ps with
  | [] => None
  | (k', v) :: ps' => if String.eqb k k' then Some v else prop_lookup k ps'
  end.

(** Assignment keeps the position of an existing key and appends a new one. *)
Fixpoint prop_assign (k : string) (v : value) (ps : list (string * value))
  : list (string * value) :=
  match ps with
  | [] => [(k, v)]
  | (k', v') :: ps' =>
      if String.eqb k k' then (k, v) :: ps' else (k', v') :: prop_assign k v ps'
  end.

Definition prop_delete (k : string) (ps : list (string * value))
  : list (string * value) :=
  List.filter (fun kv => negb (String.eqb k (fst kv))) ps.

(** ** Machine state

    The heap and a world of type [W] (whatever state the functions of the
    environment keep) are what user code can reach.  The cache array of
    the call site and the trace of calls to imported functions are kept
    apart from it: no user code holds a reference to [$]. *)
Record store (W : Type) : Type := Store {
  heap : list obj;
  world : W
}.
Arguments Store {W} _ _.
Arguments heap {W} _.
Arguments world {W} _.

Inductive event : Type :=
| Called (callee : string) (args : list value).

Record machine (W : Type) : Type := Machine {
  st : store W;
  cache : option (list value);
  trace : list event
}.
Arguments Machine {W} _ _ _.
Arguments st {W} _.
Arguments cache {W} _.
Arguments trace {W} _.

Inductive exn : Type :=
| TypeError
| Thrown (v : value).

Inductive completion (A : Type) : Type :=
| Normal (a : A)
| Abrupt (e : exn).
Arguments Normal {A} _.
Arguments Abrupt {A} _.

(** The monad of the embedding: state passing with exceptions. *)
Definition M (W A : Type) : Type := machine W -> completion A * machine W.

Definition ret {W A} (a : A) : M W A := fun m => (Normal a, m).

Definition bind {W A B} (c : M W A) (k : A -> M W B) : M W B :=
  fun m =>
    match c m with
    | (Normal a, m') => k a m'
    | (Abrupt e, m') => (Abrupt e, m')
    end.

Definition throw {W A} (e : exn) : M W A := fun m => (Abrupt e, m).

(** [try { body } catch { handler }]. *)
Definition try_catch {W A} (body : M W A) (handler : M W A) : M W A :=
  fun m =>
    match body m with
    | (Normal a, m') => (Normal a, m')
    | (Abrupt _, m') => handler m'
    end.

Declare Scope js_scope.
Delimit Scope js_scope with js.
Notation "'let*' x ':=' c 'in' k" := (bind c (fun x => k))
  (at level 10, x name, c at level 100, k at level 200,
   format "'[v' 'let*'  x  ':='  c  'in' '/' k ']'") : js_scope.
Notation "c ';;' k" := (bind c (fun _ => k))
  (at level 100, k at level 200, right associativity) : js_scope.
Open Scope js_scope.

(** *** Heap operations *)

Definition set_heap {W} (h : list obj) (m : machine W) : machine W :=
  Machine (Store h (world (st m))) (cache m) (trace m).

Definition alloc {W} (o : obj) : M W value :=
  fun m => (Normal (VRef (length (heap (st m)))), set_heap (heap (st m) ++ [o]) m).

(** [[v1, ..., vn]] *)
Definition new_array {W} (vs : list value) : M W value :=
  alloc (Obj KArray vs []).

(** [{k1: v1, ..., kn: vn}] *)
Definition new_object {W} (ps : list (string * value)) : M W value :=
  alloc (Obj KObject [] ps).

(** [function name() {...}]: the function object. *)
Definition new_function {W} (name : string) : M W value :=
  alloc (Obj (KFunction name) [] []).

(** [v.k] *)
Definition get_prop {W} (v : value) (k : string) : M W value :=
  fun m =>
    match v with
    | VUndefined | VNull => (Abrupt TypeError, m)
    | VRef l =>
        match heap (st m) !! l with
        | Some o => (Normal (default VUndefined (prop_lookup k (obj_props o))), m)
        | None => (Normal VUndefined, m)
        end
    | _ => (Normal VUndefined, m)
    end.

(** [v.k = x] in strict mode (the fixtures are modules). *)
Definition set_prop {W} (v : value) (k : string) (x : value) : M W unit :=
  fun m =>
    match v with
    | VRef l =>
        match heap (st m) !! l with
        | Some o =>
            (Normal tt,
             set_heap (<[l := Obj (obj_kind o) (obj_elems o)
                                  (prop_assign k x (obj_props o))]> (heap (st m))) m)
        | None => (Abrupt TypeError, m)
        end
    | _ => (Abrupt TypeError, m)
    end.

(** [delete v.k] *)
Definition delete_prop {W} (v : value) (k : string) : M W unit :=
  fun m =>
    match v with
    | VUndefined | VNull => (Abrupt TypeError, m)
    | VRef l =>
        match heap (st m) !! l with
        | Some o =>
            (Normal tt,
             set_heap (<[l := Obj (obj_kind o) (obj_elems o)
                                  (prop_delete k (obj_props o))]> (heap (st m))) m)
        | None => (Normal tt, m)
        end
    | _ => (Normal tt, m)
    end.

(** [v.push(x)] on an array. *)
Definition array_push {W} (v : value) (x : value) : M W unit :=
  fun m =>
    match v with
    | VRef l =>
        match heap (st m) !! l with
        | Some (Obj KArray es ps) =>
            (Normal tt, set_heap (<[l := Obj KArray (es ++ [x]) ps]> (heap (st m))) m)
        | _ => (Abrupt TypeError, m)
        end
    | _ => (Abrupt TypeError, m)
    end.

(** [v[i]] on an array. *)
Definition array_get {W} (v : value) (i : nat) : M W value :=
  fun m =>
    match v with
    | VUndefined | VNull => (Abrupt TypeError, m)
    | VRef l =>
        match heap (st m) !! l with
        | Some o => (Normal (default VUndefined (obj_elems o !! i)), m)
        | None => (Normal VUndefined, m)
        end
    | _ => (Normal VUndefined, m)
    end.

Arguments get_prop {W} _ _ _ : simpl never.
Arguments set_prop {W} _ _ _ _ : simpl never.
Arguments delete_prop {W} _ _ _ : simpl never.
Arguments array_push {W} _ _ _ : simpl never.
Arguments array_get {W} _ _ _ : simpl never.

(** *** Imported functions

    A function of the environment ([someObj], [mutate], ...) is not part
    of the repository: it is a parameter, and may read and change
    everything user code can reach, or throw. *)
Definition extern (W : Type) : Type :=
  list value -> store W -> completion value * store W.

(** A call of an imported function, recorded in the trace. *)
Definition call {W} (name : string) (f : extern W) (args : list value) : M W value :=
  fun m =>
    let (r, s') := f args (st m) in
    (r, Machine s' (cache m) (trace m ++ [Called name args])).

(** *** The cache array *)

(** Modelled from the spec: the runtime's [useMemoCache(size)] is not in
    the sources.  The cache array belongs to one call site, survives
    across invocations, and starts with every slot holding the
    "uninitialized" sentinel. *)
Definition useMemoCache {W} (size : nat) : M W unit :=
  fun m =>
    match cache m with
    | Some _ => (Normal tt, m)
    | None => (Normal tt, Machine (st m) (Some (replicate size memo_cache_sentinel)) (trace m))
    end.

Definition slots {W} (m : machine W) : list value := default [] (cache m).

(** [$[i]]: reading past the end of an array gives [undefined]. *)
Definition slot_get {W} (i : nat) : M W value :=
  fun m => (Normal (default VUndefined (slots m !! i)), m).

(** [$[i] = v]: writing past the end of an array extends it. *)
Definition array_store (i : nat) (v : value) (c : list value) : list value :=
  if (i <? length c)%nat then <[i := v]> c
  else c ++ replicate (i - length c) VUndefined ++ [v].

Definition slot_set {W} (i : nat) (v : value) : M W unit :=
  fun m => (Normal tt, Machine (st m) (Some (array_store i v (slots m))) (trace m)).

(** An operator such as [+] runs user code when an operand is an object
    ([valueOf], [toString]); it is applied like an imported function,
    without an entry in the trace. *)
Definition apply_op {W} (f : extern W) (args : list value) : M W value :=
  fun m =>
    let (r, s') := f args (st m) in
    (r, Machine s' (cache m) (trace m)).

(** ** The fixtures

    One module per fixture function; [_input] is the function under
    "## Input", [_code] the one under "## Code". *)

(** fixtures/compiler/labeled-break-within-label-switch.expect.md *)
Module LabeledBreakWithinLabelSwitch.

Definition useHook_input {W} (CONST_STRING0 : value) (cond : value) : M W value :=
  let* log := new_array [] in
  (if strict_eq CONST_STRING0 CONST_STRING0 then
     array_push log (VStr "@A");;
     (if truthy cond then ret tt (* break bb0 *)
      else array_push log (VStr "@B"));;
     array_push log (VStr "@C")
   else ret tt);;
  ret log.

Definition useHook_code {W} (CONST_STRING0 : value) (cond : value) : M W value :=
  useMemoCache 2;;
  let* c0 := slot_get 0 in
  if strict_ne c0 cond then
    let* log := new_array [] in
    (if strict_eq CONST_STRING0 CONST_STRING0 then
       array_push log (VStr "@A");;
       (if truthy cond then ret tt (* break bb3 *)
        else array_push log (VStr "@B"));;
       array_push log (VStr "@C")
     else ret tt);;
    slot_set 0 cond;;
    slot_set 1 log;;
    ret log
  else
    slot_get 1.

End LabeledBreakWithinLabelSwitch.

(** unnamed/part_000, first fixture: [useFoo] calls the hook [useNoAlias]. *)
Module HookCallUseNoAlias.

Definition useFoo_input {W} (plus useNoAlias : extern W) (value1 value2 : value)
  : M W value :=
  let* s := apply_op plus [value1; value2] in
  let* t := call "useNoAlias" useNoAlias [s] in
  new_object [("value", t)].

Definition useFoo_code {W} (plus useNoAlias : extern W) (value1 value2 : value)
  : M W value :=
  useMemoCache 2;;
  let* s := apply_op plus [value1; value2] in
  let* t0 := call "useNoAlias" useNoAlias [s] in
  let* c0 := slot_get 0 in
  if strict_ne c0 t0 then
    let* t1 := new_object [("value", t0)] in
    slot_set 0 t0;;
    slot_set 1 t1;;
    ret t1
  else
    slot_get 1.

End HookCallUseNoAlias.

(** fixtures/compiler/obj-mutated-after-if-else-with-alias.expect.md *)
Module ObjMutatedAfterIfElseWithAlias.

Definition foo_input {W} (someObj : extern W) (a b c d : value) : M W value :=
  let* x0 := call "someObj" someObj [] in
  let* x := (if truthy a then
               let* y := call "someObj" someObj [] in
               let z := y in
               ret z
             else call "someObj" someObj []) in
  set_prop x "f" (VNum 1);;
  ret x.

Definition foo_code {W} (someObj : extern W) (a b c d : value) : M W value :=
  useMemoCache 2;;
  call "someObj" someObj [];;
  let* c0 := slot_get 0 in
  if strict_ne c0 a then
    let* x := (if truthy a then
                 let* y := call "someObj" someObj [] in
                 let z := y in
                 ret z
               else call "someObj" someObj []) in
    set_prop x "f" (VNum 1);;
    slot_set 0 a;;
    slot_set 1 x;;
    ret x
  else
    slot_get 1.

End ObjMutatedAfterIfElseWithAlias.

(** unnamed/part_002, third fixture: a [do ... while] left by [break]. *)
Module DoWhileBreak.

Definition Component_input {W} (mutate : extern W) (props : value) : M W value :=
  let* x := new_array [VNum 1; VNum 2; VNum 3] in
  (* do { mutate(x); break; } while (props.cond) *)
  call "mutate" mutate [x];;
  ret x.

Definition Component_code {W} (mutate : extern W) (props : value) : M W value :=
  useMemoCache 1;;
  let* c0 := slot_get 0 in
  if strict_eq c0 memo_cache_sentinel then
    let* x := new_array [VNum 1; VNum 2; VNum 3] in
    call "mutate" mutate [x];;
    slot_set 0 x;;
    ret x
  else
    slot_get 0.

End DoWhileBreak.

(** fixtures/compiler/try-catch-with-return.expect.md, first fixture *)
Module TryCatchWithReturn.

(** The [try] statement either returns from the function ([Some v]) or
    falls through to the statement after it ([None]). *)
Definition Component_input {W} (shallowCopy throwInput : extern W) (props : value)
  : M W value :=
  let* x := new_array [] in
  let* r := try_catch
              (let* o := new_object [] in
               let* y := call "shallowCopy" shallowCopy [o] in
               if loose_eq_null y then ret (Some VUndefined)
               else
                 let* t := call "throwInput" throwInput [y] in
                 array_push x t;;
                 ret None)
              (ret (Some VNull)) in
  match r with
  | Some v => ret v
  | None => ret x
  end.

(** The labelled block [bb26] yields the value [t0] has when control
    leaves it. *)
Definition Component_code {W} (shallowCopy throwInput : extern W) (props : value)
  : M W value :=
  useMemoCache 2;;
  let* c0 := slot_get 0 in
  let* xt := (if strict_eq c0 memo_cache_sentinel then
                let* x := new_array [] in
                let* t0 := try_catch
                             (let* o := new_object [] in
                              let* y := call "shallowCopy" shallowCopy [o] in
                              if loose_eq_null y then ret VUndefined
                              else
                                let* t := call "throwInput" throwInput [y] in
                                array_push x t;;
                                ret early_return_sentinel)
                             (ret VNull) in
                slot_set 0 x;;
                slot_set 1 t0;;
                ret (x, t0)
              else
                let* x := slot_get 0 in
                let* t0 := slot_get 1 in
                ret (x, t0)) in
  if strict_ne (snd xt) early_return_sentinel then ret (snd xt)
  else ret (fst xt).

End TryCatchWithReturn.

(** fixtures/compiler/hoisting-within-lambda.expect.md, second fixture *)
Module DeleteProperty.

Definition Component_input {W} (props : value) : M W value :=
  let* pa := get_prop props "a" in
  let* pb := get_prop props "b" in
  let* x := new_object [("a", pa); ("b", pb)] in
  delete_prop x "b";;
  ret x.

Definition Component_code {W} (props : value) : M W value :=
  useMemoCache 3;;
  let* changed := (let* c0 := slot_get 0 in
                   let* pa := get_prop props "a" in
                   if strict_ne c0 pa then ret true
                   else
                     let* c1 := slot_get 1 in
                     let* pb := get_prop props "b" in
                     ret (strict_ne c1 pb)) in
  if (changed : bool) then
    let* pa := get_prop props "a" in
    let* pb := get_prop props "b" in
    let* x := new_object [("a", pa); ("b", pb)] in
    delete_prop x "b";;
    let* pa' := get_prop props "a" in
    slot_set 0 pa';;
    let* pb' := get_prop props "b" in
    slot_set 1 pb';;
    slot_set 2 x;;
    ret x
  else
    slot_get 2.

End DeleteProperty.

(** fixtures/compiler/capture_mutate-across-fns.expect.md *)
Module CaptureMutateAcrossFns.

(** [f0()] runs [f1()], which runs [z.b = 1]. *)
Definition component_input {W} (a : value) : M W value :=
  let* z := new_object [("a", a)] in
  let* f0 := new_function "f0" in
  (let* f1 := new_function "f1" in
   set_prop z "b" (VNum 1));;
  ret z.

Definition component_code {W} (a : value) : M W value :=
  useMemoCache 2;;
  let* c0 := slot_get 0 in
  if strict_ne c0 a then
    let* z := new_object [("a", a)] in
    let* f0 := new_function "f0" in
    (let* f1 := new_function "f1" in
     set_prop z "b" (VNum 1));;
    slot_set 0 a;;
    slot_set 1 z;;
    ret z
  else
    slot_get 1.

End CaptureMutateAcrossFns.

(** fixtures/compiler/capturing-function-alias-computed-load.expect.md *)
Module CapturingFunctionAliasComputedLoad.

(** [f0()] runs [y = x[0]] on the captured variables. *)
Definition bar_input {W} (a : value) : M W value :=
  let* x := new_array [a] in
  let* y0 := new_object [] in
  let* f0 := new_function "f0" in
  let* y := array_get x 0 in
  ret y.

Definition bar_code {W} (a : value) : M W value :=
  useMemoCache 2;;
  let* c0 := slot_get 0 in
  if strict_ne c0 a then
    let* x := new_array [a] in
    let* y0 := new_object [] in
    let* f0 := new_function "f0" in
    let* y := array_get x 0 in
    slot_set 0 a;;
    slot_set 1 y;;
    ret y
  else
    slot_get 1.

End CapturingFunctionAliasComputedLoad.

(** fixtures/compiler/useMemo-maybe-modified-later-preserve-memoization-guarantees.expect.md
    (compiled with [@enablePreserveExistingMemoizationGuarantees]) and
    the second fixture of fixtures/compiler/capturing-function-decl.expect.md
    (the same input compiled with the flag set to [false]). *)
Module UseMemoMaybeModifiedLater.

Definition Component_code_preserve {W} (makeObject_Primitives identity : extern W)
  (props : value) : M W value :=
  useMemoCache 1;;
  let* c0 := slot_get 0 in
  let* t1 := (if strict_eq c0 memo_cache_sentinel then
                let* t1 := call "makeObject_Primitives" makeObject_Primitives [] in
                slot_set 0 t1;;
                ret t1
              else slot_get 0) in
  let t0 := t1 in
  let object := t0 in
  call "identity" identity [object];;
  ret object.

Definition Component_code_no_preserve {W} (makeObject_Primitives identity : extern W)
  (props : value) : M W value :=
  useMemoCache 2;;
  let* c0 := slot_get 0 in
  let* object := (if strict_eq c0 memo_cache_sentinel then
                    let* t7 := call "makeObject_Primitives" makeObject_Primitives [] in
                    let object := t7 in
                    call "identity" identity [object];;
                    slot_set 0 object;;
                    slot_set 1 t7;;
                    ret object
                  else
                    let* object := slot_get 0 in
                    let* t7 := slot_get 1 in
                    ret object) in
  ret object.

(** The output of the compiler for this input, by the value of
    [enablePreserveExistingMemoizationGuarantees]. *)
Definition Component_code {W} (enablePreserveExistingMemoizationGuarantees : bool)
  : extern W -> extern W -> value -> M W value :=
  if enablePreserveExistingMemoizationGuarantees
  then Component_code_preserve
  else Component_code_no_preserve.

End UseMemoMaybeModifiedLater.

(** unnamed/part_001: [useFoo], whose [useCallback] the compiler replaced
    by two reactive scopes.  The arrow function [() => sum(...val)] is
    only created here, not called. *)
Module UseCallbackOverArray.

Definition useFoo_code {W} : M W value :=
  useMemoCache 2;;
  let* c0 := slot_get 0 in
  let* t0 := (if strict_eq c0 memo_cache_sentinel then
                let* t0 := new_array [VNum 1; VNum 2; VNum 3] in
                slot_set 0 t0;;
                ret t0
              else slot_get 0) in
  let val := t0 in
  let* c1 := slot_get 1 in
  let* t1 := (if strict_eq c1 memo_cache_sentinel then
                let* t1 := new_function "t1" in
                slot_set 1 t1;;
                ret t1
              else slot_get 1) in
  ret t1.

End UseCallbackOverArray.

(** ** Invocations and what a caller observes *)

(** The machine before the first invocation: no cache array yet, empty trace. *)
Definition boot {W} (s : store W) : machine W := Machine s None [].

(** A returned value as the caller sees it: a primitive by its value, an
    object by its kind, elements and properties (the address of a fresh
    object differs from run to run and is not compared). *)
Inductive view : Type :=
| Prim (v : value)
| Object (o : obj).

Definition view_of (h : list obj) (v : value) : view :=
  match v with
  | VRef l =>
      match h !! l with
      | Some o => Object o
      | None => Prim v
      end
  | _ => Prim v
  end.

Definition observe {W} (r : completion value * machine W) : completion view :=
  match fst r with
  | Normal v => Normal (view_of (heap (st (snd r))) v)
  | Abrupt e => Abrupt e
  end.

(** The function invoked once per element of [args], on the machine the
    previous invocation left. *)
Fixpoint invoke_all {W A} (f : A -> M W value) (args : list A) (m : machine W)
  : list (completion view) * machine W :=
  match args with
  | [] => ([], m)
  | a :: rest =>
      let r := f a m in
      let (os, m') := invoke_all f rest (snd r) in
      (observe r :: os, m')
  end.

(** The observable behaviour of a run: what every invocation returned or
    threw, and the calls of imported functions in order. *)
Definition behaviour {W A} (f : A -> M W value) (args : list A) (s : store W)
  : list (completion view) * list event :=
  let (os, m) := invoke_all f args (boot s) in (os, trace m).

(** What the invocations of a run returned or threw. *)
Definition results {W A} (f : A -> M W value) (args : list A) (s : store W)
  : list (completion view) :=
  fst (behaviour f args s).

(** The function invoked once per element of [args]; the completions as
    they are, and the machine after the last invocation. *)
Fixpoint run_all {W A} (f : A -> M W value) (args : list A) (m : machine W)
  : list (completion value) * machine W :=
  match args with
  | [] => ([], m)
  | a :: rest =>
      let r := f a m in
      let (rs, m') := run_all f rest (snd r) in
      (fst r :: rs, m')
  end.

(** ** The cache array between invocations *)

(** The machine with another cache array. *)
Definition set_cache {W} (c : option (list value)) (m : machine W) : machine W :=
  Machine (st m) c (trace m).

(** The cache array a compiled function works on: the one of the call
    site, or a fresh one of [size] sentinels on the first invocation. *)
Definition cache_of {W} (size : nat) (m : machine W) : list value :=
  default (replicate size memo_cache_sentinel) (cache m).

(** A computation that does not touch the cache array: user code, which
    holds no reference to [$]. *)
Definition cache_blind {W A} (c : M W A) : Prop :=
  forall k m, c (set_cache k m) = (fst (c m), set_cache k (snd (c m))).

(** ** Parts of the fixtures *)

(** The elements of [log] when [useHook] returns it. *)
Definition useHook_log (CONST_STRING0 cond : value) : list value :=
  if strict_eq CONST_STRING0 CONST_STRING0 then
    [VStr "@A"] ++ (if truthy cond then [] else [VStr "@B"]) ++ [VStr "@C"]
  else [].

(** The statement [const t0 = useNoAlias(value1 + value2)] of [useFoo],
    which the compiled function keeps in front of its reactive scope. *)
Definition useFoo_hook_call {W} (plus useNoAlias : extern W) (value1 value2 : value)
  : M W value :=
  let* s := apply_op plus [value1; value2] in
  call "useNoAlias" useNoAlias [s].

(** The reactive scope of [foo]: the statements between the test of the
    cache and the stores into it. *)
Definition foo_scope {W} (someObj : extern W) (a : value) : M W value :=
  let* x := (if truthy a then
               let* y := call "someObj" someObj [] in
               let z := y in
               ret z
             else call "someObj" someObj []) in
  set_prop x "f" (VNum 1);;
  ret x.

(** The reactive scope of the [do ... while] fixture. *)
Definition doWhile_scope {W} (mutate : extern W) : M W value :=
  let* x := new_array [VNum 1; VNum 2; VNum 3] in
  call "mutate" mutate [x];;
  ret x.

(** The [try] block of the compiled [Component] of try-catch-with-return;
    its value is the value [t0] has when control leaves the labelled
    block. *)
Definition tryCatch_block {W} (shallowCopy throwInput : extern W) (x : value)
  : M W value :=
  let* o := new_object [] in
  let* y := call "shallowCopy" shallowCopy [o] in
  if loose_eq_null y then ret VUndefined
  else
    let* t := call "throwInput" throwInput [y] in
    array_push x t;;
    ret early_return_sentinel.

(** The reactive scope of that function: it yields [x] and [t0]. *)
Definition tryCatch_scope {W} (shallowCopy throwInput : extern W)
  : M W (value * value) :=
  let* x := new_array [] in
  let* t0 := try_catch (tryCatch_block shallowCopy throwInput x) (ret VNull) in
  ret (x, t0).

(** What the function returns for given [x] and [t0]. *)
Definition early_return (x t0 : value) : value :=
  if strict_ne t0 early_return_sentinel then t0 else x.

(** ** Heaps and imported functions *)

(** The value of [v.k] in heap [h], for [v] other than [null] and
    [undefined]. *)
Definition prop_of (h : list obj) (v : value) (k : string) : value :=
  match v with
  | VRef l =>
      match h !! l with
      | Some o => default VUndefined (prop_lookup k (obj_props o))
      | None => VUndefined
      end
  | _ => VUndefined
  end.

(** A value of a program running on heap [h]: a reference points to an
    allocated object. *)
Definition valid_value (h : list obj) (v : value) : Prop :=
  match v with
  | VRef l => l < length h
  | _ => True
  end.

(** [o] after [o.k = x]. *)
Definition with_prop (k : string) (x : value) (o : obj) : obj :=
  Obj (obj_kind o) (obj_elems o) (prop_assign k x (obj_props o)).

(** An imported function that keeps its state in the world only: it
    neither reads nor changes the heap. *)
Definition world_only {W} (f : extern W) : Prop :=
  exists g : list value -> W -> completion value * W,
    forall args s, f args s = (fst (g args (world s)), Store (heap s) (snd (g args (world s)))).

(** A pure constructor: an imported function that returns a new object
    with the contents of [o] and does nothing else. *)
Definition allocates {W} (o : obj) (f : extern W) : Prop :=
  forall args s,
    f args s = (Normal (VRef (length (heap s))), Store (heap s ++ [o]) (world s)).

(** ** Invariants of the cache *)

(** The cache of [useHook] between invocations: untouched, or the
    argument of one invocation together with the array it built. *)
Definition useHook_cache_ok {W} (CONST_STRING0 : value) (m : machine W) : Prop :=
  cache_of 2 m = [memo_cache_sentinel; memo_cache_sentinel]
  \/ exists c l,
       cache_of 2 m = [c; VRef l]
       /\ heap (st m) !! l = Some (Obj KArray (useHook_log CONST_STRING0 c) []).

(** The cache of [useFoo] between invocations: untouched, or a result of
    the hook, which is not the negative zero, together with the object
    built from it. *)
Definition useFoo_cache_ok {W} (m : machine W) : Prop :=
  cache_of 2 m = [memo_cache_sentinel; memo_cache_sentinel]
  \/ exists t l,
       cache_of 2 m = [t; VRef l]
       /\ t <> VNegZero
       /\ heap (st m) !! l = Some (Obj KObject [] [("value", t)]).

(** The input function and the compiled function of [useFoo] after the
    same invocations: same world, same trace, and a consistent cache. *)
Definition useFoo_related {W} (m1 m2 : machine W) : Prop :=
  world (st m1) = world (st m2) /\ trace m1 = trace m2 /\ useFoo_cache_ok m2.

(** The cache of [foo] between invocations, when [someObj] constructs
    copies of [o]: untouched, or an argument together with an object
    [foo] returned. *)
Definition foo_cache_ok {W} (o : obj) (m : machine W) : Prop :=
  cache_of 2 m = [memo_cache_sentinel; memo_cache_sentinel]
  \/ exists a l,
       cache_of 2 m = [a; VRef l]
       /\ heap (st m) !! l = Some (with_prop "f" (VNum 1) o).

(** ** Slots and scopes

    The slots of a reactive scope, given by what a run of its body
    stores: the snapshots of its dependencies, then its outputs. *)
Definition scope_values : Type := list value * list value.

(** The cache array laid out scope after scope. *)
Definition scope_layout (scopes : list scope_values) : list value :=
  flat_map (fun s => fst s ++ snd s) scopes.

(** One slot per dependency and one per output, summed over the scopes. *)
Definition slot_total (scopes : list scope_values) : nat :=
  list_sum (map (fun s => length (fst s) + length (snd s)) scopes).

(** ** The specification's wording, where the code departs from it *)

(** The specification's wording of the dispatch rule, on [foo]: the
    scope body runs whenever slot 0 differs from [a] or holds the
    "uninitialized" sentinel.  The body starts with a call of [someObj],
    so an invocation that runs it leaves the trace the body leaves. *)
Definition foo_scope_runs_as_stated : Prop :=
  forall (W : Type) (someObj : extern W) (a b c d u : value) (m m1 : machine W),
    call "someObj" someObj [] m = (Normal u, m1) ->
    strict_ne (default VUndefined (cache_of 2 m !! 0)) a = true
    \/ default VUndefined (cache_of 2 m !! 0) = memo_cache_sentinel ->
    trace (snd (ObjMutatedAfterIfElseWithAlias.foo_code someObj a b c d m))
    = trace (snd (foo_scope someObj a m1)).

(** The specification's wording of the sentinel invariant: no program
    value compares equal to a sentinel. *)
Definition sentinels_disjoint_as_stated : Prop :=
  forall v : value,
    strict_eq v memo_cache_sentinel = false
    /\ strict_eq v early_return_sentinel = false.


(** ** Sample environments

    Concrete imported functions, used where a statement is evaluated on
    an explicit input. *)

(** A function that returns [v] and changes nothing. *)
Definition returns {W} (v : value) : extern W :=
  fun _ s => (Normal v, s).

(** A function that returns a new empty object on every call. *)
Definition fresh_object {W} : extern W :=
  fun _ s => (Normal (VRef (length (heap s))), Store (heap s ++ [Obj KObject [] []]) (world s)).

(** A function that throws its first argument. *)
Definition throws_argument {W} : extern W :=
  fun args s => (Abrupt (Thrown (hd VUndefined args)), s).

(** A function that returns its first argument. *)
Definition returns_argument {W} : extern W :=
  fun args s => (Normal (hd VUndefined args), s).

(** A function that counts its calls in the world and returns the count. *)
Definition counter : extern nat :=
  fun _ s => (Normal (VNum (Z.of_nat (world s))), Store (heap s) (S (world s))).

(** A function with a visible effect: it numbers the objects it returns. *)
Definition numbered_object : extern nat :=
  fun _ s =>
    (Normal (VRef (length (heap s))),
     Store (heap s ++ [Obj KObject [] [("id", VNum (Z.of_nat (world s)))]]) (S (world s))).

(** The empty store. *)
Definition empty_store : store unit := Store [] tt.

(** ** Further operations and fixtures *)

(** [f(args)] for a value [f] read from an object: a [TypeError] unless
    [f] is a function object.  The code of such a function is not in the
    function that calls it: it belongs to the environment, which gets
    the function object in front of the arguments. *)
Definition call_value {W} (invoke : extern W) (f : value) (args : list value)
  : M W value :=
  fun m =>
    match f with
    | VRef l =>
        match heap (st m) !! l with
        | Some (Obj (KFunction name) _ _) => call name invoke (f :: args) m
        | _ => (Abrupt TypeError, m)
        end
    | _ => (Abrupt TypeError, m)
    end.

(** [v.k(args)]: the method is read from [v] and called on [v]. *)
Definition call_method {W} (invoke : extern W) (v : value) (k : string)
  (args : list value) : M W value :=
  let* f := get_prop v k in
  call_value invoke f (v :: args).

(** [f(...)] for a local variable [f] that holds a function the
    surrounding function created (by a function expression, or read back
    from the cache slot that keeps it); [body] is the code of that
    function with its arguments filled in.  A [TypeError] unless [f] is a
    function object. *)
Definition call_closure {W A} (f : value) (body : M W A) : M W A :=
  fun m =>
    match f with
    | VRef l =>
        match heap (st m) !! l with
        | Some (Obj (KFunction _) _ _) => body m
        | _ => (Abrupt TypeError, m)
        end
    | _ => (Abrupt TypeError, m)
    end.

(** A string is kept as the bytes of its UTF-8 encoding.  The string
    iterator yields code points: the first byte of a character tells
    how many bytes the character has. *)
Definition code_point_length (c : ascii) : nat :=
  let n := nat_of_ascii c in
  if (n <? 192)%nat then 1
  else if (n <? 224)%nat then 2
  else if (n <? 240)%nat then 3
  else 4.

(** The first character of a string, as the string iterator yields it. *)
Definition first_character (s : string) : value :=
  match s with
  | EmptyString => VUndefined
  | String c _ => VStr (substring 0 (code_point_length c) s)
  end.

(** The array pattern [[x] = v] on heap [h]: the first value the
    iterator of [v] yields, [undefined] when it yields none.  Arrays and
    strings are the iterable values of the embedding; anything else is a
    [TypeError]. *)
Definition first_of (h : list obj) (v : value) : completion value :=
  match v with
  | VRef l =>
      match h !! l with
      | Some (Obj KArray es _) => Normal (default VUndefined (es !! 0))
      | _ => Abrupt TypeError
      end
  | VStr s => Normal (first_character s)
  | _ => Abrupt TypeError
  end.

Definition array_first {W} (v : value) : M W value :=
  fun m => (first_of (heap (st m)) v, m).

(** The object pattern [{} = v]: nothing is bound, but [v] must not be
    [null] or [undefined]. *)
Definition require_object_coercible {W} (v : value) : M W unit :=
  if loose_eq_null v then throw TypeError else ret tt.

Arguments call_value {W} _ _ _ _ : simpl never.
Arguments call_closure {W A} _ _ _ : simpl never.
Arguments array_first {W} _ _ : simpl never.

(** unnamed/part_000, second fixture: [component], whose function [x] has
    a reactive scope of its own inside the scope of [t].  [invoke] runs
    the function objects of the environment. *)
Module FunctionInNestedScope.

(** The declaration of [x] is hoisted: its function object exists when
    the body starts.  [x(t)] runs [p.foo()] with [p = t]. *)
Definition component_input {W} (invoke : extern W) (a : value) : M W value :=
  let* x := new_function "x" in
  let* t := new_object [("a", a)] in
  call_closure x (call_method invoke t "foo" []);;
  ret t.

Definition component_code {W} (invoke : extern W) (a : value) : M W value :=
  useMemoCache 3;;
  let* c0 := slot_get 0 in
  if strict_ne c0 a then
    let* t := new_object [("a", a)] in
    let* c2 := slot_get 2 in
    let* t0 := (if strict_eq c2 memo_cache_sentinel then
                  let* t0 := new_function "x" in
                  slot_set 2 t0;;
                  ret t0
                else slot_get 2) in
    let x := t0 in
    call_closure x (call_method invoke t "foo" []);;
    slot_set 0 a;;
    slot_set 1 t;;
    ret t
  else
    slot_get 1.

End FunctionInNestedScope.

(** fixtures/compiler/capturing-function-decl.expect.md, first fixture:
    [component], whose function [x] calls [t.foo()] on the captured
    [t]. *)
Module CapturingFunctionDecl.

Definition component_input {W} (invoke : extern W) (a : value) : M W value :=
  let* x := new_function "x" in
  let* t := new_object [("a", a)] in
  call_closure x (call_method invoke t "foo" []);;
  ret t.

Definition component_code {W} (invoke : extern W) (a : value) : M W value :=
  useMemoCache 2;;
  let* c0 := slot_get 0 in
  if strict_ne c0 a then
    let* t := new_object [("a", a)] in
    let* x := new_function "x" in
    call_closure x (call_method invoke t "foo" []);;
    slot_set 0 a;;
    slot_set 1 t;;
    ret t
  else
    slot_get 1.

End CapturingFunctionDecl.

(** fixtures/compiler/try-catch-with-return.expect.md, second fixture:
    [const [[x] = ["default"]] = props.y]. *)
Module DestructuringDefault.

Definition Component_input {W} (props : value) : M W value :=
  let* y := get_prop props "y" in
  let* e := array_first y in
  let* d := (if strict_eq e VUndefined then new_array [VStr "default"] else ret e) in
  let* x := array_first d in
  ret x.

Definition Component_code {W} (props : value) : M W value :=
  useMemoCache 2;;
  let* y := get_prop props "y" in
  let* t0 := array_first y in
  let* c0 := slot_get 0 in
  let* t1 := (if strict_ne c0 t0 then
                let* t1 := (if strict_eq t0 VUndefined then new_array [VStr "default"]
                            else ret t0) in
                slot_set 0 t0;;
                slot_set 1 t1;;
                ret t1
              else slot_get 1) in
  let* x := array_first t1 in
  ret x.

End DestructuringDefault.

(** fixtures/compiler/hoisting-within-lambda.expect.md, first fixture.
    The element [<div>{outer()}</div>] is built by the JSX runtime, which
    is not in the sources: [jsx] gets the tag and the child. *)
Module HoistingWithinLambda.

(** The body of [outer]: it creates [inner], binds [x] and returns
    [inner()], which reads [x]. *)
Definition outer {W} : M W value :=
  let* inner := new_function "inner" in
  let x := VNum 3 in
  ret x.

Definition Component_input {W} (jsx : extern W) (arg : value) : M W value :=
  require_object_coercible arg;;
  let* f := new_function "outer" in
  let* child := call_closure f outer in
  call "jsx" jsx [VStr "div"; child].

Definition Component_code {W} (jsx : extern W) (t0 : value) : M W value :=
  useMemoCache 2;;
  let* c0 := slot_get 0 in
  let* t1 := (if strict_eq c0 memo_cache_sentinel then
                let* t1 := new_function "t1" in
                slot_set 0 t1;;
                ret t1
              else slot_get 0) in
  let f := t1 in
  let* c1 := slot_get 1 in
  let* t2 := (if strict_eq c1 memo_cache_sentinel then
                let* child := call_closure f outer in
                let* t2 := call "jsx" jsx [VStr "div"; child] in
                slot_set 1 t2;;
                ret t2
              else slot_get 1) in
  ret t2.

End HoistingWithinLambda.

(** unnamed/part_002, first fixture: [Component] reads the state of the
    hook [useState]. *)
Module UseStateFixture.

Definition Component_input {W} (useState : extern W) (props : value) : M W value :=
  let* r := call "useState" useState [VNull] in
  let* state := array_first r in
  new_array [state].

Definition Component_code {W} (useState : extern W) (props : value) : M W value :=
  useMemoCache 2;;
  let* r := call "useState" useState [VNull] in
  let* state := array_first r in
  let* c0 := slot_get 0 in
  if strict_ne c0 state then
    let* t0 := new_array [state] in
    slot_set 0 state;;
    slot_set 1 t0;;
    ret t0
  else
    slot_get 1.

End UseStateFixture.

(** unnamed/part_002, second fixture: [useFoo] compiled with
    [@enableEmitFreeze @instrumentForget].  [__DEV__] is the build
    constant, [shouldInstrument] the value imported under that name. *)
Module EmitFreezeInstrumentForget.

Definition useFoo_input {W} (foo : extern W) (props : value) : M W value :=
  let* px := get_prop props "x" in
  call "foo" foo [px].

Definition useFoo_code {W} (__DEV__ : bool) (shouldInstrument : value)
  (useRenderCounter makeReadOnly foo : extern W) (props : value) : M W value :=
  (if __DEV__ && truthy shouldInstrument then
     call "useRenderCounter" useRenderCounter
          [VStr "useFoo"; VStr "/codegen-emit-imports-same-source.ts"];;
     ret tt
   else ret tt);;
  useMemoCache 2;;
  let* c0 := slot_get 0 in
  let* px := get_prop props "x" in
  if strict_ne c0 px then
    let* px1 := get_prop props "x" in
    let* t0 := call "foo" foo [px1] in
    let* px2 := get_prop props "x" in
    slot_set 0 px2;;
    let* frozen := (if __DEV__ then call "makeReadOnly" makeReadOnly [t0; VStr "useFoo"]
                    else ret t0) in
    slot_set 1 frozen;;
    ret t0
  else
    slot_get 1.

End EmitFreezeInstrumentForget.

(** ** Heaps of programs *)

(** The values an object holds. *)
Definition stored_values (o : obj) : list value :=
  obj_elems o ++ map snd (obj_props o).

(** The heap of a program that never obtained the sentinel of the cache:
    every value an object holds is a value of the heap, and is not the
    sentinel. *)
Definition program_heap (h : list obj) : Prop :=
  Forall (fun o => Forall (fun v => valid_value h v /\ v <> memo_cache_sentinel)
                          (stored_values o)) h.

(** The array [["default"]] of the destructuring fixture. *)
Definition default_array : obj := Obj KArray [VStr "default"] [].

(** The cache of [Component] of the destructuring fixture between
    invocations: untouched, or the first element of [props.y] together
    with the array the inner pattern is matched against. *)
Definition destructuring_cache_ok {W} (m : machine W) : Prop :=
  cache_of 2 m = [memo_cache_sentinel; memo_cache_sentinel]
  \/ exists t0 t1,
       cache_of 2 m = [t0; t1]
       /\ if strict_eq t0 VUndefined
          then exists l, t1 = VRef l /\ heap (st m) !! l = Some default_array
          else t1 = t0.

(** The input function and the compiled function of that fixture after
    the same invocations on heap [h0]: both heaps extend [h0]. *)
Definition destructuring_related {W} (h0 : list obj) (m1 m2 : machine W) : Prop :=
  h0 `prefix_of` heap (st m1)
  /\ h0 `prefix_of` heap (st m2)
  /\ destructuring_cache_ok m2.

(** The first statement of the compiled [useFoo] of the emit-freeze
    fixture: [if (__DEV__ && shouldInstrument) useRenderCounter(...)]. *)
Definition useFoo_instrumentation {W} (__DEV__ : bool) (shouldInstrument : value)
  (useRenderCounter : extern W) : M W unit :=
  if __DEV__ && truthy shouldInstrument then
    call "useRenderCounter" useRenderCounter
         [VStr "useFoo"; VStr "/codegen-emit-imports-same-source.ts"];;
    ret tt
  else ret tt.

(** The cache of [Component] of the [delete] fixture between
    invocations: untouched, or [props.a], which is not the negative
    zero, and [props.b] of one invocation together with the object it
    built. *)
Definition deleteProperty_cache_ok {W} (m : machine W) : Prop :=
  cache_of 3 m = [memo_cache_sentinel; memo_cache_sentinel; memo_cache_sentinel]
  \/ exists pa pb l,
       cache_of 3 m = [pa; pb; VRef l]
       /\ pa <> VNegZero
       /\ heap (st m) !! l = Some (Obj KObject [] [("a", pa)]).

(** The input function and the compiled function of that fixture after
    the same invocations on heap [h0]. *)
Definition deleteProperty_related {W} (h0 : list obj) (m1 m2 : machine W) : Prop :=
  h0 `prefix_of` heap (st m1)
  /\ h0 `prefix_of` heap (st m2)
  /\ deleteProperty_cache_ok m2.

(** The cache of [component] of capture_mutate-across-fns between
    invocations: untouched, or an argument, which is not the negative
    zero, together with the object built from it. *)
Definition capture_cache_ok {W} (m : machine W) : Prop :=
  cache_of 2 m = [memo_cache_sentinel; memo_cache_sentinel]
  \/ exists a l,
       cache_of 2 m = [a; VRef l]
       /\ a <> VNegZero
       /\ heap (st m) !! l = Some (Obj KObject [] [("a", a); ("b", VNum 1)]).

(** The input function and the compiled function [bar] after the same
    invocations on heap [h0]: both heaps extend [h0], and the cache is
    untouched or holds an argument, which is not the negative zero,
    twice. *)
Definition bar_related {W} (h0 : list obj) (m1 m2 : machine W) : Prop :=
  h0 `prefix_of` heap (st m1)
  /\ h0 `prefix_of` heap (st m2)
  /\ (cache_of 2 m2 = [memo_cache_sentinel; memo_cache_sentinel]
      \/ exists a, a <> VNegZero /\ cache_of 2 m2 = [a; a]).

(** A hook in the manner of [useState]: it keeps the state in the world
    and returns a new pair of the current state and the setter. *)
Definition returns_state {W} (state : W -> value) (next : W -> W) (setState : value)
  (f : extern W) : Prop :=
  forall args s,
    f args s
    = (Normal (VRef (length (heap s))),
       Store (heap s ++ [Obj KArray [state (world s); setState] []]) (next (world s))).

(** The cache of [Component] of the [useState] fixture between
    invocations: untouched, or a state, which is not the negative zero,
    together with the array built from it. *)
Definition useState_cache_ok {W} (m : machine W) : Prop :=
  cache_of 2 m = [memo_cache_sentinel; memo_cache_sentinel]
  \/ exists state l,
       cache_of 2 m = [state; VRef l]
       /\ state <> VNegZero
       /\ heap (st m) !! l = Some (Obj KArray [state] []).

(** The input function and the compiled function of that fixture after
    the same invocations: the hook is in the same state. *)
Definition useState_related {W} (m1 m2 : machine W) : Prop :=
  world (st m1) = world (st m2) /\ useState_cache_ok m2.

(** fixtures/compiler/gating-with-hoisted-type-reference.flow.expect.md:
    with [@gating] the module keeps the compiled function and the
    original one, and [isForgetEnabled_Fixtures()], evaluated once when
    the module is loaded, chooses between them. *)
Module GatingWithHoistedTypeReference.

(** [function Component(t0)], the branch taken when the flag is on. *)
Definition Component_enabled {W} (jsx : extern W) (t0 : value) : M W value :=
  useMemoCache 2;;
  let* value := get_prop t0 "value" in
  let* c0 := slot_get 0 in
  if strict_ne c0 value then
    let* t1 := call "jsx" jsx [VStr "div"; value] in
    slot_set 0 value;;
    slot_set 1 t1;;
    ret t1
  else
    slot_get 1.

(** [function Component({ value })], the branch taken when it is off. *)
Definition Component_disabled {W} (jsx : extern W) (arg : value) : M W value :=
  let* value := get_prop arg "value" in
  call "jsx" jsx [VStr "div"; value].

Definition Component {W} (isForgetEnabled_Fixtures : bool)
  : extern W -> value -> M W value :=
  if isForgetEnabled_Fixtures then Component_enabled else Component_disabled.

End GatingWithHoistedTypeReference.

(** A JSX runtime that builds the element [<div>{child}</div>] as a new
    object with the contents [element child] and does nothing else. *)
Definition builds_div {W} (element : value -> obj) (jsx : extern W) : Prop :=
  forall child s,
    jsx [VStr "div"; child] s
    = (Normal (VRef (length (heap s))), Store (heap s ++ [element child]) (world s)).

(** The cache of the gated [Component] between invocations: untouched,
    or a value, which is not the negative zero, together with the
    element built from it. *)
Definition gating_cache_ok {W} (element : value -> obj) (m : machine W) : Prop :=
  cache_of 2 m = [memo_cache_sentinel; memo_cache_sentinel]
  \/ exists v l,
       cache_of 2 m = [v; VRef l]
       /\ v <> VNegZero
       /\ heap (st m) !! l = Some (element v).

(** The two branches after the same invocations on heap [h0]. *)
Definition gating_related {W} (element : value -> obj) (h0 : list obj)
  (m1 m2 : machine W) : Prop :=
  h0 `prefix_of` heap (st m1)
  /\ h0 `prefix_of` heap (st m2)
  /\ gating_cache_ok element m2.

(** * The component tree hook

    unnamed/part_005, second file: [ReactComponentTreeHook] keeps, for
    the development tools, one item per component instance, the set of
    root instances and the list of instances unmounted since the last
    purge.  Instances are named by numeric ids.  The module picks its
    storage when it is loaded; the embedding follows the branch
    [canUseCollections], which keeps the items in a [Map] and the roots
    in a [Set]: both are lists here, in insertion order, as
    [Array.from(map.keys())] shows them. *)
Module ReactComponentTreeHook.

(** The object [onBeforeMountComponent] creates.  A parent id that is
    [null] or [undefined] is [None]. *)
Record item : Type := Item {
  item_element : value;
  item_parentID : option Z;
  item_text : value;
  item_childIDs : list Z;
  item_isMounted : bool;
  item_updateCount : nat
}.

(** The state of the module: [itemMap], [rootIDSet], [unmountedIDs]. *)
Record registry : Type := Registry {
  itemMap : list (Z * item);
  rootIDSet : list Z;
  unmountedIDs : list Z
}.

(** The state when the module has been loaded. *)
Definition initial : registry := Registry [] [] [].

(** [Map.prototype.get], [set] and [delete]: [set] keeps the place of a
    key that is there and appends a new one. *)
Fixpoint map_get (id : Z) (m : list (Z * item)) : option item :=
  match m with
  | [] => None
  | (k, x) :: m' => if Z.eqb k id then Some x else map_get id m'
  end.

Fixpoint map_set (id : Z) (it : item) (m : list (Z * item)) : list (Z * item) :=
  match m with
  | [] => [(id, it)]
  | (k, x) :: m' => if Z.eqb k id then (k, it) :: m' else (k, x) :: map_set id it m'
  end.

Definition map_delete (id : Z) (m : list (Z * item)) : list (Z * item) :=
  List.filter (fun kx => negb (Z.eqb (fst kx) id)) m.

(** [Set.prototype.add] and [delete]. *)
Definition set_add (id : Z) (s : list Z) : list Z :=
  if existsb (Z.eqb id) s then s else s ++ [id].

Definition set_delete (id : Z) (s : list Z) : list Z :=
  List.filter (fun k => negb (Z.eqb k id)) s.

Definition setItem (id : Z) (it : item) (r : registry) : registry :=
  Registry (map_set id it (itemMap r)) (rootIDSet r) (unmountedIDs r).

Definition getItem (id : Z) (r : registry) : option item :=
  map_get id (itemMap r).

Definition removeItem (id : Z) (r : registry) : registry :=
  Registry (map_delete id (itemMap r)) (rootIDSet r) (unmountedIDs r).

Definition getRegisteredIDs (r : registry) : list Z := map fst (itemMap r).

Definition addRoot (id : Z) (r : registry) : registry :=
  Registry (itemMap r) (set_add id (rootIDSet r)) (unmountedIDs r).

Definition removeRoot (id : Z) (r : registry) : registry :=
  Registry (itemMap r) (set_delete id (rootIDSet r)) (unmountedIDs r).

Definition getRootIDs (r : registry) : list Z := rootIDSet r.

(** [purgeDeep(id)] removes the item before it visits the children, so
    every call that finds an item makes the map smaller: the recursion
    is bounded by the number of items, which is the fuel. *)
Fixpoint purgeDeep_fuel (fuel : nat) (id : Z) (r : registry) : registry :=
  match fuel with
  | O => r
  | S fuel' =>
      match getItem id r with
      | Some it =>
          let childIDs := item_childIDs it in
          fold_left (fun r' child => purgeDeep_fuel fuel' child r') childIDs
                    (removeItem id r)
      | None => r
      end
  end.

Definition purgeDeep (id : Z) (r : registry) : registry :=
  purgeDeep_fuel (S (length (itemMap r))) id r.

(** What a function of the module does: it returns, or an [invariant]
    fails.  [invariant] (of the library fbjs, not in the sources) throws
    an error made from the given message when its condition is falsy;
    the message is kept as the format string. *)
Inductive outcome (A : Type) : Type :=
| Returned (a : A)
| InvariantViolation (format : string).
Arguments Returned {A} _.
Arguments InvariantViolation {A} _.

(** The loop of [onSetChildren] over [nextChildIDs].  The second
    invariant of the loop, [nextChild.childIDs != null || ...], holds
    for every item: [childIDs] is always an array. *)
Fixpoint onSetChildren_loop (id : Z) (nextChildIDs : list Z) (r : registry)
  : outcome unit * registry :=
  match nextChildIDs with
  | [] => (Returned tt, r)
  | nextChildID :: rest =>
      match getItem nextChildID r with
      | None =>
          (InvariantViolation
             ("Expected hook events to fire for the child " ++
              "before its parent includes it in onSetChildren()."), r)
      | Some nextChild =>
          if negb (item_isMounted nextChild) then
            (InvariantViolation
               ("Expected onMountComponent() to fire for the child " ++
                "before its parent includes it in onSetChildren()."), r)
          else
            let nextChild' :=
              match item_parentID nextChild with
              | None =>
                  Item (item_element nextChild) (Some id) (item_text nextChild)
                       (item_childIDs nextChild) (item_isMounted nextChild)
                       (item_updateCount nextChild)
              | Some _ => nextChild
              end in
            let r' :=
              match item_parentID nextChild with
              | None => setItem nextChildID nextChild' r
              | Some _ => r
              end in
            match item_parentID nextChild' with
            | Some p =>
                if Z.eqb p id then onSetChildren_loop id rest r'
                else
                  (InvariantViolation
                     ("Expected onBeforeMountComponent() parent and onSetChildren() to " ++
                      "be consistent (%s has parents %s and %s)."), r')
            | None =>
                (InvariantViolation
                   ("Expected onBeforeMountComponent() parent and onSetChildren() to " ++
                    "be consistent (%s has parents %s and %s)."), r')
            end
      end
  end.

Definition onSetChildren (id : Z) (nextChildIDs : list Z) (r : registry)
  : outcome unit * registry :=
  match getItem id r with
  | None => (InvariantViolation "Item must have been set", r)
  | Some it =>
      onSetChildren_loop id nextChildIDs
        (setItem id (Item (item_element it) (item_parentID it) (item_text it)
                          nextChildIDs (item_isMounted it) (item_updateCount it)) r)
  end.

Definition onBeforeMountComponent (id : Z) (element : value) (parentID : option Z)
  (r : registry) : registry :=
  setItem id (Item element parentID VNull [] false 0) r.

Definition onBeforeUpdateComponent (id : Z) (element : value) (r : registry)
  : registry :=
  match getItem id r with
  | Some it =>
      if negb (item_isMounted it) then r
      else setItem id (Item element (item_parentID it) (item_text it)
                            (item_childIDs it) (item_isMounted it)
                            (item_updateCount it)) r
  | None => r
  end.

(** [item.parentID === 0]. *)
Definition isRoot (it : item) : bool :=
  match item_parentID it with
  | Some p => Z.eqb p 0
  | None => false
  end.

Definition onMountComponent (id : Z) (r : registry) : outcome unit * registry :=
  match getItem id r with
  | None => (InvariantViolation "Item must have been set", r)
  | Some it =>
      let r1 := setItem id (Item (item_element it) (item_parentID it) (item_text it)
                                 (item_childIDs it) true (item_updateCount it)) r in
      (Returned tt, if isRoot it then addRoot id r1 else r1)
  end.

Definition onUpdateComponent (id : Z) (r : registry) : registry :=
  match getItem id r with
  | Some it =>
      if negb (item_isMounted it) then r
      else setItem id (Item (item_element it) (item_parentID it) (item_text it)
                            (item_childIDs it) (item_isMounted it)
                            (S (item_updateCount it))) r
  | None => r
  end.

Definition onUnmountComponent (id : Z) (r : registry) : registry :=
  let r1 :=
    match getItem id r with
    | Some it =>
        let r' := setItem id (Item (item_element it) (item_parentID it) (item_text it)
                                   (item_childIDs it) false (item_updateCount it)) r in
        if isRoot it then removeRoot id r' else r'
    | None => r
    end in
  Registry (itemMap r1) (rootIDSet r1) (unmountedIDs r1 ++ [id]).

Definition purgeUnmountedComponents (r : registry) : registry :=
  let r1 := fold_left (fun r' id => purgeDeep id r') (unmountedIDs r) r in
  Registry (itemMap r1) (rootIDSet r1) [].

Definition isMounted (id : Z) (r : registry) : bool :=
  match getItem id r with
  | Some it => item_isMounted it
  | None => false
  end.

Definition getChildIDs (id : Z) (r : registry) : list Z :=
  match getItem id r with
  | Some it => item_childIDs it
  | None => []
  end.

Definition getElement (id : Z) (r : registry) : value :=
  match getItem id r with
  | Some it => item_element it
  | None => VNull
  end.

Definition getParentID (id : Z) (r : registry) : option Z :=
  match getItem id r with
  | Some it => item_parentID it
  | None => None
  end.

Definition getUpdateCount (id : Z) (r : registry) : nat :=
  match getItem id r with
  | Some it => item_updateCount it
  | None => 0
  end.

(** [d] is [id] or one of its descendants: a chain of [childIDs] of
    registered items leads from [id] to [d]. *)
Inductive reaches (m : list (Z * item)) : Z -> Z -> Prop :=
| reaches_here (id : Z) : reaches m id id
| reaches_child (id c d : Z) (it : item) :
    map_get id m = Some it -> In c (item_childIDs it) -> reaches m c d ->
    reaches m id d.

(** [purgeDeep] on the map alone. *)
Fixpoint purge_map (fuel : nat) (id : Z) (m : list (Z * item)) : list (Z * item) :=
  match fuel with
  | O => m
  | S fuel' =>
      match map_get id m with
      | Some it =>
          fold_left (fun m' child => purge_map fuel' child m') (item_childIDs it)
                    (map_delete id m)
      | None => m
      end
  end.

(** Every item of [m] is an item of [m0]. *)
Definition submap (m m0 : list (Z * item)) : Prop :=
  forall k x, map_get k m = Some x -> map_get k m0 = Some x.

(** In [m], which came from [m0] by removals, the children of a removed
    item are removed too, except for the items in [pending]. *)
Definition closed_except (pending : Z -> Prop) (m0 m : list (Z * item)) : Prop :=
  forall k x c,
    map_get k m0 = Some x -> map_get k m = None -> ~ pending k ->
    In c (item_childIDs x) -> map_get c m = None.

(** What [onSetChildren(id, ...)] may change in the item of another
    instance: nothing but a missing parent id, which becomes [id]. *)
Definition adopted (id : Z) (a b : item) : Prop :=
  item_element b = item_element a
  /\ item_text b = item_text a
  /\ item_childIDs b = item_childIDs a
  /\ item_isMounted b = item_isMounted a
  /\ item_updateCount b = item_updateCount a
  /\ (item_parentID b = item_parentID a
      \/ (item_parentID a = None /\ item_parentID b = Some id)).

(** The same for all items of the module. *)
Definition only_adoptions (id : Z) (r r' : registry) : Prop :=
  getRegisteredIDs r' = getRegisteredIDs r
  /\ rootIDSet r' = rootIDSet r
  /\ unmountedIDs r' = unmountedIDs r
  /\ forall k,
       match getItem k r, getItem k r' with
       | Some a, Some b => adopted id a b
       | None, None => True
       | _, _ => False
       end.

End ReactComponentTreeHook.

(** * The no-op renderer

    fixtures/reconciler/NoopRenderer.js: the three functions that edit
    the [children] array of an instance or a container.  Children are
    compared as [Array.prototype.indexOf] compares them, by [===]. *)
Module NoopRenderer.

(** [children.indexOf(x)]; [None] is the result [-1]. *)
Fixpoint indexOf (x : value) (children : list value) : option nat :=
  match children with
  | [] => None
  | y :: rest => if strict_eq y x then Some 0 else option_map S (indexOf x rest)
  end.

(** [children.splice(index, 1)] and [children.splice(index, 0, x)], for
    an index within the array. *)
Definition splice_out (index : nat) (children : list value) : list value :=
  take index children ++ drop (S index) children.

Definition splice_in (index : nat) (x : value) (children : list value) : list value :=
  take index children ++ x :: drop index children.

(** The array after the call. *)
Definition appendChild (children : list value) (child : value) : list value :=
  let children1 :=
    match indexOf child children with
    | Some index => splice_out index children
    | None => children
    end in
  children1 ++ [child].

(** The message of the error thrown, if any, and the array after the
    call. *)
Definition insertBefore (children : list value) (child beforeChild : value)
  : option string * list value :=
  let children1 :=
    match indexOf child children with
    | Some index => splice_out index children
    | None => children
    end in
  match indexOf beforeChild children1 with
  | None => (Some "This child does not exist.", children1)
  | Some beforeIndex => (None, splice_in beforeIndex child children1)
  end.

Definition removeChild (children : list value) (child : value)
  : option string * list value :=
  match indexOf child children with
  | None => (Some "This child does not exist.", children)
  | Some index => (None, splice_out index children)
  end.

(** The array without the first occurrence of [x]. *)
Fixpoint without (x : value) (children : list value) : list value :=
  match children with
  | [] => []
  | y :: rest => if strict_eq y x then rest else y :: without x rest
  end.

End NoopRenderer.

(** * Reference counts of caches

    packages/react-reconciler/src/ReactFiberCacheComponent.new.js:
    [retainCache] and [releaseCache].  Of a cache the embedding keeps the
    reference count and the number of calls of [controller.abort()].
    [trace], which both functions call in a development build, has an
    empty body.

    The count is a JavaScript number, a double: [createCache] makes it
    [0] and only [++] and [--] change it, so it holds an integer, which
    the embedding keeps as a [Z].  An integer up to [2 ^ 53] in absolute
    value is a double; the result of [+ 1] or [- 1] is rounded to the
    nearest double, a tie to the one whose mantissa is even. *)
Module ReactFiberCacheComponent.

(** The double nearest to the integer [y] (far below the largest
    double). *)
Definition to_double (y : Z) : Z :=
  let a := Z.abs y in
  if (a <? 2 ^ 53)%Z then y
  else
    let e := (Z.log2 a - 52)%Z in
    let q := (a / 2 ^ e)%Z in
    let r := (a mod 2 ^ e)%Z in
    let half := (2 ^ (e - 1))%Z in
    let q' := if (r <? half)%Z then q
              else if (half <? r)%Z then (q + 1)%Z
              else if Z.even q then q else (q + 1)%Z in
    (Z.sgn y * (q' * 2 ^ e))%Z.

Record Cache : Type := {
  refCount : Z;
  aborts : nat
}.

Definition retainCache (cache : Cache) : Cache :=
  {| refCount := to_double (refCount cache + 1); aborts := aborts cache |}.

(** The message of the error thrown, if any, and the cache after the
    call. *)
Definition releaseCache (__DEV__ : bool) (cache : Cache) : option string * Cache :=
  let cache1 := {| refCount := to_double (refCount cache - 1); aborts := aborts cache |} in
  if __DEV__ && (refCount cache1 <? 0)%Z then
    (Some "Error in React: cache reference count should not be negative", cache1)
  else if (refCount cache1 =? 0)%Z then
    (None, {| refCount := refCount cache1; aborts := S (aborts cache1) |})
  else (None, cache1).

(** [n] calls of [releaseCache] in a row, up to the first that throws. *)
Fixpoint release_times (__DEV__ : bool) (n : nat) (cache : Cache)
  : option string * Cache :=
  match n with
  | O => (None, cache)
  | S n' =>
      match releaseCache __DEV__ cache with
      | (None, cache') => release_times __DEV__ n' cache'
      | (Some message, cache') => (Some message, cache')
      end
  end.

End ReactFiberCacheComponent.

(** * Names of fibers

    unnamed/part_003: [getComponentNameFromFiber].  The work tags, the
    feature flags, [REACT_STRICT_MODE_TYPE] and [getComponentNameFromType]
    are imported from modules that are not in the sources: they are
    parameters.  The operator [+] and the template literal convert
    their operands to strings, which runs user code for objects, and
    are parameters too.  Objects are plain data, as everywhere in the
    embedding: a property is an own property. *)

(** [try { body } catch (err) { handler(err) }]. *)
Definition try_catch_with {W A} (body : M W A) (handler : exn -> M W A) : M W A :=
  fun m =>
    match body m with
    | (Normal a, m') => (Normal a, m')
    | (Abrupt e, m') => handler e m'
    end.

(** [typeof v === 'function'] and [typeof v === 'string']. *)
Definition is_function {W} (v : value) : M W bool :=
  fun m =>
    match v with
    | VRef l =>
        match heap (st m) !! l with
        | Some (Obj (KFunction _) _ _) => (Normal true, m)
        | _ => (Normal false, m)
        end
    | _ => (Normal false, m)
    end.

Definition is_string (v : value) : bool :=
  match v with
  | VStr _ => true
  | _ => false
  end.

(** [v.k] where [v] may be a function: a function has the property
    [name], unless it was given another one. *)
Definition get_member {W} (v : value) (k : string) : M W value :=
  fun m =>
    match v with
    | VRef l =>
        match heap (st m) !! l with
        | Some (Obj (KFunction name) _ ps) =>
            if String.eqb k "name" then (Normal (default (VStr name) (prop_lookup k ps)), m)
            else get_prop v k m
        | _ => get_prop v k m
        end
    | _ => get_prop v k m
    end.

(** [a || b], where [b] is only evaluated when [a] is falsy. *)
Definition or_else {W} (a : value) (b : M W value) : M W value :=
  if truthy a then ret a else b.

(** The error object the engine makes when an identifier that is bound
    nowhere is evaluated. *)
Definition ReferenceError : obj :=
  Obj KObject [] [("name", VStr "ReferenceError")].

(** The evaluation of an identifier that only the global object could
    bind: its value there, or a new [ReferenceError] is thrown. *)
Definition global_identifier {W} (binding : option value) : M W value :=
  match binding with
  | Some v => ret v
  | None => let* error := alloc ReferenceError in throw (Thrown error)
  end.

Arguments is_function {W} _ _ : simpl never.
Arguments get_member {W} _ _ _ : simpl never.

Module GetComponentNameFromFiber.

(** The constants imported from react-reconciler/src/ReactWorkTags. *)
Record WorkTags : Type := {
  CacheComponent : value;
  ContextConsumer : value;
  ContextProvider : value;
  DehydratedFragment : value;
  ForwardRef : value;
  Fragment : value;
  HostHoistable : value;
  HostSingleton : value;
  HostComponent : value;
  HostPortal : value;
  HostRoot : value;
  HostText : value;
  LazyComponent : value;
  Mode : value;
  OffscreenComponent : value;
  Profiler : value;
  ScopeComponent : value;
  SuspenseComponent : value;
  SuspenseListComponent : value;
  TracingMarkerComponent : value;
  IncompleteClassComponent : value;
  ClassComponent : value;
  FunctionComponent : value;
  MemoComponent : value;
  SimpleMemoComponent : value;
  LegacyHiddenComponent : value
}.

(** The imports from shared/ReactFeatureFlags. *)
Record FeatureFlags : Type := {
  disableLegacyMode : bool;
  enableLegacyHidden : bool;
  enableRenderableContext : bool
}.

Section Functions.
Context {W : Type}.
Variables (tags : WorkTags) (flags : FeatureFlags).
Variables (REACT_STRICT_MODE_TYPE : value).
Variables (getComponentNameFromType plus template : extern W).

(** The module neither imports nor declares the identifier
    [IncompleteFunctionComponent], the label of one [case]: it is bound
    if the global object has a property of that name. *)
Variable (IncompleteFunctionComponent : option value).

Definition getWrappedName (outerType innerType : value) (wrapperName : string)
  : M W value :=
  let* displayName := get_member innerType "displayName" in
  let* functionName :=
    or_else displayName
      (let* name := get_member innerType "name" in
       or_else name (ret (VStr ""))) in
  let* outerName := get_member outerType "displayName" in
  or_else outerName
    (if strict_ne functionName (VStr "")
     then apply_op template [VStr wrapperName; functionName]
     else ret (VStr wrapperName)).

Definition getContextName (type : value) : M W value :=
  let* displayName := get_member type "displayName" in
  or_else displayName (ret (VStr "Context")).

(** The statements after the labels [ClassComponent], ...,
    [SimpleMemoComponent], which the label [IncompleteClassComponent]
    falls through to. *)
Definition name_of_user_type (type : value) : M W value :=
  let* callable := is_function type in
  if (callable : bool) then
    let* displayName := get_member type "displayName" in
    or_else displayName
      (let* name := get_member type "name" in
       or_else name (ret VNull))
  else if is_string type then ret type
  else ret VNull.

(** A [switch] evaluates its labels in the order of the source, each one
    when the labels before it did not match, and runs the statements
    from the first label that is [===] to [tag]. *)
Definition getComponentNameFromFiber (fiber : value) : M W value :=
  let* tag := get_prop fiber "tag" in
  let* type := get_prop fiber "type" in
  if strict_eq tag (CacheComponent tags) then ret (VStr "Cache")
  else if strict_eq tag (ContextConsumer tags) then
    if enableRenderableContext flags then
      let* context := get_member type "_context" in
      let* name := getContextName context in
      apply_op plus [name; VStr ".Consumer"]
    else
      let* name := getContextName type in
      apply_op plus [name; VStr ".Consumer"]
  else if strict_eq tag (ContextProvider tags) then
    if enableRenderableContext flags then
      let* name := getContextName type in
      apply_op plus [name; VStr ".Provider"]
    else
      let* context := get_member type "_context" in
      let* name := getContextName context in
      apply_op plus [name; VStr ".Provider"]
  else if strict_eq tag (DehydratedFragment tags) then ret (VStr "DehydratedFragment")
  else if strict_eq tag (ForwardRef tags) then
    let* render := get_member type "render" in
    getWrappedName type render "ForwardRef"
  else if strict_eq tag (Fragment tags) then ret (VStr "Fragment")
  else if strict_eq tag (HostHoistable tags)
          || strict_eq tag (HostSingleton tags)
          || strict_eq tag (HostComponent tags) then ret type
  else if strict_eq tag (HostPortal tags) then ret (VStr "Portal")
  else if strict_eq tag (HostRoot tags) then ret (VStr "Root")
  else if strict_eq tag (HostText tags) then ret (VStr "Text")
  else if strict_eq tag (LazyComponent tags) then
    call "getComponentNameFromType" getComponentNameFromType [type]
  else if strict_eq tag (Mode tags) then
    if strict_eq type REACT_STRICT_MODE_TYPE then ret (VStr "StrictMode")
    else ret (VStr "Mode")
  else if strict_eq tag (OffscreenComponent tags) then ret (VStr "Offscreen")
  else if strict_eq tag (Profiler tags) then ret (VStr "Profiler")
  else if strict_eq tag (ScopeComponent tags) then ret (VStr "Scope")
  else if strict_eq tag (SuspenseComponent tags) then ret (VStr "Suspense")
  else if strict_eq tag (SuspenseListComponent tags) then ret (VStr "SuspenseList")
  else if strict_eq tag (TracingMarkerComponent tags) then ret (VStr "TracingMarker")
  else if strict_eq tag (IncompleteClassComponent tags) then
    if disableLegacyMode flags then ret VNull
    else name_of_user_type type
  else
    let* label := global_identifier IncompleteFunctionComponent in
    if strict_eq tag label then
      if disableLegacyMode flags then ret VNull
      else name_of_user_type type
    else if strict_eq tag (ClassComponent tags)
            || strict_eq tag (FunctionComponent tags)
            || strict_eq tag (MemoComponent tags)
            || strict_eq tag (SimpleMemoComponent tags) then name_of_user_type type
    else if strict_eq tag (LegacyHiddenComponent tags) then
      if enableLegacyHidden flags then ret (VStr "LegacyHidden")
      else ret VNull
    else ret VNull.

End Functions.

(** The labels before [IncompleteFunctionComponent], in the order of
    the source. *)
Definition labels_before (tags : WorkTags) : list value :=
  [CacheComponent tags; ContextConsumer tags; ContextProvider tags;
   DehydratedFragment tags; ForwardRef tags; Fragment tags; HostHoistable tags;
   HostSingleton tags; HostComponent tags; HostPortal tags; HostRoot tags;
   HostText tags; LazyComponent tags; Mode tags; OffscreenComponent tags;
   Profiler tags; ScopeComponent tags; SuspenseComponent tags;
   SuspenseListComponent tags; TracingMarkerComponent tags;
   IncompleteClassComponent tags].

End GetComponentNameFromFiber.

(** * The hook of the development tools

    src/renderers/shared/fiber/ReactFiberDevToolsHook.js.  The global
    [__REACT_DEVTOOLS_GLOBAL_HOOK__] is a parameter ([undefined] when
    there are no development tools), [invoke] runs its methods, and
    [warning] (of fbjs, loaded in a development build only) is a
    parameter.  The variable [rendererID] of the module is passed in and
    returned.  [engine_error] is the object a [catch] clause gets when
    the engine has thrown a [TypeError]. *)
Module ReactFiberDevToolsHook.

Section Functions.
Context {W : Type}.
Variables (__DEV__ : bool) (warning invoke : extern W).
Variables (__REACT_DEVTOOLS_GLOBAL_HOOK__ engine_error : value).

(** [if (__DEV__) { warning(condition, format, ...args) }]. *)
Definition warn (args : list value) : M W unit :=
  if __DEV__ then call "warning" warning args;; ret tt else ret tt.

(** [err] of [catch (err)]. *)
Definition caught (e : exn) : value :=
  match e with
  | Thrown v => v
  | TypeError => engine_error
  end.

(** The value returned and the new [rendererID]. *)
Definition injectInternals (rendererID internals : value) : M W (value * value) :=
  warn [VBool (loose_eq_null rendererID); VStr "Cannot inject into DevTools twice."];;
  if strict_eq __REACT_DEVTOOLS_GLOBAL_HOOK__ VUndefined then
    ret (VBool false, rendererID)
  else
    let* supportsFiber := get_prop __REACT_DEVTOOLS_GLOBAL_HOOK__ "supportsFiber" in
    if negb (truthy supportsFiber) then
      warn [VBool false;
            VStr ("The installed version of React DevTools is too old and will not work " ++
                  "with the current version of React. Please update React DevTools. " ++
                  "https://fb.me/react-devtools#installation")];;
      ret (VBool true, rendererID)
    else
      let* rendererID' :=
        try_catch_with
          (call_method invoke __REACT_DEVTOOLS_GLOBAL_HOOK__ "inject" [internals])
          (fun err =>
             warn [VBool false; VStr "React DevTools encountered an error: %s.";
                   caught err];;
             ret rendererID) in
      ret (VBool true, rendererID').

Definition onCommitRoot (rendererID root : value) : M W unit :=
  if loose_eq_null rendererID then ret tt
  else
    try_catch_with
      (call_method invoke __REACT_DEVTOOLS_GLOBAL_HOOK__ "onCommitFiberRoot"
                   [rendererID; root];;
       ret tt)
      (fun err =>
         warn [VBool false; VStr "React DevTools encountered an error: %s"; caught err]).

Definition onCommitUnmount (rendererID fiber : value) : M W unit :=
  if loose_eq_null rendererID then ret tt
  else
    try_catch_with
      (call_method invoke __REACT_DEVTOOLS_GLOBAL_HOOK__ "onCommitFiberUnmount"
                   [rendererID; fiber];;
       ret tt)
      (fun err =>
         warn [VBool false; VStr "React DevTools encountered an error: %s"; caught err]).

End Functions.

End ReactFiberDevToolsHook.

(** * Further wordings of the specification and sample environments *)

(** A hook in the manner of [useState] whose state is [0] on the first
    call and [-0] afterwards; the world counts the calls. *)
Definition zero_then_negative_zero : extern nat :=
  fun _ s =>
    (Normal (if Nat.eqb (world s) 0 then VNum 0 else VNegZero),
     Store (heap s) (S (world s))).


(** The specification's wording of the all-or-nothing rule, on [useFoo]
    of the emit-freeze fixture: after an invocation on a fresh cache the
    two slots of the scope are both uninitialized or both populated. *)
Definition useFoo_slots_written_together_as_stated : Prop :=
  forall (W : Type) (__DEV__ : bool) (shouldInstrument : value)
         (useRenderCounter makeReadOnly foo : extern W) (props : value) (s : store W),
    let c := cache_of 2 (snd (EmitFreezeInstrumentForget.useFoo_code __DEV__
                                shouldInstrument useRenderCounter makeReadOnly foo
                                props (boot s))) in
    default VUndefined (c !! 0) = memo_cache_sentinel
    <-> default VUndefined (c !! 1) = memo_cache_sentinel.

(** * Properties *)

(** ** The recorded outputs of the fixtures

    The fixtures record what their entry point evaluates to ("### Eval
    output"); the embedding gives the same. *)

(** labeled-break-within-label-switch: [useHook(true)] is [["@A","@C"]]. *)
Example useHook_eval_output :
  results (LabeledBreakWithinLabelSwitch.useHook_code (VStr "global string 0"))
          [VBool true] empty_store
  = [Normal (Object (Obj KArray [VStr "@A"; VStr "@C"] []))].
Proof. reflexivity. Qed.

(** try-catch-with-return: [Component({})] is [null], with a
    [throwInput] that throws its argument. *)
Example tryCatch_eval_output :
  results (TryCatchWithReturn.Component_code fresh_object throws_argument)
          [VRef 0] (Store [Obj KObject [] []] tt)
  = [Normal (Prim VNull)].
Proof. reflexivity. Qed.

(** ** Values and arrays *)

(** The first character of a string that starts with a character of
    two bytes. *)
Example first_character_two_bytes :
  first_character (String (ascii_of_nat 195) (String (ascii_of_nat 169) "t"))
  = VStr (String (ascii_of_nat 195) (String (ascii_of_nat 169) "")).
Proof. reflexivity. Qed.

(** [===] is identity, except that it holds between the two zeros (and
    fails on NaN). *)
Lemma strict_eq_cases (a b : value) :
  strict_eq a b = true ->
  a = b \/ (a = VNum 0 /\ b = VNegZero) \/ (a = VNegZero /\ b = VNum 0).
Proof.
  destruct a, b; cbn [strict_eq]; try discriminate; intros H; auto;
    first [ apply Bool.eqb_prop in H | apply Z.eqb_eq in H
          | apply String.eqb_eq in H | apply Nat.eqb_eq in H ];
    subst; auto.
Qed.

Lemma strict_eq_true (a b : value) :
  a <> VNegZero -> b <> VNegZero -> strict_eq a b = true -> a = b.
Proof.
  intros Ha Hb H.
  destruct (strict_eq_cases a b H) as [E | [[_ E] | [E _]]]; congruence.
Qed.

Lemma strict_ne_false (a b : value) :
  a <> VNegZero -> b <> VNegZero -> strict_ne a b = false -> a = b.
Proof.
  unfold strict_ne. intros Ha Hb H. apply strict_eq_true; [assumption ..|].
  destruct (strict_eq a b); [reflexivity | discriminate].
Qed.

Lemma strict_ne_eq (a b : value) : strict_ne a b = false -> strict_eq a b = true.
Proof.
  unfold strict_ne. destruct (strict_eq a b); [reflexivity | discriminate].
Qed.

Lemma strict_eq_symbol (v : value) (k : string) :
  strict_eq v (VSymFor k) = true <-> v = VSymFor k.
Proof.
  split.
  - intros H. destruct (strict_eq_cases _ _ H) as [E | [[_ E] | [_ E]]];
      [exact E | discriminate E | discriminate E].
  - intros ->. cbn. apply String.eqb_refl.
Qed.

Lemma strict_eq_sym (a b : value) : strict_eq a b = strict_eq b a.
Proof.
  destruct a, b; cbn [strict_eq]; try reflexivity;
    first [ apply Z.eqb_sym | apply String.eqb_sym | apply Nat.eqb_sym
          | match goal with |- Bool.eqb ?x ?y = _ => destruct x, y; reflexivity end ].
Qed.

Lemma strict_eq_sentinel (v : value) :
  strict_eq v memo_cache_sentinel = true <-> v = memo_cache_sentinel.
Proof. apply strict_eq_symbol. Qed.

Lemma strict_ne_sentinel (v : value) :
  v <> memo_cache_sentinel -> strict_ne memo_cache_sentinel v = true.
Proof.
  intros Hv. unfold strict_ne.
  destruct (strict_eq memo_cache_sentinel v) eqn:E; [| reflexivity].
  rewrite strict_eq_sym in E. apply strict_eq_sentinel in E. congruence.
Qed.

Lemma strict_ne_sentinel_false (v : value) :
  strict_ne memo_cache_sentinel v = false -> v = memo_cache_sentinel.
Proof.
  intros H. apply strict_ne_eq in H. rewrite strict_eq_sym in H.
  apply strict_eq_sentinel in H. exact H.
Qed.

(** What the two sides of a [===] that holds have in common. *)
Lemma strict_eq_truthy (a b : value) : strict_eq a b = true -> truthy a = truthy b.
Proof.
  intros H. destruct (strict_eq_cases a b H) as [-> | [[-> ->] | [-> ->]]]; reflexivity.
Qed.

Lemma strict_eq_null (a b : value) :
  strict_eq a b = true -> loose_eq_null a = loose_eq_null b.
Proof.
  intros H. destruct (strict_eq_cases a b H) as [-> | [[-> ->] | [-> ->]]]; reflexivity.
Qed.

Lemma strict_eq_trans (a b c : value) :
  strict_eq a b = true -> strict_eq b c = true -> strict_eq a c = true.
Proof.
  intros H1 H2.
  destruct (strict_eq_cases a b H1) as [-> | [[-> ->] | [-> ->]]]; [exact H2 | |].
  - destruct (strict_eq_cases _ _ H2) as [<- | [[E _] | [_ ->]]];
      [reflexivity | discriminate E | reflexivity].
  - destruct (strict_eq_cases _ _ H2) as [<- | [[_ ->] | [E _]]];
      [reflexivity | reflexivity | discriminate E].
Qed.

(** ** Heap steps on the object allocated last *)

Section HeapSteps.
Context {W : Type}.
Implicit Types (m : machine W) (h : list obj).

Lemma lookup_last h (o : obj) : (h ++ [o]) !! length h = Some o.
Proof. by apply list_lookup_middle. Qed.

Lemma insert_last h (o o' : obj) : <[length h := o']> (h ++ [o]) = h ++ [o'].
Proof.
  rewrite insert_app_r_alt by lia. by rewrite Nat.sub_diag.
Qed.

Lemma lookup_at h (o : obj) (rest : list obj) : (h ++ o :: rest) !! length h = Some o.
Proof. by apply list_lookup_middle. Qed.

Lemma insert_at h (o o' : obj) (rest : list obj) :
  <[length h := o']> (h ++ o :: rest) = h ++ o' :: rest.
Proof.
  rewrite insert_app_r_alt by lia. by rewrite Nat.sub_diag.
Qed.

Lemma set_prop_at h k ps x rest m :
  heap (st m) = h ++ Obj KObject [] ps :: rest ->
  set_prop (VRef (length h)) k x m
  = (Normal tt, set_heap (h ++ Obj KObject [] (prop_assign k x ps) :: rest) m).
Proof.
  intros Hh. unfold set_prop. rewrite Hh, lookup_at, insert_at. reflexivity.
Qed.

Lemma array_get_at h es ps i rest m :
  heap (st m) = h ++ Obj KArray es ps :: rest ->
  array_get (VRef (length h)) i m = (Normal (default VUndefined (es !! i)), m).
Proof.
  intros Hh. unfold array_get. rewrite Hh, lookup_at. reflexivity.
Qed.

Lemma array_push_last h es ps x m :
  heap (st m) = h ++ [Obj KArray es ps] ->
  array_push (VRef (length h)) x m
  = (Normal tt, set_heap (h ++ [Obj KArray (es ++ [x]) ps]) m).
Proof.
  intros Hh. unfold array_push. rewrite Hh, lookup_last, insert_last. reflexivity.
Qed.

Lemma set_prop_last h k ps x m :
  heap (st m) = h ++ [Obj KObject [] ps] ->
  set_prop (VRef (length h)) k x m
  = (Normal tt, set_heap (h ++ [Obj KObject [] (prop_assign k x ps)]) m).
Proof.
  intros Hh. unfold set_prop. rewrite Hh, lookup_last, insert_last. reflexivity.
Qed.

Lemma delete_prop_last h k ps m :
  heap (st m) = h ++ [Obj KObject [] ps] ->
  delete_prop (VRef (length h)) k m
  = (Normal tt, set_heap (h ++ [Obj KObject [] (prop_delete k ps)]) m).
Proof.
  intros Hh. unfold delete_prop. rewrite Hh, lookup_last, insert_last. reflexivity.
Qed.

Lemma useMemoCache_run size m :
  useMemoCache size m = (Normal tt, Machine (st m) (Some (cache_of size m)) (trace m)).
Proof.
  unfold useMemoCache, cache_of. destruct m as [s [c|] t]; reflexivity.
Qed.

Lemma bind_assoc {A B C} (c : M W A) (f : A -> M W B) (g : B -> M W C) m :
  bind (bind c f) g m = bind c (fun x => bind (f x) g) m.
Proof. unfold bind. destruct (c m) as [[a|e] m1]; reflexivity. Qed.

Lemma bind_ext {A B} (c : M W A) (f g : A -> M W B) m :
  (forall x m', f x m' = g x m') -> bind c f m = bind c g m.
Proof. intros H. unfold bind. destruct (c m) as [[a|e] m1]; [apply H | reflexivity]. Qed.

Lemma bind_ret_l {A B} (a : A) (f : A -> M W B) m : bind (ret a) f m = f a m.
Proof. reflexivity. Qed.

End HeapSteps.

(** One step on the object allocated last, at the first place of the
    goal where the machine is known. *)
Ltac heap_step :=
  cbv beta;
  match goal with
  | |- context [array_push (VRef (length ?h)) ?x ?m] =>
      rewrite (array_push_last h _ _ x m eq_refl)
  | |- context [set_prop (VRef (length ?h)) ?k ?x ?m] =>
      rewrite (set_prop_last h k _ x m eq_refl)
  | |- context [delete_prop (VRef (length ?h)) ?k ?m] =>
      rewrite (delete_prop_last h k _ m eq_refl)
  end;
  cbn.

(** ** labeled-break-within-label-switch: [useHook] *)

Section UseHook.
Import LabeledBreakWithinLabelSwitch.
Context {W : Type}.
Variable CONST_STRING0 : value.
Implicit Types (m : machine W) (cond : value).

Lemma useHook_input_run cond m :
  useHook_input CONST_STRING0 cond m
  = (Normal (VRef (length (heap (st m)))),
     set_heap (heap (st m) ++ [Obj KArray (useHook_log CONST_STRING0 cond) []]) m).
Proof.
  unfold useHook_input, useHook_log, new_array, alloc, bind, ret.
  destruct (strict_eq CONST_STRING0 CONST_STRING0); [| reflexivity].
  heap_step.
  destruct (truthy cond); cbn.
  - heap_step. reflexivity.
  - heap_step.
    heap_step. reflexivity.
Qed.

Lemma useHook_code_run cond m :
  useHook_code CONST_STRING0 cond m
  = if strict_ne (default VUndefined (cache_of 2 m !! 0)) cond then
      (Normal (VRef (length (heap (st m)))),
       Machine
         (Store (heap (st m) ++ [Obj KArray (useHook_log CONST_STRING0 cond) []])
                (world (st m)))
         (Some (array_store 1 (VRef (length (heap (st m))))
                  (array_store 0 cond (cache_of 2 m))))
         (trace m))
    else
      (Normal (default VUndefined (cache_of 2 m !! 1)),
       Machine (st m) (Some (cache_of 2 m)) (trace m)).
Proof.
  unfold useHook_code. unfold bind at 1. rewrite useMemoCache_run.
  unfold bind at 1, slot_get at 1. cbn [slots cache default].
  destruct (strict_ne _ cond); [| reflexivity].
  unfold useHook_log, new_array, alloc, bind, ret, slot_set. cbn.
  destruct (strict_eq CONST_STRING0 CONST_STRING0); [| reflexivity].
  heap_step.
  destruct (truthy cond); cbn.
  - heap_step. reflexivity.
  - heap_step.
    heap_step. reflexivity.
Qed.

End UseHook.

Section UseHookRefinement.
Import LabeledBreakWithinLabelSwitch.
Context {W : Type}.
Variable CONST_STRING0 : value.
Implicit Types (m : machine W) (cond : value).

Lemma useHook_input_step cond m :
  observe (useHook_input CONST_STRING0 cond m)
  = Normal (Object (Obj KArray (useHook_log CONST_STRING0 cond) []))
  /\ trace (snd (useHook_input CONST_STRING0 cond m)) = trace m.
Proof.
  rewrite useHook_input_run. unfold observe. cbn.
  rewrite lookup_last. split; reflexivity.
Qed.

Lemma useHook_code_step cond m :
  useHook_cache_ok CONST_STRING0 m ->
  cond <> memo_cache_sentinel ->
  observe (useHook_code CONST_STRING0 cond m)
  = Normal (Object (Obj KArray (useHook_log CONST_STRING0 cond) []))
  /\ useHook_cache_ok CONST_STRING0 (snd (useHook_code CONST_STRING0 cond m))
  /\ trace (snd (useHook_code CONST_STRING0 cond m)) = trace m.
Proof.
  intros Hok Hcond. rewrite useHook_code_run.
  assert (Hmiss :
    forall c v,
      cache_of 2 m = [c; v] ->
      let m' := Machine
                  (Store (heap (st m) ++ [Obj KArray (useHook_log CONST_STRING0 cond) []])
                         (world (st m)))
                  (Some (array_store 1 (VRef (length (heap (st m))))
                           (array_store 0 cond (cache_of 2 m))))
                  (trace m) in
      observe (Normal (VRef (length (heap (st m)))), m')
      = Normal (Object (Obj KArray (useHook_log CONST_STRING0 cond) []))
      /\ useHook_cache_ok CONST_STRING0 m' /\ trace m' = trace m).
  { intros c v Hc. rewrite Hc. unfold observe. cbn. rewrite lookup_last.
    split; [reflexivity | split; [| reflexivity]].
    right. exists cond, (length (heap (st m))). split; [reflexivity |].
    cbn. apply lookup_last. }
  destruct (strict_ne (default VUndefined (cache_of 2 m !! 0)) cond) eqn:E.
  - destruct Hok as [Hc | (c & l & Hc & Hl)]; exact (Hmiss _ _ Hc).
  - destruct Hok as [Hc | (c & l & Hc & Hl)]; rewrite Hc in E; cbn in E.
    + rewrite strict_ne_sentinel in E by assumption. discriminate.
    + assert (Hlog : useHook_log CONST_STRING0 c = useHook_log CONST_STRING0 cond).
      { unfold useHook_log.
        rewrite (strict_eq_truthy c cond (strict_ne_eq _ _ E)). reflexivity. }
      rewrite Hc. unfold observe. cbn. rewrite Hl, Hlog.
      split; [reflexivity | split; [| reflexivity]].
      right. exists c, l. split; [reflexivity | exact Hl].
Qed.

Lemma useHook_invoke_all conds m1 m2 :
  Forall (fun c => c <> memo_cache_sentinel) conds ->
  useHook_cache_ok CONST_STRING0 m2 ->
  fst (invoke_all (useHook_input CONST_STRING0) conds m1)
  = fst (invoke_all (useHook_code CONST_STRING0) conds m2)
  /\ trace (snd (invoke_all (useHook_input CONST_STRING0) conds m1)) = trace m1
  /\ trace (snd (invoke_all (useHook_code CONST_STRING0) conds m2)) = trace m2.
Proof.
  intros Hconds. revert m1 m2.
  induction Hconds as [| cond conds Hcond _ IH]; intros m1 m2 Hok.
  - cbn. repeat split.
  - cbn [invoke_all].
    destruct (useHook_input_step cond m1) as [Ho1 Ht1].
    destruct (useHook_code_step cond m2 Hok Hcond) as (Ho2 & Hok2 & Ht2).
    specialize (IH (snd (useHook_input CONST_STRING0 cond m1))
                   (snd (useHook_code CONST_STRING0 cond m2)) Hok2).
    destruct (invoke_all (useHook_input CONST_STRING0) conds _) as [os1 n1].
    destruct (invoke_all (useHook_code CONST_STRING0) conds _) as [os2 n2].
    cbn in *. destruct IH as (-> & -> & ->).
    rewrite Ho1, Ho2. repeat split; assumption.
Qed.

Lemma useHook_behaviour conds (s : store W) :
  Forall (fun c => c <> memo_cache_sentinel) conds ->
  behaviour (useHook_input CONST_STRING0) conds s
  = behaviour (useHook_code CONST_STRING0) conds s.
Proof.
  intros Hconds. unfold behaviour.
  destruct (useHook_invoke_all conds (boot s) (boot s) Hconds) as (Ho & Ht1 & Ht2).
  { left. reflexivity. }
  destruct (invoke_all (useHook_input CONST_STRING0) conds _) as [os1 n1].
  destruct (invoke_all (useHook_code CONST_STRING0) conds _) as [os2 n2].
  cbn in *. congruence.
Qed.

End UseHookRefinement.

(** ** unnamed/part_000: [useFoo] *)

Section UseFoo.
Import HookCallUseNoAlias.
Context {W : Type}.
Variables plus useNoAlias : extern W.
Implicit Types (m : machine W).

Lemma useFoo_hook_call_cache (value1 value2 : value) m :
  cache (snd (useFoo_hook_call plus useNoAlias value1 value2 m)) = cache m.
Proof.
  unfold useFoo_hook_call, bind, apply_op, call.
  destruct (plus _ _) as [[s|e] s1]; cbn; [| reflexivity].
  destruct (useNoAlias _ _) as [r s2]. reflexivity.
Qed.

Lemma useFoo_input_run (value1 value2 : value) m :
  useFoo_input plus useNoAlias value1 value2 m
  = match useFoo_hook_call plus useNoAlias value1 value2 m with
    | (Normal t, m') => new_object [("value", t)] m'
    | (Abrupt e, m') => (Abrupt e, m')
    end.
Proof.
  unfold useFoo_input, useFoo_hook_call, bind.
  destruct (apply_op plus _ m) as [[s|e] m1]; [| reflexivity].
  destruct (call _ _ _ m1) as [[t|e] m2]; reflexivity.
Qed.

Lemma useFoo_code_run (value1 value2 : value) m :
  useFoo_code plus useNoAlias value1 value2 m
  = match useFoo_hook_call plus useNoAlias value1 value2
            (Machine (st m) (Some (cache_of 2 m)) (trace m)) with
    | (Normal t0, m') =>
        if strict_ne (default VUndefined (cache_of 2 m !! 0)) t0 then
          (Normal (VRef (length (heap (st m')))),
           Machine (Store (heap (st m') ++ [Obj KObject [] [("value", t0)]])
                          (world (st m')))
                   (Some (array_store 1 (VRef (length (heap (st m'))))
                            (array_store 0 t0 (cache_of 2 m))))
                   (trace m'))
        else
          (Normal (default VUndefined (cache_of 2 m !! 1)), m')
    | (Abrupt e, m') => (Abrupt e, m')
    end.
Proof.
  unfold useFoo_code. unfold bind at 1. rewrite useMemoCache_run.
  pose proof (useFoo_hook_call_cache value1 value2
                (Machine (st m) (Some (cache_of 2 m)) (trace m))) as Hcache.
  unfold useFoo_hook_call, bind in *.
  destruct (apply_op plus _ _) as [[s|e] m1]; [| reflexivity].
  destruct (call _ _ _ m1) as [[t0|e] m2]; [| reflexivity].
  cbn in Hcache. unfold slot_get, slot_set, slots, new_object, alloc, ret, set_heap.
  cbn. rewrite !Hcache. cbn.
  destruct (strict_ne _ t0); cbn; rewrite ?Hcache; reflexivity.
Qed.

End UseFoo.

Section UseFooRefinement.
Import HookCallUseNoAlias.
Context {W : Type}.
Variables plus useNoAlias : extern W.
Hypothesis plus_world_only : world_only plus.
Hypothesis useNoAlias_world_only : world_only useNoAlias.
Hypothesis useNoAlias_not_sentinel :
  forall args s, fst (useNoAlias args s) <> Normal memo_cache_sentinel.
Hypothesis useNoAlias_not_negative_zero :
  forall args s, fst (useNoAlias args s) <> Normal VNegZero.
Implicit Types (m : machine W).

Lemma useFoo_hook_call_related (value1 value2 : value) m1 m2 :
  world (st m1) = world (st m2) ->
  exists r w evs,
    r <> Normal memo_cache_sentinel
    /\ r <> Normal VNegZero
    /\ useFoo_hook_call plus useNoAlias value1 value2 m1
       = (r, Machine (Store (heap (st m1)) w) (cache m1) (trace m1 ++ evs))
    /\ useFoo_hook_call plus useNoAlias value1 value2 m2
       = (r, Machine (Store (heap (st m2)) w) (cache m2) (trace m2 ++ evs)).
Proof.
  intros Hw.
  destruct plus_world_only as [g Hg]. destruct useNoAlias_world_only as [g' Hg'].
  unfold useFoo_hook_call, bind, apply_op, call.
  rewrite !Hg, Hw.
  destruct (g [value1; value2] (world (st m2))) as [[s|e] w1]; cbn.
  - pose proof (useNoAlias_not_sentinel [s] (Store (heap (st m1)) w1)) as Hns.
    pose proof (useNoAlias_not_negative_zero [s] (Store (heap (st m1)) w1)) as Hnz.
    rewrite !Hg' in *. cbn in *.
    destruct (g' [s] w1) as [r w2]; cbn in *.
    exists r, w2, [Called "useNoAlias" [s]]. repeat split; assumption.
  - exists (Abrupt e), w1, []. rewrite !app_nil_r.
    destruct m1 as [[h1 x1] c1 t1], m2 as [[h2 x2] c2 t2]. cbn.
    repeat split; discriminate.
Qed.

Lemma useFoo_step (value1 value2 : value) m1 m2 :
  useFoo_related m1 m2 ->
  observe (useFoo_input plus useNoAlias value1 value2 m1)
  = observe (useFoo_code plus useNoAlias value1 value2 m2)
  /\ useFoo_related (snd (useFoo_input plus useNoAlias value1 value2 m1))
                    (snd (useFoo_code plus useNoAlias value1 value2 m2)).
Proof.
  intros (Hw & Ht & Hok).
  rewrite useFoo_input_run, useFoo_code_run.
  destruct (useFoo_hook_call_related value1 value2 m1
              (Machine (st m2) (Some (cache_of 2 m2)) (trace m2)) Hw)
    as (r & w & evs & Hr & Hrz & -> & ->).
  cbn [st cache trace].
  destruct r as [t0|e].
  - (* the hook returned t0 *)
    assert (Hmiss :
      observe (new_object [("value", t0)]
                 (Machine (Store (heap (st m1)) w) (cache m1) (trace m1 ++ evs)))
      = Normal (Object (Obj KObject [] [("value", t0)]))).
    { unfold observe, new_object, alloc. cbn. by rewrite lookup_last. }
    rewrite Hmiss.
    destruct (strict_ne (default VUndefined (cache_of 2 m2 !! 0)) t0) eqn:E.
    + unfold observe. cbn. rewrite lookup_last. split; [reflexivity |].
      split; [reflexivity | split; [cbn; congruence |]].
      right. exists t0, (length (heap (st m2))). unfold cache_of at 1. cbn.
      rewrite lookup_last. split; [| split; [congruence | reflexivity]].
      destruct Hok as [Hc | (t & l & Hc & Htz & Hl)]; rewrite Hc; reflexivity.
    + destruct Hok as [Hc | (t & l & Hc & Htz & Hl)]; rewrite Hc in E |- *; cbn in E.
      * rewrite strict_ne_sentinel in E by congruence. discriminate.
      * apply strict_ne_false in E; [| exact Htz | congruence]. subst t.
        unfold observe. cbn. rewrite Hl. split; [reflexivity |].
        split; [reflexivity | split; [cbn; congruence |]].
        right. exists t0, l. split; [reflexivity | split; [exact Htz | exact Hl]].
  - (* the sum or the hook threw *)
    unfold observe. cbn. split; [reflexivity |].
    split; [reflexivity | split; [cbn; congruence |]].
    destruct Hok as [Hc | (t & l & Hc & Htz & Hl)].
    + left. exact Hc.
    + right. exists t, l. split; [exact Hc | split; [exact Htz | exact Hl]].
Qed.

Lemma useFoo_invoke_all (args : list (value * value)) m1 m2 :
  useFoo_related m1 m2 ->
  fst (invoke_all (fun a => useFoo_input plus useNoAlias (fst a) (snd a)) args m1)
  = fst (invoke_all (fun a => useFoo_code plus useNoAlias (fst a) (snd a)) args m2)
  /\ trace (snd (invoke_all (fun a => useFoo_input plus useNoAlias (fst a) (snd a)) args m1))
     = trace (snd (invoke_all (fun a => useFoo_code plus useNoAlias (fst a) (snd a)) args m2)).
Proof.
  revert m1 m2. induction args as [| a args IH]; intros m1 m2 Hrel.
  - cbn. split; [reflexivity | apply Hrel].
  - cbn [invoke_all].
    destruct (useFoo_step (fst a) (snd a) m1 m2 Hrel) as [Ho Hrel'].
    specialize (IH _ _ Hrel').
    destruct (invoke_all _ args (snd (useFoo_input _ _ _ _ m1))) as [os1 n1].
    destruct (invoke_all _ args (snd (useFoo_code _ _ _ _ m2))) as [os2 n2].
    cbn in *. destruct IH as [-> ->]. rewrite Ho. split; reflexivity.
Qed.

Lemma useFoo_behaviour (args : list (value * value)) (s : store W) :
  behaviour (fun a => useFoo_input plus useNoAlias (fst a) (snd a)) args s
  = behaviour (fun a => useFoo_code plus useNoAlias (fst a) (snd a)) args s.
Proof.
  unfold behaviour.
  destruct (useFoo_invoke_all args (boot s) (boot s)) as [Ho Ht].
  { split; [reflexivity | split; [reflexivity | left; reflexivity]]. }
  destruct (invoke_all _ args (boot s)) as [os1 n1].
  destruct (invoke_all (fun a => useFoo_code _ _ _ _) args (boot s)) as [os2 n2].
  cbn in *. congruence.
Qed.

End UseFooRefinement.

(** ** Sample environments *)

Lemma returns_world_only {W} (v : value) : world_only (@returns W v).
Proof.
  exists (fun _ w => (Normal v, w)). intros args [h w]. reflexivity.
Defined.

Lemma counter_world_only : world_only counter.
Proof.
  exists (fun _ w => (Normal (VNum (Z.of_nat w)), S w)). intros args [h w]. reflexivity.
Defined.


(** ** User code does not touch the cache array *)

Create HintDb blind.

Section CacheBlind.
Context {W : Type}.
Implicit Types (m : machine W).

Lemma set_cache_id m : set_cache (cache m) m = m.
Proof. destruct m. reflexivity. Qed.

Lemma cache_blind_cache {A} (c : M W A) m :
  cache_blind c -> cache (snd (c m)) = cache m.
Proof.
  intros Hc. rewrite <- (set_cache_id m) at 1. rewrite Hc. reflexivity.
Qed.

Lemma cache_blind_ret {A} (a : A) : cache_blind (@ret W A a).
Proof. intros k m. reflexivity. Qed.

Lemma cache_blind_bind {A B} (c : M W A) (f : A -> M W B) :
  cache_blind c -> (forall a, cache_blind (f a)) -> cache_blind (bind c f).
Proof.
  intros Hc Hf k m. unfold bind. rewrite Hc.
  destruct (c m) as [[a|e] m1]; cbn; [apply Hf | reflexivity].
Qed.

Lemma cache_blind_try_catch {A} (c h : M W A) :
  cache_blind c -> cache_blind h -> cache_blind (try_catch c h).
Proof.
  intros Hc Hh k m. unfold try_catch. rewrite Hc.
  destruct (c m) as [[a|e] m1]; cbn; [reflexivity | apply Hh].
Qed.

Lemma cache_blind_if {A} (b : bool) (c1 c2 : M W A) :
  cache_blind c1 -> cache_blind c2 -> cache_blind (if b then c1 else c2).
Proof. destruct b; auto. Qed.

Lemma cache_blind_call name (f : extern W) args : cache_blind (call name f args).
Proof.
  intros k m. unfold call, set_cache. cbn. destruct (f args (st m)). reflexivity.
Qed.

Lemma cache_blind_apply_op (f : extern W) args : cache_blind (apply_op f args).
Proof.
  intros k m. unfold apply_op, set_cache. cbn. destruct (f args (st m)). reflexivity.
Qed.

Lemma cache_blind_alloc o : cache_blind (@alloc W o).
Proof. intros k m. reflexivity. Qed.

Lemma cache_blind_get_prop v key : cache_blind (@get_prop W v key).
Proof.
  intros k m. unfold get_prop. destruct v; try reflexivity. cbn.
  destruct (heap (st m) !! l); reflexivity.
Qed.

Lemma cache_blind_set_prop v key x : cache_blind (@set_prop W v key x).
Proof.
  intros k m. unfold set_prop. destruct v; try reflexivity. cbn.
  destruct (heap (st m) !! l); reflexivity.
Qed.

Lemma cache_blind_delete_prop v key : cache_blind (@delete_prop W v key).
Proof.
  intros k m. unfold delete_prop. destruct v; try reflexivity. cbn.
  destruct (heap (st m) !! l); reflexivity.
Qed.

Lemma cache_blind_array_push v x : cache_blind (@array_push W v x).
Proof.
  intros k m. unfold array_push. destruct v; try reflexivity. cbn.
  destruct (heap (st m) !! l) as [[[] es ps]|]; reflexivity.
Qed.

Lemma cache_blind_array_get v i : cache_blind (@array_get W v i).
Proof.
  intros k m. unfold array_get. destruct v; try reflexivity. cbn.
  destruct (heap (st m) !! l); reflexivity.
Qed.

(** A cache-blind computation followed by code that uses the cache. *)
Lemma bind_blind {A B} (c : M W A) (f : A -> M W B) k m :
  cache_blind c ->
  bind c f (set_cache k m)
  = match c m with
    | (Normal x, m2) => f x (set_cache k m2)
    | (Abrupt e, m2) => (Abrupt e, set_cache k m2)
    end.
Proof.
  intros Hc. unfold bind. rewrite Hc.
  destruct (c m) as [[x|e] m2]; reflexivity.
Qed.

End CacheBlind.

#[global] Hint Resolve cache_blind_ret cache_blind_call cache_blind_apply_op
  cache_blind_alloc cache_blind_get_prop cache_blind_set_prop
  cache_blind_delete_prop cache_blind_array_push cache_blind_array_get : blind.

Ltac blind :=
  repeat first
    [ apply cache_blind_bind; [| intros ?]
    | apply cache_blind_try_catch
    | apply cache_blind_if
    | solve [unfold new_array, new_object, new_function; auto with blind] ].

(** ** obj-mutated-after-if-else-with-alias: [foo] *)

Section Foo.
Import ObjMutatedAfterIfElseWithAlias.
Context {W : Type}.
Variable someObj : extern W.
Implicit Types (m : machine W) (a b c d : value).

Lemma foo_scope_blind a : cache_blind (foo_scope someObj a).
Proof. unfold foo_scope. blind. Qed.

Lemma foo_code_run a b c d m :
  foo_code someObj a b c d m
  = match call "someObj" someObj [] (set_cache (Some (cache_of 2 m)) m) with
    | (Normal _, m1) =>
        if strict_ne (default VUndefined (cache_of 2 m !! 0)) a then
          match foo_scope someObj a m1 with
          | (Normal x, m2) =>
              (Normal x,
               set_cache (Some (array_store 1 x (array_store 0 a (cache_of 2 m)))) m2)
          | (Abrupt e, m2) => (Abrupt e, m2)
          end
        else (Normal (default VUndefined (cache_of 2 m !! 1)), m1)
    | (Abrupt e, m1) => (Abrupt e, m1)
    end.
Proof.
  unfold foo_code. unfold bind at 1. rewrite useMemoCache_run.
  unfold bind at 1. fold (set_cache (Some (cache_of 2 m)) m).
  pose proof (cache_blind_cache (call "someObj" someObj [])
                (set_cache (Some (cache_of 2 m)) m) (cache_blind_call _ _ _)) as Hc.
  destruct (call "someObj" someObj [] _) as [[u|e] m1]; [| reflexivity].
  cbn in Hc. unfold bind at 1, slot_get at 1, slots. rewrite Hc. cbn [default].
  destruct (strict_ne _ a).
  - pose proof (cache_blind_cache _ m1 (foo_scope_blind a)) as Hc2.
    unfold foo_scope in *.
    match goal with
    | |- context [bind (if truthy a then ?f else ?g)] =>
        set (first := if truthy a then f else g) in *
    end.
    clearbody first.
    unfold bind, ret, slot_set, slots, set_cache in *.
    destruct (first m1) as [[x|e] m2]; [| reflexivity].
    destruct (set_prop x "f" (VNum 1) m2) as [[[]|e] m3]; [| reflexivity].
    cbn in *. rewrite Hc2, Hc. reflexivity.
  - unfold slot_get, slots. rewrite Hc. reflexivity.
Qed.

Lemma array_store_pair (x y : value) (k : list value) :
  length k = 2 -> array_store 1 y (array_store 0 x k) = [x; y].
Proof.
  destruct k as [| k0 [| k1 [| k2 k]]]; cbn; intros H; try discriminate H.
  reflexivity.
Qed.

(** The two branches of the scope of [foo], on a machine where the call
    in front of the scope returns. *)
Lemma foo_code_dispatch a b c d u m m1 :
  length (cache_of 2 m) = 2 ->
  call "someObj" someObj [] m = (Normal u, m1) ->
  (strict_ne (default VUndefined (cache_of 2 m !! 0)) a = true ->
   foo_code someObj a b c d m
   = match foo_scope someObj a m1 with
     | (Normal x, m2) => (Normal x, set_cache (Some [a; x]) m2)
     | (Abrupt e, m2) => (Abrupt e, set_cache (Some (cache_of 2 m)) m2)
     end)
  /\ (strict_ne (default VUndefined (cache_of 2 m !! 0)) a = false ->
      foo_code someObj a b c d m
      = (Normal (default VUndefined (cache_of 2 m !! 1)),
         set_cache (Some (cache_of 2 m)) m1)).
Proof.
  intros Hlen Hcall. rewrite foo_code_run.
  rewrite (cache_blind_call "someObj" someObj []), Hcall. cbn [fst snd].
  split; intros ->; [| reflexivity].
  rewrite (foo_scope_blind a).
  destruct (foo_scope someObj a m1) as [[x|e] m2]; cbn [fst snd]; [| reflexivity].
  rewrite array_store_pair by assumption. reflexivity.
Qed.

End Foo.

(** ** unnamed/part_002: [Component] with a [do ... while] left by [break] *)

Section DoWhile.
Import DoWhileBreak.
Context {W : Type}.
Variable mutate : extern W.
Implicit Types (m : machine W) (props : value).

Lemma doWhile_scope_blind : cache_blind (doWhile_scope mutate).
Proof. unfold doWhile_scope. blind. Qed.

Lemma array_store_single (x : value) (k : list value) :
  length k = 1 -> array_store 0 x k = [x].
Proof.
  destruct k as [| k0 [| k1 k]]; cbn; intros H; try discriminate H. reflexivity.
Qed.

Lemma doWhile_code_run props m :
  Component_code mutate props m
  = if strict_eq (default VUndefined (cache_of 1 m !! 0)) memo_cache_sentinel then
      match doWhile_scope mutate m with
      | (Normal x, m2) =>
          (Normal x, set_cache (Some (array_store 0 x (cache_of 1 m))) m2)
      | (Abrupt e, m2) => (Abrupt e, set_cache (Some (cache_of 1 m)) m2)
      end
    else
      (Normal (default VUndefined (cache_of 1 m !! 0)),
       set_cache (Some (cache_of 1 m)) m).
Proof.
  unfold Component_code. unfold bind at 1. rewrite useMemoCache_run.
  unfold bind at 1, slot_get at 1, slots. cbn [cache default].
  fold (set_cache (Some (cache_of 1 m)) m).
  destruct (strict_eq _ memo_cache_sentinel); [| reflexivity].
  assert (E : forall m',
    (let* x := new_array [VNum 1; VNum 2; VNum 3] in
     call "mutate" mutate [x];; slot_set 0 x;; ret x) m'
    = bind (doWhile_scope mutate) (fun x => slot_set 0 x;; ret x) m').
  { intros m'. unfold doWhile_scope. rewrite bind_assoc.
    apply bind_ext; intros x m1. rewrite bind_assoc.
    apply bind_ext; intros u m2. reflexivity. }
  rewrite E, bind_blind by apply doWhile_scope_blind.
  destruct (doWhile_scope mutate m) as [[x|e] m2]; reflexivity.
Qed.

End DoWhile.

(** ** try-catch-with-return: [Component] *)

Section TryCatch.
Import TryCatchWithReturn.
Context {W : Type}.
Variables shallowCopy throwInput : extern W.
Implicit Types (m : machine W) (props : value).

Lemma tryCatch_scope_blind : cache_blind (tryCatch_scope shallowCopy throwInput).
Proof. unfold tryCatch_scope, tryCatch_block. blind. Qed.

(** The scope never throws: it yields the new array and one of the
    three values [t0] can take. *)
Lemma tryCatch_scope_result m :
  exists t0 m2,
    tryCatch_scope shallowCopy throwInput m
    = (Normal (VRef (length (heap (st m))), t0), m2)
    /\ (t0 = VUndefined \/ t0 = VNull \/ t0 = early_return_sentinel).
Proof.
  unfold tryCatch_scope, bind at 1, new_array, alloc.
  unfold bind at 1, try_catch, ret.
  destruct (tryCatch_block _ _ _ _) as [[t0|e] m2] eqn:E.
  - exists t0, m2. split; [reflexivity |].
    unfold tryCatch_block, bind, ret, new_object, alloc in E.
    destruct (call "shallowCopy" _ _ _) as [[y|e] m3]; [| discriminate E].
    destruct (loose_eq_null y).
    + injection E as <- _. left. reflexivity.
    + destruct (call "throwInput" _ _ _) as [[t|e] m4]; [| discriminate E].
      destruct (array_push _ _ _) as [[[]|e] m5]; [| discriminate E].
      injection E as <- _. right. right. reflexivity.
  - exists VNull, m2. split; [reflexivity |]. right. left. reflexivity.
Qed.

Lemma tryCatch_input_run props m :
  Component_input shallowCopy throwInput props m
  = match tryCatch_scope shallowCopy throwInput m with
    | (Normal xt, m2) => (Normal (early_return (fst xt) (snd xt)), m2)
    | (Abrupt e, m2) => (Abrupt e, m2)
    end.
Proof.
  unfold Component_input, tryCatch_scope, tryCatch_block.
  unfold bind, try_catch, ret, new_array, new_object, alloc. cbv beta.
  destruct (call "shallowCopy" shallowCopy _ _) as [[y|e] m3]; [| reflexivity].
  destruct (loose_eq_null y); [reflexivity |].
  destruct (call "throwInput" throwInput _ _) as [[t|e] m4]; [| reflexivity].
  destruct (array_push _ t m4) as [[[]|e] m5]; reflexivity.
Qed.

Lemma tryCatch_code_run props m :
  Component_code shallowCopy throwInput props m
  = if strict_eq (default VUndefined (cache_of 2 m !! 0)) memo_cache_sentinel then
      match tryCatch_scope shallowCopy throwInput m with
      | (Normal xt, m2) =>
          (Normal (early_return (fst xt) (snd xt)),
           set_cache (Some (array_store 1 (snd xt)
                              (array_store 0 (fst xt) (cache_of 2 m)))) m2)
      | (Abrupt e, m2) => (Abrupt e, set_cache (Some (cache_of 2 m)) m2)
      end
    else
      (Normal (early_return (default VUndefined (cache_of 2 m !! 0))
                            (default VUndefined (cache_of 2 m !! 1))),
       set_cache (Some (cache_of 2 m)) m).
Proof.
  unfold Component_code. unfold bind at 1. rewrite useMemoCache_run.
  unfold bind at 1, slot_get at 1, slots. cbn [cache default].
  fold (set_cache (Some (cache_of 2 m)) m).
  destruct (strict_eq _ memo_cache_sentinel).
  2: { unfold bind, slot_get, slots, ret, early_return. cbn.
       destruct (strict_ne _ early_return_sentinel); reflexivity. }
  unfold bind at 1.
  match goal with
  | |- context [bind (new_array []) ?k (set_cache ?c m)] =>
      assert (E : forall m',
        bind (new_array []) k m'
        = bind (tryCatch_scope shallowCopy throwInput)
               (fun xt => slot_set 0 (fst xt);; slot_set 1 (snd xt);; ret xt) m')
  end.
  { intros m'. unfold tryCatch_scope. rewrite bind_assoc.
    apply bind_ext; intros x m1. rewrite bind_assoc.
    apply bind_ext; intros t0 m2. reflexivity. }
  rewrite E, bind_blind by apply tryCatch_scope_blind.
  destruct (tryCatch_scope _ _ m) as [[[x t0]|e] m2]; [| reflexivity].
  unfold bind, slot_set, slots, ret, early_return. cbn.
  destruct (strict_ne t0 early_return_sentinel); reflexivity.
Qed.

End TryCatch.

(** ** hoisting-within-lambda, second fixture: [Component] with [delete] *)

Section DeleteProp.
Import DeleteProperty.
Context {W : Type}.
Implicit Types (m : machine W) (props : value) (h : list obj).

Lemma get_prop_run v k m :
  get_prop v k m
  = if loose_eq_null v then (Abrupt TypeError, m)
    else (Normal (prop_of (heap (st m)) v k), m).
Proof.
  unfold get_prop, prop_of. destruct v; try reflexivity. cbn.
  destruct (heap (st m) !! l); reflexivity.
Qed.

Lemma prop_of_app h (o : obj) v k :
  valid_value h v -> prop_of (h ++ [o]) v k = prop_of h v k.
Proof.
  destruct v; try reflexivity. cbn. intros Hl.
  rewrite lookup_app_l by exact Hl. reflexivity.
Qed.

Lemma array_store_triple (x y z : value) (k : list value) :
  length k = 3 -> array_store 2 z (array_store 1 y (array_store 0 x k)) = [x; y; z].
Proof.
  destruct k as [| k0 [| k1 [| k2 [| k3 k]]]]; cbn; intros H; try discriminate H.
  reflexivity.
Qed.

Lemma deleteProperty_input_run props m :
  loose_eq_null props = false ->
  Component_input props m
  = (Normal (VRef (length (heap (st m)))),
     set_heap (heap (st m) ++ [Obj KObject [] [("a", prop_of (heap (st m)) props "a")]]) m).
Proof.
  intros Hn. unfold Component_input.
  unfold bind at 1. rewrite get_prop_run, Hn.
  unfold bind at 1. rewrite get_prop_run, Hn.
  unfold bind, new_object, alloc, ret. heap_step. reflexivity.
Qed.

Lemma deleteProperty_code_run props m :
  loose_eq_null props = false ->
  valid_value (heap (st m)) props ->
  Component_code props m
  = if strict_ne (default VUndefined (cache_of 3 m !! 0)) (prop_of (heap (st m)) props "a")
       || strict_ne (default VUndefined (cache_of 3 m !! 1)) (prop_of (heap (st m)) props "b")
    then
      (Normal (VRef (length (heap (st m)))),
       Machine (Store (heap (st m) ++ [Obj KObject [] [("a", prop_of (heap (st m)) props "a")]])
                      (world (st m)))
               (Some (array_store 2 (VRef (length (heap (st m))))
                        (array_store 1 (prop_of (heap (st m)) props "b")
                           (array_store 0 (prop_of (heap (st m)) props "a")
                              (cache_of 3 m)))))
               (trace m))
    else
      (Normal (default VUndefined (cache_of 3 m !! 2)),
       set_cache (Some (cache_of 3 m)) m).
Proof.
  intros Hn Hv. unfold Component_code. unfold bind at 1. rewrite useMemoCache_run.
  unfold bind at 1.
  assert (Htest :
    (let* c0 := slot_get 0 in
     let* pa := get_prop props "a" in
     if strict_ne c0 pa then ret true
     else let* c1 := slot_get 1 in
          let* pb := get_prop props "b" in
          ret (strict_ne c1 pb))
      (Machine (st m) (Some (cache_of 3 m)) (trace m))
    = (Normal (strict_ne (default VUndefined (cache_of 3 m !! 0))
                         (prop_of (heap (st m)) props "a")
               || strict_ne (default VUndefined (cache_of 3 m !! 1))
                            (prop_of (heap (st m)) props "b")),
       Machine (st m) (Some (cache_of 3 m)) (trace m))).
  { unfold bind, slot_get, slots, ret. cbn. rewrite get_prop_run, Hn. cbn.
    destruct (strict_ne _ (prop_of _ props "a")); [reflexivity |].
    rewrite get_prop_run, Hn. reflexivity. }
  rewrite Htest. clear Htest.
  destruct (_ || _); [| reflexivity].
  unfold bind at 1. rewrite get_prop_run, Hn.
  unfold bind at 1. rewrite get_prop_run, Hn.
  unfold bind at 1, new_object, alloc.
  unfold bind at 1. heap_step.
  unfold bind at 1. rewrite get_prop_run, Hn.
  unfold bind at 1, slot_set at 1.
  unfold bind at 1. rewrite get_prop_run, Hn.
  unfold bind, slot_set, slots, ret. cbn.
  rewrite !prop_of_app by exact Hv. reflexivity.
Qed.

End DeleteProp.

(** ** Slot counts *)

Lemma scope_layout_length (scopes : list scope_values) :
  length (scope_layout scopes) = slot_total scopes.
Proof.
  unfold scope_layout, slot_total.
  induction scopes as [| s scopes IH]; [reflexivity |].
  cbn [flat_map map list_sum]. rewrite !length_app, IH. reflexivity.
Qed.

Section SlotCounts.
Context {W : Type}.
Implicit Types (m : machine W).

Lemma set_cache_fresh size m :
  cache m = None ->
  cache_of size m = replicate size memo_cache_sentinel
  /\ cache_of size (set_cache (Some (replicate size memo_cache_sentinel)) m)
     = replicate size memo_cache_sentinel.
Proof. intros H. unfold cache_of. rewrite H. split; reflexivity. Qed.



End SlotCounts.

(** ** capture_mutate-across-fns and capturing-function-alias-computed-load *)

Section Closures.
Context {W : Type}.
Implicit Types (m : machine W) (a : value).

Lemma component_code_run a m :
  CaptureMutateAcrossFns.component_code a m
  = if strict_ne (default VUndefined (cache_of 2 m !! 0)) a then
      (Normal (VRef (length (heap (st m)))),
       Machine (Store (heap (st m) ++ [Obj KObject [] [("a", a); ("b", VNum 1)];
                                       Obj (KFunction "f0") [] [];
                                       Obj (KFunction "f1") [] []])
                      (world (st m)))
               (Some (array_store 1 (VRef (length (heap (st m))))
                        (array_store 0 a (cache_of 2 m))))
               (trace m))
    else
      (Normal (default VUndefined (cache_of 2 m !! 1)),
       set_cache (Some (cache_of 2 m)) m).
Proof.
  unfold CaptureMutateAcrossFns.component_code.
  unfold bind at 1. rewrite useMemoCache_run.
  unfold bind at 1, slot_get at 1, slots. cbn [cache default].
  destruct (strict_ne _ a); [| reflexivity].
  unfold bind, new_object, new_function, alloc, slot_set, slots, ret. cbn.
  rewrite <- !app_assoc. cbn [app].
  match goal with
  | |- context [set_prop (VRef (length ?h)) ?k ?x ?m'] =>
      rewrite (set_prop_at h k _ x _ m' eq_refl)
  end.
  reflexivity.
Qed.

Lemma component_input_run a m :
  CaptureMutateAcrossFns.component_input a m
  = (Normal (VRef (length (heap (st m)))),
     set_heap (heap (st m) ++ [Obj KObject [] [("a", a); ("b", VNum 1)];
                               Obj (KFunction "f0") [] [];
                               Obj (KFunction "f1") [] []]) m).
Proof.
  unfold CaptureMutateAcrossFns.component_input.
  unfold bind, new_object, new_function, alloc, ret. cbn.
  rewrite <- !app_assoc. cbn [app].
  match goal with
  | |- context [set_prop (VRef (length ?h)) ?k ?x ?m'] =>
      rewrite (set_prop_at h k _ x _ m' eq_refl)
  end.
  reflexivity.
Qed.

Lemma bar_code_run a m :
  CapturingFunctionAliasComputedLoad.bar_code a m
  = if strict_ne (default VUndefined (cache_of 2 m !! 0)) a then
      (Normal a,
       Machine (Store (heap (st m) ++ [Obj KArray [a] [];
                                       Obj KObject [] [];
                                       Obj (KFunction "f0") [] []])
                      (world (st m)))
               (Some (array_store 1 a (array_store 0 a (cache_of 2 m))))
               (trace m))
    else
      (Normal (default VUndefined (cache_of 2 m !! 1)),
       set_cache (Some (cache_of 2 m)) m).
Proof.
  unfold CapturingFunctionAliasComputedLoad.bar_code.
  unfold bind at 1. rewrite useMemoCache_run.
  unfold bind at 1, slot_get at 1, slots. cbn [cache default].
  destruct (strict_ne _ a); [| reflexivity].
  unfold bind, new_array, new_object, new_function, alloc, slot_set, slots, ret. cbn.
  rewrite <- !app_assoc. cbn [app].
  match goal with
  | |- context [array_get (VRef (length ?h)) ?i ?m'] =>
      rewrite (array_get_at h _ _ i _ m' eq_refl)
  end.
  reflexivity.
Qed.

Lemma bar_input_run a m :
  CapturingFunctionAliasComputedLoad.bar_input a m
  = (Normal a,
     set_heap (heap (st m) ++ [Obj KArray [a] [];
                               Obj KObject [] [];
                               Obj (KFunction "f0") [] []]) m).
Proof.
  unfold CapturingFunctionAliasComputedLoad.bar_input.
  unfold bind, new_array, new_object, new_function, alloc, ret. cbn.
  rewrite <- !app_assoc. cbn [app].
  match goal with
  | |- context [array_get (VRef (length ?h)) ?i ?m'] =>
      rewrite (array_get_at h _ _ i _ m' eq_refl)
  end.
  reflexivity.
Qed.

End Closures.

(** ** First invocations *)

Section FirstInvocations.
Context {W : Type}.
Implicit Types (m : machine W).

(** The first invocation of the compiled [Component] of
    try-catch-with-return runs the scope and stores [x] and [t0]. *)
Lemma tryCatch_first (shallowCopy throwInput : extern W) (props : value) m :
  length (cache_of 2 m) = 2 ->
  default VUndefined (cache_of 2 m !! 0) = memo_cache_sentinel ->
  exists t0 m2,
    tryCatch_scope shallowCopy throwInput m
    = (Normal (VRef (length (heap (st m))), t0), m2)
    /\ (t0 = VUndefined \/ t0 = VNull \/ t0 = early_return_sentinel)
    /\ TryCatchWithReturn.Component_code shallowCopy throwInput props m
       = (Normal (early_return (VRef (length (heap (st m)))) t0),
          set_cache (Some [VRef (length (heap (st m))); t0]) m2).
Proof.
  intros Hlen Hslot.
  destruct (tryCatch_scope_result shallowCopy throwInput m) as (t0 & m2 & E & Ht0).
  exists t0, m2. split; [exact E | split; [exact Ht0 |]].
  rewrite tryCatch_code_run, Hslot, E. cbn [strict_eq memo_cache_sentinel].
  rewrite String.eqb_refl. cbn [fst snd].
  rewrite array_store_pair by assumption. reflexivity.
Qed.

(** The scope of the [do ... while] fixture yields the array it creates. *)
Lemma doWhile_scope_result (mutate : extern W) (x : value) m m2 :
  doWhile_scope mutate m = (Normal x, m2) -> x = VRef (length (heap (st m))).
Proof.
  unfold doWhile_scope, bind, new_array, alloc, ret. intros E.
  destruct (call "mutate" mutate _ _) as [[u|e] m3]; [| discriminate E].
  injection E as <- _. reflexivity.
Qed.

End FirstInvocations.

(** ** useMemo-maybe-modified-later, with and without
       [enablePreserveExistingMemoizationGuarantees] *)

Section UseMemo.
Import UseMemoMaybeModifiedLater.
Context {W : Type}.
Variables makeObject_Primitives identity : extern W.
Implicit Types (m : machine W) (props : value).

Lemma call_cache name (f : extern W) args m :
  cache (snd (call name f args m)) = cache m.
Proof. apply cache_blind_cache, cache_blind_call. Qed.

Lemma call_trace name (f : extern W) args m :
  trace (snd (call name f args m)) = trace m ++ [Called name args].
Proof. unfold call. destruct (f args (st m)). reflexivity. Qed.

Lemma call_run name (f : extern W) args (r : completion value) (s' : store W) m :
  f args (st m) = (r, s') ->
  call name f args m = (r, Machine s' (cache m) (trace m ++ [Called name args])).
Proof. intros H. unfold call. rewrite H. reflexivity. Qed.

Lemma preserve_run props m :
  Component_code_preserve makeObject_Primitives identity props m
  = if strict_eq (default VUndefined (cache_of 1 m !! 0)) memo_cache_sentinel then
      match call "makeObject_Primitives" makeObject_Primitives []
                 (set_cache (Some (cache_of 1 m)) m) with
      | (Normal t1, m1) =>
          match call "identity" identity [t1]
                     (set_cache (Some (array_store 0 t1 (cache_of 1 m))) m1) with
          | (Normal _, m2) => (Normal t1, m2)
          | (Abrupt e, m2) => (Abrupt e, m2)
          end
      | (Abrupt e, m1) => (Abrupt e, m1)
      end
    else
      match call "identity" identity [default VUndefined (cache_of 1 m !! 0)]
                 (set_cache (Some (cache_of 1 m)) m) with
      | (Normal _, m2) => (Normal (default VUndefined (cache_of 1 m !! 0)), m2)
      | (Abrupt e, m2) => (Abrupt e, m2)
      end.
Proof.
  unfold Component_code_preserve. unfold bind at 1. rewrite useMemoCache_run.
  unfold bind at 1, slot_get at 1, slots. cbn [cache default].
  fold (set_cache (Some (cache_of 1 m)) m).
  destruct (strict_eq _ memo_cache_sentinel).
  - unfold bind at 1. unfold bind at 1.
    pose proof (call_cache "makeObject_Primitives" makeObject_Primitives []
                  (set_cache (Some (cache_of 1 m)) m)) as Hc.
    destruct (call "makeObject_Primitives" _ _ _) as [[t1|e] m1]; [| reflexivity].
    cbn in Hc. unfold bind, slot_set, slots, ret, set_cache. rewrite Hc. cbn.
    destruct (call "identity" identity [t1] _) as [[u|e] m2]; reflexivity.
  - unfold bind, slot_get, slots, ret. cbn.
    destruct (call "identity" identity _ _) as [[u|e] m2]; reflexivity.
Qed.

Lemma no_preserve_run props m :
  Component_code_no_preserve makeObject_Primitives identity props m
  = if strict_eq (default VUndefined (cache_of 2 m !! 0)) memo_cache_sentinel then
      match call "makeObject_Primitives" makeObject_Primitives []
                 (set_cache (Some (cache_of 2 m)) m) with
      | (Normal t7, m1) =>
          match call "identity" identity [t7] m1 with
          | (Normal _, m2) =>
              (Normal t7,
               set_cache (Some (array_store 1 t7 (array_store 0 t7 (cache_of 2 m)))) m2)
          | (Abrupt e, m2) => (Abrupt e, m2)
          end
      | (Abrupt e, m1) => (Abrupt e, m1)
      end
    else
      (Normal (default VUndefined (cache_of 2 m !! 0)),
       set_cache (Some (cache_of 2 m)) m).
Proof.
  unfold Component_code_no_preserve. unfold bind at 1. rewrite useMemoCache_run.
  unfold bind at 1, slot_get at 1, slots. cbn [cache default].
  fold (set_cache (Some (cache_of 2 m)) m).
  destruct (strict_eq _ memo_cache_sentinel); [| reflexivity].
  unfold bind at 1. unfold bind at 1.
  pose proof (call_cache "makeObject_Primitives" makeObject_Primitives []
                (set_cache (Some (cache_of 2 m)) m)) as Hc.
  destruct (call "makeObject_Primitives" _ _ _) as [[t7|e] m1]; [| reflexivity].
  cbn in Hc. unfold bind at 1.
  pose proof (call_cache "identity" identity [t7] m1) as Hc2.
  destruct (call "identity" identity [t7] m1) as [[u|e] m2]; [| reflexivity].
  cbn in Hc2. unfold bind, slot_set, slots, ret, set_cache. cbn.
  rewrite Hc2, Hc. reflexivity.
Qed.

End UseMemo.

(** ** Calls in front of a scope and calls inside it *)

Section Traces.
Context {W : Type}.
Implicit Types (m : machine W).







End Traces.

(** ** Who wrote the cache

    If every invocation either leaves the cache array as it was or
    writes a content described by [Q], then after any number of
    invocations the array is the initial one or was written, as a
    whole, by one of them. *)

Section SingleWriter.
Context {W A : Type}.
Variable f : A -> M W value.
Variable n : nat.
Variable Q : A -> completion value -> list value -> Prop.
Hypothesis step :
  forall a (m : machine W),
    length (cache_of n m) = n ->
    exists c',
      cache (snd (f a m)) = Some c'
      /\ length c' = n
      /\ (c' = cache_of n m \/ Q a (fst (f a m)) c').

Lemma run_all_single_writer (args : list A) (m : machine W) :
  length (cache_of n m) = n ->
  cache_of n (snd (run_all f args m)) = cache_of n m
  \/ exists k a res,
       args !! k = Some a
       /\ fst (run_all f args m) !! k = Some res
       /\ Q a res (cache_of n (snd (run_all f args m))).
Proof.
  revert m. induction args as [| a args IH]; intros m Hlen.
  - left. reflexivity.
  - cbn [run_all].
    destruct (step a m Hlen) as (c' & Hc' & Hlen' & Hwho).
    assert (Hof : cache_of n (snd (f a m)) = c') by (unfold cache_of; rewrite Hc'; reflexivity).
    specialize (IH (snd (f a m))). rewrite Hof in IH. specialize (IH Hlen').
    destruct (run_all f args (snd (f a m))) as [rs m'] eqn:E. cbn [fst snd] in *.
    destruct IH as [Hsame | (k & a' & res & Hk & Hres & HQ)].
    + rewrite Hsame. destruct Hwho as [-> | HQ]; [left; reflexivity |].
      right. exists 0, a, (fst (f a m)). repeat split. exact HQ.
    + right. exists (S k), a', res. repeat split; assumption.
Qed.

End SingleWriter.

Section CacheWrites.
Context {W : Type}.
Implicit Types (m : machine W).

Lemma foo_code_cache (someObj : extern W) (a b c d : value) m :
  length (cache_of 2 m) = 2 ->
  (strict_ne (default VUndefined (cache_of 2 m !! 0)) a = false ->
   cache (snd (ObjMutatedAfterIfElseWithAlias.foo_code someObj a b c d m))
   = Some (cache_of 2 m))
  /\ (cache (snd (ObjMutatedAfterIfElseWithAlias.foo_code someObj a b c d m))
      = Some (cache_of 2 m)
      \/ exists x,
           fst (ObjMutatedAfterIfElseWithAlias.foo_code someObj a b c d m) = Normal x
           /\ cache (snd (ObjMutatedAfterIfElseWithAlias.foo_code someObj a b c d m))
              = Some [a; x]).
Proof.
  intros Hlen. rewrite foo_code_run.
  pose proof (call_cache "someObj" someObj [] (set_cache (Some (cache_of 2 m)) m)) as Hc.
  destruct (call "someObj" someObj [] _) as [[u|e] m1]; cbn [snd set_cache cache] in Hc.
  2: { split; [intros _ |]; [| left]; exact Hc. }
  destruct (strict_ne _ a).
  - split; [discriminate |].
    pose proof (cache_blind_cache _ m1 (foo_scope_blind someObj a)) as Hc2.
    destruct (foo_scope someObj a m1) as [[x|e] m2]; cbn [snd fst] in *.
    + right. exists x. rewrite array_store_pair by assumption. split; reflexivity.
    + left. congruence.
  - split; [intros _ |]; [| left]; exact Hc.
Qed.

Lemma tryCatch_code_cache (shallowCopy throwInput : extern W) (props : value) m :
  length (cache_of 2 m) = 2 ->
  (default VUndefined (cache_of 2 m !! 0) <> memo_cache_sentinel ->
   cache (snd (TryCatchWithReturn.Component_code shallowCopy throwInput props m))
   = Some (cache_of 2 m))
  /\ (cache (snd (TryCatchWithReturn.Component_code shallowCopy throwInput props m))
      = Some (cache_of 2 m)
      \/ exists x t0,
           fst (TryCatchWithReturn.Component_code shallowCopy throwInput props m)
           = Normal (early_return x t0)
           /\ cache (snd (TryCatchWithReturn.Component_code shallowCopy throwInput props m))
              = Some [x; t0]).
Proof.
  intros Hlen. rewrite tryCatch_code_run.
  destruct (strict_eq _ memo_cache_sentinel) eqn:E.
  - apply strict_eq_sentinel in E. split; [intros Hne; contradiction |].
    destruct (tryCatch_scope shallowCopy throwInput m) as [[[x t0]|e] m2]; cbn [fst snd].
    + right. exists x, t0. rewrite array_store_pair by assumption. split; reflexivity.
    + left. reflexivity.
  - split; [intros _ |]; [| left]; reflexivity.
Qed.

End CacheWrites.

(** ** [foo] with a pure constructor for [someObj] *)

Section FooRefinement.
Import ObjMutatedAfterIfElseWithAlias.
Context {W : Type}.
Variable someObj : extern W.
Variable o : obj.
Hypothesis someObj_allocates : allocates o someObj.
Implicit Types (m : machine W) (a b c d : value).

Lemma set_prop_end (h : list obj) (o' : obj) k x m :
  heap (st m) = h ++ [o'] ->
  set_prop (VRef (length h)) k x m = (Normal tt, set_heap (h ++ [with_prop k x o']) m).
Proof.
  intros Hh. unfold set_prop. rewrite Hh, lookup_last, insert_last. reflexivity.
Qed.

Lemma someObj_call m :
  call "someObj" someObj [] m
  = (Normal (VRef (length (heap (st m)))),
     Machine (Store (heap (st m) ++ [o]) (world (st m))) (cache m)
             (trace m ++ [Called "someObj" []])).
Proof. apply call_run. apply someObj_allocates. Qed.

Lemma foo_scope_pure a m :
  foo_scope someObj a m
  = (Normal (VRef (length (heap (st m)))),
     Machine (Store (heap (st m) ++ [with_prop "f" (VNum 1) o]) (world (st m))) (cache m)
             (trace m ++ [Called "someObj" []])).
Proof.
  unfold foo_scope. unfold bind at 1.
  assert (H : forall m',
    (if truthy a
     then let* y := call "someObj" someObj [] in let z := y in ret z
     else call "someObj" someObj []) m'
    = call "someObj" someObj [] m').
  { intros m'. destruct (truthy a); [| reflexivity].
    unfold bind, ret. destruct (call _ _ _ m') as [[x|e] m2]; reflexivity. }
  rewrite H, someObj_call. unfold bind, ret.
  match goal with
  | |- context [set_prop (VRef (length ?h)) ?k ?x ?m'] =>
      rewrite (set_prop_end h o k x m' eq_refl)
  end.
  reflexivity.
Qed.

Lemma foo_input_observe a b c d m :
  observe (foo_input someObj a b c d m) = Normal (Object (with_prop "f" (VNum 1) o)).
Proof.
  unfold foo_input. unfold bind at 1. rewrite someObj_call.
  change (observe
            (foo_scope someObj a
               (Machine (Store (heap (st m) ++ [o]) (world (st m))) (cache m)
                        (trace m ++ [Called "someObj" []])))
          = Normal (Object (with_prop "f" (VNum 1) o))).
  rewrite foo_scope_pure. unfold observe. cbn. rewrite lookup_last. reflexivity.
Qed.

Lemma foo_code_observe a b c d m :
  foo_cache_ok o m ->
  a <> memo_cache_sentinel ->
  observe (foo_code someObj a b c d m) = Normal (Object (with_prop "f" (VNum 1) o))
  /\ foo_cache_ok o (snd (foo_code someObj a b c d m)).
Proof.
  intros Hok Ha. rewrite foo_code_run, someObj_call. cbn [set_cache st cache trace heap].
  destruct (strict_ne (default VUndefined (cache_of 2 m !! 0)) a) eqn:E.
  - rewrite foo_scope_pure. cbn [st heap world cache trace].
    assert (Hlen : length (cache_of 2 m) = 2)
      by (destruct Hok as [Hc | (a0 & l & Hc & _)]; rewrite Hc; reflexivity).
    rewrite array_store_pair by exact Hlen.
    unfold observe. cbn. rewrite lookup_last. split; [reflexivity |].
    right. eexists a, _. split; [reflexivity |]. cbn. apply lookup_last.
  - destruct Hok as [Hc | (a0 & l & Hc & Hl)]; rewrite Hc in E |- *; cbn in E.
    + rewrite strict_ne_sentinel in E by exact Ha. discriminate E.
    + clear E. unfold observe.
      change (default VUndefined ([a0; VRef l] !! 1)) with (VRef l).
      cbn [fst snd st heap view_of].
      rewrite lookup_app_l by (eapply lookup_lt_Some; exact Hl).
      rewrite Hl. split; [reflexivity |].
      right. exists a0, l. split; [reflexivity |]. cbn.
      rewrite lookup_app_l by (eapply lookup_lt_Some; exact Hl). exact Hl.
Qed.

(** One invocation of the compiled [foo]: a hit leaves the cache array as
    it was, a miss writes the argument and the new object. *)
Lemma foo_code_pure_cache a b c d m :
  length (cache_of 2 m) = 2 ->
  (strict_ne (default VUndefined (cache_of 2 m !! 0)) a = false
   /\ cache (snd (foo_code someObj a b c d m)) = Some (cache_of 2 m))
  \/ (strict_ne (default VUndefined (cache_of 2 m !! 0)) a = true
      /\ exists l,
           fst (foo_code someObj a b c d m) = Normal (VRef l)
           /\ cache (snd (foo_code someObj a b c d m)) = Some [a; VRef l]).
Proof.
  intros Hlen.
  destruct (foo_code_dispatch someObj a b c d _ m _ Hlen (someObj_call m)) as [Hmiss Hhit].
  destruct (strict_ne (default VUndefined (cache_of 2 m !! 0)) a) eqn:E.
  - right. split; [reflexivity |]. rewrite (Hmiss eq_refl), foo_scope_pure.
    eexists. split; reflexivity.
  - left. split; [reflexivity |]. rewrite (Hhit eq_refl). reflexivity.
Qed.

(** After a first invocation with an argument other than the sentinel,
    the two slots hold the argument and the object of one and the same
    invocation, whatever follows. *)
Lemma foo_run_written (args : list (value * value * value * value)) m :
  length (cache_of 2 m) = 2 ->
  cache_of 2 (snd (run_all (fun p => foo_code someObj (fst (fst (fst p)))
                                       (snd (fst (fst p))) (snd (fst p)) (snd p))
                           args m))
  = cache_of 2 m
  \/ exists k p l,
       args !! k = Some p
       /\ fst (run_all (fun p => foo_code someObj (fst (fst (fst p)))
                                   (snd (fst (fst p))) (snd (fst p)) (snd p))
                       args m) !! k = Some (Normal (VRef l))
       /\ cache_of 2 (snd (run_all (fun p => foo_code someObj (fst (fst (fst p)))
                                            (snd (fst (fst p))) (snd (fst p)) (snd p))
                                args m))
          = [fst (fst (fst p)); VRef l].
Proof.
  intros Hlen.
  destruct (run_all_single_writer
              (fun p => foo_code someObj (fst (fst (fst p))) (snd (fst (fst p)))
                          (snd (fst p)) (snd p))
              2
              (fun p res slots => exists l, res = Normal (VRef l)
                                            /\ slots = [fst (fst (fst p)); VRef l]))
    with (args := args) (m := m) as [Hsame | (k & p & res & Hk & Hres & l & -> & Hc)].
  - intros p m' Hlen'.
    destruct (foo_code_pure_cache (fst (fst (fst p))) (snd (fst (fst p)))
                (snd (fst p)) (snd p) m' Hlen') as [[_ Hc] | [_ (l & Hr & Hc)]].
    + exists (cache_of 2 m'). split; [exact Hc | split; [exact Hlen' | left; reflexivity]].
    + exists [fst (fst (fst p)); VRef l]. split; [exact Hc | split; [reflexivity |]].
      right. exists l. split; [exact Hr | reflexivity].
  - exact Hlen.
  - left. exact Hsame.
  - right. exists k, p, l. split; [exact Hk | split; [exact Hres | exact Hc]].
Qed.

End FooRefinement.

(** Two functions whose invocations look the same to the caller, one of
    them under an invariant of its machine. *)
Lemma invoke_all_same_views {W A} (f g : A -> M W value) (I : machine W -> Prop)
  (ok : A -> Prop) (v : A -> completion view) :
  (forall a m, observe (f a m) = v a) ->
  (forall a m, ok a -> I m -> observe (g a m) = v a /\ I (snd (g a m))) ->
  forall args m1 m2,
    Forall ok args -> I m2 ->
    fst (invoke_all f args m1) = fst (invoke_all g args m2).
Proof.
  intros Hf Hg args. induction args as [| a args IH]; intros m1 m2 Hok HI.
  - reflexivity.
  - apply Forall_cons in Hok as [Ha Hok]. cbn [invoke_all].
    destruct (Hg a m2 Ha HI) as [Hv HI'].
    specialize (IH (snd (f a m1)) (snd (g a m2)) Hok HI').
    destruct (invoke_all f args _) as [os1 n1].
    destruct (invoke_all g args _) as [os2 n2].
    cbn in *. rewrite Hf, Hv, IH. reflexivity.
Qed.

Lemma foo_results {W} (someObj : extern W) (o : obj)
  (args : list (value * value * value * value)) (s : store W) :
  allocates o someObj ->
  Forall (fun p => fst (fst (fst p)) <> memo_cache_sentinel) args ->
  results (fun p => ObjMutatedAfterIfElseWithAlias.foo_input someObj
                      (fst (fst (fst p))) (snd (fst (fst p))) (snd (fst p)) (snd p))
          args s
  = results (fun p => ObjMutatedAfterIfElseWithAlias.foo_code someObj
                        (fst (fst (fst p))) (snd (fst (fst p))) (snd (fst p)) (snd p))
            args s.
Proof.
  intros Halloc Hargs. unfold results, behaviour.
  pose proof (invoke_all_same_views
                (fun p => ObjMutatedAfterIfElseWithAlias.foo_input someObj
                            (fst (fst (fst p))) (snd (fst (fst p))) (snd (fst p)) (snd p))
                (fun p => ObjMutatedAfterIfElseWithAlias.foo_code someObj
                            (fst (fst (fst p))) (snd (fst (fst p))) (snd (fst p)) (snd p))
                (foo_cache_ok o)
                (fun p => fst (fst (fst p)) <> memo_cache_sentinel)
                (fun _ => Normal (Object (with_prop "f" (VNum 1) o)))) as H.
  specialize (H (fun p m => foo_input_observe someObj o Halloc _ _ _ _ m)).
  specialize (H (fun p m Hp Hm => foo_code_observe someObj o Halloc _ _ _ _ m Hm Hp)).
  specialize (H args (boot s) (boot s) Hargs (or_introl eq_refl)).
  destruct (invoke_all _ args (boot s)) as [os1 n1].
  destruct (invoke_all (fun p => ObjMutatedAfterIfElseWithAlias.foo_code _ _ _ _ _)
                       args (boot s)) as [os2 n2].
  exact H.
Qed.

(** With a [someObj] that is not pure the second invocation of the
    compiled [foo], a hit, returns the object of the first one, where
    the input function returns a new one. *)
Example foo_with_numbered_objects :
  results (fun p => ObjMutatedAfterIfElseWithAlias.foo_input numbered_object
                      (fst (fst (fst p))) (snd (fst (fst p))) (snd (fst p)) (snd p))
          [(VNum 1, VNull, VNull, VNull); (VNum 1, VNull, VNull, VNull)] (Store [] 0)
  = [Normal (Object (Obj KObject [] [("id", VNum 1); ("f", VNum 1)]));
     Normal (Object (Obj KObject [] [("id", VNum 3); ("f", VNum 1)]))]
  /\ results (fun p => ObjMutatedAfterIfElseWithAlias.foo_code numbered_object
                         (fst (fst (fst p))) (snd (fst (fst p))) (snd (fst p)) (snd p))
             [(VNum 1, VNull, VNull, VNull); (VNum 1, VNull, VNull, VNull)] (Store [] 0)
     = [Normal (Object (Obj KObject [] [("id", VNum 1); ("f", VNum 1)]));
        Normal (Object (Obj KObject [] [("id", VNum 1); ("f", VNum 1)]))].
Proof. split; reflexivity. Qed.

(** * Further properties of the fixtures *)

(** ** Runs of several invocations *)

Section Runs.
Context {W A : Type}.
Implicit Types (f : A -> M W value) (m : machine W).

(** An invocation that changes nothing and returns [r] whatever its
    argument can be repeated at will. *)
Lemma run_all_stable f (r : completion value) m (args : list A) :
  (forall a, f a m = (r, m)) ->
  run_all f args m = (replicate (length args) r, m).
Proof.
  intros Hf. induction args as [| a args IH]; [reflexivity |].
  cbn [run_all]. rewrite Hf. cbn [fst snd]. rewrite IH. reflexivity.
Qed.

Lemma run_all_cons f a (args : list A) m :
  run_all f (a :: args) m
  = (fst (f a m) :: fst (run_all f args (snd (f a m))),
     snd (run_all f args (snd (f a m)))).
Proof. cbn [run_all]. destruct (run_all f args _). reflexivity. Qed.

(** Two functions run side by side: their machines stay related and
    every invocation shows the caller the same. *)
Lemma invoke_all_related f (g : A -> M W value)
  (R : machine W -> machine W -> Prop) (ok : A -> Prop) :
  (forall a m1 m2, ok a -> R m1 m2 ->
     observe (f a m1) = observe (g a m2) /\ R (snd (f a m1)) (snd (g a m2))) ->
  forall args m1 m2,
    Forall ok args -> R m1 m2 ->
    fst (invoke_all f args m1) = fst (invoke_all g args m2).
Proof.
  intros Hstep args. induction args as [| a args IH]; intros m1 m2 Hok HR.
  - reflexivity.
  - apply Forall_cons in Hok as [Ha Hok]. cbn [invoke_all].
    destruct (Hstep a m1 m2 Ha HR) as [Hv HR'].
    specialize (IH _ _ Hok HR').
    destruct (invoke_all f args _) as [os1 n1].
    destruct (invoke_all g args _) as [os2 n2].
    cbn in *. rewrite Hv, IH. reflexivity.
Qed.

(** The same for the completions as they are. *)
Lemma run_all_related f (g : A -> M W value)
  (R : machine W -> machine W -> Prop) (ok : A -> Prop) :
  (forall a m1 m2, ok a -> R m1 m2 ->
     fst (f a m1) = fst (g a m2) /\ R (snd (f a m1)) (snd (g a m2))) ->
  forall args m1 m2,
    Forall ok args -> R m1 m2 ->
    fst (run_all f args m1) = fst (run_all g args m2).
Proof.
  intros Hstep args. induction args as [| a args IH]; intros m1 m2 Hok HR.
  - reflexivity.
  - apply Forall_cons in Hok as [Ha Hok]. rewrite !run_all_cons. cbn [fst].
    destruct (Hstep a m1 m2 Ha HR) as [Hv HR'].
    rewrite Hv, (IH _ _ Hok HR'). reflexivity.
Qed.

End Runs.

(** ** Slots of the cache array *)

Lemma array_store_same (i : nat) (v : value) (c : list value) :
  array_store i v c !! i = Some v.
Proof.
  unfold array_store. destruct (i <? length c)%nat eqn:E.
  - apply Nat.ltb_lt in E. apply list_lookup_insert_eq. exact E.
  - apply Nat.ltb_ge in E.
    rewrite lookup_app_r by exact E.
    rewrite lookup_app_r by (rewrite length_replicate; lia).
    rewrite length_replicate. replace (i - length c - (i - length c)) with 0 by lia.
    reflexivity.
Qed.

Lemma array_store_other (i j : nat) (v : value) (c : list value) :
  i <> j -> j < length c -> array_store i v c !! j = c !! j.
Proof.
  intros Hne Hj. unfold array_store. destruct (i <? length c)%nat.
  - apply list_lookup_insert_ne. exact Hne.
  - apply lookup_app_l. exact Hj.
Qed.

Lemma array_store_length_le (i : nat) (v : value) (c : list value) :
  length c <= length (array_store i v c).
Proof.
  unfold array_store. destruct (i <? length c)%nat.
  - rewrite length_insert. lia.
  - rewrite length_app. lia.
Qed.

(** ** Calls of functions that are not there *)

Section MissingMethod.
Context {W : Type}.
Implicit Types (m : machine W) (a : value).

(** [t.foo()] on the object [{a}] the function has just created: [foo]
    is [undefined], and calling it is a [TypeError]. *)
Lemma call_method_missing (invoke : extern W) h ps k rest m :
  heap (st m) = h ++ Obj KObject [] ps :: rest ->
  prop_lookup k ps = None ->
  call_method invoke (VRef (length h)) k [] m = (Abrupt TypeError, m).
Proof.
  intros Hh Hk. unfold call_method, bind.
  rewrite get_prop_run. cbn [loose_eq_null]. unfold prop_of.
  rewrite Hh, lookup_at. cbn [obj_props]. rewrite Hk. reflexivity.
Qed.

(** Whatever the variable [x] holds, [x(t)] ends in a [TypeError]. *)
Lemma call_closure_missing (invoke : extern W) (x : value) h ps k rest m :
  heap (st m) = h ++ Obj KObject [] ps :: rest ->
  prop_lookup k ps = None ->
  call_closure x (call_method invoke (VRef (length h)) k []) m = (Abrupt TypeError, m).
Proof.
  intros Hh Hk. unfold call_closure.
  destruct x; try reflexivity.
  destruct (heap (st m) !! l) as [[[| |name] es qs]|]; try reflexivity.
  exact (call_method_missing invoke h ps k rest m Hh Hk).
Qed.

End MissingMethod.

(** ** part_000, second fixture, and capturing-function-decl *)

Section FunctionScopes.
Context {W : Type}.
Variable invoke : extern W.
Implicit Types (m : machine W) (a : value).

Lemma nested_component_input_run a m :
  FunctionInNestedScope.component_input invoke a m
  = (Abrupt TypeError,
     set_heap (heap (st m) ++ [Obj (KFunction "x") [] []; Obj KObject [] [("a", a)]]) m).
Proof.
  unfold FunctionInNestedScope.component_input.
  unfold bind, new_function, new_object, alloc. cbn.
  rewrite <- app_assoc. cbn [app].
  erewrite (call_closure_missing invoke _ (heap (st m) ++ [Obj (KFunction "x") [] []])
              [("a", a)] "foo" []).
  - reflexivity.
  - cbn. rewrite <- app_assoc. reflexivity.
  - reflexivity.
Qed.

Lemma nested_component_code_run a m :
  FunctionInNestedScope.component_code invoke a m
  = if strict_ne (default VUndefined (cache_of 3 m !! 0)) a then
      if strict_eq (default VUndefined (cache_of 3 m !! 2)) memo_cache_sentinel then
        (Abrupt TypeError,
         Machine (Store (heap (st m) ++ [Obj KObject [] [("a", a)];
                                         Obj (KFunction "x") [] []])
                        (world (st m)))
                 (Some (array_store 2 (VRef (S (length (heap (st m))))) (cache_of 3 m)))
                 (trace m))
      else
        (Abrupt TypeError,
         Machine (Store (heap (st m) ++ [Obj KObject [] [("a", a)]]) (world (st m)))
                 (Some (cache_of 3 m)) (trace m))
    else
      (Normal (default VUndefined (cache_of 3 m !! 1)),
       set_cache (Some (cache_of 3 m)) m).
Proof.
  unfold FunctionInNestedScope.component_code.
  unfold bind at 1. rewrite useMemoCache_run.
  unfold bind at 1, slot_get at 1, slots. cbn [cache default].
  destruct (strict_ne _ a); [| reflexivity].
  unfold bind at 1, new_object, alloc. cbn [st heap set_heap cache trace world].
  unfold bind at 1, slot_get at 1, slots. cbn [cache default].
  destruct (strict_eq _ memo_cache_sentinel).
  - unfold bind, new_function, alloc, slot_set, slots, ret. cbn.
    rewrite length_app, Nat.add_1_r.
    erewrite (call_closure_missing invoke _ (heap (st m)) [("a", a)] "foo"
                [Obj (KFunction "x") [] []]).
    + rewrite <- app_assoc. reflexivity.
    + cbn. rewrite <- app_assoc. reflexivity.
    + reflexivity.
  - unfold bind, slot_get, slots. cbn.
    erewrite (call_closure_missing invoke _ (heap (st m)) [("a", a)] "foo" []).
    + reflexivity.
    + reflexivity.
    + reflexivity.
Qed.

Lemma decl_component_input_run a m :
  CapturingFunctionDecl.component_input invoke a m
  = (Abrupt TypeError,
     set_heap (heap (st m) ++ [Obj (KFunction "x") [] []; Obj KObject [] [("a", a)]]) m).
Proof. exact (nested_component_input_run a m). Qed.

Lemma decl_component_code_run a m :
  CapturingFunctionDecl.component_code invoke a m
  = if strict_ne (default VUndefined (cache_of 2 m !! 0)) a then
      (Abrupt TypeError,
       Machine (Store (heap (st m) ++ [Obj KObject [] [("a", a)];
                                       Obj (KFunction "x") [] []])
                      (world (st m)))
               (Some (cache_of 2 m)) (trace m))
    else
      (Normal (default VUndefined (cache_of 2 m !! 1)),
       set_cache (Some (cache_of 2 m)) m).
Proof.
  unfold CapturingFunctionDecl.component_code.
  unfold bind at 1. rewrite useMemoCache_run.
  unfold bind at 1, slot_get at 1, slots. cbn [cache default].
  destruct (strict_ne _ a); [| reflexivity].
  unfold bind, new_object, new_function, alloc. cbn.
  erewrite (call_closure_missing invoke _ (heap (st m)) [("a", a)] "foo"
              [Obj (KFunction "x") [] []]).
  - rewrite <- app_assoc. reflexivity.
  - cbn. rewrite <- app_assoc. reflexivity.
  - reflexivity.
Qed.

(** Once slot 2 holds the function, an invocation with another argument
    than the sentinel allocates [t] and nothing else. *)
Lemma nested_component_later (l : loc) (args : list value) m :
  cache m = Some [memo_cache_sentinel; memo_cache_sentinel; VRef l] ->
  Forall (fun a => a <> memo_cache_sentinel) args ->
  run_all (FunctionInNestedScope.component_code invoke) args m
  = (replicate (length args) (Abrupt TypeError),
     set_heap (heap (st m) ++ map (fun a => Obj KObject [] [("a", a)]) args) m).
Proof.
  revert m. induction args as [| a args IH]; intros m Hc Hok.
  - cbn. rewrite app_nil_r. destruct m as [[h w] c tr]. reflexivity.
  - apply Forall_cons in Hok as [Ha Hok].
    rewrite run_all_cons, nested_component_code_run.
    assert (Hc' : cache_of 3 m = [memo_cache_sentinel; memo_cache_sentinel; VRef l])
      by (unfold cache_of; rewrite Hc; reflexivity).
    rewrite Hc'.
    change (default VUndefined ([memo_cache_sentinel; memo_cache_sentinel; VRef l] !! 0))
      with memo_cache_sentinel.
    change (default VUndefined ([memo_cache_sentinel; memo_cache_sentinel; VRef l] !! 2))
      with (VRef l).
    rewrite (strict_ne_sentinel a Ha). cbn [strict_eq fst snd].
    rewrite IH by (try reflexivity; assumption).
    unfold set_heap. cbn. rewrite <- app_assoc, Hc. reflexivity.
Qed.

Lemma decl_component_all (args : list value) m :
  cache_of 2 m = [memo_cache_sentinel; memo_cache_sentinel] ->
  Forall (fun a => a <> memo_cache_sentinel) args ->
  run_all (CapturingFunctionDecl.component_code invoke) args m
  = (replicate (length args) (Abrupt TypeError),
     Machine (Store (heap (st m)
                     ++ flat_map (fun a => [Obj KObject [] [("a", a)];
                                            Obj (KFunction "x") [] []]) args)
                    (world (st m)))
             (match args with [] => cache m | _ => Some (cache_of 2 m) end)
             (trace m)).
Proof.
  revert m. induction args as [| a args IH]; intros m Hc Hok.
  - cbn. rewrite app_nil_r. destruct m as [[h w] c tr]. reflexivity.
  - apply Forall_cons in Hok as [Ha Hok].
    rewrite run_all_cons, decl_component_code_run.
    rewrite Hc.
    change (default VUndefined ([memo_cache_sentinel; memo_cache_sentinel] !! 0))
      with memo_cache_sentinel.
    rewrite (strict_ne_sentinel a Ha). cbn [fst snd].
    rewrite IH by (try reflexivity; assumption).
    cbn. rewrite <- app_assoc. destruct args; reflexivity.
Qed.

End FunctionScopes.

(** ** Invocations that all throw *)

Section Throwing.
Context {W A : Type}.
Implicit Types (f : A -> M W value) (m : machine W).

Lemma results_invoke_all f (args : list A) (s : store W) :
  results f args s = fst (invoke_all f args (boot s)).
Proof.
  unfold results, behaviour. destruct (invoke_all f args (boot s)). reflexivity.
Qed.

Lemma invoke_all_abrupt f (e : exn) (args : list A) m :
  fst (run_all f args m) = replicate (length args) (Abrupt e) ->
  fst (invoke_all f args m) = replicate (length args) (Abrupt e).
Proof.
  revert m. induction args as [| a args IH]; intros m H; [reflexivity |].
  rewrite run_all_cons in H. cbn in H. injection H as Ha Hrest.
  cbn [invoke_all]. specialize (IH _ Hrest).
  destruct (invoke_all f args _) as [os m']. cbn in *.
  unfold observe. rewrite Ha, IH. reflexivity.
Qed.

End Throwing.

Section FunctionScopesResults.
Context {W : Type}.
Variable invoke : extern W.

Lemma nested_component_input_all (args : list value) (m : machine W) :
  fst (run_all (FunctionInNestedScope.component_input invoke) args m)
  = replicate (length args) (Abrupt TypeError).
Proof.
  revert m. induction args as [| a args IH]; intros m; [reflexivity |].
  rewrite run_all_cons, nested_component_input_run. cbn. rewrite IH. reflexivity.
Qed.

Lemma decl_component_input_all (args : list value) (m : machine W) :
  fst (run_all (CapturingFunctionDecl.component_input invoke) args m)
  = replicate (length args) (Abrupt TypeError).
Proof. exact (nested_component_input_all args m). Qed.

End FunctionScopesResults.

(** X1: [component] of unnamed/part_000 (second fixture), compiled, run
    any number of times from a fresh cache with arguments other than the
    sentinel.  Every invocation throws a [TypeError], as the input
    function does ([t.foo] is [undefined]); the scope of [t] never
    completes, so slots 0 and 1 stay uninitialized and every invocation
    allocates a new [t]; the function [x] has a scope of its own, whose
    slot 2 is written before the call throws: [x] is allocated by the
    first invocation only.  No function of the environment is called. *)
Theorem X1_nested_function_is_created_once :
  forall (W : Type) (invoke : extern W) (a : value) (rest : list value) (s : store W),
    Forall (fun a => a <> memo_cache_sentinel) (a :: rest) ->
    run_all (FunctionInNestedScope.component_code invoke) (a :: rest) (boot s)
    = (replicate (S (length rest)) (Abrupt TypeError),
       Machine (Store (heap s
                       ++ [Obj KObject [] [("a", a)]; Obj (KFunction "x") [] []]
                       ++ map (fun a => Obj KObject [] [("a", a)]) rest)
                      (world s))
               (Some [memo_cache_sentinel; memo_cache_sentinel;
                      VRef (S (length (heap s)))])
               [])
    /\ results (FunctionInNestedScope.component_input invoke) (a :: rest) s
       = results (FunctionInNestedScope.component_code invoke) (a :: rest) s.
Proof.
  intros W invoke a rest s Hok.
  assert (Hrun :
    run_all (FunctionInNestedScope.component_code invoke) (a :: rest) (boot s)
    = (replicate (S (length rest)) (Abrupt TypeError),
       Machine (Store (heap s
                       ++ [Obj KObject [] [("a", a)]; Obj (KFunction "x") [] []]
                       ++ map (fun a => Obj KObject [] [("a", a)]) rest)
                      (world s))
               (Some [memo_cache_sentinel; memo_cache_sentinel;
                      VRef (S (length (heap s)))])
               [])).
  { apply Forall_cons in Hok as [Ha Hok].
    rewrite run_all_cons, nested_component_code_run.
    change (cache_of 3 (boot s))
      with [memo_cache_sentinel; memo_cache_sentinel; memo_cache_sentinel].
    change (default VUndefined
              ([memo_cache_sentinel; memo_cache_sentinel; memo_cache_sentinel] !! 0))
      with memo_cache_sentinel.
    change (default VUndefined
              ([memo_cache_sentinel; memo_cache_sentinel; memo_cache_sentinel] !! 2))
      with memo_cache_sentinel.
    rewrite (strict_ne_sentinel a Ha).
    change (strict_eq memo_cache_sentinel memo_cache_sentinel) with true.
    cbn [fst snd].
    rewrite (nested_component_later invoke (S (length (heap s)))) by (try reflexivity; assumption).
    unfold set_heap. cbn. rewrite <- app_assoc. reflexivity. }
  split; [exact Hrun |].
  rewrite !results_invoke_all.
  rewrite (invoke_all_abrupt _ TypeError) by apply nested_component_input_all.
  rewrite (invoke_all_abrupt _ TypeError) by (rewrite Hrun; reflexivity).
  reflexivity.
Qed.

Lemma X1_witness :
  run_all (FunctionInNestedScope.component_code (returns VUndefined))
          [VStr "TodoAdd"; VStr "TodoAdd"; VNum 1] (boot empty_store)
  = ([Abrupt TypeError; Abrupt TypeError; Abrupt TypeError],
     Machine (Store [Obj KObject [] [("a", VStr "TodoAdd")];
                     Obj (KFunction "x") [] [];
                     Obj KObject [] [("a", VStr "TodoAdd")];
                     Obj KObject [] [("a", VNum 1)]] tt)
             (Some [memo_cache_sentinel; memo_cache_sentinel; VRef 1])
             []).
Proof.
  refine (proj1 (X1_nested_function_is_created_once unit (returns VUndefined)
                   (VStr "TodoAdd") [VStr "TodoAdd"; VNum 1] empty_store _)).
  repeat constructor; discriminate.
Defined.

(** X2: [component] of capturing-function-decl (first fixture), compiled,
    run any number of times from a fresh cache with arguments other than
    the sentinel.  Every invocation throws a [TypeError], as the input
    function does; the function [x] belongs to the scope of [t], which
    never completes: every invocation allocates a new [t] and a new
    function, and the cache array stays as [useMemoCache] made it. *)
Theorem X2_function_in_scope_is_created_on_every_invocation :
  forall (W : Type) (invoke : extern W) (args : list value) (s : store W),
    Forall (fun a => a <> memo_cache_sentinel) args ->
    run_all (CapturingFunctionDecl.component_code invoke) args (boot s)
    = (replicate (length args) (Abrupt TypeError),
       Machine (Store (heap s
                       ++ flat_map (fun a => [Obj KObject [] [("a", a)];
                                              Obj (KFunction "x") [] []]) args)
                      (world s))
               (match args with
                | [] => None
                | _ => Some [memo_cache_sentinel; memo_cache_sentinel]
                end)
               [])
    /\ results (CapturingFunctionDecl.component_input invoke) args s
       = results (CapturingFunctionDecl.component_code invoke) args s.
Proof.
  intros W invoke args s Hok.
  pose proof (decl_component_all invoke args (boot s) eq_refl Hok) as Hrun.
  split; [exact Hrun |].
  rewrite !results_invoke_all.
  rewrite (invoke_all_abrupt _ TypeError) by apply decl_component_input_all.
  rewrite (invoke_all_abrupt _ TypeError) by (rewrite Hrun; reflexivity).
  reflexivity.
Qed.

Lemma X2_witness :
  run_all (CapturingFunctionDecl.component_code (returns VUndefined))
          [VStr "TodoAdd"; VStr "TodoAdd"] (boot empty_store)
  = ([Abrupt TypeError; Abrupt TypeError],
     Machine (Store [Obj KObject [] [("a", VStr "TodoAdd")];
                     Obj (KFunction "x") [] [];
                     Obj KObject [] [("a", VStr "TodoAdd")];
                     Obj (KFunction "x") [] []] tt)
             (Some [memo_cache_sentinel; memo_cache_sentinel])
             []).
Proof.
  refine (proj1 (X2_function_in_scope_is_created_on_every_invocation unit
                   (returns VUndefined) [VStr "TodoAdd"; VStr "TodoAdd"] empty_store _)).
  repeat constructor; discriminate.
Defined.

(** ** Heaps that grow *)

Section Prefixes.
Implicit Types (h : list obj) (v : value).

Lemma lookup_prefix h0 h (l : nat) :
  h0 `prefix_of` h -> l < length h0 -> h !! l = h0 !! l.
Proof.
  intros [more ->] Hl. apply lookup_app_l. exact Hl.
Qed.

Lemma prop_of_prefix h0 h v k :
  h0 `prefix_of` h -> valid_value h0 v -> prop_of h v k = prop_of h0 v k.
Proof.
  intros Hp Hv. destruct v; try reflexivity.
  cbn in *. rewrite (lookup_prefix h0 h l Hp Hv). reflexivity.
Qed.

Lemma first_of_prefix h0 h v :
  h0 `prefix_of` h -> valid_value h0 v -> first_of h v = first_of h0 v.
Proof.
  intros Hp Hv. destruct v; try reflexivity.
  cbn in *. rewrite (lookup_prefix h0 h l Hp Hv). reflexivity.
Qed.

Lemma view_of_prefix h0 h v :
  h0 `prefix_of` h -> valid_value h0 v -> view_of h v = view_of h0 v.
Proof.
  intros Hp Hv. destruct v; try reflexivity.
  cbn in *. rewrite (lookup_prefix h0 h l Hp Hv). reflexivity.
Qed.

Lemma prefix_snoc h0 h (o : obj) : h0 `prefix_of` h -> h0 `prefix_of` h ++ [o].
Proof. intros Hp. apply prefix_app_r. exact Hp. Qed.

Lemma program_heap_stored h (l : nat) (o : obj) v :
  program_heap h -> h !! l = Some o -> v ∈ stored_values o ->
  valid_value h v /\ v <> memo_cache_sentinel.
Proof.
  intros Hh Hl Hv. unfold program_heap in Hh.
  rewrite Forall_forall in Hh. specialize (Hh o (list_elem_of_lookup_2 _ _ _ Hl)).
  rewrite Forall_forall in Hh. exact (Hh v Hv).
Qed.

Lemma prop_lookup_elem k (ps : list (string * value)) v :
  prop_lookup k ps = Some v -> v ∈ map snd ps.
Proof.
  induction ps as [| [k' v'] ps IH]; cbn; [discriminate |].
  destruct (String.eqb k k').
  - intros [= ->]. apply list_elem_of_here.
  - intros H. apply list_elem_of_further. exact (IH H).
Qed.

(** What a program reads from its heap is a value of that heap, and not
    the sentinel. *)
Lemma program_heap_prop h v k :
  program_heap h ->
  valid_value h (prop_of h v k) /\ prop_of h v k <> memo_cache_sentinel.
Proof.
  intros Hh. destruct v; cbn; try (split; [exact I | discriminate]).
  destruct (h !! l) as [o|] eqn:Hl; [| split; [exact I | discriminate]].
  destruct (prop_lookup k (obj_props o)) as [v|] eqn:Hk; cbn;
    [| split; [exact I | discriminate]].
  apply (program_heap_stored h l o v Hh Hl).
  unfold stored_values. apply elem_of_app. right. exact (prop_lookup_elem _ _ _ Hk).
Qed.

Lemma program_heap_first h v e :
  program_heap h -> first_of h v = Normal e ->
  valid_value h e /\ e <> memo_cache_sentinel.
Proof.
  intros Hh. destruct v; cbn; try discriminate.
  - destruct s; cbn; intros [= <-]; split; first [exact I | discriminate].
  - destruct (h !! l) as [[[| |name] es ps]|] eqn:Hl; try discriminate.
    destruct (es !! 0) as [v|] eqn:He; cbn; intros [= <-];
      [| split; [exact I | discriminate]].
    apply (program_heap_stored h l _ v Hh Hl).
    unfold stored_values. apply elem_of_app. left. cbn.
    exact (list_elem_of_lookup_2 _ _ _ He).
Qed.

End Prefixes.

(** ** try-catch-with-return, second fixture: a pattern with a default *)

Section Destructuring.
Import DestructuringDefault.
Context {W : Type}.
Implicit Types (m : machine W) (props : value).

Lemma destructuring_input_run props m :
  Component_input props m
  = if loose_eq_null props then (Abrupt TypeError, m)
    else
      match first_of (heap (st m)) (prop_of (heap (st m)) props "y") with
      | Normal e =>
          if strict_eq e VUndefined then
            (Normal (VStr "default"), set_heap (heap (st m) ++ [default_array]) m)
          else (first_of (heap (st m)) e, m)
      | Abrupt x => (Abrupt x, m)
      end.
Proof.
  unfold Component_input. unfold bind at 1. rewrite get_prop_run.
  destruct (loose_eq_null props); [reflexivity |].
  unfold bind at 1, array_first at 1.
  destruct (first_of _ _) as [e|x]; [| reflexivity].
  unfold bind at 1.
  destruct (strict_eq e VUndefined).
  - unfold new_array, alloc, bind, array_first, ret. cbn.
    rewrite lookup_last. reflexivity.
  - unfold ret, bind, array_first. destruct (first_of _ e); reflexivity.
Qed.

Lemma destructuring_code_run props m :
  Component_code props m
  = if loose_eq_null props then (Abrupt TypeError, set_cache (Some (cache_of 2 m)) m)
    else
      match first_of (heap (st m)) (prop_of (heap (st m)) props "y") with
      | Normal t0 =>
          if strict_ne (default VUndefined (cache_of 2 m !! 0)) t0 then
            if strict_eq t0 VUndefined then
              (Normal (VStr "default"),
               Machine (Store (heap (st m) ++ [default_array]) (world (st m)))
                       (Some (array_store 1 (VRef (length (heap (st m))))
                                (array_store 0 t0 (cache_of 2 m))))
                       (trace m))
            else
              (first_of (heap (st m)) t0,
               set_cache (Some (array_store 1 t0 (array_store 0 t0 (cache_of 2 m)))) m)
          else
            (first_of (heap (st m)) (default VUndefined (cache_of 2 m !! 1)),
             set_cache (Some (cache_of 2 m)) m)
      | Abrupt x => (Abrupt x, set_cache (Some (cache_of 2 m)) m)
      end.
Proof.
  unfold Component_code. unfold bind at 1. rewrite useMemoCache_run.
  unfold bind at 1. rewrite get_prop_run.
  destruct (loose_eq_null props); [reflexivity |].
  unfold bind at 1, array_first at 1. cbn [st heap].
  destruct (first_of _ _) as [t0|x]; [| reflexivity].
  unfold bind at 1, slot_get at 1, slots. cbn [cache default].
  destruct (strict_ne _ t0).
  - destruct (strict_eq t0 VUndefined).
    + unfold new_array, alloc, bind, array_first, slot_set, slots, ret. cbn.
      rewrite lookup_last. reflexivity.
    + unfold ret, bind, array_first, slot_set, slots. cbn.
      destruct (first_of _ t0); reflexivity.
  - unfold bind, slot_get, slots, array_first, ret. cbn.
    destruct (first_of _ _); reflexivity.
Qed.

(** One invocation of each function, side by side. *)
Lemma destructuring_step (h0 : list obj) props m1 m2 :
  program_heap h0 ->
  valid_value h0 props ->
  destructuring_related h0 m1 m2 ->
  fst (Component_input props m1) = fst (Component_code props m2)
  /\ destructuring_related h0 (snd (Component_input props m1))
                              (snd (Component_code props m2)).
Proof.
  intros Hh Hv (Hp1 & Hp2 & Hc).
  rewrite destructuring_input_run, destructuring_code_run.
  destruct (loose_eq_null props).
  { split; [reflexivity |]. repeat split; assumption. }
  rewrite (prop_of_prefix h0 _ props "y" Hp1 Hv).
  rewrite (prop_of_prefix h0 _ props "y" Hp2 Hv).
  destruct (program_heap_prop h0 props "y" Hh) as [Hy _].
  rewrite (first_of_prefix h0 _ _ Hp1 Hy), (first_of_prefix h0 _ _ Hp2 Hy).
  destruct (first_of h0 (prop_of h0 props "y")) as [e|x] eqn:Ee.
  2:{ split; [reflexivity |]. repeat split; assumption. }
  destruct (program_heap_first h0 _ e Hh Ee) as [Hev Hes].
  assert (Hlen : length (cache_of 2 m2) = 2).
  { destruct Hc as [-> | (t0 & t1 & -> & _)]; reflexivity. }
  destruct (strict_ne (default VUndefined (cache_of 2 m2 !! 0)) e) eqn:Emiss.
  - (* the scope runs *)
    rewrite array_store_pair by exact Hlen.
    destruct (strict_eq e VUndefined) eqn:Eu.
    + split; [reflexivity |]. cbn [snd]. split; [| split].
      * cbn. apply prefix_snoc. exact Hp1.
      * cbn. apply prefix_snoc. exact Hp2.
      * right. exists e, (VRef (length (heap (st m2)))).
        split; [reflexivity |]. rewrite Eu.
        exists (length (heap (st m2))). split; [reflexivity |].
        cbn. apply lookup_last.
    + rewrite array_store_pair by exact Hlen.
      rewrite (first_of_prefix h0 _ _ Hp1 Hev), (first_of_prefix h0 _ _ Hp2 Hev).
      split; [reflexivity |]. cbn [snd]. split; [| split].
      * exact Hp1.
      * exact Hp2.
      * right. exists e, e. split; [reflexivity |]. rewrite Eu. reflexivity.
  - (* a hit *)
    apply strict_ne_eq in Emiss.
    destruct Hc as [Hfresh | (t0 & t1 & Hc & Ht)].
    { rewrite Hfresh, strict_eq_sym in Emiss. apply strict_eq_sentinel in Emiss.
      congruence. }
    rewrite Hc in Emiss |- *.
    change (default VUndefined ([t0; t1] !! 0)) with t0 in Emiss.
    change (default VUndefined ([t0; t1] !! 1)) with t1.
    destruct (strict_eq_cases _ _ Emiss) as [-> | Hzeros].
    2:{ (* the two zeros: neither is iterable *)
      assert (Hnum : strict_eq t0 VUndefined = false /\ strict_eq e VUndefined = false
                     /\ forall h, first_of h t0 = Abrupt TypeError
                                  /\ first_of h e = Abrupt TypeError).
      { destruct Hzeros as [[-> ->] | [-> ->]]; repeat split. }
      destruct Hnum as (Eu0 & Eu & Hfirst).
      rewrite Eu0 in Ht. subst t1. rewrite Eu.
      rewrite (proj1 (Hfirst _)), (proj2 (Hfirst _)).
      split; [reflexivity |]. cbn [snd]. split; [| split].
      - exact Hp1.
      - exact Hp2.
      - right. exists t0, t0. split; [reflexivity |]. rewrite Eu0. reflexivity. }
    destruct (strict_eq e VUndefined) eqn:Eu.
    + destruct Ht as (l & -> & Hl).
      split.
      * cbn. rewrite Hl. reflexivity.
      * cbn [snd]. split; [| split].
        -- cbn. apply prefix_snoc. exact Hp1.
        -- exact Hp2.
        -- right. exists e, (VRef l). split; [reflexivity |]. rewrite Eu.
           exists l. split; [reflexivity | exact Hl].
    + subst t1.
      rewrite (first_of_prefix h0 _ _ Hp1 Hev), (first_of_prefix h0 _ _ Hp2 Hev).
      split; [reflexivity |]. cbn [snd]. split; [| split].
      * exact Hp1.
      * exact Hp2.
      * right. exists e, e. split; [reflexivity |]. rewrite Eu. reflexivity.
Qed.

End Destructuring.

(** X3: [Component] of try-catch-with-return (second fixture),
    [const [[x] = ["default"]] = props.y].  On the heap of a program
    that never obtained the sentinel, the compiled function returns or
    throws, invocation after invocation, what the input function returns
    or throws for the same arguments. *)
Theorem X3_destructuring_default_behaves_like_input :
  forall (W : Type) (propss : list value) (s : store W),
    program_heap (heap s) ->
    Forall (valid_value (heap s)) propss ->
    fst (run_all DestructuringDefault.Component_input propss (boot s))
    = fst (run_all DestructuringDefault.Component_code propss (boot s)).
Proof.
  intros W propss s Hh Hv.
  apply (run_all_related _ _ (destructuring_related (heap s)) (valid_value (heap s))).
  - intros props m1 m2 Hp HR. exact (destructuring_step (heap s) props m1 m2 Hh Hp HR).
  - exact Hv.
  - split; [reflexivity | split; [reflexivity | left; reflexivity]].
Qed.

Lemma X3_witness :
  let h := [Obj KObject [] [("y", VRef 1)];
            Obj KArray [VUndefined] [];
            Obj KObject [] [("y", VRef 3)];
            Obj KArray [VRef 4; VNum 0] [];
            Obj KArray [VNum 7] []] in
  let propss := [VRef 0; VRef 0; VRef 2; VStr "TodoAdd"; VRef 0] in
  fst (run_all DestructuringDefault.Component_input propss (boot (Store h tt)))
  = fst (run_all DestructuringDefault.Component_code propss (boot (Store h tt)))
  /\ fst (run_all DestructuringDefault.Component_code propss (boot (Store h tt)))
     = [Normal (VStr "default"); Normal (VStr "default"); Normal (VNum 7);
        Abrupt TypeError; Normal (VStr "default")].
Proof.
  intros h propss. split; [| reflexivity].
  apply (X3_destructuring_default_behaves_like_input unit propss (Store h tt)).
  - unfold program_heap, h. repeat (constructor; cbn); first [lia | discriminate].
  - unfold propss, h. repeat (constructor; cbn); lia.
Defined.

Section DestructuringEdges.
Import DestructuringDefault.
Context {W : Type}.
Implicit Types (m : machine W) (props : value) (h : list obj).

Lemma first_of_valid h v e : first_of h v = Normal e -> valid_value h v.
Proof.
  destruct v; cbn; try discriminate; [intros _; exact I |].
  destruct (h !! l) eqn:Hl; [| discriminate].
  intros _. exact (lookup_lt_Some _ _ _ Hl).
Qed.

Lemma first_of_error h v x : first_of h v = Abrupt x -> x = TypeError.
Proof.
  destruct v; cbn; try congruence.
  destruct (h !! l) as [[[| |name] es ps]|]; congruence.
Qed.

(** Only an object that is there has an iterable property. *)
Lemma prop_of_iterable h props k e :
  first_of h (prop_of h props k) = Normal e ->
  loose_eq_null props = false /\ valid_value h props.
Proof.
  destruct props; cbn; try discriminate.
  destruct (h !! l) eqn:Hl; cbn; [| discriminate].
  intros _. split; [reflexivity | exact (lookup_lt_Some _ _ _ Hl)].
Qed.

Lemma destructuring_first props m :
  cache m = None ->
  fst (Component_code props m) = fst (Component_input props m).
Proof.
  intros Hnone. rewrite destructuring_code_run, destructuring_input_run.
  destruct (set_cache_fresh 2 m Hnone) as [Hfresh _]. rewrite Hfresh.
  change (default VUndefined (replicate 2 memo_cache_sentinel !! 0))
    with memo_cache_sentinel.
  change (default VUndefined (replicate 2 memo_cache_sentinel !! 1))
    with memo_cache_sentinel.
  destruct (loose_eq_null props); [reflexivity |].
  destruct (first_of _ (prop_of _ props "y")) as [e|x]; [| reflexivity].
  destruct (strict_ne memo_cache_sentinel e) eqn:Emiss.
  - destruct (strict_eq e VUndefined); reflexivity.
  - apply strict_ne_sentinel_false in Emiss. subst e. reflexivity.
Qed.

End DestructuringEdges.

(** X4: the default of the pattern [[[x] = ["default"]] = props.y].
    When the first element of [props.y] is [undefined] (also when
    [props.y] is an empty array or an empty string), the input function
    returns ["default"] and allocates the array [["default"]] on every
    invocation; the compiled function allocates it on the first
    invocation only, keeps it in slot 1 under the dependency
    [undefined], and the next invocation matches the pattern against
    the cached array and allocates nothing. *)
Theorem X4_default_array_is_built_once :
  forall (W : Type) (props : value) (m : machine W),
    first_of (heap (st m)) (prop_of (heap (st m)) props "y") = Normal VUndefined ->
    DestructuringDefault.Component_input props m
    = (Normal (VStr "default"), set_heap (heap (st m) ++ [default_array]) m)
    /\ (cache m = None ->
        let r1 := DestructuringDefault.Component_code props m in
        r1 = (Normal (VStr "default"),
              Machine (Store (heap (st m) ++ [default_array]) (world (st m)))
                      (Some [VUndefined; VRef (length (heap (st m)))])
                      (trace m))
        /\ DestructuringDefault.Component_code props (snd r1)
           = (Normal (VStr "default"), snd r1)).
Proof.
  intros W props m Hy.
  destruct (prop_of_iterable _ _ _ _ Hy) as [Hnull Hvalid].
  pose proof (first_of_valid _ _ _ Hy) as Hyvalid.
  split.
  - rewrite destructuring_input_run, Hnull, Hy. reflexivity.
  - intros Hnone r1.
    assert (Hr1 : r1 = (Normal (VStr "default"),
              Machine (Store (heap (st m) ++ [default_array]) (world (st m)))
                      (Some [VUndefined; VRef (length (heap (st m)))])
                      (trace m))).
    { subst r1. rewrite destructuring_code_run, Hnull, Hy.
      destruct (set_cache_fresh 2 m Hnone) as [Hfresh _]. rewrite Hfresh.
      reflexivity. }
    split; [exact Hr1 |].
    rewrite Hr1. cbn [snd]. rewrite destructuring_code_run, Hnull.
    cbn [st heap].
    rewrite (prop_of_app _ _ _ _ Hvalid).
    rewrite (first_of_prefix (heap (st m)) _ _ (prefix_app_r _ _ _ (reflexivity _)) Hyvalid).
    rewrite Hy.
    change (cache_of 2 (Machine _ (Some ?c) _)) with c.
    cbn -[first_of]. unfold first_of. rewrite lookup_last. reflexivity.
Qed.

Lemma X4_witness :
  let m : machine unit :=
    boot (Store [Obj KObject [] [("y", VRef 1)]; Obj KArray [] []] tt) in
  let r1 := DestructuringDefault.Component_code (VRef 0) m in
  fst (DestructuringDefault.Component_input (VRef 0) m) = Normal (VStr "default")
  /\ cache (snd r1) = Some [VUndefined; VRef 2]
  /\ DestructuringDefault.Component_code (VRef 0) (snd r1)
     = (Normal (VStr "default"), snd r1).
Proof.
  intros m r1.
  destruct (X4_default_array_is_built_once unit (VRef 0) m eq_refl) as [Hin Hcode].
  destruct (Hcode eq_refl) as [H1 H2].
  refine (conj _ (conj _ H2)).
  - exact (f_equal fst Hin).
  - exact (f_equal (fun r => cache (snd r)) H1).
Defined.

(** X5: when [Component] of the destructuring fixture throws.  The input
    function throws exactly when [props] is [null] or [undefined], when
    [props.y] is not iterable (as for the parameter ["TodoAdd"] of the
    fixture, whose [y] is [undefined]), or when the first element of
    [props.y] is neither [undefined] nor iterable; what it throws is a
    [TypeError], and nothing has been allocated then.  On its first
    invocation the compiled function returns or throws the same,
    whatever [props] is. *)
Theorem X5_destructuring_type_errors :
  forall (W : Type) (props : value) (m : machine W),
    let h := heap (st m) in
    let y := prop_of h props "y" in
    (fst (DestructuringDefault.Component_input props m) = Abrupt TypeError
     <-> loose_eq_null props = true
         \/ first_of h y = Abrupt TypeError
         \/ exists e, first_of h y = Normal e
                      /\ strict_eq e VUndefined = false
                      /\ first_of h e = Abrupt TypeError)
    /\ (forall x, fst (DestructuringDefault.Component_input props m) = Abrupt x ->
                  x = TypeError /\ snd (DestructuringDefault.Component_input props m) = m)
    /\ (cache m = None ->
        fst (DestructuringDefault.Component_code props m)
        = fst (DestructuringDefault.Component_input props m)).
Proof.
  intros W props m h y. subst h y.
  refine (conj _ (conj _ (destructuring_first props m)));
    rewrite destructuring_input_run.
  - destruct (loose_eq_null props); [split; auto |].
    destruct (first_of _ (prop_of _ props "y")) as [e|x] eqn:Ey.
    + destruct (strict_eq e VUndefined) eqn:Eu; cbn [fst].
      * split; [discriminate |].
        intros [H | [H | (e' & [= <-] & H & _)]]; congruence.
      * split.
        -- intros H. right. right. exists e. auto.
        -- intros [H | [H | (e' & [= <-] & _ & H)]]; congruence.
    + pose proof (first_of_error _ _ _ Ey) as ->. split; auto.
  - intros x. destruct (loose_eq_null props).
    { cbn. intros [= <-]. split; reflexivity. }
    destruct (first_of _ (prop_of _ props "y")) as [e|x0] eqn:Ey.
    + destruct (strict_eq e VUndefined); cbn [fst snd]; [discriminate |].
      intros H. split; [exact (first_of_error _ _ _ H) | reflexivity].
    + cbn. intros [= <-]. split; [exact (first_of_error _ _ _ Ey) | reflexivity].
Qed.

Lemma X5_witness :
  fst (DestructuringDefault.Component_input (VStr "TodoAdd") (boot empty_store))
  = Abrupt TypeError
  /\ fst (DestructuringDefault.Component_code (VStr "TodoAdd") (boot empty_store))
     = fst (DestructuringDefault.Component_input (VStr "TodoAdd") (boot empty_store)).
Proof.
  destruct (X5_destructuring_type_errors unit (VStr "TodoAdd") (boot empty_store))
    as (Hiff & _ & Hfirst).
  split.
  - apply Hiff. right. left. reflexivity.
  - exact (Hfirst eq_refl).
Defined.

(** ** hoisting-within-lambda, first fixture *)

Section Hoisting.
Import HoistingWithinLambda.
Context {W : Type}.
Variable jsx : extern W.
Implicit Types (m : machine W).

Lemma call_closure_fresh {A} (body : M W A) h name rest m :
  heap (st m) = h ++ Obj (KFunction name) [] [] :: rest ->
  call_closure (VRef (length h)) body m = body m.
Proof.
  intros Hh. unfold call_closure. rewrite Hh, lookup_at. reflexivity.
Qed.

(** The first invocation: both scopes run. *)
Lemma hoisting_first (t0 : value) m (r : completion value) (s' : store W) :
  cache_of 2 m = [memo_cache_sentinel; memo_cache_sentinel] ->
  jsx [VStr "div"; VNum 3]
      (Store (heap (st m) ++ [Obj (KFunction "t1") [] []; Obj (KFunction "inner") [] []])
             (world (st m)))
  = (r, s') ->
  Component_code jsx t0 m
  = (r,
     Machine s'
       (Some [VRef (length (heap (st m)));
              match r with Normal e => e | Abrupt _ => memo_cache_sentinel end])
       (trace m ++ [Called "jsx" [VStr "div"; VNum 3]])).
Proof.
  intros Hc Hjsx. unfold Component_code.
  unfold bind at 1. rewrite useMemoCache_run, Hc.
  unfold bind, slot_get, slot_set, slots, new_function, alloc, ret, outer.
  cbn -[call_closure call].
  erewrite (call_closure_fresh _ (heap (st m)) "t1" []) by reflexivity.
  cbn -[call].
  erewrite call_run by (cbn [st set_heap heap world]; rewrite <- app_assoc; exact Hjsx).
  destruct r as [e|x]; reflexivity.
Qed.

(** A later invocation: both slots are taken. *)
Lemma hoisting_hit (t0 c0 c1 : value) m :
  cache m = Some [c0; c1] ->
  c0 <> memo_cache_sentinel ->
  c1 <> memo_cache_sentinel ->
  Component_code jsx t0 m = (Normal c1, m).
Proof.
  intros Hc H0 H1. destruct m as [s c tr]. cbn in Hc. subst c.
  unfold Component_code, useMemoCache, bind, slot_get, slots, ret.
  cbn -[strict_eq memo_cache_sentinel].
  destruct (strict_eq c0 memo_cache_sentinel) eqn:E0.
  { apply strict_eq_sentinel in E0. contradiction. }
  cbn -[strict_eq memo_cache_sentinel].
  destruct (strict_eq c1 memo_cache_sentinel) eqn:E1.
  { apply strict_eq_sentinel in E1. contradiction. }
  reflexivity.
Qed.

Lemma hoisting_input_null (arg : value) m :
  loose_eq_null arg = true -> Component_input jsx arg m = (Abrupt TypeError, m).
Proof.
  intros Hn. unfold Component_input, require_object_coercible, bind.
  rewrite Hn. reflexivity.
Qed.

End Hoisting.

(** X6: [Component] of hoisting-within-lambda (first fixture), compiled.
    Both reactive scopes are without dependencies: the first invocation
    creates the function [outer], runs it (its result is 3 although
    [inner] is declared before [x]) and builds the element; when the JSX
    runtime returns an element, every later invocation returns that same
    element, whatever the argument, and the runtime is called once in
    the whole run. *)
Theorem X6_element_is_built_once :
  forall (W : Type) (jsx : extern W) (a : value) (rest : list value) (s s' : store W)
         (e : value),
    jsx [VStr "div"; VNum 3]
        (Store (heap s ++ [Obj (KFunction "t1") [] []; Obj (KFunction "inner") [] []])
               (world s))
    = (Normal e, s') ->
    e <> memo_cache_sentinel ->
    run_all (HoistingWithinLambda.Component_code jsx) (a :: rest) (boot s)
    = (replicate (S (length rest)) (Normal e),
       Machine s' (Some [VRef (length (heap s)); e]) [Called "jsx" [VStr "div"; VNum 3]]).
Proof.
  intros W jsx a rest s s' e Hjsx He.
  rewrite run_all_cons.
  rewrite (hoisting_first jsx a (boot s) (Normal e) s' eq_refl Hjsx).
  cbn [fst snd boot st heap trace app].
  rewrite (run_all_stable _ (Normal e)).
  - reflexivity.
  - intros a'. apply (hoisting_hit jsx a' (VRef (length (heap s))) e).
    + reflexivity.
    + discriminate.
    + exact He.
Qed.

Lemma X6_witness :
  run_all (HoistingWithinLambda.Component_code fresh_object)
          [VRef 0; VNull; VNum 1] (boot (Store [Obj KObject [] []] tt))
  = ([Normal (VRef 3); Normal (VRef 3); Normal (VRef 3)],
     Machine (Store [Obj KObject [] []; Obj (KFunction "t1") [] [];
                     Obj (KFunction "inner") [] []; Obj KObject [] []] tt)
             (Some [VRef 1; VRef 3])
             [Called "jsx" [VStr "div"; VNum 3]]).
Proof.
  refine (X6_element_is_built_once unit fresh_object (VRef 0) [VNull; VNum 1]
            (Store [Obj KObject [] []] tt) _ (VRef 3) eq_refl _).
  discriminate.
Defined.

(** X7: the input [Component] of hoisting-within-lambda has the
    parameter pattern [{}] and throws a [TypeError] when it is called
    with [null] or [undefined], before anything else happens.  The
    compiled [Component] has the plain parameter [t0], which it never
    reads: called with [null] or [undefined] it builds and returns the
    element. *)
Theorem X7_compiled_component_accepts_null :
  forall (W : Type) (jsx : extern W) (arg : value) (m : machine W) (s' : store W)
         (e : value),
    loose_eq_null arg = true ->
    cache m = None ->
    jsx [VStr "div"; VNum 3]
        (Store (heap (st m) ++ [Obj (KFunction "t1") [] []; Obj (KFunction "inner") [] []])
               (world (st m)))
    = (Normal e, s') ->
    HoistingWithinLambda.Component_input jsx arg m = (Abrupt TypeError, m)
    /\ fst (HoistingWithinLambda.Component_code jsx arg m) = Normal e.
Proof.
  intros W jsx arg m s' e Hnull Hnone Hjsx. split.
  - exact (hoisting_input_null jsx arg m Hnull).
  - destruct (set_cache_fresh 2 m Hnone) as [Hfresh _].
    rewrite (hoisting_first jsx arg m (Normal e) s' Hfresh Hjsx). reflexivity.
Qed.

Lemma X7_witness :
  HoistingWithinLambda.Component_input fresh_object VNull (boot empty_store)
  = (Abrupt TypeError, boot empty_store)
  /\ fst (HoistingWithinLambda.Component_code fresh_object VNull (boot empty_store))
     = Normal (VRef 2).
Proof.
  exact (X7_compiled_component_accepts_null unit fresh_object VNull (boot empty_store)
           _ (VRef 2) eq_refl eq_refl eq_refl).
Defined.

(** ** part_002, second fixture: [@enableEmitFreeze @instrumentForget] *)

Section EmitFreeze.
Import EmitFreezeInstrumentForget.
Context {W : Type}.
Variables (__DEV__ : bool) (shouldInstrument : value).
Variables (useRenderCounter makeReadOnly foo : extern W).
Implicit Types (m : machine W) (props : value).

Lemma useFoo_instrumentation_cache m :
  cache (snd (useFoo_instrumentation __DEV__ shouldInstrument useRenderCounter m))
  = cache m.
Proof.
  unfold useFoo_instrumentation. destruct (__DEV__ && truthy shouldInstrument).
  - unfold bind, ret.
    pose proof (call_cache "useRenderCounter" useRenderCounter
                  [VStr "useFoo"; VStr "/codegen-emit-imports-same-source.ts"] m) as Hc.
    destruct (call _ _ _ m) as [[u|e] m0]; exact Hc.
  - reflexivity.
Qed.

Lemma emitFreeze_code_run props m :
  useFoo_code __DEV__ shouldInstrument useRenderCounter makeReadOnly foo props m
  = match useFoo_instrumentation __DEV__ shouldInstrument useRenderCounter m with
    | (Normal _, m0) =>
        if loose_eq_null props then
          (Abrupt TypeError, set_cache (Some (cache_of 2 m0)) m0)
        else if strict_ne (default VUndefined (cache_of 2 m0 !! 0))
                          (prop_of (heap (st m0)) props "x") then
          match call "foo" foo [prop_of (heap (st m0)) props "x"]
                     (set_cache (Some (cache_of 2 m0)) m0) with
          | (Normal t0, m1) =>
              if __DEV__ then
                match call "makeReadOnly" makeReadOnly [t0; VStr "useFoo"]
                           (set_cache
                              (Some (array_store 0 (prop_of (heap (st m1)) props "x")
                                       (cache_of 2 m0))) m1) with
                | (Normal frozen, m2) =>
                    (Normal t0,
                     set_cache
                       (Some (array_store 1 frozen
                                (array_store 0 (prop_of (heap (st m1)) props "x")
                                   (cache_of 2 m0)))) m2)
                | (Abrupt e, m2) => (Abrupt e, m2)
                end
              else
                (Normal t0,
                 set_cache
                   (Some (array_store 1 t0
                            (array_store 0 (prop_of (heap (st m1)) props "x")
                               (cache_of 2 m0)))) m1)
          | (Abrupt e, m1) => (Abrupt e, m1)
          end
        else
          (Normal (default VUndefined (cache_of 2 m0 !! 1)),
           set_cache (Some (cache_of 2 m0)) m0)
    | (Abrupt e, m0) => (Abrupt e, m0)
    end.
Proof.
  unfold useFoo_code.
  change (if __DEV__ && truthy shouldInstrument
          then call "useRenderCounter" useRenderCounter
                    [VStr "useFoo"; VStr "/codegen-emit-imports-same-source.ts"];;
               ret tt
          else ret tt)
    with (useFoo_instrumentation __DEV__ shouldInstrument useRenderCounter).
  unfold bind at 1.
  destruct (useFoo_instrumentation _ _ _ m) as [[u|e] m0]; [| reflexivity].
  unfold bind at 1. rewrite useMemoCache_run.
  unfold bind at 1, slot_get at 1, slots. cbn [cache].
  change (default [] (Some (cache_of 2 m0))) with (cache_of 2 m0).
  unfold bind at 1. rewrite get_prop_run.
  destruct (loose_eq_null props) eqn:Hn; [reflexivity |].
  cbn [st heap].
  destruct (strict_ne _ _); [| reflexivity].
  unfold bind at 1. rewrite get_prop_run, Hn. cbn [st heap].
  unfold bind at 1. unfold set_cache.
  pose proof (call_cache "foo" foo [prop_of (heap (st m0)) props "x"]
                (Machine (st m0) (Some (cache_of 2 m0)) (trace m0))) as Hc1.
  destruct (call "foo" foo _ _) as [[t0|e] m1]; [| reflexivity].
  cbn [snd cache] in Hc1.
  unfold bind at 1. rewrite get_prop_run, Hn.
  unfold bind at 1, slot_set at 1, slots. rewrite Hc1.
  change (default [] (Some (cache_of 2 m0))) with (cache_of 2 m0).
  unfold bind at 1.
  destruct __DEV__.
  - match goal with
    | |- context [call "makeReadOnly" makeReadOnly ?args ?mm] =>
        pose proof (call_cache "makeReadOnly" makeReadOnly args mm) as Hc2;
        destruct (call "makeReadOnly" makeReadOnly args mm) as [[frozen|e] m2]
    end; [| reflexivity].
    cbn [snd cache] in Hc2.
    unfold bind, slot_set, slots, ret. rewrite Hc2. reflexivity.
  - unfold ret, bind, slot_set, slots. reflexivity.
Qed.

End EmitFreeze.

Section EmitFreezeSteps.
Import EmitFreezeInstrumentForget.
Context {W : Type}.
Variables (__DEV__ : bool) (shouldInstrument : value).
Variables (useRenderCounter makeReadOnly foo : extern W).
Implicit Types (m : machine W) (props : value).

Lemma useFoo_instrumentation_keeps_cache m m0 :
  useFoo_instrumentation __DEV__ shouldInstrument useRenderCounter m = (Normal tt, m0) ->
  cache m0 = cache m.
Proof.
  intros H.
  pose proof (useFoo_instrumentation_cache __DEV__ shouldInstrument useRenderCounter m) as Hc.
  rewrite H in Hc. exact Hc.
Qed.

(** A hit: nothing but the instrumentation runs. *)
Lemma emitFreeze_hit props (c0 c1 : value) m m0 :
  useFoo_instrumentation __DEV__ shouldInstrument useRenderCounter m = (Normal tt, m0) ->
  cache m = Some [c0; c1] ->
  loose_eq_null props = false ->
  strict_eq c0 (prop_of (heap (st m0)) props "x") = true ->
  useFoo_code __DEV__ shouldInstrument useRenderCounter makeReadOnly foo props m
  = (Normal c1, m0).
Proof.
  intros Hi Hc Hn Heq.
  pose proof (useFoo_instrumentation_keeps_cache m m0 Hi) as Hc0. rewrite Hc in Hc0.
  rewrite emitFreeze_code_run, Hi, Hn.
  assert (Hc' : cache_of 2 m0 = [c0; c1]) by (unfold cache_of; rewrite Hc0; reflexivity).
  rewrite Hc'. change (default VUndefined ([c0; c1] !! 0)) with c0.
  unfold strict_ne. rewrite Heq. cbn [negb].
  destruct m0 as [s c tr]. cbn in Hc0. subst c. reflexivity.
Qed.

(** A miss, up to the value that goes into slot 1. *)
Lemma emitFreeze_miss props m m0 (t0 : value) (s1 : store W) :
  useFoo_instrumentation __DEV__ shouldInstrument useRenderCounter m = (Normal tt, m0) ->
  length (cache_of 2 m) = 2 ->
  loose_eq_null props = false ->
  strict_ne (default VUndefined (cache_of 2 m !! 0)) (prop_of (heap (st m0)) props "x") = true ->
  foo [prop_of (heap (st m0)) props "x"] (st m0) = (Normal t0, s1) ->
  useFoo_code __DEV__ shouldInstrument useRenderCounter makeReadOnly foo props m
  = if __DEV__ then
      match makeReadOnly [t0; VStr "useFoo"] s1 with
      | (Normal frozen, s2) =>
          (Normal t0,
           Machine s2 (Some [prop_of (heap s1) props "x"; frozen])
                   (trace m0 ++ [Called "foo" [prop_of (heap (st m0)) props "x"];
                                 Called "makeReadOnly" [t0; VStr "useFoo"]]))
      | (Abrupt e, s2) =>
          (Abrupt e,
           Machine s2 (Some [prop_of (heap s1) props "x";
                             default VUndefined (cache_of 2 m !! 1)])
                   (trace m0 ++ [Called "foo" [prop_of (heap (st m0)) props "x"];
                                 Called "makeReadOnly" [t0; VStr "useFoo"]]))
      end
    else
      (Normal t0,
       Machine s1 (Some [prop_of (heap s1) props "x"; t0])
               (trace m0 ++ [Called "foo" [prop_of (heap (st m0)) props "x"]])).
Proof.
  intros Hi Hlen Hn Hmiss Hfoo.
  pose proof (useFoo_instrumentation_keeps_cache m m0 Hi) as Hc0.
  assert (Hc' : cache_of 2 m0 = cache_of 2 m) by (unfold cache_of; rewrite Hc0; reflexivity).
  rewrite emitFreeze_code_run, Hi, Hn, Hc', Hmiss.
  erewrite call_run by exact Hfoo.
  cbn [set_cache st cache trace heap].
  destruct (cache_of 2 m) as [| c0 [| c1 [| ? ?]]] eqn:Ec; try discriminate Hlen.
  change (array_store 0 ?v [c0; c1]) with [v; c1].
  change (default VUndefined ([c0; c1] !! 1)) with c1.
  destruct __DEV__; [| reflexivity].
  unfold call. cbn. rewrite <- app_assoc.
  destruct (makeReadOnly [t0; VStr "useFoo"] s1) as [[frozen|e] s2]; reflexivity.
Qed.

(** A miss on which [foo] throws: no slot is written. *)
Lemma emitFreeze_throw props m m0 (e : exn) (s1 : store W) :
  useFoo_instrumentation __DEV__ shouldInstrument useRenderCounter m = (Normal tt, m0) ->
  loose_eq_null props = false ->
  strict_ne (default VUndefined (cache_of 2 m !! 0)) (prop_of (heap (st m0)) props "x") = true ->
  foo [prop_of (heap (st m0)) props "x"] (st m0) = (Abrupt e, s1) ->
  useFoo_code __DEV__ shouldInstrument useRenderCounter makeReadOnly foo props m
  = (Abrupt e,
     Machine s1 (Some (cache_of 2 m))
             (trace m0 ++ [Called "foo" [prop_of (heap (st m0)) props "x"]])).
Proof.
  intros Hi Hn Hmiss Hfoo.
  pose proof (useFoo_instrumentation_keeps_cache m m0 Hi) as Hc0.
  assert (Hc' : cache_of 2 m0 = cache_of 2 m) by (unfold cache_of; rewrite Hc0; reflexivity).
  rewrite emitFreeze_code_run, Hi, Hn, Hc', Hmiss.
  erewrite call_run by exact Hfoo. reflexivity.
Qed.

(** The scope is skipped: only the instrumentation has run. *)
Lemma emitFreeze_skip props m m0 :
  useFoo_instrumentation __DEV__ shouldInstrument useRenderCounter m = (Normal tt, m0) ->
  loose_eq_null props = false ->
  strict_ne (default VUndefined (cache_of 2 m !! 0)) (prop_of (heap (st m0)) props "x") = false ->
  useFoo_code __DEV__ shouldInstrument useRenderCounter makeReadOnly foo props m
  = (Normal (default VUndefined (cache_of 2 m !! 1)), set_cache (Some (cache_of 2 m)) m0).
Proof.
  intros Hi Hn Hhit.
  pose proof (useFoo_instrumentation_keeps_cache m m0 Hi) as Hc0.
  assert (Hc' : cache_of 2 m0 = cache_of 2 m) by (unfold cache_of; rewrite Hc0; reflexivity).
  rewrite emitFreeze_code_run, Hi, Hn, Hc', Hhit. reflexivity.
Qed.

End EmitFreezeSteps.

(** X8: [useFoo] compiled with [@enableEmitFreeze], in a development
    build.  On a miss the dependency slot is written before
    [makeReadOnly] is called for the output slot.  When [makeReadOnly]
    throws, the invocation throws and leaves slot 0 holding the new
    [props.x] beside the old content of slot 1; the next invocation
    with the same [props.x] is a hit: it does not call [foo] and returns
    that old content (on a fresh cache, the sentinel itself). *)
Theorem X8_throwing_makeReadOnly_leaves_half_a_scope :
  forall (W : Type) (shouldInstrument : value)
         (useRenderCounter makeReadOnly foo : extern W)
         (props props' : value) (m m0 : machine W) (t0 : value) (s1 s2 : store W)
         (x : exn),
    useFoo_instrumentation true shouldInstrument useRenderCounter m = (Normal tt, m0) ->
    length (cache_of 2 m) = 2 ->
    loose_eq_null props = false ->
    strict_ne (default VUndefined (cache_of 2 m !! 0))
              (prop_of (heap (st m0)) props "x") = true ->
    foo [prop_of (heap (st m0)) props "x"] (st m0) = (Normal t0, s1) ->
    makeReadOnly [t0; VStr "useFoo"] s1 = (Abrupt x, s2) ->
    let r := EmitFreezeInstrumentForget.useFoo_code true shouldInstrument
               useRenderCounter makeReadOnly foo props m in
    fst r = Abrupt x
    /\ cache (snd r) = Some [prop_of (heap s1) props "x";
                             default VUndefined (cache_of 2 m !! 1)]
    /\ forall m0',
         useFoo_instrumentation true shouldInstrument useRenderCounter (snd r)
         = (Normal tt, m0') ->
         loose_eq_null props' = false ->
         strict_eq (prop_of (heap s1) props "x")
                   (prop_of (heap (st m0')) props' "x") = true ->
         EmitFreezeInstrumentForget.useFoo_code true shouldInstrument
           useRenderCounter makeReadOnly foo props' (snd r)
         = (Normal (default VUndefined (cache_of 2 m !! 1)), m0').
Proof.
  intros W si urc mro foo props props' m m0 t0 s1 s2 x Hi Hlen Hn Hmiss Hfoo Hmro r.
  assert (Hr : r = (Abrupt x,
           Machine s2 (Some [prop_of (heap s1) props "x";
                             default VUndefined (cache_of 2 m !! 1)])
                   (trace m0 ++ [Called "foo" [prop_of (heap (st m0)) props "x"];
                                 Called "makeReadOnly" [t0; VStr "useFoo"]]))).
  { subst r. rewrite (emitFreeze_miss true si urc mro foo props m m0 t0 s1 Hi Hlen Hn Hmiss Hfoo).
    rewrite Hmro. reflexivity. }
  rewrite Hr. cbn [fst snd cache].
  refine (conj eq_refl (conj eq_refl _)).
  intros m0' Hi' Hn' Hsame.
  exact (emitFreeze_hit true si urc mro foo props' _ _ _ m0' Hi' eq_refl Hn' Hsame).
Qed.

Lemma X8_witness :
  let props := VRef 0 in
  let s : store unit := Store [Obj KObject [] [("x", VNum 1)]] tt in
  let useFoo := EmitFreezeInstrumentForget.useFoo_code true (VBool true)
                  (returns VUndefined) throws_argument fresh_object in
  let r := useFoo props (boot s) in
  fst r = Abrupt (Thrown (VRef 1))
  /\ cache (snd r) = Some [VNum 1; memo_cache_sentinel]
  /\ fst (useFoo props (snd r)) = Normal memo_cache_sentinel.
Proof.
  intros props s useFoo r.
  destruct (X8_throwing_makeReadOnly_leaves_half_a_scope unit (VBool true)
              (returns VUndefined) throws_argument fresh_object props props
              (boot s) _ (VRef 1) _ _ (Thrown (VRef 1))
              eq_refl eq_refl eq_refl eq_refl eq_refl eq_refl)
    as (H1 & H2 & H3).
  refine (conj H1 (conj H2 _)).
  exact (f_equal fst (H3 _ eq_refl eq_refl eq_refl)).
Defined.

(** X9: [useFoo] compiled with [@enableEmitFreeze], a miss on which
    [foo] and [makeReadOnly] return.  The invocation returns the result
    of [foo] itself, but in a development build the output slot gets the
    result of [makeReadOnly]: that is the value the next invocation with
    the same [props.x] returns, without calling [foo] or [makeReadOnly].
    The dependency slot gets [props.x] as it is after the call of [foo].
    Outside a development build [makeReadOnly] is not called and the
    output slot gets the result of [foo]. *)
Theorem X9_hit_returns_the_frozen_value :
  forall (W : Type) (__DEV__ : bool) (shouldInstrument : value)
         (useRenderCounter makeReadOnly foo : extern W)
         (props props' : value) (m m0 : machine W) (t0 frozen : value)
         (s1 s2 : store W),
    useFoo_instrumentation __DEV__ shouldInstrument useRenderCounter m = (Normal tt, m0) ->
    length (cache_of 2 m) = 2 ->
    loose_eq_null props = false ->
    strict_ne (default VUndefined (cache_of 2 m !! 0))
              (prop_of (heap (st m0)) props "x") = true ->
    foo [prop_of (heap (st m0)) props "x"] (st m0) = (Normal t0, s1) ->
    (if __DEV__ then makeReadOnly [t0; VStr "useFoo"] s1 else (Normal t0, s1))
    = (Normal frozen, s2) ->
    let r := EmitFreezeInstrumentForget.useFoo_code __DEV__ shouldInstrument
               useRenderCounter makeReadOnly foo props m in
    r = (Normal t0,
         Machine s2 (Some [prop_of (heap s1) props "x"; frozen])
                 (trace m0 ++ Called "foo" [prop_of (heap (st m0)) props "x"]
                    :: (if __DEV__ then [Called "makeReadOnly" [t0; VStr "useFoo"]]
                        else [])))
    /\ forall m0',
         useFoo_instrumentation __DEV__ shouldInstrument useRenderCounter (snd r)
         = (Normal tt, m0') ->
         loose_eq_null props' = false ->
         strict_eq (prop_of (heap s1) props "x")
                   (prop_of (heap (st m0')) props' "x") = true ->
         EmitFreezeInstrumentForget.useFoo_code __DEV__ shouldInstrument
           useRenderCounter makeReadOnly foo props' (snd r)
         = (Normal frozen, m0').
Proof.
  intros W dev si urc mro foo props props' m m0 t0 frozen s1 s2
         Hi Hlen Hn Hmiss Hfoo Hfreeze r.
  assert (Hr : r = (Normal t0,
         Machine s2 (Some [prop_of (heap s1) props "x"; frozen])
                 (trace m0 ++ Called "foo" [prop_of (heap (st m0)) props "x"]
                    :: (if dev then [Called "makeReadOnly" [t0; VStr "useFoo"]]
                        else [])))).
  { subst r. rewrite (emitFreeze_miss dev si urc mro foo props m m0 t0 s1 Hi Hlen Hn Hmiss Hfoo).
    destruct dev.
    - rewrite Hfreeze. reflexivity.
    - injection Hfreeze as <- <-. reflexivity. }
  rewrite Hr. cbn [snd].
  split; [reflexivity |].
  intros m0' Hi' Hn' Hsame.
  exact (emitFreeze_hit dev si urc mro foo props' _ _ _ m0' Hi' eq_refl Hn' Hsame).
Qed.

Lemma X9_witness :
  let props := VRef 0 in
  let s : store unit := Store [Obj KObject [] [("x", VNum 1)]] tt in
  let useFoo := EmitFreezeInstrumentForget.useFoo_code true (VBool false)
                  (returns VUndefined) (returns (VStr "frozen")) fresh_object in
  let r := useFoo props (boot s) in
  fst r = Normal (VRef 1)
  /\ fst (useFoo props (snd r)) = Normal (VStr "frozen").
Proof.
  intros props s useFoo r.
  destruct (X9_hit_returns_the_frozen_value unit true (VBool false)
              (returns VUndefined) (returns (VStr "frozen")) fresh_object props props
              (boot s) _ (VRef 1) (VStr "frozen") _ _
              eq_refl eq_refl eq_refl eq_refl eq_refl eq_refl)
    as (H1 & H2).
  split.
  - exact (f_equal fst H1).
  - exact (f_equal fst (H2 _ eq_refl eq_refl eq_refl)).
Defined.

(** ** hoisting-within-lambda, second fixture: [delete x.b] *)

Section DeletePropertyRuns.
Import DeleteProperty.
Context {W : Type}.
Implicit Types (m : machine W) (props : value).

Lemma deleteProperty_input_null props m :
  loose_eq_null props = true -> Component_input props m = (Abrupt TypeError, m).
Proof.
  intros Hn. unfold Component_input, bind. rewrite get_prop_run, Hn. reflexivity.
Qed.

Lemma deleteProperty_code_null props m :
  loose_eq_null props = true ->
  Component_code props m = (Abrupt TypeError, set_cache (Some (cache_of 3 m)) m).
Proof.
  intros Hn. unfold Component_code. unfold bind at 1. rewrite useMemoCache_run.
  unfold bind, slot_get, slots. cbn [cache default].
  rewrite get_prop_run, Hn. reflexivity.
Qed.

Lemma valid_value_prefix (h0 h : list obj) (v : value) :
  h0 `prefix_of` h -> valid_value h0 v -> valid_value h v.
Proof.
  intros Hp Hv. destruct v; try exact I. cbn in *.
  apply prefix_length in Hp. lia.
Qed.

Lemma deleteProperty_step (h0 : list obj) props m1 m2 :
  program_heap h0 ->
  valid_value h0 props ->
  prop_of h0 props "a" <> VNegZero ->
  deleteProperty_related h0 m1 m2 ->
  observe (Component_input props m1) = observe (Component_code props m2)
  /\ deleteProperty_related h0 (snd (Component_input props m1))
                               (snd (Component_code props m2)).
Proof.
  intros Hh Hv Hz (Hp1 & Hp2 & Hc).
  destruct (loose_eq_null props) eqn:Hn.
  { rewrite deleteProperty_input_null, deleteProperty_code_null by exact Hn.
    split; [reflexivity |]. repeat split; assumption. }
  rewrite deleteProperty_input_run by exact Hn.
  rewrite deleteProperty_code_run by (try exact Hn; exact (valid_value_prefix _ _ _ Hp2 Hv)).
  rewrite (prop_of_prefix h0 _ props "a" Hp1 Hv).
  rewrite !(prop_of_prefix h0 _ props _ Hp2 Hv).
  destruct (program_heap_prop h0 props "a" Hh) as [_ Hpa].
  assert (Hlen : length (cache_of 3 m2) = 3).
  { destruct Hc as [-> | (pa & pb & l & -> & _)]; reflexivity. }
  destruct (strict_ne _ (prop_of h0 props "a") || strict_ne _ (prop_of h0 props "b"))
    eqn:Emiss.
  - rewrite array_store_triple by exact Hlen.
    split.
    + unfold observe. cbn. rewrite !lookup_last. reflexivity.
    + cbn [snd]. split; [| split].
      * cbn. apply prefix_snoc. exact Hp1.
      * cbn. apply prefix_snoc. exact Hp2.
      * right. exists (prop_of h0 props "a"), (prop_of h0 props "b"), (length (heap (st m2))).
        split; [reflexivity |]. split; [exact Hz |]. cbn. apply lookup_last.
  - apply orb_false_iff in Emiss as [Ea Eb].
    destruct Hc as [Hfresh | (pa & pb & l & Hc & Hpz & Hl)].
    { rewrite Hfresh in Ea. apply strict_ne_sentinel_false in Ea. congruence. }
    rewrite Hc in Ea |- *.
    change (default VUndefined ([pa; pb; VRef l] !! 0)) with pa in Ea.
    apply strict_ne_false in Ea; [| exact Hpz | exact Hz]. subst pa.
    split.
    + unfold observe. cbn. rewrite lookup_last, Hl. reflexivity.
    + cbn [snd]. split; [| split].
      * cbn. apply prefix_snoc. exact Hp1.
      * exact Hp2.
      * right. exists (prop_of h0 props "a"), pb, l.
        split; [reflexivity | split; [exact Hz | exact Hl]].
Qed.

End DeletePropertyRuns.

(** X10: [Component] of hoisting-within-lambda (second fixture), which
    builds [{a: props.a, b: props.b}] and deletes [b].  On the heap of a
    program that never obtained the sentinel, and for arguments whose
    property [a] is not the negative zero, the compiled function shows
    its caller, invocation after invocation, what the input function
    shows for the same arguments: an object whose only property is [a],
    or a [TypeError] when [props] is [null] or [undefined].  The
    negative zero is left out because [0 === -0]: after [{a: 0}] the
    argument [{a: -0}] is a hit, and the compiled function returns the
    cached object with [a] being [0] where the input function returns
    one with [a] being [-0]. *)
Theorem X10_delete_fixture_behaves_like_input :
  forall (W : Type) (propss : list value) (s : store W),
    program_heap (heap s) ->
    Forall (fun props => valid_value (heap s) props
                         /\ prop_of (heap s) props "a" <> VNegZero) propss ->
    results DeleteProperty.Component_input propss s
    = results DeleteProperty.Component_code propss s
    /\ forall (zero negative : value) (b : value),
         valid_value (heap s) zero ->
         valid_value (heap s) negative ->
         prop_of (heap s) zero "a" = VNum 0 ->
         prop_of (heap s) negative "a" = VNegZero ->
         prop_of (heap s) zero "b" = b ->
         prop_of (heap s) negative "b" = b ->
         strict_eq b b = true ->
         results DeleteProperty.Component_input [zero; negative] s
         = [Normal (Object (Obj KObject [] [("a", VNum 0)]));
            Normal (Object (Obj KObject [] [("a", VNegZero)]))]
         /\ results DeleteProperty.Component_code [zero; negative] s
            = [Normal (Object (Obj KObject [] [("a", VNum 0)]));
               Normal (Object (Obj KObject [] [("a", VNum 0)]))].
Proof.
  intros W propss s Hh Hv. split.
  - rewrite !results_invoke_all.
    apply (invoke_all_related _ _ (deleteProperty_related (heap s))
             (fun props => valid_value (heap s) props
                           /\ prop_of (heap s) props "a" <> VNegZero)).
    + intros props m1 m2 [Hp Hz] HR.
      exact (deleteProperty_step (heap s) props m1 m2 Hh Hp Hz HR).
    + exact Hv.
    + split; [reflexivity | split; [reflexivity | left; reflexivity]].
  - intros zero negative b Hvz Hvn Hza Hna Hzb Hnb Hbb.
    assert (Hnz : loose_eq_null zero = false /\ loose_eq_null negative = false).
    { split; [destruct zero | destruct negative]; try reflexivity; discriminate. }
    destruct Hnz as [Hnz Hnn].
    unfold results, behaviour. cbn [invoke_all boot].
    assert (Hgrow : forall more k,
               prop_of (heap s ++ more) negative k = prop_of (heap s) negative k).
    { intros more k. apply prop_of_prefix; [apply prefix_app_r; reflexivity | exact Hvn]. }
    split.
    + rewrite (deleteProperty_input_run zero _ Hnz). cbn [snd].
      rewrite (deleteProperty_input_run negative _ Hnn).
      unfold observe. cbn. rewrite !lookup_last, Hgrow, Hza, Hna. reflexivity.
    + assert (H1 : DeleteProperty.Component_code zero (boot s)
                   = (Normal (VRef (length (heap s))),
                      Machine (Store (heap s ++ [Obj KObject [] [("a", VNum 0)]]) (world s))
                              (Some [VNum 0; b; VRef (length (heap s))]) [])).
      { rewrite (deleteProperty_code_run zero (boot s) Hnz Hvz).
        change (cache_of 3 (boot s))
          with [memo_cache_sentinel; memo_cache_sentinel; memo_cache_sentinel].
        change (default VUndefined
                  ([memo_cache_sentinel; memo_cache_sentinel; memo_cache_sentinel] !! 0))
          with memo_cache_sentinel.
        cbn [boot st heap]. rewrite Hza, Hzb.
        change (strict_ne memo_cache_sentinel (VNum 0)) with true. cbn [orb].
        rewrite array_store_triple by reflexivity. reflexivity. }
      rewrite H1. cbn [snd].
      match goal with
      | |- context [DeleteProperty.Component_code negative ?m1] =>
          assert (H2 : DeleteProperty.Component_code negative m1
                       = (Normal (VRef (length (heap s))), m1))
      end.
      { rewrite deleteProperty_code_run
          by first [ exact Hnn
                   | cbn; apply (valid_value_prefix (heap s));
                     [apply prefix_app_r; reflexivity | exact Hvn] ].
        cbn [st heap].
        change (cache_of 3 (Machine _ (Some ?c) _)) with c.
        rewrite !Hgrow, Hna, Hnb.
        change (default VUndefined ([VNum 0; b; VRef (length (heap s))] !! 0)) with (VNum 0).
        change (default VUndefined ([VNum 0; b; VRef (length (heap s))] !! 1)) with b.
        change (default VUndefined ([VNum 0; b; VRef (length (heap s))] !! 2))
          with (VRef (length (heap s))).
        change (strict_ne (VNum 0) VNegZero) with false.
        unfold strict_ne at 1. rewrite Hbb. reflexivity. }
      rewrite H2. unfold observe. cbn. rewrite !lookup_last. reflexivity.
Qed.

Lemma X10_witness :
  let h := [Obj KObject [] [("a", VNum 1); ("b", VNum 2)];
            Obj KObject [] [("a", VNum 1); ("b", VNum 2); ("c", VRef 0)];
            Obj KObject [] [("a", VNum 0); ("b", VNum 2)];
            Obj KObject [] [("a", VNegZero); ("b", VNum 2)]] in
  let propss := [VRef 0; VRef 1; VNull; VRef 0; VStr "TodoAdd"] in
  results DeleteProperty.Component_input propss (Store h tt)
  = results DeleteProperty.Component_code propss (Store h tt)
  /\ results DeleteProperty.Component_code propss (Store h tt)
     = [Normal (Object (Obj KObject [] [("a", VNum 1)]));
        Normal (Object (Obj KObject [] [("a", VNum 1)]));
        Abrupt TypeError;
        Normal (Object (Obj KObject [] [("a", VNum 1)]));
        Normal (Object (Obj KObject [] [("a", VUndefined)]))]
  /\ results DeleteProperty.Component_code [VRef 2; VRef 3] (Store h tt)
     = [Normal (Object (Obj KObject [] [("a", VNum 0)]));
        Normal (Object (Obj KObject [] [("a", VNum 0)]))].
Proof.
  intros h propss.
  destruct (X10_delete_fixture_behaves_like_input unit propss (Store h tt)) as [H1 H2].
  - unfold program_heap, h. repeat (constructor; cbn); first [lia | discriminate].
  - unfold propss, h.
    repeat first [apply Forall_cons_2 | apply Forall_nil_2 | split];
      cbn; first [lia | discriminate | exact I].
  - refine (conj H1 (conj eq_refl _)).
    refine (proj2 (H2 (VRef 2) (VRef 3) (VNum 2) _ _ eq_refl eq_refl eq_refl eq_refl eq_refl));
      cbn; lia.
Defined.

(** X11: the compiled [Component] of the [delete] fixture compares
    [props.b] although the object it returns has no property [b].  When
    the cache holds the object built for the very same [props.a] and
    only [props.b] differs, the scope runs again: the invocation returns
    a new object, not the cached one, with the same contents. *)
Theorem X11_change_of_deleted_property_rebuilds_the_object :
  forall (W : Type) (props c0 c1 : value) (l : loc) (m : machine W),
    loose_eq_null props = false ->
    valid_value (heap (st m)) props ->
    cache m = Some [c0; c1; VRef l] ->
    heap (st m) !! l = Some (Obj KObject [] [("a", c0)]) ->
    c0 = prop_of (heap (st m)) props "a" ->
    strict_ne c1 (prop_of (heap (st m)) props "b") = true ->
    let r := DeleteProperty.Component_code props m in
    fst r = Normal (VRef (length (heap (st m))))
    /\ VRef (length (heap (st m))) <> VRef l
    /\ view_of (heap (st (snd r))) (VRef (length (heap (st m))))
       = view_of (heap (st (snd r))) (VRef l)
    /\ cache (snd r)
       = Some [c0; prop_of (heap (st m)) props "b"; VRef (length (heap (st m)))].
Proof.
  intros W props c0 c1 l m Hn Hv Hc Hl Ha Hb r. subst r.
  assert (Hc' : cache_of 3 m = [c0; c1; VRef l]) by (unfold cache_of; rewrite Hc; reflexivity).
  rewrite deleteProperty_code_run, Hc' by assumption.
  change (default VUndefined ([c0; c1; VRef l] !! 1)) with c1.
  rewrite Hb, orb_true_r, array_store_triple by reflexivity.
  rewrite <- Ha.
  pose proof (lookup_lt_Some _ _ _ Hl) as Hlt.
  cbn. rewrite lookup_last, (lookup_app_l _ _ _ Hlt), Hl.
  repeat split. intros [= E]. lia.
Qed.

Lemma X11_witness :
  let m : machine unit :=
    Machine (Store [Obj KObject [] [("a", VNum 1); ("b", VNum 3)];
                    Obj KObject [] [("a", VNum 1)]] tt)
            (Some [VNum 1; VNum 2; VRef 1]) [] in
  let r := DeleteProperty.Component_code (VRef 0) m in
  fst r = Normal (VRef 2)
  /\ view_of (heap (st (snd r))) (VRef 2) = view_of (heap (st (snd r))) (VRef 1).
Proof.
  intros m r.
  destruct (X11_change_of_deleted_property_rebuilds_the_object unit (VRef 0)
              (VNum 1) (VNum 2) 1 m eq_refl (le_S 1 1 (le_n 1)) eq_refl eq_refl eq_refl eq_refl)
    as (H1 & _ & H3 & _).
  exact (conj H1 H3).
Defined.

(** X12: [Component] of try-catch-with-return (first fixture) never
    throws, whatever [shallowCopy] and [throwInput] do: the input
    function and the first invocation of the compiled function return
    [undefined], [null] or the new array.  The scope of the compiled
    function has no dependency: in a run of any length every invocation
    returns what the first one returned, and only the first one calls
    the imported functions or allocates. *)
Theorem X12_try_catch_component_never_throws :
  forall (W : Type) (shallowCopy throwInput : extern W) (props : value)
         (rest : list value) (s : store W),
    let r1 := TryCatchWithReturn.Component_code shallowCopy throwInput props (boot s) in
    (exists v, fst r1 = Normal v
               /\ (v = VUndefined \/ v = VNull \/ v = VRef (length (heap s))))
    /\ run_all (TryCatchWithReturn.Component_code shallowCopy throwInput)
               (props :: rest) (boot s)
       = (replicate (S (length rest)) (fst r1), snd r1)
    /\ forall (m : machine W),
         exists v, fst (TryCatchWithReturn.Component_input shallowCopy throwInput props m)
                   = Normal v
                   /\ (v = VUndefined \/ v = VNull \/ v = VRef (length (heap (st m)))).
Proof.
  intros W sc ti props rest s r1.
  assert (Hearly : forall (x t0 : value),
            t0 = VUndefined \/ t0 = VNull \/ t0 = early_return_sentinel ->
            early_return x t0 = VUndefined \/ early_return x t0 = VNull
            \/ early_return x t0 = x).
  { intros x t0 [-> | [-> | ->]]; cbn; auto. }
  destruct (tryCatch_first sc ti props (boot s) eq_refl eq_refl)
    as (t0 & m2 & Escope & Ht0 & Hr1).
  fold r1 in Hr1. rewrite run_all_cons. fold r1. rewrite Hr1. cbn [fst snd].
  refine (conj _ (conj _ _)).
  - eexists. split; [reflexivity |]. apply Hearly. exact Ht0.
  - rewrite (run_all_stable _ (Normal (early_return (VRef (length (heap (st (boot s))))) t0))).
    + reflexivity.
    + intros a. rewrite tryCatch_code_run. reflexivity.
  - intros m. rewrite tryCatch_input_run.
    destruct (tryCatch_scope_result sc ti m) as (t0' & m2' & E' & Ht0').
    rewrite E'. cbn [fst snd]. eexists. split; [reflexivity |].
    apply Hearly. exact Ht0'.
Qed.

(** ** useMemo-maybe-modified-later: whole runs *)

Section UseMemoRuns.
Import UseMemoMaybeModifiedLater.
Context {W : Type}.
Variables makeObject_Primitives identity : extern W.
Implicit Types (m : machine W) (props : value).

(** With the flag set and the object cached, every invocation calls
    [identity] on it and nothing else. *)
Lemma preserve_later (t : value) (args : list value) m :
  cache m = Some [t] ->
  t <> memo_cache_sentinel ->
  trace (snd (run_all (Component_code true makeObject_Primitives identity) args m))
  = trace m ++ replicate (length args) (Called "identity" [t])
  /\ cache (snd (run_all (Component_code true makeObject_Primitives identity) args m))
     = Some [t].
Proof.
  intros Hc Ht. revert m Hc. induction args as [| a args IH]; intros m Hc.
  - cbn. rewrite app_nil_r. split; [reflexivity | exact Hc].
  - rewrite run_all_cons. cbn [snd].
    assert (Hstep :
      trace (snd (Component_code true makeObject_Primitives identity a m))
      = trace m ++ [Called "identity" [t]]
      /\ cache (snd (Component_code true makeObject_Primitives identity a m)) = Some [t]).
    { unfold Component_code. rewrite preserve_run.
      assert (Hc' : cache_of 1 m = [t]) by (unfold cache_of; rewrite Hc; reflexivity).
      rewrite Hc'. change (default VUndefined ([t] !! 0)) with t.
      destruct (strict_eq t memo_cache_sentinel) eqn:E.
      { apply strict_eq_sentinel in E. contradiction. }
      pose proof (call_trace "identity" identity [t] (set_cache (Some [t]) m)) as Htr.
      pose proof (call_cache "identity" identity [t] (set_cache (Some [t]) m)) as Hca.
      destruct (call "identity" identity [t] _) as [[u|e] m2]; cbn in *; split; assumption. }
    destruct Hstep as [Htr Hca].
    destruct (IH _ Hca) as [IHtr IHca].
    rewrite IHtr, Htr, <- app_assoc. split; [reflexivity | exact IHca].
Qed.

End UseMemoRuns.

(** X13: the two compilations of [Component] with
    [useMemo(() => makeObject_Primitives(), [])], over a whole run in
    which [makeObject_Primitives] returns an object.  With
    [enablePreserveExistingMemoizationGuarantees] set,
    [makeObject_Primitives] is called once and [identity] once per
    invocation, always on that object, whatever [identity] does.  With
    the flag unset, and [identity] returning on the first invocation,
    both are called once in the whole run and every invocation returns
    the object. *)
Theorem X13_calls_of_a_whole_run :
  forall (W : Type) (makeObject_Primitives identity : extern W) (props : value)
         (rest : list value) (s s1 : store W) (t : value),
    makeObject_Primitives [] s = (Normal t, s1) ->
    t <> memo_cache_sentinel ->
    trace (snd (run_all (UseMemoMaybeModifiedLater.Component_code true
                           makeObject_Primitives identity)
                        (props :: rest) (boot s)))
    = Called "makeObject_Primitives" []
        :: replicate (S (length rest)) (Called "identity" [t])
    /\ forall (u : value) (s2 : store W),
         identity [t] s1 = (Normal u, s2) ->
         run_all (UseMemoMaybeModifiedLater.Component_code false
                    makeObject_Primitives identity)
                 (props :: rest) (boot s)
         = (replicate (S (length rest)) (Normal t),
            Machine s2 (Some [t; t])
                    [Called "makeObject_Primitives" []; Called "identity" [t]]).
Proof.
  intros W mk id props rest s s1 t Hmk Ht. split.
  - rewrite run_all_cons. cbn [snd].
    assert (Hfirst :
      trace (snd (UseMemoMaybeModifiedLater.Component_code true mk id props (boot s)))
      = [Called "makeObject_Primitives" []; Called "identity" [t]]
      /\ cache (snd (UseMemoMaybeModifiedLater.Component_code true mk id props (boot s)))
         = Some [t]).
    { unfold UseMemoMaybeModifiedLater.Component_code. rewrite preserve_run.
      change (cache_of 1 (boot s)) with [memo_cache_sentinel].
      change (default VUndefined ([memo_cache_sentinel] !! 0)) with memo_cache_sentinel.
      change (strict_eq memo_cache_sentinel memo_cache_sentinel) with true. cbv iota.
      erewrite call_run by exact Hmk.
      cbn [set_cache st cache trace boot app].
      match goal with
      | |- context [call "identity" id [t] ?m1] =>
          pose proof (call_trace "identity" id [t] m1) as Htr;
          pose proof (call_cache "identity" id [t] m1) as Hca;
          destruct (call "identity" id [t] m1) as [[u|e] m2]
      end; cbn in *; split; assumption. }
    destruct Hfirst as [Htr Hca].
    destruct (preserve_later mk id t rest _ Hca Ht) as [Hall _].
    rewrite Hall, Htr. reflexivity.
  - intros u s2 Hid. rewrite run_all_cons.
    assert (Hfirst :
      UseMemoMaybeModifiedLater.Component_code false mk id props (boot s)
      = (Normal t,
         Machine s2 (Some [t; t])
                 [Called "makeObject_Primitives" []; Called "identity" [t]])).
    { unfold UseMemoMaybeModifiedLater.Component_code. rewrite no_preserve_run.
      change (cache_of 2 (boot s)) with [memo_cache_sentinel; memo_cache_sentinel].
      change (default VUndefined ([memo_cache_sentinel; memo_cache_sentinel] !! 0))
        with memo_cache_sentinel.
      change (strict_eq memo_cache_sentinel memo_cache_sentinel) with true. cbv iota.
      erewrite call_run by exact Hmk.
      cbn [set_cache st cache trace boot app].
      erewrite call_run by exact Hid. reflexivity. }
    rewrite Hfirst. cbn [fst snd].
    rewrite (run_all_stable _ (Normal t)).
    + reflexivity.
    + intros a. unfold UseMemoMaybeModifiedLater.Component_code.
      rewrite no_preserve_run.
      change (cache_of 2 (Machine s2 (Some [t; t]) ?tr)) with [t; t].
      change (default VUndefined ([t; t] !! 0)) with t.
      destruct (strict_eq t memo_cache_sentinel) eqn:E.
      { apply strict_eq_sentinel in E. contradiction. }
      reflexivity.
Qed.

Lemma X13_witness :
  trace (snd (run_all (UseMemoMaybeModifiedLater.Component_code true
                         fresh_object throws_argument)
                      [VNull; VNull; VNull] (boot empty_store)))
  = [Called "makeObject_Primitives" []; Called "identity" [VRef 0];
     Called "identity" [VRef 0]; Called "identity" [VRef 0]]
  /\ run_all (UseMemoMaybeModifiedLater.Component_code false
                fresh_object returns_argument)
             [VNull; VNull; VNull] (boot empty_store)
     = ([Normal (VRef 0); Normal (VRef 0); Normal (VRef 0)],
        Machine (Store [Obj KObject [] []] tt) (Some [VRef 0; VRef 0])
                [Called "makeObject_Primitives" []; Called "identity" [VRef 0]]).
Proof.
  split.
  - refine (proj1 (X13_calls_of_a_whole_run unit fresh_object throws_argument VNull
                     [VNull; VNull] empty_store _ (VRef 0) eq_refl _)).
    discriminate.
  - refine (proj2 (X13_calls_of_a_whole_run unit fresh_object returns_argument VNull
                     [VNull; VNull] empty_store _ (VRef 0) eq_refl _)
              (VRef 0) _ eq_refl).
    discriminate.
Defined.

(** X14: the same two functions when [identity] throws on the first
    invocation.  With the flag set the object is already in its slot:
    the next invocation calls [identity] on it again and does not call
    [makeObject_Primitives].  With the flag unset the call of [identity]
    is part of the scope, which the exception leaves before the slots
    are written: the cache stays uninitialized and the next invocation
    starts with a call of [makeObject_Primitives]. *)
Theorem X14_identity_throws_on_the_first_invocation :
  forall (W : Type) (makeObject_Primitives identity : extern W) (props props' : value)
         (s s1 s2 : store W) (t : value) (e : exn),
    makeObject_Primitives [] s = (Normal t, s1) ->
    t <> memo_cache_sentinel ->
    identity [t] s1 = (Abrupt e, s2) ->
    (let r1 := UseMemoMaybeModifiedLater.Component_code true
                 makeObject_Primitives identity props (boot s) in
     r1 = (Abrupt e,
           Machine s2 (Some [t])
                   [Called "makeObject_Primitives" []; Called "identity" [t]])
     /\ trace (snd (UseMemoMaybeModifiedLater.Component_code true
                      makeObject_Primitives identity props' (snd r1)))
        = [Called "makeObject_Primitives" []; Called "identity" [t];
           Called "identity" [t]])
    /\ (let r1 := UseMemoMaybeModifiedLater.Component_code false
                    makeObject_Primitives identity props (boot s) in
        r1 = (Abrupt e,
              Machine s2 (Some [memo_cache_sentinel; memo_cache_sentinel])
                      [Called "makeObject_Primitives" []; Called "identity" [t]])
        /\ exists evs,
             trace (snd (UseMemoMaybeModifiedLater.Component_code false
                           makeObject_Primitives identity props' (snd r1)))
             = [Called "makeObject_Primitives" []; Called "identity" [t];
                Called "makeObject_Primitives" []] ++ evs).
Proof.
  intros W mk id props props' s s1 s2 t e Hmk Ht Hid. split.
  - intros r1.
    assert (Hr1 : r1 = (Abrupt e,
           Machine s2 (Some [t])
                   [Called "makeObject_Primitives" []; Called "identity" [t]])).
    { subst r1. unfold UseMemoMaybeModifiedLater.Component_code. rewrite preserve_run.
      change (cache_of 1 (boot s)) with [memo_cache_sentinel].
      change (default VUndefined ([memo_cache_sentinel] !! 0)) with memo_cache_sentinel.
      change (strict_eq memo_cache_sentinel memo_cache_sentinel) with true. cbv iota.
      erewrite call_run by exact Hmk.
      cbn [set_cache st cache trace boot app].
      erewrite call_run by exact Hid. reflexivity. }
    split; [exact Hr1 |]. rewrite Hr1. cbn [snd].
    destruct (preserve_later mk id t [props']
                (Machine s2 (Some [t])
                   [Called "makeObject_Primitives" []; Called "identity" [t]])
                eq_refl Ht) as [Htr _].
    rewrite run_all_cons in Htr. exact Htr.
  - intros r1.
    assert (Hr1 : r1 = (Abrupt e,
              Machine s2 (Some [memo_cache_sentinel; memo_cache_sentinel])
                      [Called "makeObject_Primitives" []; Called "identity" [t]])).
    { subst r1. unfold UseMemoMaybeModifiedLater.Component_code. rewrite no_preserve_run.
      change (cache_of 2 (boot s)) with [memo_cache_sentinel; memo_cache_sentinel].
      change (default VUndefined ([memo_cache_sentinel; memo_cache_sentinel] !! 0))
        with memo_cache_sentinel.
      change (strict_eq memo_cache_sentinel memo_cache_sentinel) with true. cbv iota.
      erewrite call_run by exact Hmk.
      cbn [set_cache st cache trace boot app].
      erewrite call_run by exact Hid. reflexivity. }
    split; [exact Hr1 |]. rewrite Hr1. cbn [snd].
    unfold UseMemoMaybeModifiedLater.Component_code. rewrite no_preserve_run.
    change (cache_of 2 (Machine s2 (Some ?c) ?tr)) with c.
    change (default VUndefined ([memo_cache_sentinel; memo_cache_sentinel] !! 0))
      with memo_cache_sentinel.
    change (strict_eq memo_cache_sentinel memo_cache_sentinel) with true. cbv iota.
    unfold set_cache. cbn [st cache trace].
    match goal with
    | |- context [call "makeObject_Primitives" mk [] ?m1] =>
        pose proof (call_trace "makeObject_Primitives" mk [] m1) as Htr;
        destruct (call "makeObject_Primitives" mk [] m1) as [[t'|e'] m1']
    end; cbn [snd trace] in Htr.
    + match goal with
      | |- context [call "identity" id [t'] ?m1] =>
          pose proof (call_trace "identity" id [t'] m1) as Htr2;
          destruct (call "identity" id [t'] m1) as [[u|e'] m2']
      end; cbn [snd trace] in Htr2 |- *; exists [Called "identity" [t']];
        rewrite Htr2, Htr; reflexivity.
    + exists []. cbn [snd]. rewrite Htr. reflexivity.
Qed.

Lemma X14_witness :
  let mk : extern unit := fresh_object in
  let r1 := UseMemoMaybeModifiedLater.Component_code true mk throws_argument VNull
              (boot empty_store) in
  let r2 := UseMemoMaybeModifiedLater.Component_code false mk throws_argument VNull
              (boot empty_store) in
  (fst r1 = Abrupt (Thrown (VRef 0)) /\ cache (snd r1) = Some [VRef 0])
  /\ (fst r2 = Abrupt (Thrown (VRef 0))
      /\ cache (snd r2) = Some [memo_cache_sentinel; memo_cache_sentinel]).
Proof.
  intros mk r1 r2.
  assert (Hne : VRef 0 <> memo_cache_sentinel) by discriminate.
  pose proof (X14_identity_throws_on_the_first_invocation unit mk throws_argument
                VNull VNull empty_store _ _ (VRef 0) (Thrown (VRef 0))
                eq_refl Hne eq_refl) as [[H1 _] [H2 _]].
  split.
  - exact (conj (f_equal fst H1) (f_equal (fun r => cache (snd r)) H1)).
  - exact (conj (f_equal fst H2) (f_equal (fun r => cache (snd r)) H2)).
Defined.

(** X15: the dependency test of the compiled [useHook] is [!==].  Two
    consecutive invocations with the same condition return the very same
    array, and the second one changes nothing, whatever the cache array
    held before; with the condition [NaN], which differs from itself,
    every invocation is a miss and returns a new array. *)
Theorem X15_same_condition_same_array :
  forall (W : Type) (CONST_STRING0 cond cond' : value) (m : machine W),
    (strict_eq cond cond' = true ->
     let r1 := LabeledBreakWithinLabelSwitch.useHook_code CONST_STRING0 cond m in
     LabeledBreakWithinLabelSwitch.useHook_code CONST_STRING0 cond' (snd r1) = r1)
    /\ (let r := LabeledBreakWithinLabelSwitch.useHook_code CONST_STRING0 VNaN m in
        fst r = Normal (VRef (length (heap (st m))))
        /\ heap (st (snd r))
           = heap (st m) ++ [Obj KArray (useHook_log CONST_STRING0 VNaN) []]).
Proof.
  intros W C cond cond' m. split.
  - intros Hsame r1. subst r1.
    assert (Hrefl : strict_ne cond cond' = false)
      by (unfold strict_ne; rewrite Hsame; reflexivity).
    rewrite (useHook_code_run C cond m).
    destruct (strict_ne (default VUndefined (cache_of 2 m !! 0)) cond) eqn:Emiss.
    + cbn [snd]. rewrite useHook_code_run.
      change (cache_of 2 (Machine ?s (Some ?c) ?tr)) with c.
      cbn [st heap world trace].
      rewrite array_store_same.
      rewrite array_store_other.
      * rewrite array_store_same. cbn [default from_option id]. rewrite Hrefl.
        reflexivity.
      * discriminate.
      * pose proof (array_store_same 0 cond (cache_of 2 m)) as Hs.
        apply lookup_lt_Some in Hs. exact Hs.
    + cbn [snd]. rewrite useHook_code_run.
      change (cache_of 2 (Machine ?s (Some ?c) ?tr)) with c.
      assert (Ehit : strict_ne (default VUndefined (cache_of 2 m !! 0)) cond' = false).
      { unfold strict_ne.
        rewrite (strict_eq_trans _ cond cond' (strict_ne_eq _ _ Emiss) Hsame).
        reflexivity. }
      rewrite Ehit. reflexivity.
  - intros r. subst r. rewrite useHook_code_run.
    assert (Hnan : forall v, strict_ne v VNaN = true) by (intros []; reflexivity).
    rewrite Hnan. split; reflexivity.
Qed.

Lemma X15_witness :
  let r1 := LabeledBreakWithinLabelSwitch.useHook_code (VStr "global string 0")
              (VBool true) (boot empty_store) in
  fst r1 = Normal (VRef 0)
  /\ LabeledBreakWithinLabelSwitch.useHook_code (VStr "global string 0")
       (VBool true) (snd r1) = r1.
Proof.
  intros r1. split; [reflexivity |].
  exact (proj1 (X15_same_condition_same_array unit (VStr "global string 0")
                  (VBool true) (VBool true) (boot empty_store)) eq_refl).
Defined.

(** ** capture_mutate-across-fns and capturing-function-alias-computed-load:
       whole runs *)

Section ClosureRuns.
Context {W : Type}.
Implicit Types (m : machine W) (a : value).

Lemma component_input_observe a m :
  observe (CaptureMutateAcrossFns.component_input a m)
  = Normal (Object (Obj KObject [] [("a", a); ("b", VNum 1)])).
Proof.
  rewrite component_input_run. unfold observe. cbn. rewrite lookup_at. reflexivity.
Qed.

Lemma component_code_observe a m :
  a <> memo_cache_sentinel /\ a <> VNegZero ->
  capture_cache_ok m ->
  observe (CaptureMutateAcrossFns.component_code a m)
  = Normal (Object (Obj KObject [] [("a", a); ("b", VNum 1)]))
  /\ capture_cache_ok (snd (CaptureMutateAcrossFns.component_code a m)).
Proof.
  intros [Ha Hz] Hc. rewrite component_code_run.
  assert (Hlen : length (cache_of 2 m) = 2).
  { destruct Hc as [-> | (a' & l & -> & _)]; reflexivity. }
  destruct (strict_ne _ a) eqn:Emiss.
  - rewrite array_store_pair by exact Hlen. split.
    + unfold observe. cbn. rewrite lookup_at. reflexivity.
    + right. exists a, (length (heap (st m))). split; [reflexivity |].
      split; [exact Hz |]. cbn. apply lookup_at.
  - destruct Hc as [Hfresh | (a' & l & Hc & Hz' & Hl)].
    { rewrite Hfresh in Emiss. apply strict_ne_sentinel_false in Emiss. congruence. }
    rewrite Hc in Emiss |- *.
    change (default VUndefined ([a'; VRef l] !! 0)) with a' in Emiss.
    apply strict_ne_false in Emiss; [| exact Hz' | exact Hz]. subst a'. split.
    + unfold observe. cbn. rewrite Hl. reflexivity.
    + right. exists a, l. split; [reflexivity | split; [exact Hz | exact Hl]].
Qed.

Lemma prefix_app_3 (h0 h : list obj) (more : list obj) :
  h0 `prefix_of` h -> h0 `prefix_of` h ++ more.
Proof. intros Hp. apply prefix_app_r. exact Hp. Qed.

Lemma bar_step (h0 : list obj) a m1 m2 :
  valid_value h0 a /\ a <> memo_cache_sentinel /\ a <> VNegZero ->
  bar_related h0 m1 m2 ->
  observe (CapturingFunctionAliasComputedLoad.bar_input a m1)
  = observe (CapturingFunctionAliasComputedLoad.bar_code a m2)
  /\ bar_related h0 (snd (CapturingFunctionAliasComputedLoad.bar_input a m1))
                    (snd (CapturingFunctionAliasComputedLoad.bar_code a m2)).
Proof.
  intros (Hv & Ha & Hz) (Hp1 & Hp2 & Hc).
  rewrite bar_input_run, bar_code_run.
  assert (Hlen : length (cache_of 2 m2) = 2).
  { destruct Hc as [-> | (a' & _ & ->)]; reflexivity. }
  destruct (strict_ne _ a) eqn:Emiss.
  - rewrite array_store_pair by exact Hlen. split.
    + unfold observe. cbn.
      rewrite (view_of_prefix h0 _ a (prefix_app_3 _ _ _ Hp1) Hv).
      rewrite (view_of_prefix h0 _ a (prefix_app_3 _ _ _ Hp2) Hv). reflexivity.
    + cbn [snd]. split; [| split].
      * cbn. apply prefix_app_3. exact Hp1.
      * cbn. apply prefix_app_3. exact Hp2.
      * right. exists a. split; [exact Hz | reflexivity].
  - destruct Hc as [Hfresh | (a' & Hz' & Hc)].
    { rewrite Hfresh in Emiss. apply strict_ne_sentinel_false in Emiss. congruence. }
    rewrite Hc in Emiss |- *.
    change (default VUndefined ([a'; a'] !! 0)) with a' in Emiss.
    apply strict_ne_false in Emiss; [| exact Hz' | exact Hz]. subst a'. split.
    + unfold observe. cbn.
      rewrite (view_of_prefix h0 _ a (prefix_app_3 _ _ _ Hp1) Hv).
      rewrite (view_of_prefix h0 _ a Hp2 Hv). reflexivity.
    + cbn [snd]. split; [| split].
      * cbn. apply prefix_app_3. exact Hp1.
      * exact Hp2.
      * right. exists a. split; [exact Hz | reflexivity].
Qed.

End ClosureRuns.

(** X16: [component] of capture_mutate-across-fns and [bar] of
    capturing-function-alias-computed-load, compiled, over whole runs
    with arguments other than the sentinel and the negative zero.
    [component] shows its caller what the input function shows, the
    object [{a, b: 1}]; [bar], called with values of the heap it starts
    on, shows what the input function shows, its argument.  The
    negative zero is left out because [0 === -0]: called with [0] and
    then with [-0], the compiled functions take the second call for a
    hit and return what they cached for [0], where the input functions
    return [{a: -0, b: 1}] and [-0]. *)
Theorem X16_closure_fixtures_behave_like_their_inputs :
  forall (W : Type) (args : list value) (s : store W),
    Forall (fun a => a <> memo_cache_sentinel /\ a <> VNegZero) args ->
    results CaptureMutateAcrossFns.component_input args s
    = results CaptureMutateAcrossFns.component_code args s
    /\ (Forall (valid_value (heap s)) args ->
        results CapturingFunctionAliasComputedLoad.bar_input args s
        = results CapturingFunctionAliasComputedLoad.bar_code args s)
    /\ (results CaptureMutateAcrossFns.component_input [VNum 0; VNegZero] s
        = [Normal (Object (Obj KObject [] [("a", VNum 0); ("b", VNum 1)]));
           Normal (Object (Obj KObject [] [("a", VNegZero); ("b", VNum 1)]))]
        /\ results CaptureMutateAcrossFns.component_code [VNum 0; VNegZero] s
           = [Normal (Object (Obj KObject [] [("a", VNum 0); ("b", VNum 1)]));
              Normal (Object (Obj KObject [] [("a", VNum 0); ("b", VNum 1)]))]
        /\ results CapturingFunctionAliasComputedLoad.bar_input [VNum 0; VNegZero] s
           = [Normal (Prim (VNum 0)); Normal (Prim VNegZero)]
        /\ results CapturingFunctionAliasComputedLoad.bar_code [VNum 0; VNegZero] s
           = [Normal (Prim (VNum 0)); Normal (Prim (VNum 0))]).
Proof.
  intros W args s Hne. rewrite !results_invoke_all. split; [| split].
  - apply (invoke_all_same_views _ _ capture_cache_ok
             (fun a => a <> memo_cache_sentinel /\ a <> VNegZero)
             (fun a => Normal (Object (Obj KObject [] [("a", a); ("b", VNum 1)])))).
    + intros a m. apply component_input_observe.
    + intros a m Ha Hc. exact (component_code_observe a m Ha Hc).
    + exact Hne.
    + left. reflexivity.
  - intros Hv.
    apply (invoke_all_related _ _ (bar_related (heap s))
             (fun a => valid_value (heap s) a
                       /\ a <> memo_cache_sentinel /\ a <> VNegZero)).
    + intros a m1 m2 Ha HR. exact (bar_step (heap s) a m1 m2 Ha HR).
    + rewrite Forall_forall in Hne, Hv |- *. intros a Hin.
      destruct (Hne a Hin). split; auto.
    + split; [reflexivity | split; [reflexivity | left; reflexivity]].
  - cbn [invoke_all fst].
    rewrite !component_input_run, !bar_input_run.
    rewrite (component_code_run (VNum 0) (boot s)), (bar_code_run (VNum 0) (boot s)).
    change (cache_of 2 (boot s)) with [memo_cache_sentinel; memo_cache_sentinel].
    change (default VUndefined ([memo_cache_sentinel; memo_cache_sentinel] !! 0))
      with memo_cache_sentinel.
    change (strict_ne memo_cache_sentinel (VNum 0)) with true. cbn iota.
    cbn [snd]. rewrite component_code_run, bar_code_run.
    change (cache_of 2 (Machine ?st (Some ?c) ?tr)) with c.
    rewrite !array_store_pair by reflexivity.
    unfold observe. cbn. rewrite !lookup_at. cbn.
    repeat split.
Qed.

Lemma X16_witness :
  let s : store unit := Store [Obj KObject [] [("n", VNum 1)]] tt in
  let args := [VRef 0; VStr "TodoAdd"; VStr "TodoAdd"; VNaN] in
  results CaptureMutateAcrossFns.component_input args s
  = results CaptureMutateAcrossFns.component_code args s
  /\ results CapturingFunctionAliasComputedLoad.bar_input args s
     = results CapturingFunctionAliasComputedLoad.bar_code args s
  /\ results CapturingFunctionAliasComputedLoad.bar_code args s
     = [Normal (Object (Obj KObject [] [("n", VNum 1)]));
        Normal (Prim (VStr "TodoAdd")); Normal (Prim (VStr "TodoAdd"));
        Normal (Prim VNaN)].
Proof.
  intros s args.
  assert (Hne : Forall (fun a => a <> memo_cache_sentinel /\ a <> VNegZero) args)
    by (repeat constructor; discriminate).
  assert (Hv : Forall (valid_value (heap s)) args)
    by (repeat constructor).
  pose proof (X16_closure_fixtures_behave_like_their_inputs unit args s Hne)
    as (H1 & H2 & _).
  exact (conj H1 (conj (H2 Hv) eq_refl)).
Defined.

(** ** part_002, first fixture: [useState] *)

Section UseState.
Import UseStateFixture.
Context {W : Type}.
Variables (useState : extern W) (state : W -> value) (next : W -> W) (setState : value).
Hypothesis Hhook : returns_state state next setState useState.
Implicit Types (m : machine W) (props : value).

Lemma useState_call m :
  call "useState" useState [VNull] m
  = (Normal (VRef (length (heap (st m)))),
     Machine (Store (heap (st m) ++ [Obj KArray [state (world (st m)); setState] []])
                    (next (world (st m))))
             (cache m) (trace m ++ [Called "useState" [VNull]])).
Proof. unfold call. rewrite Hhook. reflexivity. Qed.

Lemma useState_input_run props m :
  Component_input useState props m
  = (Normal (VRef (S (length (heap (st m))))),
     Machine (Store (heap (st m) ++ [Obj KArray [state (world (st m)); setState] [];
                                     Obj KArray [state (world (st m))] []])
                    (next (world (st m))))
             (cache m) (trace m ++ [Called "useState" [VNull]])).
Proof.
  unfold Component_input. unfold bind at 1. rewrite useState_call.
  unfold bind, array_first, new_array, alloc. cbn.
  rewrite lookup_last. cbn.
  rewrite length_app, Nat.add_1_r, <- app_assoc. reflexivity.
Qed.

Lemma useState_code_run props m :
  Component_code useState props m
  = if strict_ne (default VUndefined (cache_of 2 m !! 0)) (state (world (st m))) then
      (Normal (VRef (S (length (heap (st m))))),
       Machine (Store (heap (st m) ++ [Obj KArray [state (world (st m)); setState] [];
                                       Obj KArray [state (world (st m))] []])
                      (next (world (st m))))
               (Some (array_store 1 (VRef (S (length (heap (st m)))))
                        (array_store 0 (state (world (st m))) (cache_of 2 m))))
               (trace m ++ [Called "useState" [VNull]]))
    else
      (Normal (default VUndefined (cache_of 2 m !! 1)),
       Machine (Store (heap (st m) ++ [Obj KArray [state (world (st m)); setState] []])
                      (next (world (st m))))
               (Some (cache_of 2 m))
               (trace m ++ [Called "useState" [VNull]])).
Proof.
  unfold Component_code. unfold bind at 1. rewrite useMemoCache_run.
  unfold bind at 1. rewrite useState_call. cbn [st heap world cache trace].
  unfold bind at 1, array_first at 1. cbn [st heap]. unfold first_of.
  rewrite lookup_last. cbn [default lookup list_lookup from_option id].
  unfold bind at 1, slot_get at 1, slots. cbn [cache default from_option id].
  destruct (strict_ne _ _); [| reflexivity].
  unfold bind, new_array, alloc, slot_set, slots, ret. cbn.
  rewrite length_app, Nat.add_1_r, <- app_assoc. reflexivity.
Qed.

Lemma useState_step props m1 m2 :
  (forall w, state w <> memo_cache_sentinel) ->
  (forall w, state w <> VNegZero) ->
  useState_related m1 m2 ->
  observe (Component_input useState props m1) = observe (Component_code useState props m2)
  /\ useState_related (snd (Component_input useState props m1))
                      (snd (Component_code useState props m2)).
Proof.
  intros Hne Hnz [Hw Hc].
  rewrite useState_input_run, useState_code_run. rewrite <- Hw.
  assert (Hlen : length (cache_of 2 m2) = 2).
  { destruct Hc as [-> | (x & l & -> & _)]; reflexivity. }
  destruct (strict_ne _ (state (world (st m1)))) eqn:Emiss.
  - rewrite array_store_pair by exact Hlen. split.
    + unfold observe. cbn.
      rewrite !(lookup_app_r _ _ (S _)) by lia.
      replace (S (length (heap (st m1))) - length (heap (st m1))) with 1 by lia.
      replace (S (length (heap (st m2))) - length (heap (st m2))) with 1 by lia.
      reflexivity.
    + split; [reflexivity |]. right.
      exists (state (world (st m1))), (S (length (heap (st m2)))).
      split; [reflexivity |]. split; [apply Hnz |]. cbn.
      rewrite lookup_app_r by lia.
      replace (S (length (heap (st m2))) - length (heap (st m2))) with 1 by lia.
      reflexivity.
  - destruct Hc as [Hfresh | (x & l & Hc & Hxz & Hl)].
    { rewrite Hfresh in Emiss. apply strict_ne_sentinel_false in Emiss.
      specialize (Hne (world (st m1))). congruence. }
    rewrite Hc in Emiss |- *.
    change (default VUndefined ([x; VRef l] !! 0)) with x in Emiss.
    apply strict_ne_false in Emiss; [| exact Hxz | apply Hnz]. subst x. split.
    + unfold observe. cbn.
      rewrite (lookup_app_r _ _ (S _)) by lia.
      replace (S (length (heap (st m1))) - length (heap (st m1))) with 1 by lia.
      rewrite (lookup_app_l _ _ _ (lookup_lt_Some _ _ _ Hl)), Hl. reflexivity.
    + split; [reflexivity |]. right.
      exists (state (world (st m1))), l. split; [reflexivity |].
      split; [apply Hnz |]. cbn.
      rewrite (lookup_app_l _ _ _ (lookup_lt_Some _ _ _ Hl)). exact Hl.
Qed.

End UseState.

(** X17: [Component] of unnamed/part_002 (first fixture), which returns
    [[state]] for the state of the hook [useState].  With a hook that
    returns a new pair of its current state and a setter on every call,
    and whose state is never the sentinel or the negative zero, the
    compiled function calls the hook on every invocation, as the input
    function does, and shows its caller the same array in a run of any
    length, while the state changes from invocation to invocation or
    not.  The negative zero is left out because [0 === -0]: when the
    state is [0] in one invocation and [-0] in the next, the compiled
    function returns the cached [[0]] where the input function returns
    [[-0]]. *)
Theorem X17_useState_fixture_behaves_like_input :
  forall (W : Type) (useState : extern W) (state : W -> value) (next : W -> W)
         (setState : value) (s : store W),
    returns_state state next setState useState ->
    (forall propss : list value,
       (forall w, state w <> memo_cache_sentinel) ->
       (forall w, state w <> VNegZero) ->
       behaviour (UseStateFixture.Component_input useState) propss s
       = behaviour (UseStateFixture.Component_code useState) propss s
       /\ snd (behaviour (UseStateFixture.Component_code useState) propss s)
          = replicate (length propss) (Called "useState" [VNull]))
    /\ (forall props props' : value,
          state (world s) = VNum 0 ->
          state (next (world s)) = VNegZero ->
          results (UseStateFixture.Component_input useState) [props; props'] s
          = [Normal (Object (Obj KArray [VNum 0] []));
             Normal (Object (Obj KArray [VNegZero] []))]
          /\ results (UseStateFixture.Component_code useState) [props; props'] s
             = [Normal (Object (Obj KArray [VNum 0] []));
                Normal (Object (Obj KArray [VNum 0] []))]).
Proof.
  intros W useState state next setState s Hhook. split.
  - intros propss Hne Hnz.
    assert (Hall : forall (m1 m2 : machine W),
      useState_related m1 m2 ->
      fst (invoke_all (UseStateFixture.Component_input useState) propss m1)
      = fst (invoke_all (UseStateFixture.Component_code useState) propss m2)
      /\ trace (snd (invoke_all (UseStateFixture.Component_input useState) propss m1))
         = trace m1 ++ replicate (length propss) (Called "useState" [VNull])
      /\ trace (snd (invoke_all (UseStateFixture.Component_code useState) propss m2))
         = trace m2 ++ replicate (length propss) (Called "useState" [VNull])).
    { induction propss as [| props propss IH]; intros m1 m2 HR.
      - cbn. rewrite !app_nil_r. auto.
      - cbn [invoke_all].
        destruct (useState_step useState state next setState Hhook props m1 m2 Hne Hnz HR)
          as [Hv HR'].
        destruct (IH _ _ HR') as (IH1 & IH2 & IH3).
        destruct (invoke_all (UseStateFixture.Component_input useState) propss _)
          as [os1 n1].
        destruct (invoke_all (UseStateFixture.Component_code useState) propss _)
          as [os2 n2].
        cbn [fst snd] in *. rewrite Hv, IH1, IH2, IH3.
        rewrite (useState_input_run useState state next setState Hhook).
        rewrite (useState_code_run useState state next setState Hhook).
        destruct (strict_ne _ _); cbn [snd trace length replicate];
          rewrite <- !app_assoc; auto. }
    destruct (Hall (boot s) (boot s)) as (H1 & H2 & H3).
    { split; [reflexivity | left; reflexivity]. }
    unfold behaviour.
    destruct (invoke_all (UseStateFixture.Component_input useState) propss _) as [os1 n1].
    destruct (invoke_all (UseStateFixture.Component_code useState) propss _) as [os2 n2].
    cbn in *. rewrite H1, H2, H3. auto.
  - intros props props' Hzero Hneg.
    rewrite !results_invoke_all. cbn [invoke_all fst].
    rewrite !(useState_input_run useState state next setState Hhook).
    rewrite (useState_code_run useState state next setState Hhook props (boot s)).
    change (cache_of 2 (boot s)) with [memo_cache_sentinel; memo_cache_sentinel].
    change (default VUndefined ([memo_cache_sentinel; memo_cache_sentinel] !! 0))
      with memo_cache_sentinel.
    cbn [boot st world heap snd]. rewrite Hzero.
    change (strict_ne memo_cache_sentinel (VNum 0)) with true. cbn iota.
    cbn [snd]. rewrite (useState_code_run useState state next setState Hhook).
    change (cache_of 2 (Machine ?st (Some ?c) ?tr)) with c.
    rewrite array_store_pair by reflexivity.
    cbn [st world heap]. rewrite Hneg.
    change (default VUndefined ([VNum 0; VRef (S (length (heap s)))] !! 0)) with (VNum 0).
    change (strict_ne (VNum 0) VNegZero) with false. cbn iota.
    unfold observe. cbn.
    rewrite !(lookup_app_r _ _ (S _)) by (rewrite ?length_app; cbn; lia).
    rewrite !Nat.sub_succ_l, !Nat.sub_diag by lia. cbn.
    split; [reflexivity |].
    rewrite lookup_app_l by (rewrite length_app; cbn; lia).
    rewrite lookup_app_r by lia.
    rewrite Nat.sub_succ_l, Nat.sub_diag by lia. reflexivity.
Qed.

Lemma X17_witness :
  let useState : extern nat :=
    fun _ s => (Normal (VRef (length (heap s))),
                Store (heap s ++ [Obj KArray [VNum (Z.of_nat (Nat.div2 (world s)));
                                              VStr "setState"] []])
                      (S (world s))) in
  let propss := [VNull; VNull; VNull] in
  behaviour (UseStateFixture.Component_input useState) propss (Store [] 0)
  = behaviour (UseStateFixture.Component_code useState) propss (Store [] 0)
  /\ behaviour (UseStateFixture.Component_code useState) propss (Store [] 0)
     = ([Normal (Object (Obj KArray [VNum 0] []));
         Normal (Object (Obj KArray [VNum 0] []));
         Normal (Object (Obj KArray [VNum 1] []))],
        [Called "useState" [VNull]; Called "useState" [VNull];
         Called "useState" [VNull]]).
Proof.
  intros useState propss. split; [| reflexivity].
  refine (proj1 (proj1 (X17_useState_fixture_behaves_like_input nat useState
                          (fun w => VNum (Z.of_nat (Nat.div2 w))) S (VStr "setState")
                          (Store [] 0) _) propss _ _)).
  - intros args s. reflexivity.
  - intros w. discriminate.
  - intros w. discriminate.
Defined.

(** ** gating-with-hoisted-type-reference *)

Section Gating.
Import GatingWithHoistedTypeReference.
Context {W : Type}.
Variables (jsx : extern W) (element : value -> obj).
Hypothesis Hjsx : builds_div element jsx.
Implicit Types (m : machine W) (arg : value).

Lemma gating_jsx_call (child : value) m :
  call "jsx" jsx [VStr "div"; child] m
  = (Normal (VRef (length (heap (st m)))),
     Machine (Store (heap (st m) ++ [element child]) (world (st m))) (cache m)
             (trace m ++ [Called "jsx" [VStr "div"; child]])).
Proof. unfold call. rewrite Hjsx. reflexivity. Qed.

Lemma gating_disabled_run arg m :
  Component_disabled jsx arg m
  = if loose_eq_null arg then (Abrupt TypeError, m)
    else
      (Normal (VRef (length (heap (st m)))),
       Machine (Store (heap (st m) ++ [element (prop_of (heap (st m)) arg "value")])
                      (world (st m)))
               (cache m)
               (trace m ++ [Called "jsx" [VStr "div"; prop_of (heap (st m)) arg "value"]])).
Proof.
  unfold Component_disabled, bind. rewrite get_prop_run.
  destruct (loose_eq_null arg); [reflexivity |].
  apply gating_jsx_call.
Qed.

Lemma gating_enabled_run arg m :
  Component_enabled jsx arg m
  = if loose_eq_null arg then (Abrupt TypeError, set_cache (Some (cache_of 2 m)) m)
    else if strict_ne (default VUndefined (cache_of 2 m !! 0))
                      (prop_of (heap (st m)) arg "value") then
      (Normal (VRef (length (heap (st m)))),
       Machine (Store (heap (st m) ++ [element (prop_of (heap (st m)) arg "value")])
                      (world (st m)))
               (Some (array_store 1 (VRef (length (heap (st m))))
                        (array_store 0 (prop_of (heap (st m)) arg "value")
                           (cache_of 2 m))))
               (trace m ++ [Called "jsx" [VStr "div"; prop_of (heap (st m)) arg "value"]]))
    else
      (Normal (default VUndefined (cache_of 2 m !! 1)),
       set_cache (Some (cache_of 2 m)) m).
Proof.
  unfold Component_enabled. unfold bind at 1. rewrite useMemoCache_run.
  unfold bind at 1. rewrite get_prop_run.
  destruct (loose_eq_null arg); [reflexivity |].
  unfold bind at 1, slot_get at 1, slots. cbn [cache st heap].
  change (default [] (Some (cache_of 2 m))) with (cache_of 2 m).
  destruct (strict_ne _ _); [| reflexivity].
  unfold bind at 1. rewrite gating_jsx_call.
  unfold bind, slot_set, slots, ret. reflexivity.
Qed.

Lemma gating_step (h0 : list obj) arg m1 m2 :
  program_heap h0 ->
  valid_value h0 arg ->
  prop_of h0 arg "value" <> VNegZero ->
  gating_related element h0 m1 m2 ->
  observe (Component_disabled jsx arg m1) = observe (Component_enabled jsx arg m2)
  /\ gating_related element h0 (snd (Component_disabled jsx arg m1))
                               (snd (Component_enabled jsx arg m2)).
Proof.
  intros Hh Hv Hz (Hp1 & Hp2 & Hc).
  rewrite gating_disabled_run, gating_enabled_run.
  destruct (loose_eq_null arg).
  { split; [reflexivity |]. repeat split; assumption. }
  rewrite !(prop_of_prefix h0 _ arg "value" Hp1 Hv).
  rewrite !(prop_of_prefix h0 _ arg "value" Hp2 Hv).
  destruct (program_heap_prop h0 arg "value" Hh) as [_ Hne].
  assert (Hlen : length (cache_of 2 m2) = 2).
  { destruct Hc as [-> | (v & l & -> & _)]; reflexivity. }
  destruct (strict_ne _ (prop_of h0 arg "value")) eqn:Emiss.
  - rewrite array_store_pair by exact Hlen. split.
    + unfold observe. cbn. rewrite !lookup_last. reflexivity.
    + cbn [snd]. split; [| split].
      * cbn. apply prefix_snoc. exact Hp1.
      * cbn. apply prefix_snoc. exact Hp2.
      * right. exists (prop_of h0 arg "value"), (length (heap (st m2))).
        split; [reflexivity |]. split; [exact Hz |]. cbn. apply lookup_last.
  - destruct Hc as [Hfresh | (v & l & Hc & Hvz & Hl)].
    { rewrite Hfresh in Emiss. apply strict_ne_sentinel_false in Emiss. congruence. }
    rewrite Hc in Emiss |- *.
    change (default VUndefined ([v; VRef l] !! 0)) with v in Emiss.
    apply strict_ne_false in Emiss; [| exact Hvz | exact Hz]. subst v. split.
    + unfold observe. cbn. rewrite lookup_last, Hl. reflexivity.
    + cbn [snd]. split; [| split].
      * cbn. apply prefix_snoc. exact Hp1.
      * exact Hp2.
      * right. exists (prop_of h0 arg "value"), l.
        split; [reflexivity | split; [exact Hz | exact Hl]].
Qed.

End Gating.

(** X18: the gated [Component] of gating-with-hoisted-type-reference.
    With a JSX runtime that builds [<div>{value}</div>] as a new object
    and does nothing else, on the heap of a program that never obtained
    the sentinel, and for arguments whose [value] is not the negative
    zero, the module shows its callers the same whether
    [isForgetEnabled_Fixtures()] returned true or false: in a run of any
    length both functions return an element with the same contents, or
    throw a [TypeError] when called with [null] or [undefined].  The
    negative zero is left out because [0 === -0]: after [{value: 0}]
    the argument [{value: -0}] is a hit of the compiled function, which
    returns the element built for [0], where the original function
    builds one for [-0]. *)
Theorem X18_gating_flag_does_not_change_what_the_caller_sees :
  forall (W : Type) (jsx : extern W) (element : value -> obj) (s : store W),
    builds_div element jsx ->
    (forall args : list value,
       program_heap (heap s) ->
       Forall (fun arg => valid_value (heap s) arg
                          /\ prop_of (heap s) arg "value" <> VNegZero) args ->
       results (GatingWithHoistedTypeReference.Component false jsx) args s
       = results (GatingWithHoistedTypeReference.Component true jsx) args s)
    /\ (forall zero negative : value,
          valid_value (heap s) zero ->
          valid_value (heap s) negative ->
          prop_of (heap s) zero "value" = VNum 0 ->
          prop_of (heap s) negative "value" = VNegZero ->
          results (GatingWithHoistedTypeReference.Component false jsx) [zero; negative] s
          = [Normal (Object (element (VNum 0))); Normal (Object (element VNegZero))]
          /\ results (GatingWithHoistedTypeReference.Component true jsx) [zero; negative] s
             = [Normal (Object (element (VNum 0))); Normal (Object (element (VNum 0)))]).
Proof.
  intros W jsx element s Hjsx. split.
  - intros args Hh Hv. rewrite !results_invoke_all.
    apply (invoke_all_related _ _ (gating_related element (heap s))
             (fun arg => valid_value (heap s) arg
                         /\ prop_of (heap s) arg "value" <> VNegZero)).
    + intros arg m1 m2 [Ha Hz] HR.
      exact (gating_step jsx element Hjsx (heap s) arg m1 m2 Hh Ha Hz HR).
    + exact Hv.
    + split; [reflexivity | split; [reflexivity | left; reflexivity]].
  - intros zero negative Hvz Hvn Hzero Hneg.
    assert (Hnz : loose_eq_null zero = false /\ loose_eq_null negative = false).
    { split; [destruct zero | destruct negative]; try reflexivity; discriminate. }
    destruct Hnz as [Hnz Hnn].
    assert (Hgrow : forall more,
               prop_of (heap s ++ more) negative "value" = VNegZero).
    { intros more. rewrite <- Hneg.
      apply prop_of_prefix; [apply prefix_app_r; reflexivity | exact Hvn]. }
    rewrite !results_invoke_all. cbn [invoke_all fst].
    unfold GatingWithHoistedTypeReference.Component.
    rewrite !(gating_disabled_run jsx element Hjsx), Hnz, Hnn.
    rewrite (gating_enabled_run jsx element Hjsx zero (boot s)), Hnz.
    change (cache_of 2 (boot s)) with [memo_cache_sentinel; memo_cache_sentinel].
    change (default VUndefined ([memo_cache_sentinel; memo_cache_sentinel] !! 0))
      with memo_cache_sentinel.
    cbn [boot st heap snd]. rewrite Hzero.
    change (strict_ne memo_cache_sentinel (VNum 0)) with true. cbn iota.
    cbn [snd]. rewrite (gating_enabled_run jsx element Hjsx), Hnn.
    change (cache_of 2 (Machine ?st (Some ?c) ?tr)) with c.
    rewrite array_store_pair by reflexivity.
    cbn [st heap]. rewrite !Hgrow.
    change (default VUndefined ([VNum 0; VRef (length (heap s))] !! 0)) with (VNum 0).
    change (strict_ne (VNum 0) VNegZero) with false. cbn iota.
    unfold observe. cbn. rewrite !lookup_last. split; reflexivity.
Qed.

Lemma X18_witness :
  let jsx : extern unit :=
    fun args s =>
      (Normal (VRef (length (heap s))),
       Store (heap s ++ [Obj KObject [] [("type", VStr "div");
                                         ("children", nth 1 args VUndefined)]])
             (world s)) in
  let h := [Obj KObject [] [("value", VStr "a")]; Obj KObject [] [("value", VStr "b")];
            Obj KObject [] [("value", VNum 0)]; Obj KObject [] [("value", VNegZero)]] in
  let args := [VRef 0; VRef 0; VRef 1; VNull] in
  results (GatingWithHoistedTypeReference.Component false jsx) args (Store h tt)
  = results (GatingWithHoistedTypeReference.Component true jsx) args (Store h tt)
  /\ results (GatingWithHoistedTypeReference.Component true jsx) args (Store h tt)
     = [Normal (Object (Obj KObject [] [("type", VStr "div"); ("children", VStr "a")]));
        Normal (Object (Obj KObject [] [("type", VStr "div"); ("children", VStr "a")]));
        Normal (Object (Obj KObject [] [("type", VStr "div"); ("children", VStr "b")]));
        Abrupt TypeError]
  /\ results (GatingWithHoistedTypeReference.Component true jsx) [VRef 2; VRef 3]
             (Store h tt)
     = [Normal (Object (Obj KObject [] [("type", VStr "div"); ("children", VNum 0)]));
        Normal (Object (Obj KObject [] [("type", VStr "div"); ("children", VNum 0)]))].
Proof.
  intros jsx h args.
  destruct (X18_gating_flag_does_not_change_what_the_caller_sees unit jsx
              (fun child => Obj KObject [] [("type", VStr "div"); ("children", child)])
              (Store h tt)) as [H1 H2].
  - intros child s. reflexivity.
  - refine (conj (H1 args _ _) (conj eq_refl _)).
    + unfold program_heap, h. repeat (constructor; cbn); first [lia | discriminate].
    + unfold args, h.
      repeat first [apply Forall_cons_2 | apply Forall_nil_2 | split];
        cbn; first [lia | discriminate | exact I].
    + refine (proj2 (H2 (VRef 2) (VRef 3) _ _ eq_refl eq_refl)); cbn; lia.
Defined.

(** * Properties of the component tree hook *)

Section TreeHookMaps.
Import ReactComponentTreeHook.
Implicit Types (m : list (Z * item)) (id k : Z) (it : item) (r : registry).

Lemma map_get_set_same id it m : map_get id (map_set id it m) = Some it.
Proof.
  induction m as [| [k x] m IH]; cbn.
  - rewrite Z.eqb_refl. reflexivity.
  - destruct (Z.eqb k id) eqn:E; cbn; rewrite E; [reflexivity | exact IH].
Qed.

Lemma map_get_set_other id k it m :
  k <> id -> map_get k (map_set id it m) = map_get k m.
Proof.
  intros Hne. induction m as [| [k' x] m IH]; cbn.
  - destruct (Z.eqb id k) eqn:E; [apply Z.eqb_eq in E; congruence | reflexivity].
  - destruct (Z.eqb k' id) eqn:E; cbn.
    + apply Z.eqb_eq in E. subst k'.
      destruct (Z.eqb id k) eqn:E'; [apply Z.eqb_eq in E'; congruence | reflexivity].
    + destruct (Z.eqb k' k); [reflexivity | exact IH].
Qed.

Lemma map_get_delete_same id m : map_get id (map_delete id m) = None.
Proof.
  induction m as [| [k x] m IH]; cbn; [reflexivity |].
  destruct (Z.eqb k id) eqn:E; cbn; [exact IH |]. rewrite E. exact IH.
Qed.

Lemma map_get_delete_other id k m :
  k <> id -> map_get k (map_delete id m) = map_get k m.
Proof.
  intros Hne. induction m as [| [k' x] m IH]; cbn; [reflexivity |].
  destruct (Z.eqb k' id) eqn:E; cbn.
  - apply Z.eqb_eq in E. subst k'.
    destruct (Z.eqb id k) eqn:E'; [apply Z.eqb_eq in E'; congruence | exact IH].
  - destruct (Z.eqb k' k); [reflexivity | exact IH].
Qed.

Lemma map_get_delete_Some id k it m :
  map_get k (map_delete id m) = Some it -> map_get k m = Some it.
Proof.
  destruct (Z.eq_dec k id) as [-> | Hne].
  - rewrite map_get_delete_same. discriminate.
  - rewrite map_get_delete_other by exact Hne. auto.
Qed.

Lemma map_keys_set id it m :
  map fst (map_set id it m)
  = match map_get id m with
    | Some _ => map fst m
    | None => map fst m ++ [id]
    end.
Proof.
  induction m as [| [k x] m IH]; cbn; [reflexivity |].
  destruct (Z.eqb k id) eqn:E; cbn; [reflexivity |].
  rewrite IH. destruct (map_get id m); reflexivity.
Qed.

Lemma map_delete_set id it m :
  map_delete id (map_set id it m) = map_delete id m.
Proof.
  unfold map_delete. induction m as [| [k x] m IH]; cbn.
  - rewrite Z.eqb_refl. reflexivity.
  - destruct (Z.eqb k id) eqn:E; cbn; rewrite E; cbn; [reflexivity |].
    rewrite IH. reflexivity.
Qed.

Lemma map_set_set id it it' m :
  map_set id it' (map_set id it m) = map_set id it' m.
Proof.
  induction m as [| [k x] m IH]; cbn.
  - rewrite Z.eqb_refl. reflexivity.
  - destruct (Z.eqb k id) eqn:E; cbn; rewrite E; [reflexivity |].
    rewrite IH. reflexivity.
Qed.

Lemma map_delete_length id m : length (map_delete id m) <= length m.
Proof.
  unfold map_delete. induction m as [| [k x] m IH]; cbn; [lia |].
  destruct (negb (Z.eqb k id)); cbn; lia.
Qed.

Lemma map_delete_shrinks id it m :
  map_get id m = Some it -> length (map_delete id m) < length m.
Proof.
  unfold map_delete. induction m as [| [k x] m IH]; cbn; [discriminate |].
  destruct (Z.eqb k id) eqn:E; cbn.
  - intros _. pose proof (map_delete_length id m). unfold map_delete in *. lia.
  - intros H. specialize (IH H). lia.
Qed.

Lemma set_delete_add id (s : list Z) :
  set_delete id (set_add id s) = set_delete id s.
Proof.
  unfold set_add. destruct (existsb (Z.eqb id) s); [reflexivity |].
  unfold set_delete. rewrite List.filter_app. cbn. rewrite Z.eqb_refl. cbn.
  apply app_nil_r.
Qed.

End TreeHookMaps.

(** X19: registration in [ReactComponentTreeHook].  After
    [onBeforeMountComponent(id, element, parentID)] the getters give
    back what was registered ([element], [parentID], no children, not
    mounted, update count 0), whether [id] was registered before or not;
    the items of all other ids are as they were; [id] is appended to the
    registered ids if it is new and keeps its place otherwise; the set
    of roots is not touched, so a mounted root that is registered again
    is still listed by [getRootIDs] although it is no longer mounted. *)
Theorem X19_registration_round_trip :
  forall (id : Z) (element : value) (parentID : option Z)
         (r : ReactComponentTreeHook.registry),
    let r' := ReactComponentTreeHook.onBeforeMountComponent id element parentID r in
    ReactComponentTreeHook.getElement id r' = element
    /\ ReactComponentTreeHook.getParentID id r' = parentID
    /\ ReactComponentTreeHook.getChildIDs id r' = []
    /\ ReactComponentTreeHook.isMounted id r' = false
    /\ ReactComponentTreeHook.getUpdateCount id r' = 0
    /\ (forall k, k <> id ->
          ReactComponentTreeHook.getItem k r' = ReactComponentTreeHook.getItem k r)
    /\ ReactComponentTreeHook.getRegisteredIDs r'
       = match ReactComponentTreeHook.getItem id r with
         | Some _ => ReactComponentTreeHook.getRegisteredIDs r
         | None => ReactComponentTreeHook.getRegisteredIDs r ++ [id]
         end
    /\ ReactComponentTreeHook.getRootIDs r' = ReactComponentTreeHook.getRootIDs r.
Proof.
  intros id element parentID r r'. subst r'.
  unfold ReactComponentTreeHook.getElement, ReactComponentTreeHook.getParentID,
    ReactComponentTreeHook.getChildIDs, ReactComponentTreeHook.isMounted,
    ReactComponentTreeHook.getUpdateCount, ReactComponentTreeHook.getItem,
    ReactComponentTreeHook.getRegisteredIDs, ReactComponentTreeHook.getRootIDs,
    ReactComponentTreeHook.onBeforeMountComponent, ReactComponentTreeHook.setItem.
  cbn [ReactComponentTreeHook.itemMap ReactComponentTreeHook.rootIDSet].
  rewrite map_get_set_same. cbn.
  refine (conj eq_refl (conj eq_refl (conj eq_refl (conj eq_refl (conj eq_refl
            (conj _ (conj _ eq_refl))))))).
  - intros k Hk. apply map_get_set_other. exact Hk.
  - apply map_keys_set.
Qed.

Section TreeHookLife.
Import ReactComponentTreeHook.
Implicit Types (m : list (Z * item)) (id k : Z) (it : item) (r : registry).

Lemma onMountComponent_registered id it m roots un :
  map_get id m = Some it ->
  onMountComponent id (Registry m roots un)
  = (Returned tt,
     Registry (map_set id (Item (item_element it) (item_parentID it) (item_text it)
                                (item_childIDs it) true (item_updateCount it)) m)
              (if isRoot it then set_add id roots else roots) un).
Proof.
  intros H. unfold onMountComponent, getItem, setItem, addRoot. cbn.
  rewrite H. destruct (isRoot it); reflexivity.
Qed.

Lemma onUnmountComponent_registered id it m roots un :
  map_get id m = Some it ->
  onUnmountComponent id (Registry m roots un)
  = Registry (map_set id (Item (item_element it) (item_parentID it) (item_text it)
                               (item_childIDs it) false (item_updateCount it)) m)
             (if isRoot it then set_delete id roots else roots) (un ++ [id]).
Proof.
  intros H. unfold onUnmountComponent, getItem, setItem, removeRoot. cbn.
  rewrite H. destruct (isRoot it); reflexivity.
Qed.

(** Purging an instance without children deletes its item. *)
Lemma purge_childless id it m roots :
  map_get id m = Some it ->
  item_childIDs it = [] ->
  purgeUnmountedComponents (Registry m roots [id])
  = Registry (map_delete id m) roots [].
Proof.
  intros H Hc. unfold purgeUnmountedComponents, purgeDeep. cbn.
  unfold getItem, removeItem. cbn. rewrite H, Hc. reflexivity.
Qed.

End TreeHookLife.

(** X20: a whole life of an instance.  From a state without pending
    unmounts, registering [id] ([onBeforeMountComponent]), mounting it,
    unmounting it and purging leaves no trace of it: its item is gone,
    it is not a root, the list of unmounted ids is empty, and the items
    of all other ids and their order are as if [id] had only been
    deleted. *)
Theorem X20_mount_unmount_purge_leaves_no_trace :
  forall (id : Z) (element : value) (parentID : option Z)
         (r : ReactComponentTreeHook.registry),
    ReactComponentTreeHook.unmountedIDs r = [] ->
    let r1 := ReactComponentTreeHook.onBeforeMountComponent id element parentID r in
    let r2 := snd (ReactComponentTreeHook.onMountComponent id r1) in
    let r3 := ReactComponentTreeHook.onUnmountComponent id r2 in
    let r4 := ReactComponentTreeHook.purgeUnmountedComponents r3 in
    fst (ReactComponentTreeHook.onMountComponent id r1) = ReactComponentTreeHook.Returned tt
    /\ ReactComponentTreeHook.isMounted id r2 = true
    /\ ReactComponentTreeHook.isMounted id r3 = false
    /\ ReactComponentTreeHook.unmountedIDs r3 = [id]
    /\ r4 = ReactComponentTreeHook.Registry
              (ReactComponentTreeHook.map_delete id (ReactComponentTreeHook.itemMap r))
              (if ReactComponentTreeHook.isRoot
                    (ReactComponentTreeHook.Item element parentID VNull [] false 0)
               then ReactComponentTreeHook.set_delete id (ReactComponentTreeHook.rootIDSet r)
               else ReactComponentTreeHook.rootIDSet r)
              [].
Proof.
  intros id element parentID [m roots un] Hun. cbn in Hun. subst un.
  cbn zeta. unfold ReactComponentTreeHook.onBeforeMountComponent,
    ReactComponentTreeHook.setItem.
  cbn [ReactComponentTreeHook.itemMap ReactComponentTreeHook.rootIDSet
       ReactComponentTreeHook.unmountedIDs].
  rewrite (onMountComponent_registered id _ _ roots [] (map_get_set_same id _ m)).
  cbn [fst snd ReactComponentTreeHook.item_element ReactComponentTreeHook.item_parentID
       ReactComponentTreeHook.item_text ReactComponentTreeHook.item_childIDs
       ReactComponentTreeHook.item_updateCount].
  rewrite map_set_set.
  rewrite (onUnmountComponent_registered id _ _ _ [] (map_get_set_same id _ m)).
  cbn [ReactComponentTreeHook.item_element ReactComponentTreeHook.item_parentID
       ReactComponentTreeHook.item_text ReactComponentTreeHook.item_childIDs
       ReactComponentTreeHook.item_updateCount app].
  rewrite map_set_set.
  rewrite (purge_childless id
             (ReactComponentTreeHook.Item element parentID VNull [] false 0)
             _ _ (map_get_set_same id _ m) eq_refl).
  rewrite map_delete_set.
  unfold ReactComponentTreeHook.isMounted, ReactComponentTreeHook.getItem.
  cbn [ReactComponentTreeHook.itemMap ReactComponentTreeHook.unmountedIDs].
  rewrite !map_get_set_same.
  refine (conj eq_refl (conj eq_refl (conj eq_refl (conj eq_refl _)))).
  unfold ReactComponentTreeHook.isRoot.
  cbn [ReactComponentTreeHook.item_parentID].
  destruct (match parentID with Some p => Z.eqb p 0 | None => false end);
    [rewrite set_delete_add |]; reflexivity.
Qed.

Lemma X20_witness :
  ReactComponentTreeHook.purgeUnmountedComponents
    (ReactComponentTreeHook.onUnmountComponent 7
       (snd (ReactComponentTreeHook.onMountComponent 7
               (ReactComponentTreeHook.onBeforeMountComponent 7 (VStr "div") (Some 0%Z)
                  (ReactComponentTreeHook.onBeforeMountComponent 3 (VStr "p") (Some 7%Z)
                     ReactComponentTreeHook.initial)))))
  = ReactComponentTreeHook.Registry
      [(3%Z, ReactComponentTreeHook.Item (VStr "p") (Some 7%Z) VNull [] false 0)] [] [].
Proof.
  exact (proj2 (proj2 (proj2 (proj2
           (X20_mount_unmount_purge_leaves_no_trace 7 (VStr "div") (Some 0%Z)
              (ReactComponentTreeHook.onBeforeMountComponent 3 (VStr "p") (Some 7%Z)
                 ReactComponentTreeHook.initial)
              eq_refl))))).
Defined.

(** ** [purgeDeep] *)

Section TreeHookPurge.
Import ReactComponentTreeHook.
Implicit Types (m : list (Z * item)) (id k : Z) (it : item) (r : registry).

Lemma submap_refl m : submap m m.
Proof. intros k x H. exact H. Qed.

Lemma submap_trans m1 m2 m3 : submap m1 m2 -> submap m2 m3 -> submap m1 m3.
Proof. intros H12 H23 k x H. apply H23, H12, H. Qed.

Lemma submap_delete id m : submap (map_delete id m) m.
Proof. intros k x H. exact (map_get_delete_Some id k x m H). Qed.

(** An id without item in the larger map has none in the smaller. *)
Lemma submap_None m m' k : submap m' m -> map_get k m = None -> map_get k m' = None.
Proof.
  intros Hsub Hk. destruct (map_get k m') as [x|] eqn:E; [| reflexivity].
  apply Hsub in E. congruence.
Qed.

Lemma reaches_submap m m' a b : submap m' m -> reaches m' a b -> reaches m a b.
Proof.
  intros Hsub H. induction H as [a | a c d it Ha Hc _ IH].
  - apply reaches_here.
  - exact (reaches_child m a c d it (Hsub _ _ Ha) Hc IH).
Qed.

Lemma filter_sublist {A} (p : A -> bool) (l : list A) : sublist (List.filter p l) l.
Proof.
  induction l as [| a l IH]; cbn; [constructor |].
  destruct (p a); [apply sublist_skip | apply sublist_cons]; exact IH.
Qed.

Lemma purge_map_submap fuel : forall id m, submap (purge_map fuel id m) m.
Proof.
  induction fuel as [| fuel IH]; intros id m; cbn; [apply submap_refl |].
  destruct (map_get id m) as [it|]; [| apply submap_refl].
  assert (Hfold : forall cs m1,
            submap (fold_left (fun m' child => purge_map fuel child m') cs m1) m1).
  { induction cs as [| c cs IHcs]; intros m1; cbn; [apply submap_refl |].
    exact (submap_trans _ _ _ (IHcs _) (IH c m1)). }
  exact (submap_trans _ _ _ (Hfold _ _) (submap_delete id m)).
Qed.

Lemma purge_map_length fuel : forall id m, length (purge_map fuel id m) <= length m.
Proof.
  induction fuel as [| fuel IH]; intros id m; cbn; [lia |].
  destruct (map_get id m) as [it|]; [| lia].
  assert (Hfold : forall cs m1,
            length (fold_left (fun m' child => purge_map fuel child m') cs m1)
            <= length m1).
  { induction cs as [| c cs IHcs]; intros m1; cbn; [lia |].
    specialize (IHcs (purge_map fuel c m1)). specialize (IH c m1). lia. }
  specialize (Hfold (item_childIDs it) (map_delete id m)).
  pose proof (map_delete_length id m). lia.
Qed.

Lemma purge_map_sublist fuel : forall id m, sublist (purge_map fuel id m) m.
Proof.
  induction fuel as [| fuel IH]; intros id m; cbn; [reflexivity |].
  destruct (map_get id m) as [it|]; [| reflexivity].
  assert (Hfold : forall cs m1,
            sublist (fold_left (fun m' child => purge_map fuel child m') cs m1) m1).
  { induction cs as [| c cs IHcs]; intros m1; cbn; [reflexivity |].
    etransitivity; [apply IHcs | apply IH]. }
  etransitivity; [apply Hfold | apply filter_sublist].
Qed.

(** The recursion ends: the fuel beyond the number of items is not used. *)
Lemma purge_map_fuel fuel1 : forall fuel2 id m,
  length m < fuel1 -> length m < fuel2 ->
  purge_map fuel1 id m = purge_map fuel2 id m.
Proof.
  induction fuel1 as [| fuel1 IH]; intros fuel2 id m H1 H2; [lia |].
  destruct fuel2 as [| fuel2]; [lia |]. cbn.
  destruct (map_get id m) as [it|] eqn:E; [| reflexivity].
  pose proof (map_delete_shrinks id it m E) as Hlt.
  assert (Hfold : forall cs m1,
            length m1 < fuel1 -> length m1 < fuel2 ->
            fold_left (fun m' child => purge_map fuel1 child m') cs m1
            = fold_left (fun m' child => purge_map fuel2 child m') cs m1).
  { induction cs as [| c cs IHcs]; intros m1 L1 L2; cbn; [reflexivity |].
    rewrite (IH fuel2 c m1 L1 L2).
    pose proof (purge_map_length fuel2 c m1).
    apply IHcs; lia. }
  apply Hfold; lia.
Qed.

(** With enough fuel, [purgeDeep(id)] removes the item of [id], and the
    children of every item it removes. *)
Lemma purge_map_closed m0 fuel : forall id m (pending : Z -> Prop),
  submap m m0 -> length m < fuel -> closed_except pending m0 m ->
  closed_except pending m0 (purge_map fuel id m)
  /\ map_get id (purge_map fuel id m) = None.
Proof.
  induction fuel as [| fuel IH]; intros id m pending Hsub Hlen Hcl; [lia |].
  cbn. destruct (map_get id m) as [it|] eqn:E; [| split; assumption].
  pose proof (map_delete_shrinks id it m E) as Hlt.
  assert (Hfold : forall cs m1 (P : Z -> Prop),
            submap m1 m0 -> length m1 < fuel -> closed_except P m0 m1 ->
            closed_except P m0 (fold_left (fun m' child => purge_map fuel child m') cs m1)
            /\ (forall c, In c cs ->
                  map_get c (fold_left (fun m' child => purge_map fuel child m') cs m1)
                  = None)
            /\ submap (fold_left (fun m' child => purge_map fuel child m') cs m1) m1).
  { induction cs as [| c cs IHcs]; intros m1 P Hs Hl Hc; cbn.
    - split; [exact Hc | split; [intros c [] | apply submap_refl]].
    - destruct (IH c m1 P Hs Hl Hc) as [Hc' Hgone].
      pose proof (purge_map_submap fuel c m1) as Hs'.
      pose proof (purge_map_length fuel c m1) as Hl'.
      destruct (IHcs (purge_map fuel c m1) P (submap_trans _ _ _ Hs' Hs)
                  ltac:(lia) Hc') as (Hc2 & Hgone2 & Hs2).
      split; [exact Hc2 | split].
      + intros c' [<- | Hin].
        * exact (submap_None _ _ _ Hs2 Hgone).
        * exact (Hgone2 c' Hin).
      + exact (submap_trans _ _ _ Hs2 Hs'). }
  destruct (Hfold (item_childIDs it) (map_delete id m) (fun k => pending k \/ k = id))
    as (Hc2 & Hgone & Hs2).
  - exact (submap_trans _ _ _ (submap_delete id m) Hsub).
  - lia.
  - intros k x c Hk0 Hk1 Hnp Hin.
    assert (Hne : k <> id) by (intros ->; apply Hnp; right; reflexivity).
    rewrite map_get_delete_other in Hk1 by exact Hne.
    apply (submap_None m _ c (submap_delete id m)).
    apply (Hcl k x c Hk0 Hk1); [| exact Hin].
    intros Hp. apply Hnp. left. exact Hp.
  - split.
    + intros k x c Hk0 Hk2 Hnp Hin.
      destruct (Z.eq_dec k id) as [-> | Hne].
      * apply Hsub in E. rewrite E in Hk0. injection Hk0 as <-.
        exact (Hgone c Hin).
      * apply (Hc2 k x c Hk0 Hk2); [| exact Hin].
        intros [Hp | Heq]; [exact (Hnp Hp) | exact (Hne Heq)].
    + exact (submap_None _ _ _ Hs2 (map_get_delete_same id m)).
Qed.

(** [purgeDeep(id)] removes nothing but [id] and its descendants. *)
Lemma purge_map_removed fuel : forall id m k x,
  map_get k m = Some x -> map_get k (purge_map fuel id m) = None -> reaches m id k.
Proof.
  induction fuel as [| fuel IH]; intros id m k x Hk Hgone; cbn in Hgone; [congruence |].
  destruct (map_get id m) as [it|] eqn:E; [| congruence].
  destruct (Z.eq_dec k id) as [-> | Hne]; [apply reaches_here |].
  assert (Hfold : forall cs m1,
            submap m1 m -> map_get k m1 = Some x ->
            map_get k (fold_left (fun m' child => purge_map fuel child m') cs m1) = None ->
            exists c, In c cs /\ reaches m c k).
  { induction cs as [| c cs IHcs]; intros m1 Hs Hk1 Hg; cbn in Hg; [congruence |].
    destruct (map_get k (purge_map fuel c m1)) as [x'|] eqn:Ek.
    - pose proof (purge_map_submap fuel c m1) as Hs'.
      pose proof (Hs' _ _ Ek) as Hx. rewrite Hk1 in Hx. injection Hx as ->.
      destruct (IHcs _ (submap_trans _ _ _ Hs' Hs) Ek Hg) as (c' & Hin & Hr).
      exists c'. split; [right; exact Hin | exact Hr].
    - exists c. split; [left; reflexivity |].
      exact (reaches_submap m m1 c k Hs (IH c m1 k x Hk1 Ek)). }
  destruct (Hfold (item_childIDs it) (map_delete id m) (submap_delete id m))
    as (c & Hin & Hr).
  - rewrite map_get_delete_other by exact Hne. exact Hk.
  - exact Hgone.
  - exact (reaches_child m id c k it E Hin Hr).
Qed.

(** The module's [purgeDeep] is [purge_map] on its map. *)
Lemma purgeDeep_fuel_map fuel : forall id r,
  purgeDeep_fuel fuel id r
  = Registry (purge_map fuel id (itemMap r)) (rootIDSet r) (unmountedIDs r).
Proof.
  induction fuel as [| fuel IH]; intros id [m roots un]; cbn; [reflexivity |].
  unfold getItem, removeItem. cbn.
  destruct (map_get id m) as [it|]; [| reflexivity].
  assert (Hfold : forall cs m1,
    fold_left (fun r' child => purgeDeep_fuel fuel child r') cs (Registry m1 roots un)
    = Registry (fold_left (fun m' child => purge_map fuel child m') cs m1) roots un).
  { induction cs as [| c cs IHcs]; intros m1; cbn; [reflexivity |].
    rewrite IH. cbn. apply IHcs. }
  apply Hfold.
Qed.

Lemma purgeUnmountedComponents_map r :
  purgeUnmountedComponents r
  = Registry (fold_left (fun m u => purge_map (S (length m)) u m)
                        (unmountedIDs r) (itemMap r))
             (rootIDSet r) [].
Proof.
  unfold purgeUnmountedComponents.
  assert (Hfold : forall us r1,
    fold_left (fun r' id => purgeDeep id r') us r1
    = Registry (fold_left (fun m u => purge_map (S (length m)) u m) us (itemMap r1))
               (rootIDSet r1) (unmountedIDs r1)).
  { induction us as [| u us IHus]; intros [m roots un]; cbn [fold_left]; [reflexivity |].
    unfold purgeDeep at 2. rewrite purgeDeep_fuel_map. rewrite IHus. reflexivity. }
  rewrite Hfold. reflexivity.
Qed.

(** The loop of [purgeUnmountedComponents]. *)
Lemma purge_loop m0 : forall (us : list Z) m,
  submap m m0 ->
  closed_except (fun _ => False) m0 m ->
  let m' := fold_left (fun m1 u => purge_map (S (length m1)) u m1) us m in
  submap m' m
  /\ closed_except (fun _ => False) m0 m'
  /\ (forall u, In u us -> map_get u m' = None)
  /\ (forall k x, map_get k m = Some x -> map_get k m' = None ->
        exists u, In u us /\ reaches m u k)
  /\ sublist m' m.
Proof.
  induction us as [| u us IH]; intros m Hsub Hcl; cbn.
  - split; [apply submap_refl | split; [exact Hcl | split; [intros u [] | split]]].
    + intros k x Hk Hg. congruence.
    + reflexivity.
  - set (m1 := purge_map (S (length m)) u m).
    destruct (purge_map_closed m0 (S (length m)) u m (fun _ => False) Hsub
                ltac:(lia) Hcl) as [Hcl1 Hgone1].
    pose proof (purge_map_submap (S (length m)) u m) as Hs1.
    destruct (IH m1 (submap_trans _ _ _ Hs1 Hsub) Hcl1) as (Hs2 & Hcl2 & Hg2 & Hr2 & Hl2).
    split; [exact (submap_trans _ _ _ Hs2 Hs1) | split; [exact Hcl2 | split; [| split]]].
    + intros u' [<- | Hin]; [exact (submap_None _ _ _ Hs2 Hgone1) | exact (Hg2 u' Hin)].
    + intros k x Hk Hg.
      destruct (map_get k m1) as [x'|] eqn:Ek.
      * pose proof (Hs1 _ _ Ek) as Hx. rewrite Hk in Hx. injection Hx as ->.
        destruct (Hr2 k x' Ek Hg) as (u' & Hin & Hr).
        exists u'. split; [right; exact Hin | exact (reaches_submap m m1 u' k Hs1 Hr)].
      * exists u. split; [left; reflexivity |].
        exact (purge_map_removed (S (length m)) u m k x Hk Ek).
    + etransitivity; [exact Hl2 | apply purge_map_sublist].
Qed.

(** In a map closed under removal, the descendants of a removed id are
    removed. *)
Lemma closed_reaches m0 m a d :
  closed_except (fun _ => False) m0 m ->
  map_get a m = None -> reaches m0 a d -> map_get d m = None.
Proof.
  intros Hcl Ha Hr. induction Hr as [a | a c d it Ha0 Hc _ IH]; [exact Ha |].
  apply IH. exact (Hcl a it c Ha0 Ha (fun F => F) Hc).
Qed.

End TreeHookPurge.

(** X21: [purgeUnmountedComponents] removes exactly the subtrees of the
    unmounted instances.  The recursion of [purgeDeep] ends for every
    state of the module, also when the [childIDs] form a cycle: it never
    needs more steps than there are items.  After the purge the list of
    unmounted ids is empty, an id has no item if it is an unmounted id
    or can be reached from one through the [childIDs] of registered
    items, every other id has the item it had, the remaining ids are
    listed in the order they had, and the set of roots is as it was. *)
Theorem X21_purge_removes_exactly_the_unmounted_subtrees :
  forall (r : ReactComponentTreeHook.registry),
    let r' := ReactComponentTreeHook.purgeUnmountedComponents r in
    let purged d :=
      exists u, In u (ReactComponentTreeHook.unmountedIDs r)
                /\ ReactComponentTreeHook.reaches (ReactComponentTreeHook.itemMap r) u d in
    (forall fuel id r0,
       length (ReactComponentTreeHook.itemMap r0) < fuel ->
       ReactComponentTreeHook.purgeDeep_fuel fuel id r0
       = ReactComponentTreeHook.purgeDeep id r0)
    /\ ReactComponentTreeHook.unmountedIDs r' = []
    /\ ReactComponentTreeHook.getRootIDs r' = ReactComponentTreeHook.getRootIDs r
    /\ (forall d, purged d -> ReactComponentTreeHook.getItem d r' = None)
    /\ (forall d, ~ purged d ->
          ReactComponentTreeHook.getItem d r' = ReactComponentTreeHook.getItem d r)
    /\ sublist (ReactComponentTreeHook.getRegisteredIDs r')
               (ReactComponentTreeHook.getRegisteredIDs r).
Proof.
  intros r r' purged. subst r'. split.
  { intros fuel id r0 Hfuel. unfold ReactComponentTreeHook.purgeDeep.
    rewrite !purgeDeep_fuel_map. f_equal. apply purge_map_fuel; lia. }
  rewrite purgeUnmountedComponents_map.
  unfold ReactComponentTreeHook.getItem, ReactComponentTreeHook.getRootIDs,
    ReactComponentTreeHook.getRegisteredIDs.
  cbn [ReactComponentTreeHook.itemMap ReactComponentTreeHook.rootIDSet
       ReactComponentTreeHook.unmountedIDs].
  destruct (purge_loop (ReactComponentTreeHook.itemMap r)
              (ReactComponentTreeHook.unmountedIDs r) (ReactComponentTreeHook.itemMap r)
              (submap_refl _))
    as (Hsub & Hcl & Hgone & Hreach & Hlist).
  { intros k x c Hk Hnone. congruence. }
  refine (conj eq_refl (conj eq_refl (conj _ (conj _ _)))).
  - intros d (u & Hin & Hr).
    exact (closed_reaches _ _ u d Hcl (Hgone u Hin) Hr).
  - intros d Hnot.
    destruct (ReactComponentTreeHook.map_get d (ReactComponentTreeHook.itemMap r))
      as [x|] eqn:Ed.
    + match goal with
      | |- ReactComponentTreeHook.map_get d ?m' = _ =>
          destruct (ReactComponentTreeHook.map_get d m') as [x'|] eqn:Ed'
      end.
      * apply Hsub in Ed'. congruence.
      * exfalso. apply Hnot. exact (Hreach d x Ed Ed').
    + exact (submap_None _ _ _ Hsub Ed).
  - exact (fmap_sublist fst _ _ Hlist).
Qed.

Lemma X21_witness :
  let item_of (children : list Z) :=
    ReactComponentTreeHook.Item (VStr "div") (Some 0%Z) VNull children true 0 in
  let r := ReactComponentTreeHook.Registry
             [(1%Z, item_of [2%Z]); (2%Z, item_of [1%Z; 3%Z]); (3%Z, item_of []);
              (4%Z, item_of [5%Z])]
             [] [2%Z] in
  ReactComponentTreeHook.getItem 3 (ReactComponentTreeHook.purgeUnmountedComponents r)
  = None
  /\ ReactComponentTreeHook.getRegisteredIDs
       (ReactComponentTreeHook.purgeUnmountedComponents r) = [4%Z].
Proof.
  intros item_of r. split; [| reflexivity].
  apply (proj1 (proj2 (proj2 (proj2 (X21_purge_removes_exactly_the_unmounted_subtrees r))))).
  exists 2%Z. split; [left; reflexivity |].
  apply (ReactComponentTreeHook.reaches_child _ 2%Z 3%Z 3%Z (item_of [1%Z; 3%Z])).
  - reflexivity.
  - right. left. reflexivity.
  - apply ReactComponentTreeHook.reaches_here.
Defined.

(** ** [onSetChildren] *)

Section TreeHookChildren.
Import ReactComponentTreeHook.
Implicit Types (m : list (Z * item)) (id k : Z) (it : item) (r : registry).

Lemma adopted_refl id it : adopted id it it.
Proof. unfold adopted. auto 10. Qed.

Lemma adopted_trans id a b c : adopted id a b -> adopted id b c -> adopted id a c.
Proof.
  unfold adopted. intros (E1 & T1 & C1 & M1 & U1 & P1) (E2 & T2 & C2 & M2 & U2 & P2).
  repeat split; try congruence.
  destruct P1 as [P1 | [P1 P1']], P2 as [P2 | [P2 P2']]; try (left; congruence);
    try (right; split; congruence).
Qed.

Lemma only_adoptions_refl id r : only_adoptions id r r.
Proof.
  repeat split. intros k. destruct (getItem k r); [apply adopted_refl | exact I].
Qed.

Lemma only_adoptions_trans id r1 r2 r3 :
  only_adoptions id r1 r2 -> only_adoptions id r2 r3 -> only_adoptions id r1 r3.
Proof.
  intros (K1 & R1 & U1 & H1) (K2 & R2 & U2 & H2).
  repeat split; try congruence.
  intros k. specialize (H1 k). specialize (H2 k).
  destruct (getItem k r1), (getItem k r2), (getItem k r3); try contradiction;
    [exact (adopted_trans id _ _ _ H1 H2) | exact I].
Qed.

(** Giving a registered item a parent is an adoption. *)
Lemma only_adoptions_setItem id c it r :
  getItem c r = Some it ->
  item_parentID it = None ->
  only_adoptions id r
    (setItem c (Item (item_element it) (Some id) (item_text it) (item_childIDs it)
                     (item_isMounted it) (item_updateCount it)) r).
Proof.
  intros Hc Hp. unfold only_adoptions, getRegisteredIDs, getItem, setItem in *. cbn.
  rewrite map_keys_set, Hc.
  repeat split. intros k.
  destruct (Z.eq_dec k c) as [-> | Hne].
  - rewrite map_get_set_same, Hc. unfold adopted. cbn. auto 10.
  - rewrite map_get_set_other by exact Hne.
    destruct (map_get k (itemMap r)); [apply adopted_refl | exact I].
Qed.

Lemma onSetChildren_loop_spec id : forall (cs : list Z) r,
  only_adoptions id r (snd (onSetChildren_loop id cs r))
  /\ (fst (onSetChildren_loop id cs r) = Returned tt ->
      forall c, In c cs ->
        getParentID c (snd (onSetChildren_loop id cs r)) = Some id
        /\ isMounted c (snd (onSetChildren_loop id cs r)) = true).
Proof.
  induction cs as [| c cs IH]; intros r; cbn [onSetChildren_loop].
  - split; [apply only_adoptions_refl | intros _ c []].
  - destruct (getItem c r) as [child|] eqn:Ec;
      [| split; [apply only_adoptions_refl | discriminate]].
    destruct (item_isMounted child) eqn:Em; cbn [negb];
      [| split; [apply only_adoptions_refl | discriminate]].
    destruct (item_parentID child) as [p|] eqn:Ep; cbn [item_parentID].
    + rewrite Ep. destruct (Z.eqb p id) eqn:Epid;
        [| split; [apply only_adoptions_refl | discriminate]].
      apply Z.eqb_eq in Epid. subst p.
      destruct (IH r) as [Had Hok]. split; [exact Had |].
      intros Hret c' [<- | Hin]; [| exact (Hok Hret c' Hin)].
      destruct Had as (_ & _ & _ & Hk). specialize (Hk c).
      unfold getParentID, isMounted. rewrite Ec in Hk.
      destruct (getItem c (snd (onSetChildren_loop id cs r))) as [b|]; [| contradiction].
      destruct Hk as (_ & _ & _ & Hm & _ & [Hp | [Hp _]]); [| congruence].
      split; congruence.
    + rewrite Z.eqb_refl.
      pose proof (only_adoptions_setItem id c child r Ec Ep) as Had1. rewrite Em in Had1.
      set (r1 := setItem c _ r) in *.
      destruct (IH r1) as [Had Hok].
      split; [exact (only_adoptions_trans id _ _ _ Had1 Had) |].
      intros Hret c' [<- | Hin]; [| exact (Hok Hret c' Hin)].
      destruct Had as (_ & _ & _ & Hk). specialize (Hk c).
      unfold getParentID, isMounted.
      assert (Hc1 : getItem c r1
                    = Some (Item (item_element child) (Some id) (item_text child)
                                 (item_childIDs child) true
                                 (item_updateCount child))).
      { unfold r1, getItem, setItem. cbn. apply map_get_set_same. }
      rewrite Hc1 in Hk.
      destruct (getItem c (snd (onSetChildren_loop id cs r1))) as [b|]; [| contradiction].
      destruct Hk as (_ & _ & _ & Hm & _ & [Hp | [Hp _]]); cbn in *; [| congruence].
      split; congruence.
Qed.

End TreeHookChildren.

(** X22: [onSetChildren(id, nextChildIDs)].  Without an item for [id]
    the invariant "Item must have been set" fails and nothing changes.
    With one, [nextChildIDs] become the children of [id] before the
    children are checked, so they are its children also when a later
    invariant fails; whatever the outcome, no item is added or removed,
    the roots and the unmounted ids stay, and an item only changes by
    getting [id] as the parent it lacked.  When the call returns, every
    child is mounted, has the parent [id], and had that parent or none
    before. *)
Theorem X22_onSetChildren_adopts_the_children :
  forall (id : Z) (nextChildIDs : list Z) (r : ReactComponentTreeHook.registry),
    let res := ReactComponentTreeHook.onSetChildren id nextChildIDs r in
    (ReactComponentTreeHook.getItem id r = None ->
     res = (ReactComponentTreeHook.InvariantViolation "Item must have been set", r))
    /\ (forall it,
          ReactComponentTreeHook.getItem id r = Some it ->
          ReactComponentTreeHook.getChildIDs id (snd res) = nextChildIDs
          /\ ReactComponentTreeHook.only_adoptions id
               (ReactComponentTreeHook.setItem id
                  (ReactComponentTreeHook.Item
                     (ReactComponentTreeHook.item_element it)
                     (ReactComponentTreeHook.item_parentID it)
                     (ReactComponentTreeHook.item_text it)
                     nextChildIDs
                     (ReactComponentTreeHook.item_isMounted it)
                     (ReactComponentTreeHook.item_updateCount it)) r)
               (snd res))
    /\ (fst res = ReactComponentTreeHook.Returned tt ->
        forall c, In c nextChildIDs ->
          ReactComponentTreeHook.getParentID c (snd res) = Some id
          /\ ReactComponentTreeHook.isMounted c (snd res) = true
          /\ ReactComponentTreeHook.isMounted c r = true
          /\ (ReactComponentTreeHook.getParentID c r = Some id
              \/ ReactComponentTreeHook.getParentID c r = None)).
Proof.
  intros id cs r res. subst res. unfold ReactComponentTreeHook.onSetChildren.
  destruct (ReactComponentTreeHook.getItem id r) as [it|] eqn:Eid.
  2:{ split; [reflexivity | split; [discriminate | discriminate]]. }
  set (r1 := ReactComponentTreeHook.setItem id _ r).
  destruct (onSetChildren_loop_spec id cs r1) as [Had Hok].
  assert (Hget1 : forall k, k <> id ->
            ReactComponentTreeHook.getItem k r1 = ReactComponentTreeHook.getItem k r).
  { intros k Hk. unfold r1, ReactComponentTreeHook.getItem, ReactComponentTreeHook.setItem.
    cbn. apply map_get_set_other. exact Hk. }
  assert (Hid1 : ReactComponentTreeHook.getItem id r1
                 = Some (ReactComponentTreeHook.Item
                           (ReactComponentTreeHook.item_element it)
                           (ReactComponentTreeHook.item_parentID it)
                           (ReactComponentTreeHook.item_text it) cs
                           (ReactComponentTreeHook.item_isMounted it)
                           (ReactComponentTreeHook.item_updateCount it))).
  { unfold r1, ReactComponentTreeHook.getItem, ReactComponentTreeHook.setItem.
    cbn. apply map_get_set_same. }
  split; [discriminate | split].
  - intros it' [= <-]. split; [| exact Had].
    destruct Had as (_ & _ & _ & Hk). specialize (Hk id). rewrite Hid1 in Hk.
    unfold ReactComponentTreeHook.getChildIDs.
    destruct (ReactComponentTreeHook.getItem id
                (snd (ReactComponentTreeHook.onSetChildren_loop id cs r1))) as [b|];
      [| contradiction].
    destruct Hk as (_ & _ & Hc & _). exact Hc.
  - intros Hret c Hin. destruct (Hok Hret c Hin) as [Hp Hm].
    split; [exact Hp | split; [exact Hm |]].
    destruct Had as (_ & _ & _ & Hk). specialize (Hk c).
    unfold ReactComponentTreeHook.getParentID, ReactComponentTreeHook.isMounted in *.
    destruct (Z.eq_dec c id) as [-> | Hne].
    + rewrite Hid1 in Hk. rewrite Eid.
      destruct (ReactComponentTreeHook.getItem id
                  (snd (ReactComponentTreeHook.onSetChildren_loop id cs r1))) as [b|];
        [| contradiction].
      destruct Hk as (_ & _ & _ & Hm' & _ & Hp'). cbn in Hm', Hp'.
      split; [congruence |].
      destruct Hp' as [Hp' | [Hp' _]]; [left | right]; congruence.
    + rewrite (Hget1 c Hne) in Hk.
      destruct (ReactComponentTreeHook.getItem c r) as [a|];
        destruct (ReactComponentTreeHook.getItem c
                    (snd (ReactComponentTreeHook.onSetChildren_loop id cs r1))) as [b|];
        try contradiction; try discriminate.
      destruct Hk as (_ & _ & _ & Hm' & _ & Hp').
      split; [congruence |].
      destruct Hp' as [Hp' | [Hp' _]]; [left | right]; congruence.
Qed.

Lemma X22_witness :
  let mounted (parent : option Z) :=
    ReactComponentTreeHook.Item (VStr "div") parent VNull [] true 0 in
  let r := ReactComponentTreeHook.Registry
             [(1%Z, mounted (Some 0%Z)); (2%Z, mounted None); (3%Z, mounted (Some 1%Z))]
             [1%Z] [] in
  ReactComponentTreeHook.getParentID 2 (snd (ReactComponentTreeHook.onSetChildren 1 [2%Z; 3%Z] r))
  = Some 1%Z
  /\ ReactComponentTreeHook.getChildIDs 1
       (snd (ReactComponentTreeHook.onSetChildren 1 [2%Z; 3%Z] r)) = [2%Z; 3%Z].
Proof.
  intros mounted r.
  destruct (X22_onSetChildren_adopts_the_children 1 [2%Z; 3%Z] r) as (_ & Hset & Hret).
  split.
  - exact (proj1 (Hret eq_refl 2%Z (or_introl eq_refl))).
  - exact (proj1 (Hset (mounted (Some 0%Z)) eq_refl)).
Defined.

(** X23: updates of instances that are not mounted are ignored.
    [onUpdateComponent(id)] called [n] times adds [n] to the update count
    of a mounted instance and changes nothing else; for an instance that
    is unmounted or unknown it leaves the module as it is, as
    [onBeforeUpdateComponent(id, element)] does, which otherwise
    replaces the element of [id] and nothing else. *)
Theorem X23_updates_count_only_while_mounted :
  forall (id : Z) (element : value) (n : nat) (r : ReactComponentTreeHook.registry),
    let r' := Nat.iter n (ReactComponentTreeHook.onUpdateComponent id) r in
    let r'' := ReactComponentTreeHook.onBeforeUpdateComponent id element r in
    ReactComponentTreeHook.getUpdateCount id r'
    = (if ReactComponentTreeHook.isMounted id r
       then ReactComponentTreeHook.getUpdateCount id r + n
       else ReactComponentTreeHook.getUpdateCount id r)
    /\ (forall k, k <> id ->
          ReactComponentTreeHook.getItem k r' = ReactComponentTreeHook.getItem k r)
    /\ ReactComponentTreeHook.getElement id r' = ReactComponentTreeHook.getElement id r
    /\ ReactComponentTreeHook.isMounted id r' = ReactComponentTreeHook.isMounted id r
    /\ (ReactComponentTreeHook.isMounted id r = false -> r' = r /\ r'' = r)
    /\ (ReactComponentTreeHook.isMounted id r = true ->
        ReactComponentTreeHook.getElement id r'' = element
        /\ ReactComponentTreeHook.getUpdateCount id r''
           = ReactComponentTreeHook.getUpdateCount id r
        /\ forall k, k <> id ->
             ReactComponentTreeHook.getItem k r'' = ReactComponentTreeHook.getItem k r).
Proof.
  intros id element n r. cbn zeta.
  assert (Hstep : forall r0,
    let r1 := ReactComponentTreeHook.onUpdateComponent id r0 in
    ReactComponentTreeHook.getUpdateCount id r1
    = (if ReactComponentTreeHook.isMounted id r0
       then S (ReactComponentTreeHook.getUpdateCount id r0)
       else ReactComponentTreeHook.getUpdateCount id r0)
    /\ (forall k, k <> id ->
          ReactComponentTreeHook.getItem k r1 = ReactComponentTreeHook.getItem k r0)
    /\ ReactComponentTreeHook.getElement id r1 = ReactComponentTreeHook.getElement id r0
    /\ ReactComponentTreeHook.isMounted id r1 = ReactComponentTreeHook.isMounted id r0
    /\ (ReactComponentTreeHook.isMounted id r0 = false -> r1 = r0)).
  { intros r0. cbn zeta.
    unfold ReactComponentTreeHook.onUpdateComponent, ReactComponentTreeHook.getUpdateCount,
      ReactComponentTreeHook.isMounted, ReactComponentTreeHook.getElement,
      ReactComponentTreeHook.getItem, ReactComponentTreeHook.setItem.
    destruct (ReactComponentTreeHook.map_get id (ReactComponentTreeHook.itemMap r0))
      as [it|] eqn:E; [| rewrite E; auto 10].
    destruct (ReactComponentTreeHook.item_isMounted it) eqn:Em; cbn [negb];
      [| rewrite E, Em; auto 10].
    cbn [ReactComponentTreeHook.itemMap]. rewrite map_get_set_same. cbn.
    refine (conj eq_refl (conj _ (conj eq_refl (conj eq_refl _)))); [| discriminate].
    intros k Hk. apply map_get_set_other. exact Hk. }
  assert (Hiter : forall n,
    let r' := Nat.iter n (ReactComponentTreeHook.onUpdateComponent id) r in
    ReactComponentTreeHook.getUpdateCount id r'
    = (if ReactComponentTreeHook.isMounted id r
       then ReactComponentTreeHook.getUpdateCount id r + n
       else ReactComponentTreeHook.getUpdateCount id r)
    /\ (forall k, k <> id ->
          ReactComponentTreeHook.getItem k r' = ReactComponentTreeHook.getItem k r)
    /\ ReactComponentTreeHook.getElement id r' = ReactComponentTreeHook.getElement id r
    /\ ReactComponentTreeHook.isMounted id r' = ReactComponentTreeHook.isMounted id r
    /\ (ReactComponentTreeHook.isMounted id r = false -> r' = r)).
  { clear n. induction n as [| n IH]; cbn zeta.
    - cbn. rewrite Nat.add_0_r.
      destruct (ReactComponentTreeHook.isMounted id r); auto 10.
    - rewrite Nat.iter_succ. cbn zeta in IH. destruct IH as (Hc & Hk & He & Hm & Hu).
      destruct (Hstep (Nat.iter n (ReactComponentTreeHook.onUpdateComponent id) r))
        as (Hc1 & Hk1 & He1 & Hm1 & Hu1).
      rewrite Hc1, Hm1, He1, Hm, He, Hc.
      refine (conj _ (conj _ (conj eq_refl (conj eq_refl _)))).
      + destruct (ReactComponentTreeHook.isMounted id r); lia.
      + intros k Hne. rewrite (Hk1 k Hne). exact (Hk k Hne).
      + intros Hf. rewrite Hu1 by (rewrite Hm; exact Hf). exact (Hu Hf). }
  destruct (Hiter n) as (Hc & Hk & He & Hm & Hu).
  refine (conj Hc (conj Hk (conj He (conj Hm (conj _ _))))).
  - intros Hf. split; [exact (Hu Hf) |].
    unfold ReactComponentTreeHook.onBeforeUpdateComponent, ReactComponentTreeHook.isMounted in *.
    destruct (ReactComponentTreeHook.getItem id r) as [it|]; [| reflexivity].
    rewrite Hf. reflexivity.
  - intros Ht.
    unfold ReactComponentTreeHook.onBeforeUpdateComponent, ReactComponentTreeHook.isMounted,
      ReactComponentTreeHook.getElement, ReactComponentTreeHook.getUpdateCount,
      ReactComponentTreeHook.getItem, ReactComponentTreeHook.setItem in *.
    destruct (ReactComponentTreeHook.map_get id (ReactComponentTreeHook.itemMap r))
      as [it|] eqn:E; [| discriminate].
    rewrite Ht. cbn [negb ReactComponentTreeHook.itemMap].
    rewrite map_get_set_same. cbn.
    refine (conj eq_refl (conj eq_refl _)).
    intros k Hne. apply map_get_set_other. exact Hne.
Qed.

Lemma X23_witness :
  let r := ReactComponentTreeHook.Registry
             [(1%Z, ReactComponentTreeHook.Item (VStr "div") (Some 0%Z) VNull [] false 4)]
             [] [1%Z] in
  Nat.iter 3 (ReactComponentTreeHook.onUpdateComponent 1) r = r
  /\ ReactComponentTreeHook.onBeforeUpdateComponent 1 (VStr "span") r = r.
Proof.
  intros r.
  exact (proj1 (proj2 (proj2 (proj2 (proj2
           (X23_updates_count_only_while_mounted 1 (VStr "span") 3 r))))) eq_refl).
Defined.

(** * Properties of the no-op renderer *)

Section NoopChildren.
Import NoopRenderer.
Implicit Types (x y child : value) (l children : list value).

Lemma strict_eq_same x : x <> VNaN -> strict_eq x x = true.
Proof.
  destruct x; cbn [strict_eq]; intros H; try reflexivity; try congruence.
  - destruct b; reflexivity.
  - apply Z.eqb_refl.
  - apply String.eqb_refl.
  - apply String.eqb_refl.
  - apply Nat.eqb_refl.
  - apply Nat.eqb_refl.
Qed.

(** Among values other than the negative zero, [===] is identity
    (except on NaN). *)
Lemma strict_eq_iff x y :
  x <> VNaN -> x <> VNegZero -> y <> VNegZero -> strict_eq y x = true <-> y = x.
Proof.
  intros Hx Hz Hy. split.
  - apply strict_eq_true; assumption.
  - intros ->. apply strict_eq_same. exact Hx.
Qed.

Lemma not_elem_of_tail y l : VNegZero ∉ y :: l -> y <> VNegZero /\ VNegZero ∉ l.
Proof.
  intros H. split.
  - intros ->. apply H. left.
  - intros Hin. apply H. right. exact Hin.
Qed.

Lemma removal_is_without x l :
  match indexOf x l with
  | Some index => splice_out index l
  | None => l
  end = without x l.
Proof.
  induction l as [| y l IH]; cbn; [reflexivity |].
  destruct (strict_eq y x); [reflexivity |].
  destruct (indexOf x l) as [i|]; cbn in *.
  - unfold splice_out in *. cbn. rewrite IH. reflexivity.
  - rewrite <- IH. reflexivity.
Qed.

Lemma indexOf_None x l :
  x <> VNaN -> x <> VNegZero -> VNegZero ∉ l -> indexOf x l = None <-> x ∉ l.
Proof.
  intros Hx Hz. induction l as [| y l IH]; cbn; intros Hl.
  - split; [intros _ H; inversion H | reflexivity].
  - apply not_elem_of_tail in Hl as [Hy Hl]. specialize (IH Hl).
    destruct (strict_eq y x) eqn:E.
    + apply (strict_eq_iff x y Hx Hz Hy) in E. subst y.
      split; [discriminate | intros H; exfalso; apply H; left].
    + assert (Hne : y <> x).
      { intros ->. rewrite strict_eq_same in E by exact Hx. discriminate. }
      destruct (indexOf x l) as [i|]; cbn.
      * split; [discriminate |]. intros H. exfalso. apply H. right.
        destruct (decide (x ∈ l)) as [Hin | Hout]; [exact Hin |].
        apply IH in Hout. discriminate.
      * split; [| reflexivity]. intros _ H. apply elem_of_cons in H as [-> | H].
        -- congruence.
        -- destruct IH as [IH _]. exact (IH eq_refl H).
Qed.

Lemma indexOf_Some x l (i : nat) :
  x <> VNaN -> x <> VNegZero -> VNegZero ∉ l -> indexOf x l = Some i ->
  exists l1 l2, l = l1 ++ x :: l2 /\ length l1 = i /\ x ∉ l1.
Proof.
  intros Hx Hz. revert i. induction l as [| y l IH]; cbn; intros i Hl; [discriminate |].
  apply not_elem_of_tail in Hl as [Hy Hl].
  destruct (strict_eq y x) eqn:E.
  - intros [= <-]. apply (strict_eq_iff x y Hx Hz Hy) in E. subst y.
    exists [], l. split; [reflexivity | split; [reflexivity |]]. intros H. inversion H.
  - destruct (indexOf x l) as [j|]; cbn; [| discriminate].
    intros [= <-]. destruct (IH j Hl eq_refl) as (l1 & l2 & -> & Hlen & Hout).
    exists (y :: l1), l2. split; [reflexivity | split; [cbn; congruence |]].
    intros H. apply elem_of_cons in H as [-> | H]; [| exact (Hout H)].
    rewrite strict_eq_same in E by exact Hx. discriminate.
Qed.

Lemma without_notin x l :
  x <> VNaN -> x <> VNegZero -> VNegZero ∉ l -> x ∉ l -> without x l = l.
Proof.
  intros Hx Hz. induction l as [| y l IH]; cbn; intros Hl Hout; [reflexivity |].
  apply not_elem_of_tail in Hl as [Hy Hl].
  destruct (strict_eq y x) eqn:E.
  - apply (strict_eq_iff x y Hx Hz Hy) in E. subst y. exfalso. apply Hout. left.
  - rewrite IH; [reflexivity | exact Hl |]. intros H. apply Hout. right. exact H.
Qed.

Lemma without_elem x y l :
  x <> VNaN -> x <> VNegZero -> VNegZero ∉ l -> NoDup l ->
  y ∈ without x l <-> y ∈ l /\ y <> x.
Proof.
  intros Hx Hz. induction l as [| z l IH]; cbn; intros Hl Hnd.
  - split; [intros H; inversion H | intros [H _]; inversion H].
  - apply not_elem_of_tail in Hl as [Hy Hl].
    apply NoDup_cons in Hnd as [Hzl Hnd].
    destruct (strict_eq z x) eqn:E.
    + apply (strict_eq_iff x z Hx Hz Hy) in E. subst z. split.
      * intros H. split; [right; exact H | intros ->; exact (Hzl H)].
      * intros [H Hne]. apply elem_of_cons in H as [-> | H]; [congruence | exact H].
    + assert (Hne : z <> x).
      { intros ->. rewrite strict_eq_same in E by exact Hx. discriminate. }
      rewrite elem_of_cons, (IH Hl Hnd), elem_of_cons. split.
      * intros [-> | [H H']]; [split; [left; reflexivity | exact Hne] |].
        split; [right; exact H | exact H'].
      * intros [[-> | H] H']; [left; reflexivity | right; split; assumption].
Qed.

Lemma without_sublist x l : without x l `sublist_of` l.
Proof.
  induction l as [| z l IH]; cbn; [constructor |].
  destruct (strict_eq z x).
  - apply sublist_cons. reflexivity.
  - apply sublist_skip. exact IH.
Qed.

Lemma without_NoDup x l : NoDup l -> NoDup (without x l).
Proof. intros Hnd. exact (sublist_NoDup _ _ Hnd (without_sublist x l)). Qed.

Lemma without_keeps_out x y l : y ∉ l -> y ∉ without x l.
Proof.
  intros Hout Hin. apply Hout.
  exact (elem_of_sublist _ _ _ Hin (without_sublist x l)).
Qed.

Lemma indexOf_last x l :
  x <> VNaN -> x <> VNegZero -> VNegZero ∉ l -> x ∉ l ->
  indexOf x (l ++ [x]) = Some (length l).
Proof.
  intros Hx Hz. induction l as [| y l IH]; cbn; intros Hl Hout.
  - rewrite strict_eq_same by exact Hx. reflexivity.
  - apply not_elem_of_tail in Hl as [Hy Hl].
    destruct (strict_eq y x) eqn:E.
    + apply (strict_eq_iff x y Hx Hz Hy) in E. subst y. exfalso. apply Hout. left.
    + rewrite IH; [reflexivity | exact Hl |]. intros H. apply Hout. right. exact H.
Qed.

Lemma splice_out_last l x : splice_out (length l) (l ++ [x]) = l.
Proof.
  unfold splice_out. rewrite take_app_length.
  rewrite drop_app_ge by lia.
  replace (S (length l) - length l) with 1 by lia. cbn. apply app_nil_r.
Qed.

End NoopChildren.

(** X24: [appendChild] and [removeChild] of the no-op renderer, for
    children that [indexOf] tells apart as they are: a child other than
    NaN, which [===] never finds, and no negative zero, which [===]
    takes for [0].  [appendChild] removes the first occurrence of the
    child, if there is one, and pushes the child: an array without
    duplicates stays without duplicates, holds the child and what it
    held before, and a child that is already there is moved to the end.
    [removeChild] throws "This child does not exist." and leaves the
    array as it is when the child is not there, removes its first
    occurrence otherwise, and undoes an [appendChild] of a new child. *)
Theorem X24_appendChild_moves_the_child_to_the_end :
  forall (children : list value) (child : value),
    child <> VNaN ->
    child <> VNegZero ->
    VNegZero ∉ children ->
    NoopRenderer.appendChild children child = NoopRenderer.without child children ++ [child]
    /\ (NoDup children ->
        NoDup (NoopRenderer.appendChild children child)
        /\ forall x, x ∈ NoopRenderer.appendChild children child
                     <-> x = child \/ x ∈ children)
    /\ (child ∉ children ->
        NoopRenderer.removeChild children child
        = (Some "This child does not exist.", children)
        /\ NoopRenderer.removeChild (NoopRenderer.appendChild children child) child
           = (None, children))
    /\ (child ∈ children ->
        NoopRenderer.removeChild children child
        = (None, NoopRenderer.without child children)).
Proof.
  intros children child Hc Hz Hl.
  assert (Happend : NoopRenderer.appendChild children child
                    = NoopRenderer.without child children ++ [child]).
  { unfold NoopRenderer.appendChild. rewrite removal_is_without. reflexivity. }
  split; [exact Happend | split; [| split]].
  - intros Hnd. rewrite Happend. split.
    + apply NoDup_app. split; [exact (without_NoDup child children Hnd) | split].
      * intros x Hx Hx'. apply list_elem_of_singleton in Hx'. subst x.
        apply (without_elem child child children Hc Hz Hl Hnd) in Hx as [_ Hne].
        congruence.
      * apply NoDup_singleton.
    + intros x. rewrite elem_of_app, list_elem_of_singleton,
        (without_elem child x children Hc Hz Hl Hnd).
      destruct (decide (x = child)) as [-> | Hne]; [tauto |]. tauto.
  - intros Hout. split.
    + unfold NoopRenderer.removeChild.
      rewrite (proj2 (indexOf_None child children Hc Hz Hl) Hout). reflexivity.
    + rewrite Happend, (without_notin child children Hc Hz Hl Hout).
      unfold NoopRenderer.removeChild.
      rewrite (indexOf_last child children Hc Hz Hl Hout), splice_out_last.
      reflexivity.
  - intros Hin. unfold NoopRenderer.removeChild.
    pose proof (removal_is_without child children) as Hrem.
    destruct (NoopRenderer.indexOf child children) as [i|] eqn:Ei.
    + rewrite Hrem. reflexivity.
    + apply (indexOf_None child children Hc Hz Hl) in Ei. contradiction.
Qed.

Lemma X24_witness :
  NoopRenderer.appendChild [VRef 1; VRef 2; VRef 3] (VRef 2) = [VRef 1; VRef 3; VRef 2]
  /\ NoopRenderer.removeChild [VRef 1; VRef 2; VRef 3] (VRef 2) = (None, [VRef 1; VRef 3]).
Proof.
  assert (Hc : VRef 2 <> VNaN) by discriminate.
  assert (Hz : VRef 2 <> VNegZero) by discriminate.
  assert (Hl : VNegZero ∉ [VRef 1; VRef 2; VRef 3]).
  { apply (bool_decide_unpack _). exact I. }
  assert (Hin : VRef 2 ∈ [VRef 1; VRef 2; VRef 3]) by (right; left).
  destruct (X24_appendChild_moves_the_child_to_the_end [VRef 1; VRef 2; VRef 3]
              (VRef 2) Hc Hz Hl) as (H1 & _ & _ & H4).
  exact (conj H1 (H4 Hin)).
Defined.

(** X25: [insertBefore] of the no-op renderer, on an array without
    duplicates and without the negative zero, for children other than
    NaN and the negative zero.  The child is first removed from the
    array; when
    [beforeChild] is then found, the child is put right in front of it
    and the array still has no duplicates.  When [beforeChild] is not in
    the array, or is the child itself, the call throws "This child does
    not exist." after the removal: a child that was in the array is no
    longer in it. *)
Theorem X25_insertBefore_puts_the_child_in_front :
  forall (children : list value) (child beforeChild : value),
    child <> VNaN ->
    beforeChild <> VNaN ->
    child <> VNegZero ->
    beforeChild <> VNegZero ->
    VNegZero ∉ children ->
    NoDup children ->
    (beforeChild ∈ children -> beforeChild <> child ->
     exists l1 l2,
       NoopRenderer.without child children = l1 ++ beforeChild :: l2
       /\ NoopRenderer.insertBefore children child beforeChild
          = (None, l1 ++ child :: beforeChild :: l2)
       /\ NoDup (l1 ++ child :: beforeChild :: l2))
    /\ (beforeChild ∉ children \/ beforeChild = child ->
        NoopRenderer.insertBefore children child beforeChild
        = (Some "This child does not exist.", NoopRenderer.without child children)
        /\ child ∉ NoopRenderer.without child children).
Proof.
  intros children child before Hc Hb Hcz Hbz Hl Hnd.
  pose proof (without_NoDup child children Hnd) as Hnd'.
  pose proof (without_keeps_out child VNegZero children Hl) as Hl'.
  assert (Hgone : child ∉ NoopRenderer.without child children).
  { intros H. apply (without_elem child child children Hc Hcz Hl Hnd) in H as [_ H].
    congruence. }
  split.
  - intros Hin Hne.
    assert (Hin' : before ∈ NoopRenderer.without child children)
      by (apply (without_elem child before children Hc Hcz Hl Hnd); split; assumption).
    unfold NoopRenderer.insertBefore. rewrite removal_is_without.
    destruct (NoopRenderer.indexOf before (NoopRenderer.without child children))
      as [i|] eqn:Ei.
    2:{ apply (indexOf_None before _ Hb Hbz Hl') in Ei. contradiction. }
    destruct (indexOf_Some before _ i Hb Hbz Hl' Ei) as (l1 & l2 & Hsplit & Hlen & Hout).
    exists l1, l2. split; [exact Hsplit | split].
    + rewrite Hsplit. unfold NoopRenderer.splice_in. subst i.
      rewrite take_app_length, drop_app_length. reflexivity.
    + rewrite Hsplit in Hnd', Hgone.
      apply NoDup_app in Hnd' as (Hn1 & Hdisj & Hn2).
      apply NoDup_app. split; [exact Hn1 | split].
      * intros x Hx1 Hx2. apply elem_of_cons in Hx2 as [-> | Hx2].
        -- apply Hgone. apply elem_of_app. left. exact Hx1.
        -- exact (Hdisj x Hx1 Hx2).
      * apply NoDup_cons. split; [| exact Hn2].
        intros H. apply Hgone. apply elem_of_app. right. exact H.
  - intros Hcase. split; [| exact Hgone].
    unfold NoopRenderer.insertBefore. rewrite removal_is_without.
    assert (Hout : before ∉ NoopRenderer.without child children).
    { destruct Hcase as [Hout | ->]; [| exact Hgone].
      intros H. apply (without_elem child before children Hc Hcz Hl Hnd) in H as [H _].
      exact (Hout H). }
    rewrite (proj2 (indexOf_None before _ Hb Hbz Hl') Hout). reflexivity.
Qed.

Lemma X25_witness :
  NoopRenderer.insertBefore [VRef 1; VRef 2; VRef 3] (VRef 3) (VRef 1)
  = (None, [VRef 3; VRef 1; VRef 2])
  /\ NoopRenderer.insertBefore [VRef 1; VRef 2; VRef 3] (VRef 2) (VRef 2)
     = (Some "This child does not exist.", [VRef 1; VRef 3]).
Proof.
  assert (Hnd : NoDup [VRef 1; VRef 2; VRef 3]).
  { apply (bool_decide_unpack _). exact I. }
  assert (H3 : VRef 3 <> VNaN) by discriminate.
  assert (H2 : VRef 2 <> VNaN) by discriminate.
  assert (H1 : VRef 1 <> VNaN) by discriminate.
  assert (Z3 : VRef 3 <> VNegZero) by discriminate.
  assert (Z2 : VRef 2 <> VNegZero) by discriminate.
  assert (Z1 : VRef 1 <> VNegZero) by discriminate.
  assert (Hl : VNegZero ∉ [VRef 1; VRef 2; VRef 3]).
  { apply (bool_decide_unpack _). exact I. }
  split.
  - destruct (proj1 (X25_insertBefore_puts_the_child_in_front [VRef 1; VRef 2; VRef 3]
                       (VRef 3) (VRef 1) H3 H1 Z3 Z1 Hl Hnd))
      as (l1 & l2 & Hsplit & Hins & _).
    + left.
    + discriminate.
    + rewrite Hins. cbn in Hsplit.
      destruct l1 as [| a l1]; cbn in Hsplit.
      * injection Hsplit as <-. reflexivity.
      * injection Hsplit as <- Hrest.
        destruct l1 as [| b l1]; cbn in Hrest; [discriminate Hrest |].
        injection Hrest as <- Hrest.
        destruct l1; cbn in Hrest; discriminate Hrest.
  - exact (proj1 (proj2 (X25_insertBefore_puts_the_child_in_front
                           [VRef 1; VRef 2; VRef 3] (VRef 2) (VRef 2) H2 H2 Z2 Z2 Hl
                           Hnd)
                    (or_intror eq_refl))).
Defined.

(** * Properties of the reference counts of caches *)

Section CacheCounts.
Import ReactFiberCacheComponent.

(** Up to [2 ^ 53] every integer is a double. *)
Lemma to_double_exact (y : Z) : (Z.abs y <= 2 ^ 53)%Z -> to_double y = y.
Proof.
  intros Hy. unfold to_double.
  destruct (Z.ltb_spec (Z.abs y) (2 ^ 53)) as [Hlt | Hge]; [reflexivity |].
  assert (Hcase : y = (2 ^ 53)%Z \/ y = (- 2 ^ 53)%Z) by lia.
  destruct Hcase as [-> | ->]; vm_compute; reflexivity.
Qed.

Lemma retainCache_exact (cache : Cache) :
  (- 2 ^ 53 <= refCount cache < 2 ^ 53)%Z ->
  retainCache cache = {| refCount := refCount cache + 1; aborts := aborts cache |}.
Proof.
  intros H. unfold retainCache. rewrite to_double_exact by lia. reflexivity.
Qed.

Lemma releaseCache_exact (dev : bool) (cache : Cache) :
  (- 2 ^ 53 < refCount cache <= 2 ^ 53)%Z ->
  releaseCache dev cache
  = let cache1 := {| refCount := refCount cache - 1; aborts := aborts cache |} in
    if dev && (refCount cache1 <? 0)%Z then
      (Some "Error in React: cache reference count should not be negative", cache1)
    else if (refCount cache1 =? 0)%Z then
      (None, {| refCount := refCount cache1; aborts := S (aborts cache1) |})
    else (None, cache1).
Proof.
  intros H. unfold releaseCache. rewrite to_double_exact by lia. reflexivity.
Qed.

Lemma retain_times (n : nat) (cache : Cache) :
  (- 2 ^ 53 <= refCount cache)%Z ->
  (refCount cache + Z.of_nat n <= 2 ^ 53)%Z ->
  Nat.iter n retainCache cache
  = {| refCount := refCount cache + Z.of_nat n; aborts := aborts cache |}.
Proof.
  intros Hlow. induction n as [| n IH]; intros Hn.
  - cbn. rewrite Z.add_0_r. destruct cache; reflexivity.
  - rewrite Nat.iter_succ, IH by lia.
    rewrite retainCache_exact by (cbn [refCount]; lia).
    cbn. f_equal. lia.
Qed.

Lemma releaseCache_positive (dev : bool) (cache : Cache) :
  (1 < refCount cache <= 2 ^ 53)%Z ->
  releaseCache dev cache
  = (None, {| refCount := refCount cache - 1; aborts := aborts cache |}).
Proof.
  intros H. rewrite releaseCache_exact by lia. cbn [refCount aborts].
  destruct (Z.ltb_spec (refCount cache - 1) 0); [lia |].
  rewrite andb_false_r.
  destruct (Z.eqb_spec (refCount cache - 1) 0); [lia |]. reflexivity.
Qed.

(** Releasing down to a count that stays positive aborts nothing. *)
Lemma release_times_positive (dev : bool) (n : nat) : forall (cache : Cache),
  (Z.of_nat n < refCount cache <= 2 ^ 53)%Z ->
  release_times dev n cache
  = (None, {| refCount := refCount cache - Z.of_nat n; aborts := aborts cache |}).
Proof.
  induction n as [| n IH]; intros cache Hn.
  - cbn. rewrite Z.sub_0_r. destruct cache; reflexivity.
  - cbn [release_times]. rewrite releaseCache_positive by lia.
    rewrite IH by (cbn; lia). cbn. f_equal. f_equal. lia.
Qed.

End CacheCounts.

(** X26: the reference count of a cache, a double.  After [n] calls of
    [retainCache] and [n] calls of [releaseCache] a cache whose count
    was not negative, and stayed within the integers a double counts
    exactly (up to [2 ^ 53]), has the count it had, no call has thrown,
    and [controller.abort()] has been called once if the count is back
    at 0 and not at all otherwise.  At [2 ^ 53] the count no longer
    grows: a call of [retainCache] leaves it as it is, and the call of
    [releaseCache] for it leaves [2 ^ 53 - 1].  [releaseCache] on a
    cache whose count is 0 makes the count -1: it throws in a
    development build, and in no build does it abort the controller. *)
Theorem X26_abort_when_the_count_returns_to_zero :
  forall (__DEV__ : bool) (n : nat) (cache : ReactFiberCacheComponent.Cache),
    (0 <= ReactFiberCacheComponent.refCount cache)%Z ->
    0 < n ->
    (ReactFiberCacheComponent.refCount cache + Z.of_nat n <= 2 ^ 53)%Z ->
    ReactFiberCacheComponent.release_times __DEV__ n
      (Nat.iter n ReactFiberCacheComponent.retainCache cache)
    = (None,
       {| ReactFiberCacheComponent.refCount := ReactFiberCacheComponent.refCount cache;
          ReactFiberCacheComponent.aborts :=
            if (ReactFiberCacheComponent.refCount cache =? 0)%Z
            then S (ReactFiberCacheComponent.aborts cache)
            else ReactFiberCacheComponent.aborts cache |})
    /\ (ReactFiberCacheComponent.refCount cache = 0%Z ->
        ReactFiberCacheComponent.releaseCache __DEV__ cache
        = (if __DEV__
           then Some "Error in React: cache reference count should not be negative"
           else None,
           {| ReactFiberCacheComponent.refCount := (-1)%Z;
              ReactFiberCacheComponent.aborts := ReactFiberCacheComponent.aborts cache |}))
    /\ (forall k : nat,
          ReactFiberCacheComponent.retainCache
            {| ReactFiberCacheComponent.refCount := 2 ^ 53;
               ReactFiberCacheComponent.aborts := k |}
          = {| ReactFiberCacheComponent.refCount := 2 ^ 53;
               ReactFiberCacheComponent.aborts := k |}
          /\ ReactFiberCacheComponent.releaseCache __DEV__
               {| ReactFiberCacheComponent.refCount := 2 ^ 53;
                  ReactFiberCacheComponent.aborts := k |}
             = (None, {| ReactFiberCacheComponent.refCount := 2 ^ 53 - 1;
                         ReactFiberCacheComponent.aborts := k |})).
Proof.
  intros dev n cache Hpos Hn Hmax. split; [| split].
  - rewrite retain_times by lia. destruct n as [| n]; [lia |].
    destruct (Z.eqb_spec (ReactFiberCacheComponent.refCount cache) 0) as [Hz | Hnz].
    + (* the last release brings the count to 0 *)
      assert (Hsplit : forall k (c : ReactFiberCacheComponent.Cache),
                ReactFiberCacheComponent.refCount c = Z.of_nat (S k) ->
                (Z.of_nat (S k) <= 2 ^ 53)%Z ->
                ReactFiberCacheComponent.release_times dev (S k) c
                = (None, {| ReactFiberCacheComponent.refCount := 0;
                            ReactFiberCacheComponent.aborts :=
                              S (ReactFiberCacheComponent.aborts c) |})).
      { induction k as [| k IH]; intros c Hc Hk.
        - cbn [ReactFiberCacheComponent.release_times].
          rewrite releaseCache_exact by (rewrite Hc; cbn; lia).
          cbn. rewrite Hc. cbn.
          rewrite andb_false_r. reflexivity.
        - change (ReactFiberCacheComponent.release_times dev (S (S k)) c)
            with (match ReactFiberCacheComponent.releaseCache dev c with
                  | (None, c') => ReactFiberCacheComponent.release_times dev (S k) c'
                  | (Some message, c') => (Some message, c')
                  end).
          rewrite (releaseCache_positive dev c) by lia.
          rewrite IH by (cbn; lia). reflexivity. }
      rewrite Hsplit by (cbn; lia). rewrite Hz. reflexivity.
    + rewrite release_times_positive by (cbn; lia). cbn. f_equal. f_equal. lia.
  - intros Hz. rewrite releaseCache_exact by (rewrite Hz; cbn; lia).
    rewrite Hz. cbn.
    rewrite andb_true_r. destruct dev; reflexivity.
  - intros k. split.
    + reflexivity.
    + unfold ReactFiberCacheComponent.releaseCache.
      cbn [ReactFiberCacheComponent.refCount ReactFiberCacheComponent.aborts].
      rewrite to_double_exact by (vm_compute; discriminate).
      change ((2 ^ 53 - 1 <? 0)%Z) with false.
      change ((2 ^ 53 - 1 =? 0)%Z) with false.
      rewrite andb_false_r. reflexivity.
Qed.

Lemma X26_witness :
  ReactFiberCacheComponent.release_times true 3
    (Nat.iter 3 ReactFiberCacheComponent.retainCache
       {| ReactFiberCacheComponent.refCount := 0; ReactFiberCacheComponent.aborts := 0 |})
  = (None, {| ReactFiberCacheComponent.refCount := 0;
              ReactFiberCacheComponent.aborts := 1 |}).
Proof.
  refine (proj1 (X26_abort_when_the_count_returns_to_zero true 3
                   {| ReactFiberCacheComponent.refCount := 0;
                      ReactFiberCacheComponent.aborts := 0 |}
                   (Z.le_refl 0) (Nat.lt_0_succ 2) _)).
  vm_compute. discriminate.
Defined.

(** ** Names of fibers *)

(** X27: [getComponentNameFromFiber] (unnamed/part_003) has the label
    [IncompleteFunctionComponent], an identifier the module neither
    imports nor declares, before the labels of function, class and memo
    components.  Unless the global object binds that name, a fiber whose
    tag is none of the labels before it gets no name: a new
    [ReferenceError] is thrown, without a call of an imported function
    and whatever the type of the fiber is. *)
Theorem X27_fiber_names_stop_at_the_unbound_label :
  forall (W : Type) (tags : GetComponentNameFromFiber.WorkTags)
         (flags : GetComponentNameFromFiber.FeatureFlags)
         (REACT_STRICT_MODE_TYPE : value)
         (getComponentNameFromType plus template : extern W)
         (fiber : value) (m : machine W),
    loose_eq_null fiber = false ->
    Forall (fun label => strict_eq (prop_of (heap (st m)) fiber "tag") label = false)
           (GetComponentNameFromFiber.labels_before tags) ->
    GetComponentNameFromFiber.getComponentNameFromFiber
      tags flags REACT_STRICT_MODE_TYPE getComponentNameFromType plus template
      None fiber m
    = (Abrupt (Thrown (VRef (length (heap (st m))))),
       Machine (Store (heap (st m) ++ [ReferenceError]) (world (st m)))
               (cache m) (trace m)).
Proof.
  intros W tags flags strict byType plus template fiber m Hn Hl.
  unfold GetComponentNameFromFiber.labels_before in Hl.
  repeat match type of Hl with
         | Forall _ (_ :: _) => apply Forall_cons_1 in Hl as [? Hl]
         end.
  unfold GetComponentNameFromFiber.getComponentNameFromFiber.
  unfold bind at 1. rewrite get_prop_run, Hn.
  unfold bind at 1. rewrite get_prop_run, Hn.
  repeat match goal with
         | H : strict_eq _ _ = false |- _ => rewrite H; clear H
         end.
  reflexivity.
Qed.

Lemma X27_witness :
  let tags :=
    GetComponentNameFromFiber.Build_WorkTags
      (VNum 24) (VNum 9) (VNum 10) (VNum 18) (VNum 11) (VNum 7) (VNum 26) (VNum 27)
      (VNum 5) (VNum 4) (VNum 3) (VNum 6) (VNum 16) (VNum 8) (VNum 22) (VNum 12)
      (VNum 21) (VNum 13) (VNum 19) (VNum 25) (VNum 17)
      (VNum 1) (VNum 0) (VNum 14) (VNum 15) (VNum 23) in
  let flags := GetComponentNameFromFiber.Build_FeatureFlags true false true in
  let nothing : extern unit := fun _ s => (Normal VUndefined, s) in
  let h := [Obj KObject [] [("tag", VNum 0); ("type", VRef 1)];
            Obj (KFunction "App") [] []] in
  GetComponentNameFromFiber.getComponentNameFromFiber
    tags flags (VSymFor "react.strict_mode") nothing nothing nothing
    None (VRef 0) (Machine (Store h tt) None [])
  = (Abrupt (Thrown (VRef 2)),
     Machine (Store (h ++ [ReferenceError]) tt) None []).
Proof.
  intros tags flags nothing h.
  apply (X27_fiber_names_stop_at_the_unbound_label unit tags flags
           (VSymFor "react.strict_mode") nothing nothing nothing (VRef 0)
           (Machine (Store h tt) None [])).
  - reflexivity.
  - repeat (apply Forall_cons_2; [reflexivity |]). apply Forall_nil_2.
Defined.

(** ** The hook of the development tools *)

Section DevToolsHook.
Import ReactFiberDevToolsHook.
Context {W : Type}.
Variables (warning invoke : extern W).
Variables (hook engine_error : value).

Lemma production_catch (body : M W unit) (args : exn -> list value) m :
  fst (try_catch_with body (fun err => warn false warning (args err)) m) = Normal tt.
Proof.
  unfold try_catch_with. destruct (body m) as [[[]|e] m']; reflexivity.
Qed.

Lemma production_inject (rendererID internals : value) m :
  exists id' m',
    try_catch_with
      (call_method invoke hook "inject" [internals])
      (fun err =>
         warn false warning
              [VBool false; VStr "React DevTools encountered an error: %s.";
               caught engine_error err];;
         ret rendererID) m
    = (Normal id', m').
Proof.
  unfold try_catch_with.
  destruct (call_method invoke hook "inject" [internals] m) as [[v|e] m'].
  - exists v, m'. reflexivity.
  - exists rendererID, m'. reflexivity.
Qed.

End DevToolsHook.

(** X28: in a production build the hook of the development tools
    (ReactFiberDevToolsHook.js) keeps the errors of the tools away from
    the renderer.  [onCommitRoot] and [onCommitUnmount] return normally
    whatever the global hook is and whatever its methods do, and do
    nothing at all while no renderer id is known.  [injectInternals]
    returns [false] without development tools and [true] with them,
    also when [inject] throws; it throws itself in one case only, a
    hook that is [null]. *)
Theorem X28_production_build_contains_the_errors_of_the_tools :
  forall (W : Type) (warning invoke : extern W) (hook engine_error : value)
         (rendererID x : value) (m : machine W),
    let commit :=
      ReactFiberDevToolsHook.onCommitRoot false warning invoke hook engine_error
        rendererID x m in
    let unmount :=
      ReactFiberDevToolsHook.onCommitUnmount false warning invoke hook engine_error
        rendererID x m in
    let inject :=
      ReactFiberDevToolsHook.injectInternals false warning invoke hook engine_error
        rendererID x m in
    (fst commit = Normal tt /\ fst unmount = Normal tt)
    /\ (if loose_eq_null rendererID then snd commit = m /\ snd unmount = m
        else exists r1 r2,
               (r1, snd commit)
               = bind (call_method invoke hook "onCommitFiberRoot" [rendererID; x])
                      (fun _ => ret tt) m
               /\ (r2, snd unmount)
                  = bind (call_method invoke hook "onCommitFiberUnmount" [rendererID; x])
                         (fun _ => ret tt) m)
    /\ match hook with
       | VUndefined => inject = (Normal (VBool false, rendererID), m)
       | VNull => inject = (Abrupt TypeError, m)
       | _ => exists id' m', inject = (Normal (VBool true, id'), m')
       end.
Proof.
  intros W warning invoke hook engine_error rendererID x m commit unmount inject.
  subst commit unmount inject.
  unfold ReactFiberDevToolsHook.onCommitRoot, ReactFiberDevToolsHook.onCommitUnmount.
  split; [| split].
  - destruct (loose_eq_null rendererID); [split; reflexivity |].
    split; apply production_catch.
  - destruct (loose_eq_null rendererID); [split; reflexivity |].
    unfold try_catch_with.
    destruct (bind (call_method invoke hook "onCommitFiberRoot" [rendererID; x])
                   (fun _ => ret tt) m) as [[a1|e1] m1].
    + destruct (bind (call_method invoke hook "onCommitFiberUnmount" [rendererID; x])
                     (fun _ => ret tt) m) as [[a2|e2] m2].
      * exists (Normal a1), (Normal a2). split; reflexivity.
      * exists (Normal a1), (Abrupt e2). split; reflexivity.
    + destruct (bind (call_method invoke hook "onCommitFiberUnmount" [rendererID; x])
                     (fun _ => ret tt) m) as [[a2|e2] m2].
      * exists (Abrupt e1), (Normal a2). split; reflexivity.
      * exists (Abrupt e1), (Abrupt e2). split; reflexivity.
  - unfold ReactFiberDevToolsHook.injectInternals.
    assert (Hgo : forall supportsFiber m0,
               exists id' m',
                 (if negb (truthy supportsFiber) then
                    ReactFiberDevToolsHook.warn false warning
                      [VBool false;
                       VStr ("The installed version of React DevTools is too old and will not work " ++
                             "with the current version of React. Please update React DevTools. " ++
                             "https://fb.me/react-devtools#installation")];;
                    ret (VBool true, rendererID)
                  else
                    let* rendererID' :=
                      try_catch_with
                        (call_method invoke hook "inject" [x])
                        (fun err =>
                           ReactFiberDevToolsHook.warn false warning
                             [VBool false; VStr "React DevTools encountered an error: %s.";
                              ReactFiberDevToolsHook.caught engine_error err];;
                           ret rendererID) in
                    ret (VBool true, rendererID')) m0
                 = (Normal (VBool true, id'), m')).
    { intros sf m0. destruct (negb (truthy sf)).
      - exists rendererID, m0. reflexivity.
      - destruct (production_inject warning invoke hook engine_error rendererID x m0)
          as (id' & m' & H).
        exists id', m'. unfold bind at 1. rewrite H. reflexivity. }
    destruct hook; try reflexivity;
      unfold bind at 1; cbn [ReactFiberDevToolsHook.warn ret strict_eq];
      unfold bind at 1; rewrite get_prop_run; cbn [loose_eq_null]; apply Hgo.
Qed.

(** * The claims *)

(** C1, as the specification states it, fails in three ways.  On
    [useHook]: called with [Symbol.for("react.memo_cache_sentinel")] on
    a fresh cache, the compiled function takes slot 0 for a stored copy
    of its argument and returns the sentinel of slot 1, where the input
    function returns the array [["@A", "@C"]].  On [useFoo]: when the
    hook returns [0] and then [-0], which are [===], the second
    invocation of the compiled function is a hit and returns the object
    built for [0], where the input function returns one for [-0].  On
    [Component] of hoisting-within-lambda: called with [null], the input
    function, whose parameter is the pattern [{}], throws a [TypeError],
    where the compiled function returns the element. *)
Lemma C1_sentinel_zero_and_null_arguments :
  (behaviour (LabeledBreakWithinLabelSwitch.useHook_input (VStr "global string 0"))
             [memo_cache_sentinel] empty_store
   = ([Normal (Object (Obj KArray [VStr "@A"; VStr "@C"] []))], [])
   /\ behaviour (LabeledBreakWithinLabelSwitch.useHook_code (VStr "global string 0"))
                [memo_cache_sentinel] empty_store
      = ([Normal (Prim memo_cache_sentinel)], [])
   /\ behaviour (LabeledBreakWithinLabelSwitch.useHook_input (VStr "global string 0"))
                [memo_cache_sentinel] empty_store
      <> behaviour (LabeledBreakWithinLabelSwitch.useHook_code (VStr "global string 0"))
                   [memo_cache_sentinel] empty_store)
  /\ (results (fun a => HookCallUseNoAlias.useFoo_input (returns (VNum 3))
                          zero_then_negative_zero (fst a) (snd a))
              [(VNum 1, VNum 2); (VNum 1, VNum 2)] (Store [] 0)
      = [Normal (Object (Obj KObject [] [("value", VNum 0)]));
         Normal (Object (Obj KObject [] [("value", VNegZero)]))]
      /\ results (fun a => HookCallUseNoAlias.useFoo_code (returns (VNum 3))
                             zero_then_negative_zero (fst a) (snd a))
                 [(VNum 1, VNum 2); (VNum 1, VNum 2)] (Store [] 0)
         = [Normal (Object (Obj KObject [] [("value", VNum 0)]));
            Normal (Object (Obj KObject [] [("value", VNum 0)]))])
  /\ (results (HoistingWithinLambda.Component_input fresh_object) [VNull] empty_store
      = [Abrupt TypeError]
      /\ results (HoistingWithinLambda.Component_code fresh_object) [VNull] empty_store
         = [Normal (Object (Obj KObject [] []))]).
Proof.
  refine (conj (conj eq_refl (conj eq_refl _)) (conj (conj eq_refl eq_refl)
                                                     (conj eq_refl eq_refl))).
  intros H. vm_compute in H. discriminate H.
Qed.

(** C1 (amended): the compiled [useHook], [useFoo] and [foo] behave like
    their input functions on every sequence of invocations in which no
    dependency of a reactive scope is the symbol
    [Symbol.for("react.memo_cache_sentinel")]: every invocation returns
    a value that looks the same to the caller or throws the same
    exception, and the code outside the scopes calls the imported
    functions with the same arguments in the same order.  For [useHook]
    the dependency is the argument [cond]; for [useFoo] it is the result
    of the hook [useNoAlias], which is never the negative zero, and [+]
    and the hook keep their state outside the heap; for [foo] it is the
    argument [a], and [someObj], which the scope calls, is a pure
    constructor (the calls inside the scope are skipped on a hit, so for
    [foo] the returned values are compared and not the calls). *)
Theorem C1_compiled_functions_behave_like_their_inputs :
  (forall (W : Type) (CONST_STRING0 : value) (conds : list value) (s : store W),
     Forall (fun c => c <> memo_cache_sentinel) conds ->
     behaviour (LabeledBreakWithinLabelSwitch.useHook_input CONST_STRING0) conds s
     = behaviour (LabeledBreakWithinLabelSwitch.useHook_code CONST_STRING0) conds s)
  /\ (forall (W : Type) (plus useNoAlias : extern W)
             (args : list (value * value)) (s : store W),
        world_only plus ->
        world_only useNoAlias ->
        (forall a s', fst (useNoAlias a s') <> Normal memo_cache_sentinel) ->
        (forall a s', fst (useNoAlias a s') <> Normal VNegZero) ->
        behaviour (fun a => HookCallUseNoAlias.useFoo_input plus useNoAlias (fst a) (snd a))
                  args s
        = behaviour (fun a => HookCallUseNoAlias.useFoo_code plus useNoAlias (fst a) (snd a))
                    args s)
  /\ (forall (W : Type) (someObj : extern W) (o : obj)
             (args : list (value * value * value * value)) (s : store W),
        allocates o someObj ->
        Forall (fun p => fst (fst (fst p)) <> memo_cache_sentinel) args ->
        results (fun p => ObjMutatedAfterIfElseWithAlias.foo_input someObj
                            (fst (fst (fst p))) (snd (fst (fst p))) (snd (fst p)) (snd p))
                args s
        = results (fun p => ObjMutatedAfterIfElseWithAlias.foo_code someObj
                              (fst (fst (fst p))) (snd (fst (fst p))) (snd (fst p)) (snd p))
                  args s).
Proof.
  refine (conj _ (conj _ _)).
  - intros W C conds s Hconds. apply useHook_behaviour. exact Hconds.
  - intros W plus useNoAlias args s Hp Hh Hns Hnz. apply useFoo_behaviour; assumption.
  - intros W someObj o args s Halloc Hargs. apply foo_results with (o := o); assumption.
Qed.

Lemma C1_witness :
  behaviour (LabeledBreakWithinLabelSwitch.useHook_input (VStr "global string 0"))
            [VBool true; VBool true; VBool false; VNum 0; VNegZero] empty_store
  = behaviour (LabeledBreakWithinLabelSwitch.useHook_code (VStr "global string 0"))
              [VBool true; VBool true; VBool false; VNum 0; VNegZero] empty_store
  /\ behaviour (fun a => HookCallUseNoAlias.useFoo_input counter (returns (VStr "stable"))
                           (fst a) (snd a))
               [(VNum 1, VNum 2); (VNum 1, VNum 2)] (Store [] 0)
     = behaviour (fun a => HookCallUseNoAlias.useFoo_code counter (returns (VStr "stable"))
                             (fst a) (snd a))
                 [(VNum 1, VNum 2); (VNum 1, VNum 2)] (Store [] 0)
  /\ results (fun p => ObjMutatedAfterIfElseWithAlias.foo_input (@fresh_object unit)
                         (fst (fst (fst p))) (snd (fst (fst p))) (snd (fst p)) (snd p))
             [(VNum 1, VNull, VNull, VNull); (VNum 1, VNull, VNull, VNull);
              (VNum 0, VNull, VNull, VNull); (VNegZero, VNull, VNull, VNull)] empty_store
     = results (fun p => ObjMutatedAfterIfElseWithAlias.foo_code (@fresh_object unit)
                           (fst (fst (fst p))) (snd (fst (fst p))) (snd (fst p)) (snd p))
               [(VNum 1, VNull, VNull, VNull); (VNum 1, VNull, VNull, VNull);
                (VNum 0, VNull, VNull, VNull); (VNegZero, VNull, VNull, VNull)] empty_store.
Proof.
  pose proof C1_compiled_functions_behave_like_their_inputs as (Hhook & Hfoo & Hobj).
  refine (conj _ (conj _ _)).
  - apply Hhook. repeat constructor; discriminate.
  - apply Hfoo.
    + apply counter_world_only.
    + apply returns_world_only.
    + intros a s'. cbn. discriminate.
    + intros a s'. cbn. discriminate.
  - apply Hobj with (o := Obj KObject [] []).
    + intros args s. reflexivity.
    + repeat constructor; discriminate.
Defined.

(** C2, as the specification states it, fails in two ways.  On [foo]:
    on the first invocation slot 0 holds the "uninitialized" sentinel,
    and with [a = Symbol.for("react.memo_cache_sentinel")] the test
    [$[0] !== a] is false, so the scope body is skipped (the second
    call of [someObj] never happens) although the slot is
    uninitialized.  On [useFoo] of the emit-freeze fixture, in a
    development build: the dependency [props.x] differs from its slot
    and the scope runs, but the output slot is assigned the result of
    [makeReadOnly], which throws here: the dependency slot has been
    overwritten and the output slot has not. *)
Lemma C2_foo_uninitialized_slot_body_skipped :
  ~ foo_scope_runs_as_stated
  /\ (let r := EmitFreezeInstrumentForget.useFoo_code true (VBool false)
                 (returns VUndefined) throws_argument fresh_object (VRef 0)
                 (boot (Store [Obj KObject [] [("x", VNum 1)]] tt)) in
      strict_ne memo_cache_sentinel (VNum 1) = true
      /\ fst r = Abrupt (Thrown (VRef 1))
      /\ cache (snd r) = Some [VNum 1; memo_cache_sentinel]).
Proof.
  split; [| refine (conj eq_refl (conj eq_refl eq_refl))].
  intros H.
  specialize (H unit fresh_object memo_cache_sentinel VUndefined VUndefined VUndefined
                (VRef 0) (boot empty_store)
                (Machine (Store [Obj KObject [] []] tt) None [Called "someObj" []])
                eq_refl (or_intror eq_refl)).
  vm_compute in H. discriminate H.
Qed.

(** C2 (amended): a reactive scope compares each dependency with its
    slot by [!==], by identity and never by contents: an object with
    the contents of the one in the slot, at another address, is a
    change.  The scope of [foo], which has the dependency [a], runs its
    body exactly when [$[0] !== a]; on the first invocation that is the
    case for every [a] but the sentinel symbol itself.  The scope of the
    [do ... while] fixture, which has no dependency, runs its body
    exactly when its output slot holds the sentinel.  The slots are
    assigned after the body, the snapshots of the dependencies first:
    a body that runs to its end is followed by the assignment of every
    slot of the scope, and a body that throws by none.  In [foo] and in
    the [do ... while] fixture the assignments store values that are at
    hand; in [useFoo] of the emit-freeze fixture the assignment of the
    output slot calls [makeReadOnly] in a development build, and when
    that call throws, the dependency slot has been overwritten and the
    output slot keeps what it held.  When the body does not run, the
    output is read from its slot and nothing of the body happens, its
    calls of imported functions included. *)
Theorem C2_scope_runs_exactly_when_a_dependency_differs :
  (forall (W : Type) (someObj : extern W) (a b c d u : value) (m m1 : machine W),
     length (cache_of 2 m) = 2 ->
     call "someObj" someObj [] m = (Normal u, m1) ->
     (strict_ne (default VUndefined (cache_of 2 m !! 0)) a = true ->
      ObjMutatedAfterIfElseWithAlias.foo_code someObj a b c d m
      = match foo_scope someObj a m1 with
        | (Normal x, m2) => (Normal x, set_cache (Some [a; x]) m2)
        | (Abrupt e, m2) => (Abrupt e, set_cache (Some (cache_of 2 m)) m2)
        end)
     /\ (strict_ne (default VUndefined (cache_of 2 m !! 0)) a = false ->
         ObjMutatedAfterIfElseWithAlias.foo_code someObj a b c d m
         = (Normal (default VUndefined (cache_of 2 m !! 1)),
            set_cache (Some (cache_of 2 m)) m1))
     /\ (cache m = None -> a <> memo_cache_sentinel ->
         strict_ne (default VUndefined (cache_of 2 m !! 0)) a = true)
     /\ (forall (l l' : loc) (x : value),
           cache m = Some [VRef l; x] ->
           l <> l' ->
           heap (st m) !! l' = heap (st m) !! l ->
           ObjMutatedAfterIfElseWithAlias.foo_code someObj (VRef l') b c d m
           = match foo_scope someObj (VRef l') m1 with
             | (Normal x', m2) => (Normal x', set_cache (Some [VRef l'; x']) m2)
             | (Abrupt e, m2) => (Abrupt e, set_cache (Some [VRef l; x]) m2)
             end))
  /\ (forall (W : Type) (mutate : extern W) (props : value) (m : machine W),
        length (cache_of 1 m) = 1 ->
        (default VUndefined (cache_of 1 m !! 0) = memo_cache_sentinel ->
         DoWhileBreak.Component_code mutate props m
         = match doWhile_scope mutate m with
           | (Normal x, m2) => (Normal x, set_cache (Some [x]) m2)
           | (Abrupt e, m2) => (Abrupt e, set_cache (Some (cache_of 1 m)) m2)
           end)
        /\ (default VUndefined (cache_of 1 m !! 0) <> memo_cache_sentinel ->
            DoWhileBreak.Component_code mutate props m
            = (Normal (default VUndefined (cache_of 1 m !! 0)),
               set_cache (Some (cache_of 1 m)) m)))
  /\ (forall (W : Type) (__DEV__ : bool) (shouldInstrument : value)
             (useRenderCounter makeReadOnly foo : extern W) (props : value)
             (m m0 : machine W),
        useFoo_instrumentation __DEV__ shouldInstrument useRenderCounter m
        = (Normal tt, m0) ->
        length (cache_of 2 m) = 2 ->
        loose_eq_null props = false ->
        (forall (t0 : value) (s1 : store W),
           strict_ne (default VUndefined (cache_of 2 m !! 0))
                     (prop_of (heap (st m0)) props "x") = true ->
           foo [prop_of (heap (st m0)) props "x"] (st m0) = (Normal t0, s1) ->
           EmitFreezeInstrumentForget.useFoo_code __DEV__ shouldInstrument
             useRenderCounter makeReadOnly foo props m
           = if __DEV__ then
               match makeReadOnly [t0; VStr "useFoo"] s1 with
               | (Normal frozen, s2) =>
                   (Normal t0,
                    Machine s2 (Some [prop_of (heap s1) props "x"; frozen])
                            (trace m0 ++ [Called "foo" [prop_of (heap (st m0)) props "x"];
                                          Called "makeReadOnly" [t0; VStr "useFoo"]]))
               | (Abrupt e, s2) =>
                   (Abrupt e,
                    Machine s2 (Some [prop_of (heap s1) props "x";
                                      default VUndefined (cache_of 2 m !! 1)])
                            (trace m0 ++ [Called "foo" [prop_of (heap (st m0)) props "x"];
                                          Called "makeReadOnly" [t0; VStr "useFoo"]]))
               end
             else
               (Normal t0,
                Machine s1 (Some [prop_of (heap s1) props "x"; t0])
                        (trace m0 ++ [Called "foo" [prop_of (heap (st m0)) props "x"]])))
        /\ (forall (e : exn) (s1 : store W),
              strict_ne (default VUndefined (cache_of 2 m !! 0))
                        (prop_of (heap (st m0)) props "x") = true ->
              foo [prop_of (heap (st m0)) props "x"] (st m0) = (Abrupt e, s1) ->
              EmitFreezeInstrumentForget.useFoo_code __DEV__ shouldInstrument
                useRenderCounter makeReadOnly foo props m
              = (Abrupt e,
                 Machine s1 (Some (cache_of 2 m))
                         (trace m0 ++ [Called "foo" [prop_of (heap (st m0)) props "x"]])))
        /\ (strict_ne (default VUndefined (cache_of 2 m !! 0))
                      (prop_of (heap (st m0)) props "x") = false ->
            EmitFreezeInstrumentForget.useFoo_code __DEV__ shouldInstrument
              useRenderCounter makeReadOnly foo props m
            = (Normal (default VUndefined (cache_of 2 m !! 1)),
               set_cache (Some (cache_of 2 m)) m0))).
Proof.
  split; [| split].
  - intros W someObj a b c d u m m1 Hlen Hcall.
    destruct (foo_code_dispatch someObj a b c d u m m1 Hlen Hcall) as [Hmiss Hhit].
    split; [exact Hmiss | split; [exact Hhit | split]].
    + intros Hnone Ha. unfold cache_of. rewrite Hnone. cbn.
      apply strict_ne_sentinel. exact Ha.
    + intros l l' x Hc Hne _.
      assert (Hc' : cache_of 2 m = [VRef l; x]) by (unfold cache_of; rewrite Hc; reflexivity).
      destruct (foo_code_dispatch someObj (VRef l') b c d u m m1 Hlen Hcall) as [Hmiss' _].
      rewrite Hc' in Hmiss'. apply Hmiss'.
      unfold strict_ne. cbn.
      destruct (Nat.eqb_spec l l'); [contradiction | reflexivity].
  - intros W mutate props m Hlen. rewrite doWhile_code_run. split.
    + intros ->. cbn [strict_eq memo_cache_sentinel]. rewrite String.eqb_refl.
      destruct (doWhile_scope mutate m) as [[x|e] m2]; [| reflexivity].
      rewrite array_store_single by assumption. reflexivity.
    + intros Hne.
      destruct (strict_eq _ memo_cache_sentinel) eqn:E; [| reflexivity].
      apply strict_eq_sentinel in E. contradiction.
  - intros W dev si urc mro foo props m m0 Hi Hlen Hn.
    split; [| split].
    + intros t0 s1 Hmiss Hfoo.
      exact (emitFreeze_miss dev si urc mro foo props m m0 t0 s1 Hi Hlen Hn Hmiss Hfoo).
    + intros e s1 Hmiss Hfoo.
      exact (emitFreeze_throw dev si urc mro foo props m m0 e s1 Hi Hn Hmiss Hfoo).
    + intros Hhit.
      exact (emitFreeze_skip dev si urc mro foo props m m0 Hi Hn Hhit).
Qed.

Lemma C2_witness :
  (* foo(1): a miss on the fresh cache, then a hit *)
  ObjMutatedAfterIfElseWithAlias.foo_code fresh_object (VNum 1) VUndefined VUndefined
    VUndefined (boot empty_store)
  = (Normal (VRef 1),
     Machine (Store [Obj KObject [] []; Obj KObject [] [("f", VNum 1)]] tt)
             (Some [VNum 1; VRef 1])
             [Called "someObj" []; Called "someObj" []])
  /\ ObjMutatedAfterIfElseWithAlias.foo_code fresh_object (VNum 1) VUndefined VUndefined
       VUndefined
       (Machine (Store [Obj KObject [] []; Obj KObject [] [("f", VNum 1)]] tt)
                (Some [VNum 1; VRef 1])
                [Called "someObj" []; Called "someObj" []])
     = (Normal (VRef 1),
        Machine (Store [Obj KObject [] []; Obj KObject [] [("f", VNum 1)];
                        Obj KObject [] []] tt)
                (Some [VNum 1; VRef 1])
                [Called "someObj" []; Called "someObj" []; Called "someObj" []])
  /\ strict_ne (default VUndefined (cache_of 2 (boot empty_store) !! 0)) (VNum 1) = true
  (* foo: an object with the contents of the cached one is a change *)
  /\ fst (ObjMutatedAfterIfElseWithAlias.foo_code fresh_object (VRef 1) VUndefined
            VUndefined VUndefined
            (Machine (Store [Obj KObject [] []; Obj KObject [] []] tt)
                     (Some [VRef 0; VRef 0]) []))
     = Normal (VRef 3)
  (* Component: a miss on the fresh cache, then a hit *)
  /\ DoWhileBreak.Component_code (returns VUndefined) VNull (boot empty_store)
     = (Normal (VRef 0),
        Machine (Store [Obj KArray [VNum 1; VNum 2; VNum 3] []] tt)
                (Some [VRef 0]) [Called "mutate" [VRef 0]])
  /\ DoWhileBreak.Component_code (returns VUndefined) VNull
       (Machine (Store [Obj KArray [VNum 1; VNum 2; VNum 3] []] tt)
                (Some [VRef 0]) [Called "mutate" [VRef 0]])
     = (Normal (VRef 0),
        Machine (Store [Obj KArray [VNum 1; VNum 2; VNum 3] []] tt)
                (Some [VRef 0]) [Called "mutate" [VRef 0]])
  (* useFoo: makeReadOnly throws after the dependency slot is written *)
  /\ EmitFreezeInstrumentForget.useFoo_code true (VBool false) (returns VUndefined)
       throws_argument fresh_object (VRef 0)
       (boot (Store [Obj KObject [] [("x", VNum 1)]] tt))
     = (Abrupt (Thrown (VRef 1)),
        Machine (Store [Obj KObject [] [("x", VNum 1)]; Obj KObject [] []] tt)
                (Some [VNum 1; memo_cache_sentinel])
                [Called "foo" [VNum 1]; Called "makeReadOnly" [VRef 1; VStr "useFoo"]]).
Proof.
  pose proof C2_scope_runs_exactly_when_a_dependency_differs as (Hfoo & Hcomp & Hfreeze).
  refine (conj _ (conj _ (conj _ (conj _ (conj _ (conj _ _)))))).
  - destruct (Hfoo unit fresh_object (VNum 1) VUndefined VUndefined VUndefined (VRef 0)
                (boot empty_store)
                (Machine (Store [Obj KObject [] []] tt) None [Called "someObj" []])
                eq_refl eq_refl) as (Hmiss & _ & _).
    exact (Hmiss eq_refl).
  - destruct (Hfoo unit fresh_object (VNum 1) VUndefined VUndefined VUndefined (VRef 2)
                (Machine (Store [Obj KObject [] []; Obj KObject [] [("f", VNum 1)]] tt)
                         (Some [VNum 1; VRef 1])
                         [Called "someObj" []; Called "someObj" []])
                (Machine (Store [Obj KObject [] []; Obj KObject [] [("f", VNum 1)];
                                 Obj KObject [] []] tt)
                         (Some [VNum 1; VRef 1])
                         [Called "someObj" []; Called "someObj" []; Called "someObj" []])
                eq_refl eq_refl) as (_ & Hhit & _).
    exact (Hhit eq_refl).
  - destruct (Hfoo unit fresh_object (VNum 1) VUndefined VUndefined VUndefined (VRef 0)
                (boot empty_store)
                (Machine (Store [Obj KObject [] []] tt) None [Called "someObj" []])
                eq_refl eq_refl) as (_ & _ & Hfirst & _).
    apply Hfirst; [reflexivity | discriminate].
  - destruct (Hfoo unit fresh_object (VNum 1) VUndefined VUndefined VUndefined (VRef 2)
                (Machine (Store [Obj KObject [] []; Obj KObject [] []] tt)
                         (Some [VRef 0; VRef 0]) [])
                (Machine (Store [Obj KObject [] []; Obj KObject [] []; Obj KObject [] []] tt)
                         (Some [VRef 0; VRef 0]) [Called "someObj" []])
                eq_refl eq_refl) as (_ & _ & _ & Hidentity).
    refine (f_equal fst (Hidentity 0 1 (VRef 0) eq_refl _ eq_refl)).
    discriminate.
  - destruct (Hcomp unit (returns VUndefined) VNull (boot empty_store) eq_refl)
      as [Hmiss _].
    exact (Hmiss eq_refl).
  - destruct (Hcomp unit (returns VUndefined) VNull
                (Machine (Store [Obj KArray [VNum 1; VNum 2; VNum 3] []] tt)
                         (Some [VRef 0]) [Called "mutate" [VRef 0]]) eq_refl)
      as [_ Hhit].
    apply Hhit. discriminate.
  - destruct (Hfreeze unit true (VBool false) (returns VUndefined) throws_argument
                fresh_object (VRef 0)
                (boot (Store [Obj KObject [] [("x", VNum 1)]] tt))
                (boot (Store [Obj KObject [] [("x", VNum 1)]] tt))
                eq_refl eq_refl eq_refl) as (Hmiss & _ & _).
    exact (Hmiss (VRef 1) (Store [Obj KObject [] [("x", VNum 1)]; Obj KObject [] []] tt)
                 eq_refl eq_refl).
Defined.

(** C3: the compiled [Component] of try-catch-with-return records in
    slot 1 how control left the scope ([undefined] and [null] for the
    two early returns, the early-return sentinel otherwise), tests that
    value after the scope and returns it when it is not the sentinel.
    The invocation that runs the scope returns what the input function
    returns; the next invocation, a cache hit whatever its argument,
    returns the same value again and runs nothing.  In particular, when
    the [try] block threw and the function returned [null], the hit
    returns [null] too and not the array [x]. *)
Theorem C3_early_return_is_replayed_on_a_hit :
  forall (W : Type) (shallowCopy throwInput : extern W) (props props' : value)
         (m : machine W),
    length (cache_of 2 m) = 2 ->
    default VUndefined (cache_of 2 m !! 0) = memo_cache_sentinel ->
    let r1 := TryCatchWithReturn.Component_code shallowCopy throwInput props m in
    fst r1 = fst (TryCatchWithReturn.Component_input shallowCopy throwInput props m)
    /\ (exists l t0,
          cache (snd r1) = Some [VRef l; t0]
          /\ (t0 = VUndefined \/ t0 = VNull \/ t0 = early_return_sentinel)
          /\ fst r1 = Normal (early_return (VRef l) t0))
    /\ TryCatchWithReturn.Component_code shallowCopy throwInput props' (snd r1) = r1
    /\ (forall e m',
          tryCatch_block shallowCopy throwInput (VRef (length (heap (st m))))
            (snd (new_array [] m)) = (Abrupt e, m') ->
          fst r1 = Normal VNull
          /\ fst (TryCatchWithReturn.Component_code shallowCopy throwInput props' (snd r1))
             = Normal VNull).
Proof.
  intros W shallowCopy throwInput props props' m Hlen Hslot r1.
  assert (Hr1 : exists t0 m2,
    tryCatch_scope shallowCopy throwInput m
    = (Normal (VRef (length (heap (st m))), t0), m2)
    /\ (t0 = VUndefined \/ t0 = VNull \/ t0 = early_return_sentinel)
    /\ r1 = (Normal (early_return (VRef (length (heap (st m)))) t0),
             set_cache (Some [VRef (length (heap (st m))); t0]) m2)).
  { exact (tryCatch_first shallowCopy throwInput props m Hlen Hslot). }
  destruct Hr1 as (t0 & m2 & E & Ht0 & Hr1).
  assert (Hhit :
    TryCatchWithReturn.Component_code shallowCopy throwInput props' (snd r1) = r1).
  { rewrite Hr1. cbn [snd]. rewrite tryCatch_code_run. reflexivity. }
  split; [| split; [| split]].
  - rewrite Hr1, tryCatch_input_run, E. reflexivity.
  - exists (length (heap (st m))), t0. rewrite Hr1. cbn. auto.
  - exact Hhit.
  - intros e m' Hthrow. rewrite Hhit.
    assert (Ht : t0 = VNull).
    { unfold tryCatch_scope, bind, try_catch, ret in E.
      destruct (new_array [] m) as [[x|e0] m1] eqn:Ex; [| discriminate E].
      unfold new_array, alloc in Ex. injection Ex as <- <-.
      cbn [snd] in Hthrow. rewrite Hthrow in E. injection E as <- _. reflexivity. }
    subst t0. rewrite Hr1. split; reflexivity.
Qed.

Lemma C3_witness :
  let r1 := TryCatchWithReturn.Component_code fresh_object throws_argument VNull
              (boot empty_store) in
  fst r1 = fst (TryCatchWithReturn.Component_input fresh_object throws_argument VNull
                  (boot empty_store))
  /\ TryCatchWithReturn.Component_code fresh_object throws_argument (VNum 5) (snd r1) = r1
  /\ fst r1 = Normal VNull
  /\ fst (TryCatchWithReturn.Component_code fresh_object throws_argument (VNum 5) (snd r1))
     = Normal VNull.
Proof.
  intros r1.
  destruct (C3_early_return_is_replayed_on_a_hit unit fresh_object throws_argument
              VNull (VNum 5) (boot empty_store) eq_refl eq_refl)
    as (Hinput & _ & Hhit & Hcatch).
  split; [exact Hinput | split; [exact Hhit |]].
  eapply Hcatch. reflexivity.
Defined.



(** C5, as the specification states it, fails: the sentinels are symbols
    of the global registry, and the program value
    [Symbol.for("react.memo_cache_sentinel")] compares equal to the
    "uninitialized" sentinel.  Given that value as [a], the first
    invocation of the compiled [component] of capture_mutate-across-fns
    takes the untouched slot 0 for a snapshot of [a], skips its scope
    and returns the sentinel of slot 1 instead of the object [z]. *)
Lemma C5_registry_symbol_equals_sentinel :
  ~ sentinels_disjoint_as_stated
  /\ fst (CaptureMutateAcrossFns.component_code memo_cache_sentinel (boot empty_store))
     = Normal memo_cache_sentinel
  /\ fst (CaptureMutateAcrossFns.component_input memo_cache_sentinel (boot empty_store))
     = Normal (VRef 0).
Proof.
  split; [| split; reflexivity].
  intros H. destruct (H (VSymFor "react.memo_cache_sentinel")) as [H1 _].
  discriminate H1.
Qed.

(** C5 (amended): the sentinels are the registry symbols
    [Symbol.for("react.memo_cache_sentinel")] and
    [Symbol.for("react.early_return_sentinel")].  They differ from each
    other, and a value compares equal to one of them only if it is that
    very symbol: [undefined], [null], booleans, numbers, strings, object
    references, symbols made by [Symbol()] and symbols registered under
    another key never do.  In the compiled [Component] of
    try-catch-with-return and of the [do ... while] fixture the slots
    that are tested hold a reference to a new array, [undefined], [null]
    or a sentinel the function stored itself, so no test of theirs takes
    a computed value for a sentinel. *)
Theorem C5_only_the_registry_symbol_equals_a_sentinel :
  (forall v : value,
     strict_eq v memo_cache_sentinel = true <-> v = VSymFor "react.memo_cache_sentinel")
  /\ (forall v : value,
        strict_eq v early_return_sentinel = true
        <-> v = VSymFor "react.early_return_sentinel")
  /\ strict_eq memo_cache_sentinel early_return_sentinel = false
  /\ (forall (W : Type) (shallowCopy throwInput : extern W) (props : value)
             (m : machine W),
        cache m = None ->
        exists l t0,
          cache (snd (TryCatchWithReturn.Component_code shallowCopy throwInput props m))
          = Some [VRef l; t0]
          /\ strict_eq (VRef l) memo_cache_sentinel = false
          /\ (t0 = VUndefined \/ t0 = VNull \/ t0 = early_return_sentinel)
          /\ fst (TryCatchWithReturn.Component_code shallowCopy throwInput props m)
             = Normal (if strict_eq t0 early_return_sentinel then VRef l else t0))
  /\ (forall (W : Type) (mutate : extern W) (props x : value) (m : machine W),
        cache m = None ->
        fst (DoWhileBreak.Component_code mutate props m) = Normal x ->
        cache (snd (DoWhileBreak.Component_code mutate props m)) = Some [x]
        /\ strict_eq x memo_cache_sentinel = false).
Proof.
  refine (conj _ (conj _ (conj _ (conj _ _)))).
  - intros v. apply strict_eq_symbol.
  - intros v. apply strict_eq_symbol.
  - reflexivity.
  - intros W shallowCopy throwInput props m Hnone.
    destruct (set_cache_fresh 2 m Hnone) as [Hc _].
    destruct (tryCatch_first shallowCopy throwInput props m) as (t0 & m2 & _ & Ht0 & Hr).
    { rewrite Hc. reflexivity. }
    { rewrite Hc. reflexivity. }
    exists (length (heap (st m))), t0. rewrite Hr. cbn [fst snd set_cache cache].
    split; [reflexivity | split; [reflexivity | split; [exact Ht0 |]]].
    unfold early_return, strict_ne.
    destruct (strict_eq t0 early_return_sentinel); reflexivity.
  - intros W mutate props x m Hnone.
    destruct (set_cache_fresh 1 m Hnone) as [Hc _].
    rewrite doWhile_code_run, Hc.
    cbn [lookup list_lookup replicate default strict_eq memo_cache_sentinel].
    rewrite ?String.eqb_refl.
    destruct (doWhile_scope mutate m) as [[y|e] m2] eqn:E; [| discriminate].
    intros Hx. injection Hx as ->. cbn [snd fst set_cache cache].
    rewrite (doWhile_scope_result mutate x m m2 E). split; reflexivity.
Qed.

Lemma C5_witness :
  (exists l t0,
     cache (snd (TryCatchWithReturn.Component_code fresh_object throws_argument VNull
                   (boot empty_store)))
     = Some [VRef l; t0]
     /\ strict_eq (VRef l) memo_cache_sentinel = false
     /\ (t0 = VUndefined \/ t0 = VNull \/ t0 = early_return_sentinel)
     /\ fst (TryCatchWithReturn.Component_code fresh_object throws_argument VNull
               (boot empty_store))
        = Normal (if strict_eq t0 early_return_sentinel then VRef l else t0))
  /\ cache (snd (DoWhileBreak.Component_code (returns VUndefined) VNull (boot empty_store)))
     = Some [VRef 0]
  /\ strict_eq (VRef 0) memo_cache_sentinel = false.
Proof.
  pose proof C5_only_the_registry_symbol_equals_a_sentinel as (_ & _ & _ & Htry & Hdo).
  split.
  - exact (Htry unit fresh_object throws_argument VNull (boot empty_store) eq_refl).
  - exact (Hdo unit (returns VUndefined) VNull (VRef 0) (boot empty_store) eq_refl eq_refl).
Defined.

(** C6: in [component] of capture_mutate-across-fns the object [z] is
    created, captured by the closure [f0] and mutated through it; in
    [bar] the variable [y] is reassigned by the closure [f0].  One
    reactive scope covers the creation of the value, the creation of the
    closures and their calls: a miss allocates the value and the
    closures, applies the mutation, and stores the dependency [a] and
    the final value in the two slots of the scope; there is no slot for
    the value before the mutation.  On the next invocation with the same
    [a] the whole scope is skipped (nothing is allocated and nothing is
    written) and the value returned from the cache is the mutated
    one. *)
Theorem C6_scope_covers_capture_and_mutation :
  (forall (W : Type) (a a' : value) (m : machine W),
     length (cache_of 2 m) = 2 ->
     strict_ne (default VUndefined (cache_of 2 m !! 0)) a = true ->
     strict_eq a a' = true ->
     let r1 := CaptureMutateAcrossFns.component_code a m in
     let r2 := CaptureMutateAcrossFns.component_code a' (snd r1) in
     fst r1 = Normal (VRef (length (heap (st m))))
     /\ heap (st (snd r1))
        = heap (st m) ++ [Obj KObject [] [("a", a); ("b", VNum 1)];
                          Obj (KFunction "f0") [] [];
                          Obj (KFunction "f1") [] []]
     /\ cache (snd r1) = Some [a; VRef (length (heap (st m)))]
     /\ r2 = r1
     /\ view_of (heap (st (snd r2))) (VRef (length (heap (st m))))
        = Object (Obj KObject [] [("a", a); ("b", VNum 1)])
     /\ observe r1 = observe (CaptureMutateAcrossFns.component_input a m))
  /\ (forall (W : Type) (a a' : value) (m : machine W),
        length (cache_of 2 m) = 2 ->
        strict_ne (default VUndefined (cache_of 2 m !! 0)) a = true ->
        strict_eq a a' = true ->
        let r1 := CapturingFunctionAliasComputedLoad.bar_code a m in
        let r2 := CapturingFunctionAliasComputedLoad.bar_code a' (snd r1) in
        fst r1 = Normal a
        /\ heap (st (snd r1))
           = heap (st m) ++ [Obj KArray [a] []; Obj KObject [] [];
                             Obj (KFunction "f0") [] []]
        /\ cache (snd r1) = Some [a; a]
        /\ r2 = r1
        /\ observe r1 = observe (CapturingFunctionAliasComputedLoad.bar_input a m)).
Proof.
  split.
  - intros W a a' m Hlen Hmiss Hsame r1 r2. subst r2 r1.
    assert (Hrefl : strict_ne a a' = false) by (unfold strict_ne; rewrite Hsame; reflexivity).
    rewrite component_input_run.
    rewrite component_code_run, Hmiss, array_store_pair by assumption.
    cbn [fst snd st heap cache].
    rewrite component_code_run. cbn -[strict_ne].
    rewrite Hrefl. unfold observe. cbn.
    rewrite !lookup_at. repeat split.
  - intros W a a' m Hlen Hmiss Hsame r1 r2. subst r2 r1.
    assert (Hrefl : strict_ne a a' = false) by (unfold strict_ne; rewrite Hsame; reflexivity).
    rewrite bar_input_run.
    rewrite bar_code_run, Hmiss, array_store_pair by assumption.
    cbn [fst snd st heap cache].
    rewrite bar_code_run. cbn -[strict_ne].
    rewrite Hrefl. repeat split.
Qed.

Lemma C6_witness :
  let r1 := CaptureMutateAcrossFns.component_code (VStr "TodoAdd") (boot empty_store) in
  let r2 := CaptureMutateAcrossFns.component_code (VStr "TodoAdd") (snd r1) in
  (fst r1 = Normal (VRef 0)
   /\ heap (st (snd r1))
      = [Obj KObject [] [("a", VStr "TodoAdd"); ("b", VNum 1)];
         Obj (KFunction "f0") [] []; Obj (KFunction "f1") [] []]
   /\ cache (snd r1) = Some [VStr "TodoAdd"; VRef 0]
   /\ r2 = r1)
  /\ (let b1 := CapturingFunctionAliasComputedLoad.bar_code (VStr "TodoAdd")
                  (boot empty_store) in
      let b2 := CapturingFunctionAliasComputedLoad.bar_code (VStr "TodoAdd") (snd b1) in
      fst b1 = Normal (VStr "TodoAdd") /\ b2 = b1).
Proof.
  intros r1 r2.
  pose proof C6_scope_covers_capture_and_mutation as [Hc Hb].
  split.
  - destruct (Hc unit (VStr "TodoAdd") (VStr "TodoAdd") (boot empty_store)
                eq_refl eq_refl eq_refl) as (H1 & H2 & H3 & H4 & _).
    exact (conj H1 (conj H2 (conj H3 H4))).
  - intros b1 b2.
    destruct (Hb unit (VStr "TodoAdd") (VStr "TodoAdd") (boot empty_store)
                eq_refl eq_refl eq_refl) as (H1 & _ & _ & H4 & _).
    exact (conj H1 H4).
Defined.

(** C7: the two compilations of [Component] with
    [useMemo(() => makeObject_Primitives(), [])].  With
    [enablePreserveExistingMemoizationGuarantees] set, the computation
    of the hook has a scope and a slot of its own, which is run once and,
    the dependency list being empty, never again; the later use
    [identity(object)] stays outside the scope and is executed on every
    invocation.  With the flag unset the scope extends over
    [identity(object)], which a hit skips together with the rest. *)
Theorem C7_preserve_flag_keeps_later_uses_outside_the_scope :
  forall (W : Type) (makeObject_Primitives identity : extern W) (props : value)
         (m : machine W),
    (* flag set, the value of the hook is cached *)
    (forall x,
       default VUndefined (cache_of 1 m !! 0) = x ->
       x <> memo_cache_sentinel ->
       trace (snd (UseMemoMaybeModifiedLater.Component_code true
                     makeObject_Primitives identity props m))
       = trace m ++ [Called "identity" [x]]
       /\ cache (snd (UseMemoMaybeModifiedLater.Component_code true
                        makeObject_Primitives identity props m))
          = Some (cache_of 1 m))
    (* flag set, first invocation *)
    /\ (forall t s1,
          cache m = None ->
          makeObject_Primitives [] (st m) = (Normal t, s1) ->
          trace (snd (UseMemoMaybeModifiedLater.Component_code true
                        makeObject_Primitives identity props m))
          = trace m ++ [Called "makeObject_Primitives" []; Called "identity" [t]]
          /\ cache (snd (UseMemoMaybeModifiedLater.Component_code true
                           makeObject_Primitives identity props m))
             = Some [t])
    (* flag unset, the value is cached *)
    /\ (forall x,
          default VUndefined (cache_of 2 m !! 0) = x ->
          x <> memo_cache_sentinel ->
          UseMemoMaybeModifiedLater.Component_code false
            makeObject_Primitives identity props m
          = (Normal x, set_cache (Some (cache_of 2 m)) m))
    (* flag unset, first invocation *)
    /\ (forall t s1 u s2,
          cache m = None ->
          makeObject_Primitives [] (st m) = (Normal t, s1) ->
          identity [t] s1 = (Normal u, s2) ->
          trace (snd (UseMemoMaybeModifiedLater.Component_code false
                        makeObject_Primitives identity props m))
          = trace m ++ [Called "makeObject_Primitives" []; Called "identity" [t]]
          /\ cache (snd (UseMemoMaybeModifiedLater.Component_code false
                           makeObject_Primitives identity props m))
             = Some [t; t]).
Proof.
  intros W mk id props m.
  unfold UseMemoMaybeModifiedLater.Component_code.
  refine (conj _ (conj _ (conj _ _))).
  - intros x Hx Hne. rewrite preserve_run, Hx.
    destruct (strict_eq x memo_cache_sentinel) eqn:E.
    { apply strict_eq_sentinel in E. contradiction. }
    pose proof (call_trace "identity" id [x] (set_cache (Some (cache_of 1 m)) m)) as Ht.
    pose proof (call_cache "identity" id [x] (set_cache (Some (cache_of 1 m)) m)) as Hc.
    destruct (call "identity" id [x] _) as [[u|e] m2]; cbn in *; split; assumption.
  - intros t s1 Hnone Hmk. rewrite preserve_run.
    destruct (set_cache_fresh 1 m Hnone) as [Hfresh _]. rewrite Hfresh.
    cbn [lookup list_lookup replicate default strict_eq memo_cache_sentinel].
    rewrite ?String.eqb_refl.
    erewrite call_run by exact Hmk. cbn [set_cache st cache trace].
    match goal with
    | |- context [call "identity" id [t] ?m1] =>
        pose proof (call_trace "identity" id [t] m1) as Ht;
        pose proof (call_cache "identity" id [t] m1) as Hc;
        destruct (call "identity" id [t] m1) as [[u|e] m2]
    end; cbn in *; rewrite Ht, Hc, <- app_assoc; split; reflexivity.
  - intros x Hx Hne. rewrite no_preserve_run, Hx.
    destruct (strict_eq x memo_cache_sentinel) eqn:E; [| reflexivity].
    apply strict_eq_sentinel in E. contradiction.
  - intros t s1 u s2 Hnone Hmk Hid. rewrite no_preserve_run.
    destruct (set_cache_fresh 2 m Hnone) as [Hfresh _]. rewrite Hfresh.
    cbn [lookup list_lookup replicate default strict_eq memo_cache_sentinel].
    rewrite ?String.eqb_refl.
    erewrite call_run by exact Hmk. cbn [set_cache st cache trace].
    erewrite call_run by exact Hid. cbn.
    rewrite <- app_assoc. split; reflexivity.
Qed.

Lemma C7_witness :
  (* flag set: the first invocation, then a hit that still calls identity *)
  trace (snd (UseMemoMaybeModifiedLater.Component_code true fresh_object returns_argument
                VNull (boot empty_store)))
  = [Called "makeObject_Primitives" []; Called "identity" [VRef 0]]
  /\ trace (snd (UseMemoMaybeModifiedLater.Component_code true fresh_object returns_argument
                   VNull (Machine (Store [Obj KObject [] []] tt) (Some [VRef 0]) [])))
     = [Called "identity" [VRef 0]]
  (* flag unset: the first invocation, then a hit that calls nothing *)
  /\ trace (snd (UseMemoMaybeModifiedLater.Component_code false fresh_object returns_argument
                   VNull (boot empty_store)))
     = [Called "makeObject_Primitives" []; Called "identity" [VRef 0]]
  /\ UseMemoMaybeModifiedLater.Component_code false fresh_object returns_argument VNull
       (Machine (Store [Obj KObject [] []] tt) (Some [VRef 0; VRef 0]) [])
     = (Normal (VRef 0), Machine (Store [Obj KObject [] []] tt) (Some [VRef 0; VRef 0]) []).
Proof.
  refine (conj _ (conj _ (conj _ _))).
  - destruct (C7_preserve_flag_keeps_later_uses_outside_the_scope unit fresh_object
                returns_argument VNull (boot empty_store)) as (_ & H & _ & _).
    exact (proj1 (H (VRef 0) (Store [Obj KObject [] []] tt) eq_refl eq_refl)).
  - destruct (C7_preserve_flag_keeps_later_uses_outside_the_scope unit fresh_object
                returns_argument VNull
                (Machine (Store [Obj KObject [] []] tt) (Some [VRef 0]) []))
      as (H & _ & _ & _).
    refine (proj1 (H (VRef 0) eq_refl _)). discriminate.
  - destruct (C7_preserve_flag_keeps_later_uses_outside_the_scope unit fresh_object
                returns_argument VNull (boot empty_store)) as (_ & _ & _ & H).
    exact (proj1 (H (VRef 0) (Store [Obj KObject [] []] tt) (VRef 0)
                    (Store [Obj KObject [] []] tt) eq_refl eq_refl eq_refl)).
  - destruct (C7_preserve_flag_keeps_later_uses_outside_the_scope unit fresh_object
                returns_argument VNull
                (Machine (Store [Obj KObject [] []] tt) (Some [VRef 0; VRef 0]) []))
      as (_ & _ & H & _).
    refine (H (VRef 0) eq_refl _). discriminate.
Defined.




(** C10, as the specification states it, fails on [useFoo] of the
    emit-freeze fixture: in a development build the assignment of the
    output slot calls [makeReadOnly] after the dependency slot has been
    assigned.  When [makeReadOnly] throws, here on the first invocation,
    slot 0 holds [props.x] and slot 1 is still the sentinel: the slots
    of the scope are neither all uninitialized nor all populated. *)
Lemma C10_throwing_makeReadOnly_leaves_one_slot_written :
  ~ useFoo_slots_written_together_as_stated
  /\ cache (snd (EmitFreezeInstrumentForget.useFoo_code true (VBool false)
                   (returns VUndefined) throws_argument fresh_object (VRef 0)
                   (boot (Store [Obj KObject [] [("x", VNum 1)]] tt))))
     = Some [VNum 1; memo_cache_sentinel].
Proof.
  split; [| reflexivity].
  intros H.
  specialize (H unit true (VBool false) (returns VUndefined) throws_argument fresh_object
                (VRef 0) (Store [Obj KObject [] [("x", VNum 1)]] tt)).
  destruct H as [_ H]. specialize (H eq_refl). discriminate H.
Qed.

(** C10 (amended): a hit of a reactive scope writes nothing to the
    cache array, and a miss assigns the slots of the scope after the
    body has run to its end, the snapshots of the dependencies first and
    the outputs after them; an invocation whose body throws assigns
    none.  In the compiled [foo] and in the compiled [Component] of
    try-catch-with-return the assignments store values that are at
    hand: a miss that runs to its end leaves the dependency [a] and the
    output [x] (for [Component], [x] and [t0]) in the two slots, and
    after any sequence of invocations on a fresh cache the two slots
    either still hold the sentinel or were both written by one and the
    same invocation; they were written, when [someObj] is a pure
    constructor and the first argument [a] is not the sentinel symbol.
    In [useFoo] of the emit-freeze fixture the
    assignment of the output slot calls [makeReadOnly] in a development
    build: when that call throws, the dependency slot holds the new
    [props.x] and the output slot what it held before. *)
Theorem C10_cache_is_written_only_on_a_miss_after_the_body :
  (forall (W : Type) (someObj : extern W) (a b c d : value) (m : machine W),
     length (cache_of 2 m) = 2 ->
     let r := ObjMutatedAfterIfElseWithAlias.foo_code someObj a b c d m in
     (forall e m1,
        call "someObj" someObj [] m = (Abrupt e, m1) ->
        fst r = Abrupt e /\ cache (snd r) = Some (cache_of 2 m))
     /\ (forall u m1,
           call "someObj" someObj [] m = (Normal u, m1) ->
           (strict_ne (default VUndefined (cache_of 2 m !! 0)) a = false ->
            fst r = Normal (default VUndefined (cache_of 2 m !! 1))
            /\ cache (snd r) = Some (cache_of 2 m))
           /\ (strict_ne (default VUndefined (cache_of 2 m !! 0)) a = true ->
               match fst (foo_scope someObj a m1) with
               | Normal x => fst r = Normal x /\ cache (snd r) = Some [a; x]
               | Abrupt e => fst r = Abrupt e /\ cache (snd r) = Some (cache_of 2 m)
               end)))
  /\ (forall (W : Type) (shallowCopy throwInput : extern W) (props : value)
             (m : machine W),
        length (cache_of 2 m) = 2 ->
        let r := TryCatchWithReturn.Component_code shallowCopy throwInput props m in
        (default VUndefined (cache_of 2 m !! 0) <> memo_cache_sentinel ->
         fst r = Normal (early_return (default VUndefined (cache_of 2 m !! 0))
                                      (default VUndefined (cache_of 2 m !! 1)))
         /\ cache (snd r) = Some (cache_of 2 m))
        /\ (default VUndefined (cache_of 2 m !! 0) = memo_cache_sentinel ->
            exists t0,
              (t0 = VUndefined \/ t0 = VNull \/ t0 = early_return_sentinel)
              /\ fst r = Normal (early_return (VRef (length (heap (st m)))) t0)
              /\ cache (snd r) = Some [VRef (length (heap (st m))); t0]))
  /\ (forall (W : Type) (someObj : extern W)
             (args : list (value * value * value * value)) (s : store W),
        let r := run_all
                   (fun p => ObjMutatedAfterIfElseWithAlias.foo_code someObj
                               (fst (fst (fst p))) (snd (fst (fst p))) (snd (fst p)) (snd p))
                   args (boot s) in
        (cache_of 2 (snd r) = [memo_cache_sentinel; memo_cache_sentinel]
         \/ exists k p x,
              args !! k = Some p
              /\ fst r !! k = Some (Normal x)
              /\ cache_of 2 (snd r) = [fst (fst (fst p)); x])
        /\ (forall (o : obj) (p : value * value * value * value)
                   (rest : list (value * value * value * value)),
              allocates o someObj ->
              args = p :: rest ->
              fst (fst (fst p)) <> memo_cache_sentinel ->
              exists k p' l,
                args !! k = Some p'
                /\ fst r !! k = Some (Normal (VRef l))
                /\ cache_of 2 (snd r) = [fst (fst (fst p')); VRef l]))
  /\ (forall (W : Type) (shallowCopy throwInput : extern W) (args : list value)
             (s : store W),
        let r := run_all (TryCatchWithReturn.Component_code shallowCopy throwInput)
                         args (boot s) in
        match args with
        | [] => cache (snd r) = None
        | props :: _ =>
            exists t0,
              fst r !! 0 = Some (Normal (early_return (VRef (length (heap s))) t0))
              /\ cache_of 2 (snd r) = [VRef (length (heap s)); t0]
        end)
  /\ (forall (W : Type) (__DEV__ : bool) (shouldInstrument : value)
             (useRenderCounter makeReadOnly foo : extern W) (props : value)
             (m m0 : machine W),
        useFoo_instrumentation __DEV__ shouldInstrument useRenderCounter m
        = (Normal tt, m0) ->
        length (cache_of 2 m) = 2 ->
        loose_eq_null props = false ->
        let r := EmitFreezeInstrumentForget.useFoo_code __DEV__ shouldInstrument
                   useRenderCounter makeReadOnly foo props m in
        (strict_ne (default VUndefined (cache_of 2 m !! 0))
                   (prop_of (heap (st m0)) props "x") = false ->
         cache (snd r) = Some (cache_of 2 m))
        /\ (forall e s1,
              strict_ne (default VUndefined (cache_of 2 m !! 0))
                        (prop_of (heap (st m0)) props "x") = true ->
              foo [prop_of (heap (st m0)) props "x"] (st m0) = (Abrupt e, s1) ->
              fst r = Abrupt e /\ cache (snd r) = Some (cache_of 2 m))
        /\ (forall t0 s1,
              strict_ne (default VUndefined (cache_of 2 m !! 0))
                        (prop_of (heap (st m0)) props "x") = true ->
              foo [prop_of (heap (st m0)) props "x"] (st m0) = (Normal t0, s1) ->
              if __DEV__ then
                match fst (makeReadOnly [t0; VStr "useFoo"] s1) with
                | Normal frozen =>
                    fst r = Normal t0
                    /\ cache (snd r) = Some [prop_of (heap s1) props "x"; frozen]
                | Abrupt e =>
                    fst r = Abrupt e
                    /\ cache (snd r) = Some [prop_of (heap s1) props "x";
                                             default VUndefined (cache_of 2 m !! 1)]
                end
              else
                fst r = Normal t0
                /\ cache (snd r) = Some [prop_of (heap s1) props "x"; t0])).
Proof.
  refine (conj _ (conj _ (conj _ (conj _ _)))).
  - intros W someObj a b c d m Hlen r. subst r. split.
    + intros e m1 Hcall. rewrite foo_code_run.
      pose proof (call_cache "someObj" someObj [] (set_cache (Some (cache_of 2 m)) m)) as Hc.
      pose proof (cache_blind_call "someObj" someObj [] (Some (cache_of 2 m)) m) as Hb.
      rewrite Hcall in Hb. cbn [fst snd] in Hb. rewrite Hb. split; reflexivity.
    + intros u m1 Hcall.
      destruct (foo_code_dispatch someObj a b c d u m m1 Hlen Hcall) as [Hmiss Hhit].
      split.
      * intros E. rewrite (Hhit E). split; reflexivity.
      * intros E. rewrite (Hmiss E).
        destruct (foo_scope someObj a m1) as [[x|e] m2]; split; reflexivity.
  - intros W shallowCopy throwInput props m Hlen r. subst r. split.
    + intros Hne. rewrite tryCatch_code_run.
      destruct (strict_eq _ memo_cache_sentinel) eqn:E.
      * apply strict_eq_sentinel in E. contradiction.
      * split; reflexivity.
    + intros Hs.
      destruct (tryCatch_first shallowCopy throwInput props m Hlen Hs)
        as (t0 & m2 & _ & Ht0 & Hr).
      exists t0. rewrite Hr. split; [exact Ht0 | split; reflexivity].
  - intros W someObj args s r. subst r. split.
    2: { intros o p rest Halloc -> Hp. rewrite run_all_cons. cbn [fst snd].
         destruct (foo_code_pure_cache someObj o Halloc (fst (fst (fst p)))
                     (snd (fst (fst p))) (snd (fst p)) (snd p) (boot s) eq_refl)
           as [[E _] | [_ (l & Hr & Hc)]].
         { rewrite strict_ne_sentinel in E by exact Hp. discriminate E. }
         assert (Hof : cache_of 2 (snd (ObjMutatedAfterIfElseWithAlias.foo_code someObj
                                          (fst (fst (fst p))) (snd (fst (fst p)))
                                          (snd (fst p)) (snd p) (boot s)))
                       = [fst (fst (fst p)); VRef l])
           by (unfold cache_of; rewrite Hc; reflexivity).
         destruct (foo_run_written someObj o Halloc rest
                     (snd (ObjMutatedAfterIfElseWithAlias.foo_code someObj
                             (fst (fst (fst p))) (snd (fst (fst p)))
                             (snd (fst p)) (snd p) (boot s))))
           as [Hsame | (k & p' & l' & Hk & Hres & Hc')].
         - rewrite Hof. reflexivity.
         - exists 0, p, l. split; [reflexivity | split; [exact (f_equal Some Hr) |]].
           rewrite Hsame. exact Hof.
         - exists (S k), p', l'. split; [exact Hk | split; [exact Hres | exact Hc']]. }
    destruct (run_all_single_writer
                (fun p => ObjMutatedAfterIfElseWithAlias.foo_code someObj
                            (fst (fst (fst p))) (snd (fst (fst p))) (snd (fst p)) (snd p))
                2
                (fun p res c' => exists x, res = Normal x /\ c' = [fst (fst (fst p)); x]))
      with (args := args) (m := boot s) as [Hsame | (k & p & res & Hk & Hres & x & -> & Hc)].
    + intros p m Hlen.
      destruct (foo_code_cache someObj (fst (fst (fst p))) (snd (fst (fst p)))
                  (snd (fst p)) (snd p) m Hlen) as [_ [Hc | (x & Hx & Hc)]].
      * exists (cache_of 2 m). split; [exact Hc | split; [exact Hlen | left; reflexivity]].
      * exists [fst (fst (fst p)); x]. split; [exact Hc | split; [reflexivity |]].
        right. exists x. split; [exact Hx | reflexivity].
    + reflexivity.
    + left. exact Hsame.
    + right. exists k, p, x. split; [exact Hk | split; [exact Hres | exact Hc]].
  - intros W shallowCopy throwInput args s r. subst r.
    destruct args as [| props rest]; [reflexivity |].
    rewrite run_all_cons.
    destruct (tryCatch_first shallowCopy throwInput props (boot s) eq_refl eq_refl)
      as (t0 & m2 & _ & Ht0 & Hr).
    exists t0. rewrite Hr. cbn [fst snd].
    assert (Hrest : forall (l : list value) (m : machine W) (x : value),
              cache m = Some [x; t0] -> x <> memo_cache_sentinel ->
              cache_of 2 (snd (run_all (TryCatchWithReturn.Component_code
                                          shallowCopy throwInput) l m)) = [x; t0]).
    { induction l as [| p l IH]; intros m x Hc Hx.
      - unfold cache_of. cbn. rewrite Hc. reflexivity.
      - rewrite run_all_cons. cbn [snd].
        assert (Hc' : cache_of 2 m = [x; t0]) by (unfold cache_of; rewrite Hc; reflexivity).
        pose proof (tryCatch_code_run shallowCopy throwInput p m) as Hrun.
        rewrite Hc' in Hrun.
        change (default VUndefined ([x; t0] !! 0)) with x in Hrun.
        destruct (strict_eq x memo_cache_sentinel) eqn:E.
        { apply strict_eq_sentinel in E. contradiction. }
        rewrite Hrun. cbn [snd].
        exact (IH (set_cache (Some [x; t0]) m) x eq_refl Hx). }
    split; [reflexivity |].
    apply (Hrest rest (set_cache (Some [VRef (length (heap (st (boot s)))); t0]) m2)
                 (VRef (length (heap s))) eq_refl).
    discriminate.
  - intros W dev si urc mro foo props m m0 Hi Hlen Hn r. subst r.
    split; [| split].
    + intros Hhit.
      rewrite (emitFreeze_skip dev si urc mro foo props m m0 Hi Hn Hhit). reflexivity.
    + intros e s1 Hmiss Hfoo.
      rewrite (emitFreeze_throw dev si urc mro foo props m m0 e s1 Hi Hn Hmiss Hfoo).
      split; reflexivity.
    + intros t0 s1 Hmiss Hfoo.
      rewrite (emitFreeze_miss dev si urc mro foo props m m0 t0 s1 Hi Hlen Hn Hmiss Hfoo).
      destruct dev; [| split; reflexivity].
      destruct (mro [t0; VStr "useFoo"] s1) as [[frozen|e] s2];
        split; reflexivity.
Qed.

Lemma C10_witness :
  (* foo: a miss writes both slots, the hit after it writes nothing *)
  cache (snd (ObjMutatedAfterIfElseWithAlias.foo_code fresh_object (VNum 1) VUndefined
                VUndefined VUndefined (boot empty_store)))
  = Some [VNum 1; VRef 1]
  /\ cache (snd (ObjMutatedAfterIfElseWithAlias.foo_code fresh_object (VNum 1) VUndefined
                   VUndefined VUndefined
                   (Machine (Store [Obj KObject [] []; Obj KObject [] [("f", VNum 1)]] tt)
                            (Some [VNum 1; VRef 1]) [])))
     = Some [VNum 1; VRef 1]
  (* Component: the hit writes nothing *)
  /\ cache (snd (TryCatchWithReturn.Component_code fresh_object throws_argument VNull
                   (Machine (Store [Obj KArray [] []] tt) (Some [VRef 0; VNull]) [])))
     = Some [VRef 0; VNull]
  (* foo: after two invocations the slots are those of one of them *)
  /\ (exists k p l,
        [(VNum 1, VNull, VNull, VNull); (VNum 1, VNull, VNull, VNull)] !! k = Some p
        /\ fst (run_all (fun p => ObjMutatedAfterIfElseWithAlias.foo_code
                                    (@fresh_object unit) (fst (fst (fst p)))
                                    (snd (fst (fst p))) (snd (fst p)) (snd p))
                        [(VNum 1, VNull, VNull, VNull); (VNum 1, VNull, VNull, VNull)]
                        (boot empty_store)) !! k = Some (Normal (VRef l))
        /\ cache_of 2 (snd (run_all (fun p => ObjMutatedAfterIfElseWithAlias.foo_code
                                                (@fresh_object unit) (fst (fst (fst p)))
                                                (snd (fst (fst p))) (snd (fst p)) (snd p))
                                    [(VNum 1, VNull, VNull, VNull);
                                     (VNum 1, VNull, VNull, VNull)]
                                    (boot empty_store)))
           = [fst (fst (fst p)); VRef l])
  (* useFoo: makeReadOnly throws after the dependency slot is written *)
  /\ cache (snd (EmitFreezeInstrumentForget.useFoo_code true (VBool false)
                   (returns VUndefined) throws_argument fresh_object (VRef 0)
                   (boot (Store [Obj KObject [] [("x", VNum 1)]] tt))))
     = Some [VNum 1; memo_cache_sentinel].
Proof.
  pose proof C10_cache_is_written_only_on_a_miss_after_the_body
    as (Hfoo & Htry & Hrun & _ & Hfreeze).
  refine (conj _ (conj _ (conj _ (conj _ _)))).
  - destruct (Hfoo unit fresh_object (VNum 1) VUndefined VUndefined VUndefined
                (boot empty_store) eq_refl) as [_ H].
    destruct (H (VRef 0) (Machine (Store [Obj KObject [] []] tt) None [Called "someObj" []])
                eq_refl) as [_ Hmiss].
    exact (proj2 (Hmiss eq_refl)).
  - destruct (Hfoo unit fresh_object (VNum 1) VUndefined VUndefined VUndefined
                (Machine (Store [Obj KObject [] []; Obj KObject [] [("f", VNum 1)]] tt)
                         (Some [VNum 1; VRef 1]) [])
                eq_refl) as [_ H].
    destruct (H (VRef 2)
                (Machine (Store [Obj KObject [] []; Obj KObject [] [("f", VNum 1)];
                                 Obj KObject [] []] tt)
                         (Some [VNum 1; VRef 1]) [Called "someObj" []])
                eq_refl) as [Hhit _].
    exact (proj2 (Hhit eq_refl)).
  - refine (proj2 (proj1 (Htry unit fresh_object throws_argument VNull
                            (Machine (Store [Obj KArray [] []] tt)
                                     (Some [VRef 0; VNull]) [])
                            eq_refl) _)).
    discriminate.
  - refine (proj2 (Hrun unit fresh_object
                     [(VNum 1, VNull, VNull, VNull); (VNum 1, VNull, VNull, VNull)]
                     empty_store)
                  (Obj KObject [] []) (VNum 1, VNull, VNull, VNull)
                  [(VNum 1, VNull, VNull, VNull)] _ eq_refl _).
    + intros args s. reflexivity.
    + discriminate.
  - destruct (Hfreeze unit true (VBool false) (returns VUndefined) throws_argument
                fresh_object (VRef 0)
                (boot (Store [Obj KObject [] [("x", VNum 1)]] tt))
                (boot (Store [Obj KObject [] [("x", VNum 1)]] tt))
                eq_refl eq_refl eq_refl) as (_ & _ & Hmiss).
    exact (proj2 (Hmiss (VRef 1)
                        (Store [Obj KObject [] [("x", VNum 1)]; Obj KObject [] []] tt)
                        eq_refl eq_refl)).
Defined.
